(** * x402 payer agent for Solana: Base58, SPL transfer builder, payment driver

    A shallow embedding of the C sources of the x402 client (Base58 codec,
    PDA / ATA derivation, SPL token transfer assembly, payment creation,
    envelope encoding, the [x402_fetch] driver and the transaction builder
    of solana_tx.c), followed by the properties of the specification
    stated over that embedding.

    Conventions of the embedding.
    - A byte ([uint8_t]) is a [Z] in [0, 256); a byte buffer is a [list Z].
      Narrowing stores are written out ([u8], [u32], [u64]).
    - A NUL-terminated C string is a [string]; a [char] array of size [n]
      filled by [strncpy (dst, src, n - 1)] over zeroed memory is the
      first [n - 1] characters of the source.
    - A function returning [esp_err_t] and writing through out-pointers
      returns a [result]: [OK v] carries what was written, [Err e] the code.
      A [bool] function with out-pointers returns an [option].
    - Heap allocation is assumed to succeed.
    - Library code outside the sources is a parameter where a property
      does not depend on what it computes: SHA-256, the curve test, the
      signer, the JSON parser and the Base64 decoder (class [Externals]),
      floating point (class [Floating]) and the ESP-IDF HTTP client (class
      [Network]).  The few library functions whose output a property
      reads ([strtoull], the cJSON printer, [mbedtls_base64_encode]) are
      written out from their documented behaviour.
    - The sources hold two revisions of the SPL builder and of the
      payment creation.  The fee-payer revision is embedded in [SplToken]
      and [Payment]; the older one, which is the text of the file named
      x402_payment.c, in [LegacySplToken] and [LegacyPayment]. *)

From Stdlib Require Import ZArith String Ascii List Bool Lia.
Import ListNotations.
Open Scope Z_scope.

Set Warnings "-register-all,-abstract-large-number".

(** ** Machine integers *)

Definition u8 (x : Z) : Z := x mod 256.
Definition u32 (x : Z) : Z := x mod 2 ^ 32.
Definition u64 (x : Z) : Z := x mod 2 ^ 64.

(** [size_t] arithmetic; the type is 32 bits wide on the ESP32. *)
Definition size_t (x : Z) : Z := x mod 2 ^ 32.

Definition is_byte (b : Z) : Prop := 0 <= b < 256.

Definition char_code (c : ascii) : Z := Z.of_N (N_of_ascii c).

(** ** Result codes *)

Inductive esp_err_t : Type :=
| ESP_OK
| ESP_FAIL
| ESP_ERR_NO_MEM
| ESP_ERR_INVALID_ARG
| ESP_ERR_INVALID_STATE
| ESP_ERR_HTTP (code : Z).

Inductive result (A : Type) : Type :=
| OK (a : A)
| Err (e : esp_err_t).

Arguments OK {A} a.
Arguments Err {A} e.

Definition esp_err_eqb (a b : esp_err_t) : bool :=
  match a, b with
  | ESP_OK, ESP_OK => true
  | ESP_FAIL, ESP_FAIL => true
  | ESP_ERR_NO_MEM, ESP_ERR_NO_MEM => true
  | ESP_ERR_INVALID_ARG, ESP_ERR_INVALID_ARG => true
  | ESP_ERR_INVALID_STATE, ESP_ERR_INVALID_STATE => true
  | ESP_ERR_HTTP x, ESP_ERR_HTTP y => x =? y
  | _, _ => false
  end.

(** ** Base58 codec (components/base58/base58.c) *)

Module Base58.

Definition BASE58_ALPHABET : string :=
  "123456789ABCDEFGHJKLMNPQRSTUVWXYZabcdefghijkmnopqrstuvwxyz".

Definition BASE58_DECODE_TABLE : list Z :=
  [ -1; -1; -1; -1; -1; -1; -1; -1; -1; -1; -1; -1; -1; -1; -1; -1;
    -1; -1; -1; -1; -1; -1; -1; -1; -1; -1; -1; -1; -1; -1; -1; -1;
    -1; -1; -1; -1; -1; -1; -1; -1; -1; -1; -1; -1; -1; -1; -1; -1;
    -1;  0;  1;  2;  3;  4;  5;  6;  7;  8; -1; -1; -1; -1; -1; -1;
    -1;  9; 10; 11; 12; 13; 14; 15; 16; -1; 17; 18; 19; 20; 21; -1;
    22; 23; 24; 25; 26; 27; 28; 29; 30; 31; 32; -1; -1; -1; -1; -1;
    -1; 33; 34; 35; 36; 37; 38; 39; 40; 41; 42; 43; -1; 44; 45; 46;
    47; 48; 49; 50; 51; 52; 53; 54; 55; 56; 57; -1; -1; -1; -1; -1;
    -1; -1; -1; -1; -1; -1; -1; -1; -1; -1; -1; -1; -1; -1; -1; -1;
    -1; -1; -1; -1; -1; -1; -1; -1; -1; -1; -1; -1; -1; -1; -1; -1;
    -1; -1; -1; -1; -1; -1; -1; -1; -1; -1; -1; -1; -1; -1; -1; -1;
    -1; -1; -1; -1; -1; -1; -1; -1; -1; -1; -1; -1; -1; -1; -1; -1;
    -1; -1; -1; -1; -1; -1; -1; -1; -1; -1; -1; -1; -1; -1; -1; -1;
    -1; -1; -1; -1; -1; -1; -1; -1; -1; -1; -1; -1; -1; -1; -1; -1;
    -1; -1; -1; -1; -1; -1; -1; -1; -1; -1; -1; -1; -1; -1; -1; -1;
    -1; -1; -1; -1; -1; -1; -1; -1; -1; -1; -1; -1; -1; -1; -1; -1 ].

(** [BASE58_ALPHABET[d]] *)
Definition alphabet_at (d : Z) : ascii :=
  nth (Z.to_nat d) (list_ascii_of_string BASE58_ALPHABET) "000"%char.

(** [BASE58_DECODE_TABLE[(uint8_t)c]] *)
Definition decode_table_at (c : ascii) : Z :=
  nth (Z.to_nat (char_code c)) BASE58_DECODE_TABLE (-1).

(** [size_t base58_encode_size (size_t input_len)]: the product, the
    quotient and the sum are [size_t] operations. *)
Definition base58_encode_size (input_len : Z) : Z :=
  size_t (size_t (input_len * 138) / 100 + 2).

(** [size_t base58_decode_size (size_t input_len)] *)
Definition base58_decode_size (input_len : Z) : Z :=
  size_t (size_t (input_len * 73) / 100 + 1).

(** [while (n < len && input[n] == 0) n++] *)
Fixpoint count_leading_zeros (input : list Z) : nat :=
  match input with
  | b :: rest => if b =? 0 then S (count_leading_zeros rest) else O
  | [] => O
  end.

(** [while (n < len && input[n] == '1') n++] *)
Fixpoint count_leading_ones (input : list ascii) : nat :=
  match input with
  | c :: rest => if Ascii.eqb c "1"%char then S (count_leading_ones rest) else O
  | [] => O
  end.

(** The loop [for (j = 0; j < digits_len; j++)] of the encoder, over the
    digits in use ([buffer[0 .. digits_len)], least significant first):
    [carry += buffer[j] << 8; buffer[j] = carry % 58; carry /= 58]. *)
Fixpoint encode_carry_pass (digits : list Z) (carry : Z) : list Z * Z :=
  match digits with
  | [] => ([], carry)
  | d :: rest =>
      let carry := u32 (carry + u32 (Z.shiftl d 8)) in
      let (rest', carry') := encode_carry_pass rest (carry / 58) in
      (u8 (carry mod 58) :: rest', carry')
  end.

(** [while (carry > 0)] of the encoder; [room] is
    [buffer_size - digits_len], so [room = 0] is the overflow exit. *)
Fixpoint encode_extend (room : nat) (carry : Z) : option (list Z) :=
  if carry >? 0 then
    match room with
    | O => None
    | S room' =>
        match encode_extend room' (carry / 58) with
        | Some more => Some (u8 (carry mod 58) :: more)
        | None => None
        end
    end
  else Some [].

(** One iteration of [for (i = 0; i < input_len; i++)] of the encoder. *)
Definition encode_byte (buffer_size : nat) (digits : list Z) (b : Z)
  : option (list Z) :=
  let (digits', carry) := encode_carry_pass digits (u32 b) in
  match encode_extend (buffer_size - length digits') carry with
  | Some more => Some (digits' ++ more)
  | None => None
  end.

Fixpoint encode_digits (buffer_size : nat) (digits : list Z) (input : list Z)
  : option (list Z) :=
  match input with
  | [] => Some digits
  | b :: rest =>
      match encode_byte buffer_size digits b with
      | Some digits' => encode_digits buffer_size digits' rest
      | None => None
      end
  end.

(** [bool base58_encode(input, input_len, output, output_size)]; the
    result is the NUL-terminated text left in [output]. *)
Definition base58_encode (input : list Z) (output_size : Z) : option string :=
  let input_len := Z.of_nat (length input) in
  if (input_len =? 0) || (output_size =? 0) then None
  else
    let leading_zeros := count_leading_zeros input in
    let buffer_size := Z.to_nat (base58_encode_size input_len) in
    match encode_digits buffer_size [0] input with
    | None => None
    | Some digits =>
        let final_len := Z.of_nat leading_zeros + Z.of_nat (length digits) in
        if final_len + 1 >? output_size then None
        else Some (string_of_list_ascii
                     (repeat "1"%char leading_zeros
                      ++ map alphabet_at (rev digits)))
    end.

(** The loop [for (j = 0; j < bytes_len; j++)] of the decoder:
    [carry += buffer[j] * 58; buffer[j] = carry & 0xFF; carry >>= 8]. *)
Fixpoint decode_carry_pass (bytes : list Z) (carry : Z) : list Z * Z :=
  match bytes with
  | [] => ([], carry)
  | b :: rest =>
      let carry := u32 (carry + u32 (b * 58)) in
      let (rest', carry') := decode_carry_pass rest (Z.shiftr carry 8) in
      (u8 (Z.land carry 255) :: rest', carry')
  end.

(** [while (carry > 0)] of the decoder; [room] is
    [buffer_size - bytes_len]. *)
Fixpoint decode_extend (room : nat) (carry : Z) : option (list Z) :=
  if carry >? 0 then
    match room with
    | O => None
    | S room' =>
        match decode_extend room' (Z.shiftr carry 8) with
        | Some more => Some (u8 (Z.land carry 255) :: more)
        | None => None
        end
    end
  else Some [].

(** One iteration of [for (i = 0; i < input_len; i++)] of the decoder. *)
Definition decode_char (buffer_size : nat) (bytes : list Z) (c : ascii)
  : option (list Z) :=
  let digit := decode_table_at c in
  if digit <? 0 then None
  else
    let (bytes', carry) := decode_carry_pass bytes (u32 digit) in
    match decode_extend (buffer_size - length bytes') carry with
    | Some more => Some (bytes' ++ more)
    | None => None
    end.

Fixpoint decode_bytes (buffer_size : nat) (bytes : list Z) (input : list ascii)
  : option (list Z) :=
  match input with
  | [] => Some bytes
  | c :: rest =>
      match decode_char buffer_size bytes c with
      | Some bytes' => decode_bytes buffer_size bytes' rest
      | None => None
      end
  end.

(** [bool base58_decode(input, output, output_len, max_output_len)]; the
    result is [output[0 .. *output_len)]. *)
Definition base58_decode (input : string) (max_output_len : Z)
  : option (list Z) :=
  let chars := list_ascii_of_string input in
  let input_len := length chars in
  if Nat.eqb input_len 0 then None
  else
    let buffer_size := input_len in
    match decode_bytes buffer_size [0] chars with
    | None => None
    | Some bytes =>
        let zeros_to_add := count_leading_ones chars in
        let final_len := Z.of_nat zeros_to_add + Z.of_nat (length bytes) in
        if final_len >? max_output_len then None
        else Some (repeat 0 zeros_to_add ++ rev bytes)
    end.

End Base58.

(** ** Library code outside the sources *)

(** A parsed JSON document, as cJSON hands it to the client.  Numbers that
    the client reads or writes are integral. *)
Inductive cJSON : Type :=
| cJSON_Null
| cJSON_Bool (b : bool)
| cJSON_Number (n : Z)
| cJSON_String (valuestring : string)
| cJSON_Array (items : list cJSON)
| cJSON_Object (children : list (string * cJSON)).

(** The value type [double] of the C implementation with the three
    operations [spl_token_parse_usd_amount] performs on it. *)
Class Floating : Type := {
  double : Type;
  (** [atof] of libc *)
  atof : string -> double;
  (** [value * multiplier], the [uint64_t] operand converted to [double] *)
  double_mul_u64 : double -> Z -> double;
  (** the cast [(uint64_t) d] *)
  double_to_u64 : double -> Z
}.

(** mbedTLS, TweetNaCl and cJSON entry points the client calls, and the
    array sizes of the requirement and payload records whose declaration
    (the current [x402_types.h]) is not among the sources. *)
Class Externals : Type := {
  (** [mbedtls_sha256_*]: the 32-byte digest of a buffer *)
  sha256 : list Z -> list Z;
  sha256_length : forall data, length (sha256 data) = 32%nat;
  (** [unpackneg] of TweetNaCl: [0] when the 32 bytes decompress to a
      curve point, [-1] otherwise *)
  unpackneg : list Z -> Z;
  (** [crypto_sign (sm, &smlen, m, mlen, sk)]: return code and [sm] *)
  crypto_sign : list Z -> list Z -> Z * list Z;
  crypto_sign_length :
    forall m sk sm, crypto_sign m sk = (0, sm) ->
                    length sm = (64 + length m)%nat;
  (** [cJSON_Parse]; [None] is the NULL result *)
  cJSON_Parse : string -> option cJSON;
  (** [mbedtls_base64_decode (dst, dlen, &olen, src, strlen src)]:
      return code and decoded bytes *)
  mbedtls_base64_decode : string -> Z -> Z * list Z;
  sizeof_asset : nat;
  sizeof_fee_payer : nat;
  sizeof_payload_scheme : nat;
  sizeof_payload_network : nat
}.

(** ** SPL token transfer builder (spl_token.c, fee-payer revision) *)

Module SplToken.

Definition SPL_TOKEN_PROGRAM_ID : list Z :=
  [ 0x06; 0xdd; 0xf6; 0xe1; 0xd7; 0x65; 0xa1; 0x93;
    0xd9; 0xcb; 0xe1; 0x46; 0xce; 0xeb; 0x79; 0xac;
    0x1c; 0xb4; 0x85; 0xed; 0x5f; 0x5b; 0x37; 0x91;
    0x3a; 0x8c; 0xf5; 0x85; 0x7e; 0xff; 0x00; 0xa9 ].

Definition SPL_ASSOCIATED_TOKEN_PROGRAM_ID : list Z :=
  [ 0x8c; 0x97; 0x25; 0x8f; 0x4e; 0x24; 0x89; 0xf1;
    0xbb; 0x3d; 0x10; 0x29; 0x14; 0x8e; 0x0d; 0x83;
    0x0b; 0x5a; 0x13; 0x99; 0xda; 0xff; 0x10; 0x84;
    0x04; 0x8e; 0x7b; 0xd8; 0xdb; 0xe9; 0xf8; 0x59 ].

Definition SYSTEM_PROGRAM_ID : list Z := repeat 0 32.

Definition USDC_DEVNET_MINT : list Z :=
  [ 0x3b; 0x44; 0x2c; 0xb3; 0x91; 0x21; 0x57; 0xf1;
    0x3a; 0x93; 0x3d; 0x01; 0x34; 0x28; 0x2d; 0x03;
    0x2b; 0x5f; 0xfe; 0xcd; 0x01; 0xa2; 0xdb; 0xf1;
    0xb7; 0x79; 0x06; 0x08; 0xdf; 0x00; 0x2e; 0xa7 ].

Definition USDC_DECIMALS : Z := 6.

Definition SPL_TOKEN_TRANSFER_INSTRUCTION : Z := 3.

(** The bytes of the string literal ["ProgramDerivedAddress"]. *)
Definition PDA_MARKER : list Z :=
  map char_code (list_ascii_of_string "ProgramDerivedAddress").

(** [memcpy (dst, src, n)]: the [n] bytes read at [src]. *)
Definition memcpy (src : list Z) (n : nat) : list Z := firstn n src.

Section WithExternals.
Context {ext : Externals}.

(** [is_on_curve]: [unpackneg (r, bytes) == 0]. *)
Definition is_on_curve (bytes : list Z) : bool := unpackneg bytes =? 0.

(** The loop [for (i = 0; i < num_seeds; i++)] of [find_program_address]
    over the 1024-byte scratch buffer; [buffer] is [buffer[0 .. offset)]. *)
Fixpoint add_seeds (buffer : list Z) (seeds : list (list Z))
  : result (list Z) :=
  match seeds with
  | [] => OK buffer
  | seed :: rest =>
      if Z.of_nat (length buffer) + Z.of_nat (length seed) >? 1024
      then Err ESP_ERR_NO_MEM
      else add_seeds (buffer ++ seed) rest
  end.

(** The scratch buffer hashed for one [bump]:
    seeds, bump, program id, marker. *)
Definition pda_preimage (seed_bytes : list Z) (bump : Z) (program_id : list Z)
  : list Z :=
  seed_bytes ++ [u8 bump] ++ memcpy program_id 32 ++ PDA_MARKER.

(** [for (int bump = 255; bump >= 0; bump--)]; [n] is [bump + 1]. *)
Fixpoint find_program_address_from (n : nat) (seeds : list (list Z))
  (program_id : list Z) : result (list Z * Z) :=
  match n with
  | O => Err ESP_FAIL
  | S b =>
      let bump := Z.of_nat b in
      match add_seeds [] seeds with
      | Err e => Err e
      | OK seed_bytes =>
          let hash := sha256 (pda_preimage seed_bytes bump program_id) in
          if negb (is_on_curve hash)
          then OK (memcpy hash 32, u8 bump)
          else find_program_address_from b seeds program_id
      end
  end.

(** [find_program_address (seeds, seed_lens, num_seeds, program_id,
    pda_out, bump_out)]: on success the address and the bump. *)
Definition find_program_address (seeds : list (list Z)) (program_id : list Z)
  : result (list Z * Z) :=
  find_program_address_from 256 seeds program_id.

(** Seeds [{wallet, token_program, mint}] with [seed_lens = {32, 32, 32}]. *)
Definition ata_seeds (wallet_pubkey mint_pubkey token_program_id : list Z)
  : list (list Z) :=
  [ memcpy wallet_pubkey 32; memcpy token_program_id 32; memcpy mint_pubkey 32 ].

Definition spl_token_get_associated_token_address_with_program
  (wallet_pubkey mint_pubkey token_program_id : list Z) : result (list Z) :=
  match find_program_address
          (ata_seeds wallet_pubkey mint_pubkey token_program_id)
          SPL_ASSOCIATED_TOKEN_PROGRAM_ID with
  | OK (ata, _) => OK ata
  | Err e => Err e
  end.

Definition spl_token_get_associated_token_address
  (wallet_pubkey mint_pubkey : list Z) : result (list Z) :=
  spl_token_get_associated_token_address_with_program
    wallet_pubkey mint_pubkey SPL_TOKEN_PROGRAM_ID.

End WithExternals.

(** [(amount >> 8k) & 0xFF] for [k = 0 .. 7]. *)
Definition amount_le_bytes (amount : Z) : list Z :=
  map (fun k => Z.land (Z.shiftr amount (8 * k)) 255) [0; 1; 2; 3; 4; 5; 6; 7].

(** [spl_token_build_transfer_instruction]: the instruction data written to
    [instruction_out]; [*instruction_len] is its length. *)
Definition spl_token_build_transfer_instruction
  (amount : Z) (max_instruction_len : Z) : result (list Z) :=
  let needed := 1 + 8 in
  if max_instruction_len <? needed then Err ESP_ERR_NO_MEM
  else OK (u8 SPL_TOKEN_TRANSFER_INSTRUCTION :: amount_le_bytes amount).

(** *** Sequential writes into [tx_out]

    The builder fills [tx_out] front to back; [tx] below is
    [tx_out[0 .. offset)].  [guard n] is the test
    [if (offset + n > max_tx_len) return ESP_ERR_NO_MEM]. *)

Definition guard (max_tx_len : Z) (tx : list Z) (n : Z)
  (k : result (list Z)) : result (list Z) :=
  if Z.of_nat (length tx) + n >? max_tx_len then Err ESP_ERR_NO_MEM else k.

Section WithExternals2.
Context {ext : Externals}.

Definition spl_token_create_transfer_transaction
  (fee_payer from_wallet to_wallet mint token_program_id : list Z)
  (amount : Z) (recent_blockhash : list Z) (max_tx_len : Z)
  : result (list Z) :=
  match spl_token_get_associated_token_address_with_program
          from_wallet mint token_program_id with
  | Err e => Err e
  | OK source_ata =>
  match spl_token_get_associated_token_address_with_program
          to_wallet mint token_program_id with
  | Err e => Err e
  | OK dest_ata =>
  match spl_token_build_transfer_instruction amount 32 with
  | Err e => Err e
  | OK instruction_data =>
    let instruction_len := Z.of_nat (length instruction_data) in
    let tx := [] in
    guard max_tx_len tx 1 (
    let tx := tx ++ [2] in
    guard max_tx_len tx 64 (
    let tx := tx ++ repeat 0 64 in
    guard max_tx_len tx 64 (
    let tx := tx ++ repeat 0 64 in
    guard max_tx_len tx 3 (
    let tx := tx ++ [2; 1; 1] in
    guard max_tx_len tx 1 (
    let tx := tx ++ [5] in
    guard max_tx_len tx 32 (
    let tx := tx ++ memcpy fee_payer 32 in
    guard max_tx_len tx 32 (
    let tx := tx ++ memcpy from_wallet 32 in
    guard max_tx_len tx 32 (
    let tx := tx ++ memcpy source_ata 32 in
    guard max_tx_len tx 32 (
    let tx := tx ++ memcpy dest_ata 32 in
    guard max_tx_len tx 32 (
    let tx := tx ++ memcpy token_program_id 32 in
    guard max_tx_len tx 32 (
    let tx := tx ++ memcpy recent_blockhash 32 in
    guard max_tx_len tx 1 (
    let tx := tx ++ [1] in
    guard max_tx_len tx 1 (
    let tx := tx ++ [4] in
    guard max_tx_len tx 1 (
    let tx := tx ++ [3; 2; 3; 1] in
    guard max_tx_len tx (1 + instruction_len) (
    let tx := tx ++ [u8 instruction_len] in
    let tx := tx ++ memcpy instruction_data (Z.to_nat instruction_len) in
    OK tx)))))))))))))))
  end end end.

End WithExternals2.

End SplToken.

(** ** Older revision of the SPL builder (second copy of spl_token.c) *)

Module LegacySplToken.

Import SplToken.

Definition USDC_DEVNET_MINT : list Z :=
  [ 0x36; 0xc9; 0x1e; 0x90; 0xde; 0x9e; 0x7c; 0xd0;
    0x5f; 0xe0; 0x77; 0xe4; 0x35; 0xd1; 0x96; 0xe1;
    0xd9; 0x7d; 0x55; 0x34; 0x5e; 0x6b; 0x08; 0x25;
    0xf8; 0x86; 0xf9; 0xc9; 0x60; 0x23; 0x57; 0x69 ].

Section WithExternals.
Context {ext : Externals}.

(** [for (uint8_t bump = 255; ; bump--)]: the body ends in
    [return ESP_OK] and never reaches a second iteration; the hash is
    accepted without a curve test. *)
Definition find_program_address (seeds : list (list Z)) (program_id : list Z)
  : result (list Z * Z) :=
  let bump := 255 in
  match add_seeds [] seeds with
  | Err e => Err e
  | OK seed_bytes =>
      let hash := sha256 (pda_preimage seed_bytes bump program_id) in
      OK (memcpy hash 32, bump)
  end.

Definition spl_token_get_associated_token_address
  (wallet_pubkey mint_pubkey : list Z) : result (list Z) :=
  match find_program_address
          [ memcpy wallet_pubkey 32; memcpy SPL_TOKEN_PROGRAM_ID 32;
            memcpy mint_pubkey 32 ]
          SPL_ASSOCIATED_TOKEN_PROGRAM_ID with
  | OK (ata, _) => OK ata
  | Err e => Err e
  end.

Definition spl_token_create_transfer_transaction
  (from_wallet to_wallet mint : list Z)
  (amount : Z) (recent_blockhash : list Z) (max_tx_len : Z)
  : result (list Z) :=
  match spl_token_get_associated_token_address from_wallet mint with
  | Err e => Err e
  | OK source_ata =>
  match spl_token_get_associated_token_address to_wallet mint with
  | Err e => Err e
  | OK dest_ata =>
  match spl_token_build_transfer_instruction amount 32 with
  | Err e => Err e
  | OK instruction_data =>
    let instruction_len := Z.of_nat (length instruction_data) in
    let tx := [] in
    guard max_tx_len tx 1 (
    let tx := tx ++ [2] in
    guard max_tx_len tx 64 (
    let tx := tx ++ repeat 0 64 in
    guard max_tx_len tx 64 (
    let tx := tx ++ repeat 0 64 in
    guard max_tx_len tx 3 (
    let tx := tx ++ [2; 0; 1] in
    guard max_tx_len tx 1 (
    let tx := tx ++ [4] in
    guard max_tx_len tx 32 (
    let tx := tx ++ memcpy from_wallet 32 in
    guard max_tx_len tx 32 (
    let tx := tx ++ memcpy source_ata 32 in
    guard max_tx_len tx 32 (
    let tx := tx ++ memcpy dest_ata 32 in
    guard max_tx_len tx 32 (
    let tx := tx ++ memcpy SPL_TOKEN_PROGRAM_ID 32 in
    guard max_tx_len tx 32 (
    let tx := tx ++ memcpy recent_blockhash 32 in
    guard max_tx_len tx 1 (
    let tx := tx ++ [1] in
    guard max_tx_len tx 1 (
    let tx := tx ++ [3] in
    guard max_tx_len tx 1 (
    let tx := tx ++ [3; 1; 2; 0] in
    guard max_tx_len tx (1 + instruction_len) (
    let tx := tx ++ [u8 instruction_len] in
    let tx := tx ++ memcpy instruction_data (Z.to_nat instruction_len) in
    OK tx))))))))))))))
  end end end.

End WithExternals.

End LegacySplToken.

(** ** USD amount parser (spl_token.c, identical in both revisions) *)

Module UsdAmount.

(** [multiplier = 1; for (i = 0; i < decimals; i++) multiplier *= 10;]
    on [uint64_t]. *)
Fixpoint multiplier_after (iterations : nat) : Z :=
  match iterations with
  | O => 1
  | S k => u64 (multiplier_after k * 10)
  end.

(** Skips one leading ['$']: [if ( *str == '$') str++]. *)
Definition skip_dollar (amount_str : string) : string :=
  match amount_str with
  | String c rest => if Ascii.eqb c "$"%char then rest else amount_str
  | EmptyString => amount_str
  end.

Section WithFloating.
Context {fl : Floating}.

(** [spl_token_parse_usd_amount (amount_str, decimals, amount_out)];
    [None] is a NULL [amount_str], [decimals] is a [uint8_t]. *)
Definition spl_token_parse_usd_amount
  (amount_str : option string) (decimals : Z) : result Z :=
  match amount_str with
  | None => Err ESP_ERR_INVALID_ARG
  | Some amount_str =>
      let str := skip_dollar amount_str in
      let value := atof str in
      let multiplier := multiplier_after (Z.to_nat (u8 decimals)) in
      OK (double_to_u64 (double_mul_u64 value multiplier))
  end.

End WithFloating.

End UsdAmount.

(** ** libc text functions used by the client *)

Module Libc.

(** [isspace] in the C locale. *)
Definition isspace (c : ascii) : bool :=
  let n := char_code c in
  (n =? 32) || ((9 <=? n) && (n <=? 13)).

Definition isdigit (c : ascii) : bool :=
  let n := char_code c in (48 <=? n) && (n <=? 57).

Fixpoint span {A : Type} (p : A -> bool) (l : list A) : list A * list A :=
  match l with
  | x :: rest =>
      if p x then let (yes, no) := span p rest in (x :: yes, no)
      else ([], l)
  | [] => ([], [])
  end.

Definition ULLONG_MAX : Z := 2 ^ 64 - 1.

(** Value of a run of decimal digits, most significant first. *)
Definition decimal_value (digits : list ascii) : Z :=
  fold_left (fun acc c => acc * 10 + (char_code c - 48)) digits 0.

(** [strtoull (nptr, &endptr, 10)]: the value and [endptr - nptr].
    White space is skipped, one sign is accepted, a value above
    [ULLONG_MAX] is clamped, a leading minus negates in [uint64_t];
    without digits nothing is consumed. *)
Definition strtoull (nptr : string) : Z * nat :=
  let chars := list_ascii_of_string nptr in
  let (blanks, after_blanks) := span isspace chars in
  let '(negative, sign_len, after_sign) :=
    match after_blanks with
    | c :: rest =>
        if Ascii.eqb c "-"%char then (true, 1%nat, rest)
        else if Ascii.eqb c "+"%char then (false, 1%nat, rest)
        else (false, 0%nat, after_blanks)
    | [] => (false, 0%nat, after_blanks)
    end in
  let (digits, _) := span isdigit after_sign in
  match digits with
  | [] => (0, 0%nat)
  | _ =>
      let v := decimal_value digits in
      let consumed := (length blanks + sign_len + length digits)%nat in
      if v >? ULLONG_MAX then (ULLONG_MAX, consumed)
      else ((if negative then u64 (- v) else v), consumed)
  end.

(** Decimal digits of a natural number, as [printf ("%d")] writes them. *)
Fixpoint decimal_digits (fuel : nat) (n : Z) (acc : list ascii) : list ascii :=
  match fuel with
  | O => acc
  | S fuel' =>
      let acc := ascii_of_N (Z.to_N (48 + n mod 10)) :: acc in
      if n / 10 =? 0 then acc else decimal_digits fuel' (n / 10) acc
  end.

(** [printf ("%d", n)] *)
Definition print_int (n : Z) : string :=
  let magnitude := Z.abs n in
  let digits := decimal_digits (S (Z.to_nat (Z.log2 magnitude))) magnitude [] in
  string_of_list_ascii (if n <? 0 then "-"%char :: digits else digits).

(** [strstr (haystack, needle)]: the suffix of [haystack] that starts at
    the first occurrence of [needle]. *)
Fixpoint strstr (haystack : list ascii) (needle : list ascii)
  : option (list ascii) :=
  let fix is_prefix (p l : list ascii) : bool :=
    match p, l with
    | [], _ => true
    | a :: p', b :: l' => Ascii.eqb a b && is_prefix p' l'
    | _ :: _, [] => false
    end in
  if is_prefix needle haystack then Some haystack
  else match haystack with
       | _ :: rest => strstr rest needle
       | [] => None
       end.

(** [strncpy (dst, src, n)] into zeroed memory, read back as a string. *)
Definition strncpy (src : string) (n : nat) : string :=
  string_of_list_ascii (firstn n (list_ascii_of_string src)).

(** [snprintf (dst, size, ...)] of a text: at most [size - 1] characters. *)
Definition snprintf (size : nat) (text : string) : string :=
  string_of_list_ascii (firstn (size - 1) (list_ascii_of_string text)).

End Libc.

(** ** cJSON trees: construction, access and unformatted printing *)

Module Json.

Import Libc.

Definition tolower (c : ascii) : ascii :=
  let n := char_code c in
  if (65 <=? n) && (n <=? 90) then ascii_of_N (Z.to_N (n + 32)) else c.

Fixpoint case_insensitive_eqb (a b : list ascii) : bool :=
  match a, b with
  | [], [] => true
  | x :: a', y :: b' => Ascii.eqb (tolower x) (tolower y) && case_insensitive_eqb a' b'
  | _, _ => false
  end.

Fixpoint find_child (children : list (string * cJSON)) (name : string)
  : option cJSON :=
  match children with
  | [] => None
  | (key, item) :: rest =>
      if case_insensitive_eqb (list_ascii_of_string name)
                              (list_ascii_of_string key)
      then Some item else find_child rest name
  end.

(** [cJSON_GetObjectItem (object, name)]; [None] is NULL. *)
Definition cJSON_GetObjectItem (object : option cJSON) (name : string)
  : option cJSON :=
  match object with
  | Some (cJSON_Object children) => find_child children name
  | _ => None
  end.

Definition cJSON_IsString (item : option cJSON) : bool :=
  match item with Some (cJSON_String _) => true | _ => false end.

Definition cJSON_IsArray (item : option cJSON) : bool :=
  match item with Some (cJSON_Array _) => true | _ => false end.

Definition cJSON_IsObject (item : option cJSON) : bool :=
  match item with Some (cJSON_Object _) => true | _ => false end.

Definition cJSON_IsBool (item : option cJSON) : bool :=
  match item with Some (cJSON_Bool _) => true | _ => false end.

Definition cJSON_IsTrue (item : option cJSON) : bool :=
  match item with Some (cJSON_Bool true) => true | _ => false end.

(** [item->valuestring] of a string item. *)
Definition valuestring (item : option cJSON) : string :=
  match item with Some (cJSON_String s) => s | _ => EmptyString end.

Definition cJSON_GetArraySize (array : option cJSON) : Z :=
  match array with
  | Some (cJSON_Array items) => Z.of_nat (length items)
  | Some (cJSON_Object children) => Z.of_nat (length children)
  | _ => 0
  end.

Definition cJSON_GetArrayItem (array : option cJSON) (index : nat)
  : option cJSON :=
  match array with
  | Some (cJSON_Array items) => nth_error items index
  | Some (cJSON_Object children) => option_map snd (nth_error children index)
  | _ => None
  end.

(** [cJSON_AddStringToObject (object, name, string)]: a NULL string adds
    nothing. *)
Definition add_string (name : string) (value : option string)
  (children : list (string * cJSON)) : list (string * cJSON) :=
  match value with
  | Some s => children ++ [(name, cJSON_String s)]
  | None => children
  end.

Definition add_item (name : string) (item : cJSON)
  (children : list (string * cJSON)) : list (string * cJSON) :=
  children ++ [(name, item)].

Definition hex_digit (n : Z) : ascii :=
  if n <? 10 then ascii_of_N (Z.to_N (48 + n)) else ascii_of_N (Z.to_N (87 + n)).

(** One character of a string as the printer escapes it. *)
Definition print_char (c : ascii) : list ascii :=
  let n := char_code c in
  let bs := ascii_of_N 92 in
  if n =? 34 then [bs; c]
  else if n =? 92 then [bs; c]
  else if n =? 8 then [bs; "b"%char]
  else if n =? 12 then [bs; "f"%char]
  else if n =? 10 then [bs; "n"%char]
  else if n =? 13 then [bs; "r"%char]
  else if n =? 9 then [bs; "t"%char]
  else if n <? 32 then
    [bs; "u"%char; "0"%char; "0"%char; hex_digit (n / 16); hex_digit (n mod 16)]
  else [c].

Definition quote : ascii := ascii_of_N 34.

Definition print_string (s : string) : list ascii :=
  quote :: flat_map print_char (list_ascii_of_string s) ++ [quote].

(** The compact text [cJSON_PrintUnformatted] writes for a tree: no
    white space, members in insertion order.  cJSON is a library the
    client links against. *)
Fixpoint print_value (item : cJSON) : list ascii :=
  match item with
  | cJSON_Null => list_ascii_of_string "null"
  | cJSON_Bool true => list_ascii_of_string "true"
  | cJSON_Bool false => list_ascii_of_string "false"
  | cJSON_Number n => list_ascii_of_string (print_int n)
  | cJSON_String s => print_string s
  | cJSON_Array items =>
      let fix print_items (l : list cJSON) : list ascii :=
        match l with
        | [] => []
        | [x] => print_value x
        | x :: rest => print_value x ++ ","%char :: print_items rest
        end in
      "["%char :: print_items items ++ ["]"%char]
  | cJSON_Object children =>
      let fix print_children (l : list (string * cJSON)) : list ascii :=
        match l with
        | [] => []
        | [(k, v)] => print_string k ++ ":"%char :: print_value v
        | (k, v) :: rest =>
            print_string k ++ ":"%char :: print_value v
              ++ ","%char :: print_children rest
        end in
      "{"%char :: print_children children ++ ["}"%char]
  end.

Definition cJSON_PrintUnformatted (item : cJSON) : string :=
  string_of_list_ascii (print_value item).

End Json.

(** ** Base64 *)

Module Base64.

Definition ALPHABET : string :=
  "ABCDEFGHIJKLMNOPQRSTUVWXYZabcdefghijklmnopqrstuvwxyz0123456789+/".

Definition enc_char (sextet : Z) : ascii :=
  nth (Z.to_nat sextet) (list_ascii_of_string ALPHABET) "="%char.

(** The text [mbedtls_base64_encode] produces: RFC 4648 Base64, standard
    alphabet, with padding.  mbedTLS is a library the client links
    against. *)
Fixpoint encode (data : list Z) : list ascii :=
  match data with
  | [] => []
  | [b0] =>
      [ enc_char (b0 / 4); enc_char ((b0 mod 4) * 16); "="%char; "="%char ]
  | [b0; b1] =>
      [ enc_char (b0 / 4); enc_char ((b0 mod 4) * 16 + b1 / 16);
        enc_char ((b1 mod 16) * 4); "="%char ]
  | b0 :: b1 :: b2 :: rest =>
      enc_char (b0 / 4) :: enc_char ((b0 mod 4) * 16 + b1 / 16)
        :: enc_char ((b1 mod 16) * 4 + b2 / 64) :: enc_char (b2 mod 64)
        :: encode rest
  end.

Definition MBEDTLS_ERR_BASE64_BUFFER_TOO_SMALL : Z := -42.

(** The return code, [*olen] and text of
    [mbedtls_base64_encode (dst, dlen, &olen, src, slen)], by the
    library's contract: nothing to do for an empty source, otherwise
    [4 * ceil (slen / 3) + 1] bytes are needed in a non-NULL [dst]. *)
Definition mbedtls_base64_encode (dst_is_null : bool) (dlen : Z) (src : list Z)
  : Z * Z * string :=
  let slen := Z.of_nat (length src) in
  if slen =? 0 then (0, 0, EmptyString)
  else
    let n := 4 * (slen / 3 + (if slen mod 3 =? 0 then 0 else 1)) in
    if (dlen <? n + 1) || dst_is_null
    then (MBEDTLS_ERR_BASE64_BUFFER_TOO_SMALL, n + 1, EmptyString)
    else (0, n, string_of_list_ascii (encode src)).

(** Value of a Base64 character, [-1] outside the alphabet. *)
Definition dec_char (c : ascii) : Z :=
  let n := char_code c in
  if (65 <=? n) && (n <=? 90) then n - 65
  else if (97 <=? n) && (n <=? 122) then n - 71
  else if (48 <=? n) && (n <=? 57) then n + 4
  else if n =? 43 then 62
  else if n =? 47 then 63
  else -1.

(** Strict RFC 4648 decoding, the reading a receiver of the header
    applies; [None] on malformed text. *)
Fixpoint decode (text : list ascii) : option (list Z) :=
  match text with
  | [] => Some []
  | c0 :: c1 :: c2 :: c3 :: rest =>
      let s0 := dec_char c0 in
      let s1 := dec_char c1 in
      if (s0 <? 0) || (s1 <? 0) then None
      else if Ascii.eqb c3 "="%char then
        match rest with
        | [] =>
            if Ascii.eqb c2 "="%char then Some [s0 * 4 + s1 / 16]
            else
              let s2 := dec_char c2 in
              if s2 <? 0 then None
              else Some [s0 * 4 + s1 / 16; (s1 mod 16) * 16 + s2 / 4]
        | _ :: _ => None
        end
      else
        let s2 := dec_char c2 in
        let s3 := dec_char c3 in
        if (s2 <? 0) || (s3 <? 0) then None
        else
          match decode rest with
          | Some more =>
              Some (s0 * 4 + s1 / 16 :: (s1 mod 16) * 16 + s2 / 4
                      :: (s2 mod 4) * 64 + s3 :: more)
          | None => None
          end
  | _ => None
  end.

End Base64.

(** ** The HTTP collaborator and the state threaded through a call *)

Inductive http_method : Type :=
| HTTP_METHOD_GET
| HTTP_METHOD_POST
| HTTP_METHOD_PUT
| HTTP_METHOD_DELETE.

(** One request handed to [esp_http_client_perform]. *)
Record http_exchange : Type := {
  hx_url : string;
  hx_method : http_method;
  hx_headers : list (string * string);
  hx_post_field : option string
}.

(** What the HTTP client reports after [esp_http_client_perform]. *)
Record http_reply : Type := {
  hr_err : esp_err_t;
  hr_status : Z;
  hr_content_length : Z;
  (** [esp_http_client_get_header (client, "X-PAYMENT-RESPONSE", &v)] *)
  hr_payment_response : option string;
  (** the body handed to the event handler; [None] when no data arrived *)
  hr_data : option string
}.

(** The server side: the reply to a request, given the requests made
    before it. *)
Class Network : Type := {
  esp_http_client_perform : list http_exchange -> http_exchange -> http_reply
}.

(** [solana_rpc_client_t] *)
Record solana_rpc_client_t : Type := {
  rpc_url : string;
  timeout_ms : Z;
  request_id : Z
}.

(** The requests issued so far and the process-wide [g_rpc_client]. *)
Record world : Type := {
  trace : list http_exchange;
  g_rpc_client : option solana_rpc_client_t
}.

Definition M (A : Type) : Type := world -> A * world.

Definition ret {A : Type} (a : A) : M A := fun w => (a, w).

Definition bind {A B : Type} (c : M A) (k : A -> M B) : M B :=
  fun w => let (a, w') := c w in k a w'.

(** Sequencing of calls that return [esp_err_t]: the first error is
    returned to the caller. *)
Definition bind_ok {A B : Type} (c : M (result A)) (k : A -> M (result B))
  : M (result B) :=
  fun w =>
    match c w with
    | (OK a, w') => k a w'
    | (Err e, w') => (Err e, w')
    end.

Declare Scope io_scope.
Delimit Scope io_scope with io.
Notation "x <- c ;; k" := (bind c (fun x => k))
  (at level 61, c at next level, right associativity) : io_scope.
Notation "x <-! c ;; k" := (bind_ok c (fun x => k))
  (at level 61, c at next level, right associativity) : io_scope.

Definition fail {A : Type} (e : esp_err_t) : M (result A) := ret (Err e).

Definition ok {A : Type} (a : A) : M (result A) := ret (OK a).

Section WithNetwork.
Context {net : Network}.

(** [esp_http_client_perform]: the request joins the trace. *)
Definition perform (x : http_exchange) : M http_reply :=
  fun w =>
    (esp_http_client_perform (trace w) x,
     {| trace := trace w ++ [x]; g_rpc_client := g_rpc_client w |}).

End WithNetwork.

(** ** JSON-RPC client (solana_rpc.c) *)

Module SolanaRpc.

Import Libc.

Definition SOLANA_RPC_DEVNET : string := "https://api.devnet.solana.com".

(** [solana_rpc_response_t] *)
Record solana_rpc_response_t : Type := {
  rpc_status_code : Z;
  rpc_data : option string;
  rpc_success : bool
}.

Section WithNetwork.
Context {net : Network}.

(** The body [asprintf] builds in [solana_rpc_call]. *)
Definition rpc_request_body (id : Z) (method : string) (params : option string)
  : string :=
  let q := String (ascii_of_N 34) EmptyString in
  let head :=
    ("{" ++ q ++ "jsonrpc" ++ q ++ ":" ++ q ++ "2.0" ++ q ++ ","
         ++ q ++ "id" ++ q ++ ":" ++ print_int id ++ ","
         ++ q ++ "method" ++ q ++ ":" ++ q ++ method ++ q)%string in
  match params with
  | Some p => (head ++ "," ++ q ++ "params" ++ q ++ ":" ++ p ++ "}")%string
  | None => (head ++ "}")%string
  end.

(** The request [solana_rpc_call] performs. *)
Definition rpc_exchange (client : solana_rpc_client_t) (method : string)
  (params : option string) : http_exchange :=
  {| hx_url := rpc_url client;
     hx_method := HTTP_METHOD_POST;
     hx_headers := [("Content-Type", "application/json")]%string;
     hx_post_field :=
       Some (rpc_request_body (request_id client) method params) |}.

(** [solana_rpc_call (client, method, params, response)]: the return code
    and the response record; [client->request_id++] is kept in the
    process-wide client, the only client the payment path uses. *)
Definition solana_rpc_call (client : solana_rpc_client_t) (method : string)
  (params : option string) : M (esp_err_t * solana_rpc_response_t) :=
  fun w =>
    let client' := {| rpc_url := rpc_url client;
                      timeout_ms := timeout_ms client;
                      request_id := request_id client + 1 |} in
    let w1 := {| trace := trace w; g_rpc_client := Some client' |} in
    let (reply, w2) := perform (rpc_exchange client method params) w1 in
    let size := match hr_data reply with
                | Some d => Z.of_nat (String.length d)
                | None => 0
                end in
    match hr_err reply with
    | ESP_OK =>
        if (hr_status reply =? 200) && (size >? 0)
        then ((ESP_OK, {| rpc_status_code := hr_status reply;
                          rpc_data := hr_data reply;
                          rpc_success := true |}), w2)
        else ((ESP_OK, {| rpc_status_code := hr_status reply;
                          rpc_data := None;
                          rpc_success := false |}), w2)
    | err =>
        ((err, {| rpc_status_code := hr_status reply;
                  rpc_data := None;
                  rpc_success := false |}), w2)
    end.

(** The literal [params] of [solana_rpc_get_latest_blockhash]. *)
Definition LATEST_BLOCKHASH_PARAMS : string :=
  ("[{" ++ String (ascii_of_N 34) "commitment"
        ++ String (ascii_of_N 34) ":"
        ++ String (ascii_of_N 34) "finalized"
        ++ String (ascii_of_N 34) "}]")%string.

Definition solana_rpc_get_latest_blockhash (client : solana_rpc_client_t)
  : M (esp_err_t * solana_rpc_response_t) :=
  solana_rpc_call client "getLatestBlockhash" (Some LATEST_BLOCKHASH_PARAMS).

(** [solana_rpc_init (url)] *)
Definition solana_rpc_init (url : string) : solana_rpc_client_t :=
  {| rpc_url := url; timeout_ms := 30000; request_id := 1 |}.

End WithNetwork.

End SolanaRpc.

(** ** Wallet (solana_wallet.c) *)

Module Wallet.

Import SplToken.

(** [struct solana_wallet_t] *)
Record solana_wallet_t : Type := {
  secret_key : list Z;
  public_key : list Z
}.

(** [solana_wallet_from_keypair]: the public key is the last 32 bytes of
    the 64-byte secret. *)
Definition solana_wallet_from_keypair (secret : list Z) : solana_wallet_t :=
  {| secret_key := memcpy secret 64;
     public_key := memcpy (skipn 32 secret) 32 |}.

Definition solana_wallet_get_pubkey (wallet : solana_wallet_t)
  : result (list Z) :=
  OK (memcpy (public_key wallet) 32).

Section WithExternals.
Context {ext : Externals}.

(** [solana_wallet_sign]: the first 64 bytes of the signed message. *)
Definition solana_wallet_sign (wallet : solana_wallet_t) (message : list Z)
  : result (list Z) :=
  let (code, signed_msg) := crypto_sign message (secret_key wallet) in
  if code =? 0 then OK (memcpy signed_msg 64) else Err ESP_FAIL.

End WithExternals.

End Wallet.

(** ** x402 protocol records (x402_types.h) *)

Definition X402_HEADER_PAYMENT : string := "X-PAYMENT".
Definition X402_HEADER_PAYMENT_RESPONSE : string := "X-PAYMENT-RESPONSE".
Definition X402_STATUS_PAYMENT_REQUIRED : Z := 402.
Definition X402_SCHEME_EXACT : string := "exact".
Definition X402_NETWORK_SOLANA_DEVNET : string := "solana-devnet".

(** [x402_payment_requirements_t] as the current parser and payment code
    use it. *)
Record x402_payment_requirements_t : Type := {
  recipient : string;
  network : string;
  asset : string;
  price_amount : string;
  price_currency : string;
  facilitator_url : string;
  facilitator_fee_payer : string;
  valid : bool
}.

(** [x402_payment_payload_t], flat form read by x402_encoding.c. *)
Record x402_payment_payload_t : Type := {
  x402_version : Z;
  scheme : string;
  payload_network : string;
  payload_transaction : option string
}.

(** [x402_settlement_response_t] *)
Record x402_settlement_response_t : Type := {
  settlement_transaction : string;
  settlement_success : bool;
  settlement_network : string
}.

(** [x402_response_t] *)
Record x402_response_t : Type := {
  status_code : Z;
  headers : option string;
  body : option string;
  body_len : Z;
  payment_made : bool;
  settlement : x402_settlement_response_t
}.

(** A record cleared by [memset (.., 0, ..)]. *)
Definition settlement_zero : x402_settlement_response_t :=
  {| settlement_transaction := EmptyString;
     settlement_success := false;
     settlement_network := EmptyString |}.

(** ** Requirements parser and facilitator probe (x402_requirements.c) *)

Module Requirements.

Import Libc Json.

Section WithExternals.
Context {ext : Externals}.

(** [x402_parse_payment_requirements (response_body, requirements_out)] *)
Definition x402_parse_payment_requirements (response_body : string)
  : result x402_payment_requirements_t :=
  match cJSON_Parse response_body with
  | None => Err ESP_FAIL
  | Some root_json =>
    let root := Some root_json in
    let accepts := cJSON_GetObjectItem root "accepts" in
    if negb (cJSON_IsArray accepts) || (cJSON_GetArraySize accepts =? 0)
    then Err ESP_FAIL
    else
    match cJSON_GetArrayItem accepts 0 with
    | None => Err ESP_FAIL
    | Some option_json =>
      let option := Some option_json in
      let payTo := cJSON_GetObjectItem option "payTo" in
      if negb (cJSON_IsString payTo) then Err ESP_FAIL
      else
      let recipient := strncpy (valuestring payTo) (64 - 1) in
      let network_item := cJSON_GetObjectItem option "network" in
      let network :=
        if cJSON_IsString network_item
        then strncpy (valuestring network_item) (64 - 1)
        else strncpy X402_NETWORK_SOLANA_DEVNET (64 - 1) in
      let asset_item := cJSON_GetObjectItem option "asset" in
      let asset :=
        if cJSON_IsString asset_item
        then strncpy (valuestring asset_item) (sizeof_asset - 1)
        else EmptyString in
      let maxAmount := cJSON_GetObjectItem option "maxAmountRequired" in
      if negb (cJSON_IsString maxAmount) then Err ESP_FAIL
      else
      let amount := strncpy (valuestring maxAmount) (32 - 1) in
      let currency := strncpy "USDC" (16 - 1) in
      let extra := cJSON_GetObjectItem option "extra" in
      let fee_payer :=
        if cJSON_IsObject extra then
          let feePayer := cJSON_GetObjectItem extra "feePayer" in
          if cJSON_IsString feePayer
          then strncpy (valuestring feePayer) (sizeof_fee_payer - 1)
          else EmptyString
        else EmptyString in
      OK {| recipient := recipient;
            network := network;
            asset := asset;
            price_amount := amount;
            price_currency := currency;
            facilitator_url := EmptyString;
            facilitator_fee_payer := fee_payer;
            valid := true |}
    end
  end.

(** [cJSON_ArrayForEach (kind, kinds)] with the [break] on the first
    entry whose ["network"] is a string equal to [network]. *)
Fixpoint find_kind (kinds : list cJSON) (network : string) : option cJSON :=
  match kinds with
  | [] => None
  | kind :: rest =>
      let kind_network := cJSON_GetObjectItem (Some kind) "network" in
      if cJSON_IsString kind_network
         && String.eqb (valuestring kind_network) network
      then Some kind
      else find_kind rest network
  end.


End WithExternals.

Section WithNetwork.
Context {ext : Externals} {net : Network}.



End WithNetwork.

End Requirements.

(** ** Payment creation (x402_payment.c, fee-payer revision) *)

Module Payment.

Import Libc Json Base58 Base64 SplToken SolanaRpc Wallet.

(** [x402_base64_encode (data, data_len, encoded_out, max_len, out_len)]
    of x402_encoding.c: a sizing call with a NULL destination, then the
    encoding call. *)
Definition x402_base64_encode (data : list Z) (max_len : Z) : result string :=
  let '(ret, required_len, _) := mbedtls_base64_encode true 0 data in
  if negb (ret =? MBEDTLS_ERR_BASE64_BUFFER_TOO_SMALL) then Err ESP_FAIL
  else if required_len >? max_len then Err ESP_ERR_NO_MEM
  else
    let '(ret, _, encoded_out) := mbedtls_base64_encode false max_len data in
    if negb (ret =? 0) then Err ESP_FAIL else OK encoded_out.

(** [memcpy (tx_data + at, signature, 64)] *)
Definition write_signature (tx_data : list Z) (at_offset : nat)
  (signature : list Z) : list Z :=
  firstn at_offset tx_data ++ memcpy signature 64
    ++ skipn (at_offset + 64) tx_data.

Section WithCollaborators.
Context {ext : Externals} {net : Network}.

(** [ensure_rpc_client]: creates [g_rpc_client] on first use. *)
Definition ensure_rpc_client : M (result solana_rpc_client_t) :=
  fun w =>
    match g_rpc_client w with
    | Some client => (OK client, w)
    | None =>
        let client := solana_rpc_init SOLANA_RPC_DEVNET in
        (OK client, {| trace := trace w; g_rpc_client := Some client |})
    end.

(** The request [spl_token_get_mint_program] builds with cJSON. *)
Definition get_account_info_request (mint_b58 : string) : cJSON :=
  cJSON_Object
    (add_item "params"
       (cJSON_Array
          [ cJSON_String mint_b58;
            cJSON_Object (add_string "encoding" (Some "jsonParsed"%string) []) ])
       (add_string "method" (Some "getAccountInfo"%string)
          (add_item "id" (cJSON_Number 1)
             (add_string "jsonrpc" (Some "2.0"%string) [])))).

(** The request [spl_token_get_mint_program] performs. *)
Definition mint_program_exchange (rpc_url : string) (mint_b58 : string)
  : http_exchange :=
  {| hx_url := rpc_url;
     hx_method := HTTP_METHOD_POST;
     hx_headers := [("Content-Type", "application/json")]%string;
     hx_post_field :=
       Some (cJSON_PrintUnformatted (get_account_info_request mint_b58)) |}.

(** [spl_token_get_mint_program (rpc_url, mint_pubkey, program_id_out)]
    of spl_token.c *)
Definition spl_token_get_mint_program (rpc_url : string) (mint_pubkey : list Z)
  : M (result (list Z)) :=
  (match base58_encode (memcpy mint_pubkey 32) 64 with
   | None => fail ESP_FAIL
   | Some mint_b58 =>
     reply <- perform (mint_program_exchange rpc_url mint_b58) ;;
     match hr_err reply with
     | ESP_OK =>
       match hr_data reply with
       | None => fail ESP_FAIL
       | Some response_buffer =>
         if negb (hr_status reply =? 200) then fail ESP_FAIL
         else
         match cJSON_Parse response_buffer with
         | None => fail ESP_FAIL
         | Some response =>
           let result := cJSON_GetObjectItem (Some response) "result" in
           let value := cJSON_GetObjectItem result "value" in
           let owner := cJSON_GetObjectItem value "owner" in
           if negb (cJSON_IsString owner) then fail ESP_FAIL
           else
           match base58_decode (valuestring owner) 32 with
           | None => fail ESP_FAIL
           | Some program_id =>
               if negb (Nat.eqb (length program_id) 32) then fail ESP_FAIL
               else ok program_id
           end
         end
       end
     | err => fail err
     end
   end)%io.

(** [x402_build_payment_transaction]: the unsigned transaction written to
    [tx_out]. *)
Definition x402_build_payment_transaction (wallet : solana_wallet_t)
  (fee_payer_pubkey recipient_pubkey mint_pubkey token_program_id : list Z)
  (amount : Z) (max_tx_len : Z) : M (result (list Z)) :=
  (wallet_pubkey <-! ret (solana_wallet_get_pubkey wallet) ;;
   client <-! ensure_rpc_client ;;
   called <- solana_rpc_get_latest_blockhash client ;;
   let (err, rpc_response) := called in
   if negb (esp_err_eqb err ESP_OK) || negb (rpc_success rpc_response)
   then fail ESP_FAIL
   else
   match cJSON_Parse (match rpc_data rpc_response with
                      | Some d => d
                      | None => EmptyString
                      end) with
   | None => fail ESP_FAIL
   | Some root =>
     let result := cJSON_GetObjectItem (Some root) "result" in
     let value := cJSON_GetObjectItem result "value" in
     let blockhash_json := cJSON_GetObjectItem value "blockhash" in
     if negb (cJSON_IsString blockhash_json) then fail ESP_FAIL
     else
     match base58_decode (valuestring blockhash_json) 32 with
     | None => fail ESP_FAIL
     | Some blockhash =>
       if negb (Nat.eqb (length blockhash) 32) then fail ESP_FAIL
       else
         ret (spl_token_create_transfer_transaction
                fee_payer_pubkey wallet_pubkey recipient_pubkey mint_pubkey
                token_program_id amount blockhash max_tx_len)
     end
   end)%io.

(** [base58_decode (text, out, &len, 32)] followed by the test
    [len != 32]. *)
Definition decode_pubkey (text : string) : result (list Z) :=
  match base58_decode text 32 with
  | None => Err ESP_FAIL
  | Some bytes =>
      if negb (Nat.eqb (length bytes) 32) then Err ESP_FAIL else OK bytes
  end.

(** Step 3 of [x402_create_solana_payment]: [strtoull], the [endptr]
    test and the zero test. *)
Definition parse_amount (amount_text : string) : result Z :=
  let (amount, consumed) := strtoull amount_text in
  if Nat.eqb consumed 0 || negb (Nat.eqb consumed (String.length amount_text))
  then Err ESP_FAIL
  else if amount =? 0 then Err ESP_FAIL
  else OK amount.

(** Steps 1 to 7 of [x402_create_solana_payment]: the contents of
    [tx_data] once the wallet's signature is in place. *)
Definition x402_signed_transaction (wallet : solana_wallet_t)
  (requirements : x402_payment_requirements_t) : M (result (list Z)) :=
  (if negb (valid requirements) then fail ESP_ERR_INVALID_STATE
   else
   recipient_pubkey <-! ret (decode_pubkey (recipient requirements)) ;;
   mint_pubkey <-! ret (decode_pubkey (asset requirements)) ;;
   amount <-! ret (parse_amount (price_amount requirements)) ;;
   match facilitator_fee_payer requirements with
   | EmptyString => fail ESP_FAIL
   | _ =>
     fee_payer_pubkey <-!
       ret (decode_pubkey (facilitator_fee_payer requirements)) ;;
     token_program_id <-!
       spl_token_get_mint_program SOLANA_RPC_DEVNET mint_pubkey ;;
     tx_data <-!
       x402_build_payment_transaction wallet fee_payer_pubkey
         recipient_pubkey mint_pubkey token_program_id amount 2048 ;;
     let message := skipn (1 + 64 + 64) tx_data in
     signature <-! ret (solana_wallet_sign wallet message) ;;
     ok (write_signature tx_data (1 + 64) signature)
   end)%io.

(** [x402_create_solana_payment (wallet, requirements, payload_out)] *)
Definition x402_create_solana_payment (wallet : solana_wallet_t)
  (requirements : x402_payment_requirements_t)
  : M (result x402_payment_payload_t) :=
  (tx_data <-! x402_signed_transaction wallet requirements ;;
   tx_b64 <-! ret (x402_base64_encode tx_data 4096) ;;
   ok {| x402_version := 1;
         scheme := strncpy X402_SCHEME_EXACT (sizeof_payload_scheme - 1);
         payload_network :=
           strncpy (network requirements) (sizeof_payload_network - 1);
         payload_transaction := Some tx_b64 |})%io.

End WithCollaborators.

End Payment.

(** ** Payment creation, older revision (x402_payment.c as named) *)

Module LegacyPayment.

Import Libc Json Base58 Base64 SplToken SolanaRpc Wallet UsdAmount.

(** [x402_payment_kind_t] and [x402_payment_payload_t] of the nested
    x402_types.h. *)
Record x402_payment_kind_t : Type := {
  kind_x402_version : Z;
  kind_scheme : string;
  kind_network : string;
  kind_transaction : option string
}.

Record x402_payment_payload_t : Type := {
  version : Z;
  kind : x402_payment_kind_t
}.

Section WithCollaborators.
Context {ext : Externals} {fl : Floating} {net : Network}.

Definition x402_build_payment_transaction (wallet : solana_wallet_t)
  (recipient_pubkey mint_pubkey : list Z)
  (amount : Z) (max_tx_len : Z) : M (result (list Z)) :=
  (wallet_pubkey <-! ret (solana_wallet_get_pubkey wallet) ;;
   client <-! Payment.ensure_rpc_client ;;
   called <- solana_rpc_get_latest_blockhash client ;;
   let (err, rpc_response) := called in
   if negb (esp_err_eqb err ESP_OK) || negb (rpc_success rpc_response)
   then fail ESP_FAIL
   else
   match cJSON_Parse (match rpc_data rpc_response with
                      | Some d => d
                      | None => EmptyString
                      end) with
   | None => fail ESP_FAIL
   | Some root =>
     let result := cJSON_GetObjectItem (Some root) "result" in
     let value := cJSON_GetObjectItem result "value" in
     let blockhash_json := cJSON_GetObjectItem value "blockhash" in
     if negb (cJSON_IsString blockhash_json) then fail ESP_FAIL
     else
     match base58_decode (valuestring blockhash_json) 32 with
     | None => fail ESP_FAIL
     | Some blockhash =>
       if negb (Nat.eqb (length blockhash) 32) then fail ESP_FAIL
       else
         ret (LegacySplToken.spl_token_create_transfer_transaction
                wallet_pubkey recipient_pubkey mint_pubkey
                amount blockhash max_tx_len)
     end
   end)%io.

(** Steps 1 to 5 of the older [x402_create_solana_payment]: the contents
    of [tx_data] once the wallet's signature is in place. *)
Definition x402_signed_transaction (wallet : solana_wallet_t)
  (requirements : x402_payment_requirements_t) : M (result (list Z)) :=
  (if negb (valid requirements) then fail ESP_ERR_INVALID_STATE
   else
   recipient_pubkey <-! ret (Payment.decode_pubkey (recipient requirements)) ;;
   let mint_pubkey := LegacySplToken.USDC_DEVNET_MINT in
   amount <-!
     ret (spl_token_parse_usd_amount (Some (price_amount requirements))
            USDC_DECIMALS) ;;
   tx_data <-!
     x402_build_payment_transaction wallet recipient_pubkey mint_pubkey
       amount 2048 ;;
   let message := skipn (1 + 64 + 64) tx_data in
   signature <-! ret (solana_wallet_sign wallet message) ;;
   ok (Payment.write_signature tx_data 1 signature))%io.

Definition x402_create_solana_payment (wallet : solana_wallet_t)
  (requirements : x402_payment_requirements_t)
  : M (result x402_payment_payload_t) :=
  (tx_data <-! x402_signed_transaction wallet requirements ;;
   tx_b64 <-! ret (Payment.x402_base64_encode tx_data 4096) ;;
   ok {| version := 1;
         kind := {| kind_x402_version := 1;
                    kind_scheme := strncpy X402_SCHEME_EXACT (32 - 1);
                    kind_network := strncpy (network requirements) (64 - 1);
                    kind_transaction := Some tx_b64 |} |})%io.

End WithCollaborators.

End LegacyPayment.

(** ** Envelope codec (x402_encoding.c) *)

Module Encoding.

Import Libc Json Base64.

(** The tree [x402_payload_to_json] builds before printing it. *)
Definition payload_json (payload : x402_payment_payload_t) : cJSON :=
  let network_payload :=
    cJSON_Object (add_string "transaction" (payload_transaction payload) []) in
  cJSON_Object
    (add_item "payload" network_payload
       (add_string "network" (Some (payload_network payload))
          (add_string "scheme" (Some (scheme payload))
             (add_item "x402Version" (cJSON_Number (x402_version payload)) [])))).

(** [x402_payload_to_json (payload)] *)
Definition x402_payload_to_json (payload : x402_payment_payload_t) : string :=
  cJSON_PrintUnformatted (payload_json payload).

(** The bytes of a C string. *)
Definition bytes_of_string (s : string) : list Z :=
  map char_code (list_ascii_of_string s).

(** A byte buffer read as a NUL-terminated C string. *)
Fixpoint c_string_of_bytes (bytes : list Z) : string :=
  match bytes with
  | [] => EmptyString
  | b :: rest =>
      if b =? 0 then EmptyString
      else String (ascii_of_N (Z.to_N b)) (c_string_of_bytes rest)
  end.

(** [x402_encode_payment_payload (payload, encoded_out, max_len)] *)
Definition x402_encode_payment_payload (payload : x402_payment_payload_t)
  (max_len : Z) : result string :=
  let json_str := x402_payload_to_json payload in
  Payment.x402_base64_encode (bytes_of_string json_str) max_len.

Section WithExternals.
Context {ext : Externals}.

(** [x402_parse_settlement_json (json_str, response_out)] *)
Definition x402_parse_settlement_json (json_str : string)
  : result x402_settlement_response_t :=
  match cJSON_Parse json_str with
  | None => Err ESP_FAIL
  | Some root_json =>
    let root := Some root_json in
    let transaction := cJSON_GetObjectItem root "transaction" in
    let success := cJSON_GetObjectItem root "success" in
    let network := cJSON_GetObjectItem root "network" in
    OK {| settlement_transaction :=
            if cJSON_IsString transaction
            then strncpy (valuestring transaction) (128 - 1)
            else EmptyString;
          settlement_success :=
            if cJSON_IsBool success then cJSON_IsTrue success else false;
          settlement_network :=
            if cJSON_IsString network
            then strncpy (valuestring network) (64 - 1)
            else EmptyString |}
  end.

(** [x402_base64_decode (encoded, decoded_out, max_len, out_len)] *)
Definition x402_base64_decode (encoded : string) (max_len : Z)
  : result (list Z) :=
  let (ret, decoded) := mbedtls_base64_decode encoded max_len in
  if negb (ret =? 0) then Err ESP_FAIL else OK decoded.

(** [x402_decode_settlement_response (encoded_b64, response_out)] *)
Definition x402_decode_settlement_response (encoded_b64 : string)
  : result x402_settlement_response_t :=
  match x402_base64_decode encoded_b64 2048 with
  | Err e => Err e
  | OK decoded => x402_parse_settlement_json (c_string_of_bytes decoded)
  end.

End WithExternals.

End Encoding.

(** ** The driver (x402_client.c) *)

Module Client.

Import Libc Json Payment Encoding Requirements Wallet.

Definition CR : ascii := ascii_of_N 13.
Definition LF : ascii := ascii_of_N 10.
Definition CRLF : string := String CR (String LF EmptyString).

(** [strtok (text, "\r\n")] called to exhaustion: the maximal runs of
    characters other than CR and LF. *)
Fixpoint header_lines (text : list ascii) (line : list ascii)
  : list (list ascii) :=
  match text with
  | [] => match line with [] => [] | _ => [rev line] end
  | c :: rest =>
      if Ascii.eqb c CR || Ascii.eqb c LF
      then match line with
           | [] => header_lines rest []
           | _ => rev line :: header_lines rest []
           end
      else header_lines rest (c :: line)
  end.

(** [while ( *value == ' ') value++] *)
Fixpoint skip_spaces (value : list ascii) : list ascii :=
  match value with
  | c :: rest => if Ascii.eqb c " "%char then skip_spaces rest else value
  | [] => []
  end.

(** One line of the header blob: split at the first colon; a line
    without a colon sets no header. *)
Definition header_of_line (line : list ascii) : option (string * string) :=
  let (name, from_colon) := span (fun c => negb (Ascii.eqb c ":"%char)) line in
  match from_colon with
  | _ :: value =>
      Some (string_of_list_ascii name,
            string_of_list_ascii (skip_spaces value))
  | [] => None
  end.

Fixpoint collect_headers (lines : list (list ascii)) : list (string * string) :=
  match lines with
  | [] => []
  | line :: rest =>
      match header_of_line line with
      | Some h => h :: collect_headers rest
      | None => collect_headers rest
      end
  end.

(** The headers [http_request] sets on the client from its [headers]
    argument. *)
Definition request_headers (headers : option string) : list (string * string) :=
  match headers with
  | Some blob => collect_headers (header_lines (list_ascii_of_string blob) [])
  | None => []
  end.

(** [config.method] after the [strcmp] chain. *)
Definition method_of (method : string) : http_method :=
  if String.eqb method "POST" then HTTP_METHOD_POST
  else if String.eqb method "PUT" then HTTP_METHOD_PUT
  else if String.eqb method "DELETE" then HTTP_METHOD_DELETE
  else HTTP_METHOD_GET.

(** The request [http_request] performs for its arguments. *)
Definition exchange_of (url method : string) (headers body : option string)
  : http_exchange :=
  {| hx_url := url;
     hx_method := method_of method;
     hx_headers := request_headers headers;
     hx_post_field :=
       match body with
       | Some (String c rest) => Some (String c rest)
       | _ => None
       end |}.

(** The 1024-byte header text [http_request] returns. *)
Definition response_headers (reply : http_reply) : string :=
  let first :=
    ("Content-Length: " ++ print_int (hr_content_length reply) ++ CRLF)%string in
  let second :=
    match hr_payment_response reply with
    | Some v => (X402_HEADER_PAYMENT_RESPONSE ++ ": " ++ v ++ CRLF)%string
    | None => EmptyString
    end in
  snprintf 1024 (first ++ second)%string.

(** What [http_request] writes through its four out-pointers. *)
Record http_result : Type := {
  status_out : Z;
  headers_out : option string;
  body_out : option string;
  body_len_out : Z
}.

Section WithCollaborators.
Context {ext : Externals} {net : Network}.

(** [http_request (url, method, headers, body, ...)] *)
Definition http_request (url method : string) (headers body : option string)
  : M (result http_result) :=
  (reply <- perform (exchange_of url method headers body) ;;
   match hr_err reply with
   | ESP_OK =>
       ok {| status_out := hr_status reply;
             headers_out := Some (response_headers reply);
             body_out := hr_data reply;
             body_len_out :=
               match hr_data reply with
               | Some d => Z.of_nat (String.length d)
               | None => 0
               end |}
   | err => fail err
   end)%io.

(** The copy loop of [x402_extract_header]: up to the end of the line,
    at most [max_len - 1] characters. *)
Fixpoint copy_value (text : list ascii) (room : nat) : list ascii :=
  match text, room with
  | c :: rest, S room' =>
      if Ascii.eqb c CR || Ascii.eqb c LF then []
      else c :: copy_value rest room'
  | _, _ => []
  end.

Fixpoint skip_blanks (text : list ascii) : list ascii :=
  match text with
  | c :: rest =>
      if Ascii.eqb c " "%char || Ascii.eqb c (ascii_of_N 9)
      then skip_blanks rest else text
  | [] => []
  end.

(** [x402_extract_header (headers, header_name, value_out, max_len)];
    [None] is the [false] result. *)
Definition x402_extract_header (headers : string) (header_name : string)
  (max_len : nat) : option string :=
  let search_str := snprintf 128 (header_name ++ ":")%string in
  match strstr (list_ascii_of_string headers)
               (list_ascii_of_string search_str) with
  | None => None
  | Some header_pos =>
      let after := skipn (String.length search_str) header_pos in
      let value := copy_value (skip_blanks after) (max_len - 1) in
      match value with
      | [] => None
      | _ => Some (string_of_list_ascii value)
      end
  end.

Definition x402_is_payment_required (status_code : Z) : bool :=
  status_code =? X402_STATUS_PAYMENT_REQUIRED.

(** The header blob of the paid retry. *)
Definition retry_headers_of (headers : option string) (payment_encoded : string)
  : string :=
  match headers with
  | Some (String c rest) =>
      snprintf 16384
        (String c rest ++ CRLF ++ X402_HEADER_PAYMENT ++ ": " ++ payment_encoded)%string
  | _ =>
      snprintf 16384 (X402_HEADER_PAYMENT ++ ": " ++ payment_encoded)%string
  end.

(** Step 8 of [x402_fetch]: [payment_made] and [settlement] as the
    retry's headers determine them. *)
Definition settlement_of (resp_headers : option string)
  : bool * x402_settlement_response_t :=
  match resp_headers with
  | Some hs =>
      match x402_extract_header hs X402_HEADER_PAYMENT_RESPONSE 4096 with
      | Some payment_response =>
          match x402_decode_settlement_response payment_response with
          | OK settlement => (true, settlement)
          | Err _ => (false, settlement_zero)
          end
      | None => (false, settlement_zero)
      end
  | None => (false, settlement_zero)
  end.

(** [x402_fetch (wallet, url, method, headers, body, response_out)] *)
Definition x402_fetch (wallet : solana_wallet_t) (url method : string)
  (headers body : option string) : M (result x402_response_t) :=
  (initial <-! http_request url method headers body ;;
   if negb (x402_is_payment_required (status_out initial))
   then ok {| status_code := status_out initial;
              headers := headers_out initial;
              body := body_out initial;
              body_len := body_len_out initial;
              payment_made := false;
              settlement := settlement_zero |}
   else
   match body_out initial with
   | None => fail ESP_FAIL
   | Some resp_body =>
     requirements <-! ret (x402_parse_payment_requirements resp_body) ;;
     payload <-! x402_create_solana_payment wallet requirements ;;
     payment_encoded <-! ret (x402_encode_payment_payload payload 8192) ;;
     let retry_headers := retry_headers_of headers payment_encoded in
     retried <-! http_request url method (Some retry_headers) body ;;
     let (made, settled) := settlement_of (headers_out retried) in
     ok {| status_code := status_out retried;
           headers := headers_out retried;
           body := body_out retried;
           body_len := body_len_out retried;
           payment_made := made;
           settlement := settled |}
   end)%io.

End WithCollaborators.

End Client.

(** ** Transaction builder (components/solana_tx/solana_tx.c) *)

Module SolanaTx.

Import Base58 SplToken.

Definition u16 (x : Z) : Z := x mod 2 ^ 16.

Definition SOLANA_PUBKEY_SIZE : nat := 32.
Definition SOLANA_SIGNATURE_SIZE : nat := 64.
Definition SOLANA_BLOCKHASH_SIZE : nat := 32.

Definition SYSTEM_PROGRAM_ID : list Z :=
  [ 0; 0; 0; 0; 0; 0; 0; 0; 0; 0; 0; 0; 0; 0; 0; 0;
    0; 0; 0; 0; 0; 0; 0; 0; 0; 0; 0; 0; 0; 0; 0; 0 ].

Definition SYSTEM_TRANSFER_INSTRUCTION : Z := 2.

Definition MAX_ACCOUNTS : nat := 10.
Definition MAX_INSTRUCTIONS : nat := 5.

(** [account_meta_t] *)
Record account_meta_t : Type := {
  pubkey : list Z;
  is_signer : bool;
  is_writable : bool
}.

(** [instruction_t]: [account_indexes] is
    [account_indexes[0 .. account_count)], [data] is [data[0 .. data_len)]. *)
Record instruction_t : Type := {
  program_id : list Z;
  account_indexes : list Z;
  data : list Z
}.

Definition account_count (instr : instruction_t) : Z :=
  Z.of_nat (length (account_indexes instr)).

Definition data_len (instr : instruction_t) : Z :=
  Z.of_nat (length (data instr)).

(** [struct solana_tx_t]: [accounts] is [accounts[0 .. account_count)],
    [instructions] is [instructions[0 .. instruction_count)]. *)
Record solana_tx_t : Type := {
  blockhash : list Z;
  fee_payer : list Z;
  accounts : list account_meta_t;
  instructions : list instruction_t;
  signatures : list Z;
  has_signature : bool
}.

(** The bytes [encode_compact_u16 (value, out)] writes; the return value
    is their number. *)
Definition encode_compact_u16 (value : Z) : list Z :=
  if value <=? 0x7f then [u8 value]
  else if value <=? 0x3fff then
    [ u8 (Z.lor (Z.land value 0x7f) 0x80); u8 (Z.shiftr value 7) ]
  else
    [ u8 (Z.lor (Z.land value 0x7f) 0x80);
      u8 (Z.lor (Z.land (Z.shiftr value 7) 0x7f) 0x80);
      u8 (Z.shiftr value 14) ].

Fixpoint bytes_eqb (a b : list Z) : bool :=
  match a, b with
  | [], [] => true
  | x :: a', y :: b' => (x =? y) && bytes_eqb a' b'
  | _, _ => false
  end.

(** [memcmp (a, b, SOLANA_PUBKEY_SIZE) == 0] *)
Definition same_pubkey (a b : list Z) : bool :=
  bytes_eqb (memcpy a SOLANA_PUBKEY_SIZE) (memcpy b SOLANA_PUBKEY_SIZE).

(** The search loop of [find_or_add_account] from index [i]: on a hit the
    index and the table with the flags of the entry raised. *)
Fixpoint update_account (table : list account_meta_t) (key : list Z)
  (signer writable : bool) (i : Z) : option (Z * list account_meta_t) :=
  match table with
  | [] => None
  | a :: rest =>
      if same_pubkey (pubkey a) key
      then Some (i, {| pubkey := pubkey a;
                       is_signer := is_signer a || signer;
                       is_writable := is_writable a || writable |} :: rest)
      else
        match update_account rest key signer writable (i + 1) with
        | Some (j, rest') => Some (j, a :: rest')
        | None => None
        end
  end.

Definition with_accounts (tx : solana_tx_t) (table : list account_meta_t)
  : solana_tx_t :=
  {| blockhash := blockhash tx;
     fee_payer := fee_payer tx;
     accounts := table;
     instructions := instructions tx;
     signatures := signatures tx;
     has_signature := has_signature tx |}.

(** [find_or_add_account (tx, pubkey, is_signer, is_writable)]: the
    returned index and the transaction afterwards. *)
Definition find_or_add_account (tx : solana_tx_t) (key : list Z)
  (signer writable : bool) : Z * solana_tx_t :=
  match update_account (accounts tx) key signer writable 0 with
  | Some (i, table) => (i, with_accounts tx table)
  | None =>
      if (MAX_ACCOUNTS <=? length (accounts tx))%nat then (-1, tx)
      else
        (Z.of_nat (length (accounts tx)),
         with_accounts tx
           (accounts tx ++ [ {| pubkey := memcpy key SOLANA_PUBKEY_SIZE;
                                is_signer := signer;
                                is_writable := writable |} ]))
  end.

(** [solana_tx_new (recent_blockhash, payer)]; [None] is NULL. *)
Definition solana_tx_new (recent_blockhash : string) (payer : list Z)
  : option solana_tx_t :=
  match base58_decode recent_blockhash (Z.of_nat SOLANA_BLOCKHASH_SIZE) with
  | None => None
  | Some decoded =>
      if negb (Nat.eqb (length decoded) SOLANA_BLOCKHASH_SIZE) then None
      else
        let tx := {| blockhash := decoded;
                     fee_payer := memcpy payer SOLANA_PUBKEY_SIZE;
                     accounts := [];
                     instructions := [];
                     signatures := repeat 0 SOLANA_SIGNATURE_SIZE;
                     has_signature := false |} in
        Some (snd (find_or_add_account tx payer true true))
  end.

(** [solana_tx_add_transfer (tx, from, to, lamports)]: the return code and
    the transaction afterwards, which keeps the accounts added before a
    failure. *)
Definition solana_tx_add_transfer (tx : solana_tx_t) (from to : list Z)
  (lamports : Z) : esp_err_t * solana_tx_t :=
  if (MAX_INSTRUCTIONS <=? length (instructions tx))%nat
  then (ESP_ERR_NO_MEM, tx)
  else
    let (from_idx, tx) := find_or_add_account tx from true true in
    let (to_idx, tx) := find_or_add_account tx to false true in
    if (from_idx <? 0) || (to_idx <? 0) then (ESP_ERR_NO_MEM, tx)
    else
      let system_program := memcpy SYSTEM_PROGRAM_ID SOLANA_PUBKEY_SIZE in
      let (prog_idx, tx) := find_or_add_account tx system_program false false in
      if prog_idx <? 0 then (ESP_ERR_NO_MEM, tx)
      else
        let data :=
          [ u8 SYSTEM_TRANSFER_INSTRUCTION; 0; 0; 0 ]
            ++ map u8 (amount_le_bytes lamports) in
        let instr := {| program_id := memcpy SYSTEM_PROGRAM_ID SOLANA_PUBKEY_SIZE;
                        account_indexes := [u8 from_idx; u8 to_idx];
                        data := data |} in
        (ESP_OK,
         {| blockhash := blockhash tx;
            fee_payer := fee_payer tx;
            accounts := accounts tx;
            instructions := instructions tx ++ [instr];
            signatures := signatures tx;
            has_signature := has_signature tx |}).

(** *** Serialization

    The writers advance [ptr] and decrease [remaining]; the state below is
    the bytes written so far and [remaining], a [size_t]. *)

Definition put (bytes : list Z) (st : list Z * Z) : list Z * Z :=
  (fst st ++ bytes, size_t (snd st - Z.of_nat (length bytes))).

(** The counting loop of [solana_tx_get_message] over three [uint8_t]
    counters. *)
Fixpoint header_counts (table : list account_meta_t)
  (num_required_sigs num_readonly_signed num_readonly_unsigned : Z)
  : Z * Z * Z :=
  match table with
  | [] => (num_required_sigs, num_readonly_signed, num_readonly_unsigned)
  | a :: rest =>
      if is_signer a then
        header_counts rest (u8 (num_required_sigs + 1))
          (if negb (is_writable a) then u8 (num_readonly_signed + 1)
           else num_readonly_signed)
          num_readonly_unsigned
      else if negb (is_writable a) then
        header_counts rest num_required_sigs num_readonly_signed
          (u8 (num_readonly_unsigned + 1))
      else
        header_counts rest num_required_sigs num_readonly_signed
          num_readonly_unsigned
  end.

(** The loop that copies the account addresses. *)
Fixpoint write_accounts (table : list account_meta_t) (st : list Z * Z)
  : result (list Z * Z) :=
  match table with
  | [] => OK st
  | a :: rest =>
      if snd st <? Z.of_nat SOLANA_PUBKEY_SIZE then Err ESP_ERR_NO_MEM
      else write_accounts rest (put (memcpy (pubkey a) SOLANA_PUBKEY_SIZE) st)
  end.

(** The search for the program among the accounts, from index [j];
    [-1] when it is absent. *)
Fixpoint find_program (table : list account_meta_t) (program : list Z) (j : Z)
  : Z :=
  match table with
  | [] => -1
  | a :: rest =>
      if same_pubkey (pubkey a) program then j
      else find_program rest program (j + 1)
  end.

(** The loop over the instructions. *)
Fixpoint write_instructions (table : list account_meta_t)
  (instrs : list instruction_t) (st : list Z * Z) : result (list Z * Z) :=
  match instrs with
  | [] => OK st
  | instr :: rest =>
      let prog_idx := find_program table (program_id instr) 0 in
      if prog_idx <? 0 then Err ESP_ERR_INVALID_STATE
      else if snd st <? 1 then Err ESP_ERR_NO_MEM
      else
        let st := put [u8 prog_idx] st in
        let st := put (encode_compact_u16 (account_count instr)) st in
        if snd st <? account_count instr then Err ESP_ERR_NO_MEM
        else
          let st := put (account_indexes instr) st in
          let st := put (encode_compact_u16 (u16 (data_len instr))) st in
          if snd st <? data_len instr then Err ESP_ERR_NO_MEM
          else write_instructions table rest (put (data instr) st)
  end.

(** [solana_tx_get_message (tx, message_out, message_len, max_len)]: the
    bytes written to [message_out]; [*message_len] is their number. *)
Definition solana_tx_get_message (tx : solana_tx_t) (max_len : Z)
  : result (list Z) :=
  let remaining := max_len in
  if remaining <? 3 then Err ESP_ERR_NO_MEM
  else
    let '(num_required_sigs, num_readonly_signed, num_readonly_unsigned) :=
      header_counts (accounts tx) 0 0 0 in
    let st :=
      put [num_required_sigs; num_readonly_signed; num_readonly_unsigned]
          ([], remaining) in
    let st :=
      put (encode_compact_u16 (u16 (Z.of_nat (length (accounts tx))))) st in
    match write_accounts (accounts tx) st with
    | Err e => Err e
    | OK st =>
        if snd st <? Z.of_nat SOLANA_BLOCKHASH_SIZE then Err ESP_ERR_NO_MEM
        else
          let st := put (memcpy (blockhash tx) SOLANA_BLOCKHASH_SIZE) st in
          let st :=
            put (encode_compact_u16
                   (u16 (Z.of_nat (length (instructions tx))))) st in
          match write_instructions (accounts tx) (instructions tx) st with
          | Err e => Err e
          | OK st => OK (fst st)
          end
    end.

(** [solana_tx_add_signature (tx, signature)] *)
Definition solana_tx_add_signature (tx : solana_tx_t) (signature : list Z)
  : solana_tx_t :=
  {| blockhash := blockhash tx;
     fee_payer := fee_payer tx;
     accounts := accounts tx;
     instructions := instructions tx;
     signatures := memcpy signature SOLANA_SIGNATURE_SIZE;
     has_signature := true |}.

(** [solana_tx_serialize (tx, output, output_len, max_len)]: the bytes
    written to [output]; [*output_len] is their number. *)
Definition solana_tx_serialize (tx : solana_tx_t) (max_len : Z)
  : result (list Z) :=
  if negb (has_signature tx) then Err ESP_ERR_INVALID_STATE
  else
    let st := put (encode_compact_u16 1) ([], max_len) in
    if snd st <? Z.of_nat SOLANA_SIGNATURE_SIZE then Err ESP_ERR_NO_MEM
    else
      let st := put (memcpy (signatures tx) SOLANA_SIGNATURE_SIZE) st in
      match solana_tx_get_message tx (snd st) with
      | Err e => Err e
      | OK message => OK (fst st ++ message)
      end.

End SolanaTx.

(** ** Reader of the legacy transaction wire format

    The layout of the specification's TransactionBuffer, read back from
    bytes: compact-u16 counts, 64-byte signatures, the 3-byte header,
    32-byte account keys, the blockhash and the compiled instructions. *)

Module Wire.

(** compact-u16: seven bits per byte, least significant group first, the
    high bit marks a continuation. *)
Definition decode_shortvec (bytes : list Z) : option (Z * list Z) :=
  match bytes with
  | b0 :: rest0 =>
      if b0 <? 128 then Some (b0, rest0)
      else
        match rest0 with
        | b1 :: rest1 =>
            if b1 <? 128 then Some (b0 - 128 + b1 * 128, rest1)
            else
              match rest1 with
              | b2 :: rest2 =>
                  Some (b0 - 128 + (b1 - 128) * 128 + b2 * 16384, rest2)
              | [] => None
              end
        | [] => None
        end
  | [] => None
  end.

Definition take_bytes (n : nat) (bytes : list Z) : option (list Z * list Z) :=
  if (length bytes <? n)%nat then None
  else Some (firstn n bytes, skipn n bytes).

Fixpoint take_chunks (count size : nat) (bytes : list Z)
  : option (list (list Z) * list Z) :=
  match count with
  | O => Some ([], bytes)
  | S count' =>
      match take_bytes size bytes with
      | None => None
      | Some (chunk, rest) =>
          match take_chunks count' size rest with
          | None => None
          | Some (chunks, rest') => Some (chunk :: chunks, rest')
          end
      end
  end.

Record message_header : Type := {
  num_required_signatures : Z;
  num_readonly_signed_accounts : Z;
  num_readonly_unsigned_accounts : Z
}.

Record compiled_instruction : Type := {
  program_id_index : Z;
  account_indices : list Z;
  data : list Z
}.

Record transaction : Type := {
  signatures : list (list Z);
  header : message_header;
  account_keys : list (list Z);
  recent_blockhash : list Z;
  instructions : list compiled_instruction
}.

Definition parse_instruction (bytes : list Z)
  : option (compiled_instruction * list Z) :=
  match bytes with
  | [] => None
  | program :: rest =>
      match decode_shortvec rest with
      | None => None
      | Some (n_accounts, rest) =>
          match take_bytes (Z.to_nat n_accounts) rest with
          | None => None
          | Some (accounts, rest) =>
              match decode_shortvec rest with
              | None => None
              | Some (n_data, rest) =>
                  match take_bytes (Z.to_nat n_data) rest with
                  | None => None
                  | Some (data, rest) =>
                      Some ({| program_id_index := program;
                               account_indices := accounts;
                               data := data |}, rest)
                  end
              end
          end
      end
  end.

Fixpoint parse_instructions (count : nat) (bytes : list Z)
  : option (list compiled_instruction * list Z) :=
  match count with
  | O => Some ([], bytes)
  | S count' =>
      match parse_instruction bytes with
      | None => None
      | Some (i, rest) =>
          match parse_instructions count' rest with
          | None => None
          | Some (more, rest') => Some (i :: more, rest')
          end
      end
  end.

(** The whole buffer as one transaction; trailing bytes are an error. *)
Definition parse_transaction (bytes : list Z) : option transaction :=
  match decode_shortvec bytes with
  | None => None
  | Some (n_signatures, rest) =>
  match take_chunks (Z.to_nat n_signatures) 64 rest with
  | None => None
  | Some (sigs, rest) =>
  match rest with
  | h0 :: h1 :: h2 :: rest =>
    match decode_shortvec rest with
    | None => None
    | Some (n_accounts, rest) =>
    match take_chunks (Z.to_nat n_accounts) 32 rest with
    | None => None
    | Some (keys, rest) =>
    match take_bytes 32 rest with
    | None => None
    | Some (blockhash, rest) =>
    match decode_shortvec rest with
    | None => None
    | Some (n_instructions, rest) =>
    match parse_instructions (Z.to_nat n_instructions) rest with
    | Some (parsed, []) =>
        Some {| signatures := sigs;
                header := {| num_required_signatures := h0;
                             num_readonly_signed_accounts := h1;
                             num_readonly_unsigned_accounts := h2 |};
                account_keys := keys;
                recent_blockhash := blockhash;
                instructions := parsed |}
    | _ => None
    end end end end end
  | _ => None
  end end end.

(** Signature slot [i]: bytes [1 + 64 i, 1 + 64 (i + 1)) of the buffer. *)
Definition signature_slot (i : nat) (tx : list Z) : list Z :=
  firstn 64 (skipn (1 + 64 * i) tx).

(** The signed message: everything after the count byte and the two
    signature slots, bytes [129, end). *)
Definition message_bytes (tx : list Z) : list Z := skipn 129 tx.

(** The amount as a 64-bit little-endian integer. *)
Fixpoint le_bytes (width : nat) (value : Z) : list Z :=
  match width with
  | O => []
  | S width' => value mod 256 :: le_bytes width' (value / 256)
  end.

End Wire.

(** ** Reader of JSON texts

    The reader against which the payment header is stated: the grammar of
    RFC 8259 over bytes, with the numbers restricted to integers and the
    [\u] escapes to ASCII.  It shares nothing with the printer. *)

Module JsonText.

Definition is_space (b : Z) : bool :=
  (b =? 32) || (b =? 9) || (b =? 10) || (b =? 13).

Fixpoint skip_space (bytes : list Z) : list Z :=
  match bytes with
  | b :: rest => if is_space b then skip_space rest else bytes
  | [] => []
  end.

Definition is_digit (b : Z) : bool := (48 <=? b) && (b <=? 57).

Definition hex_value (b : Z) : option Z :=
  if (48 <=? b) && (b <=? 57) then Some (b - 48)
  else if (97 <=? b) && (b <=? 102) then Some (b - 87)
  else if (65 <=? b) && (b <=? 70) then Some (b - 55)
  else None.

Definition char_of (b : Z) : ascii := ascii_of_N (Z.to_N b).

(** One character of a string: a byte that stands for itself, or an
    escape.  A quote or a control character does not stand for itself. *)
Definition read_char (bytes : list Z) : option (ascii * list Z) :=
  match bytes with
  | [] => None
  | b :: rest =>
      if b =? 92 then
        match rest with
        | [] => None
        | e :: rest =>
            if e =? 34 then Some (char_of 34, rest)
            else if e =? 92 then Some (char_of 92, rest)
            else if e =? 47 then Some (char_of 47, rest)
            else if e =? 98 then Some (char_of 8, rest)
            else if e =? 102 then Some (char_of 12, rest)
            else if e =? 110 then Some (char_of 10, rest)
            else if e =? 114 then Some (char_of 13, rest)
            else if e =? 116 then Some (char_of 9, rest)
            else if e =? 117 then
              match rest with
              | h3 :: h2 :: h1 :: h0 :: rest =>
                  match hex_value h3, hex_value h2,
                        hex_value h1, hex_value h0 with
                  | Some d3, Some d2, Some d1, Some d0 =>
                      let code := ((d3 * 16 + d2) * 16 + d1) * 16 + d0 in
                      if code <? 128 then Some (char_of code, rest) else None
                  | _, _, _, _ => None
                  end
              | _ => None
              end
            else None
        end
      else if (b <? 32) || (b =? 34) || (255 <? b) then None
      else Some (char_of b, rest)
  end.

(** The characters of a string up to its closing quote. *)
Fixpoint read_chars (fuel : nat) (bytes : list Z)
  : option (list ascii * list Z) :=
  match fuel with
  | O => None
  | S fuel =>
      match bytes with
      | [] => None
      | b :: rest =>
          if b =? 34 then Some ([], rest)
          else
            match read_char bytes with
            | Some (c, rest) =>
                match read_chars fuel rest with
                | Some (cs, rest) => Some (c :: cs, rest)
                | None => None
                end
            | None => None
            end
      end
  end.

(** A string from its opening quote on. *)
Definition read_string (bytes : list Z) : option (string * list Z) :=
  match bytes with
  | b :: rest =>
      if b =? 34 then
        match read_chars (length rest) rest with
        | Some (cs, rest) => Some (string_of_list_ascii cs, rest)
        | None => None
        end
      else None
  | [] => None
  end.

Fixpoint read_digits (value : Z) (bytes : list Z) : Z * list Z :=
  match bytes with
  | b :: rest =>
      if is_digit b then read_digits (value * 10 + (b - 48)) rest
      else (value, bytes)
  | [] => (value, [])
  end.

(** An integer: an optional minus sign and digits; a fraction or an
    exponent after them is refused. *)
Definition read_integer (bytes : list Z) : option (Z * list Z) :=
  let (negative, digits) :=
    match bytes with
    | b :: rest => if b =? 45 then (true, rest) else (false, bytes)
    | [] => (false, [])
    end in
  match digits with
  | d :: _ =>
      if is_digit d then
        let (value, rest) := read_digits 0 digits in
        let value := if negative then - value else value in
        match rest with
        | c :: _ =>
            if (c =? 46) || (c =? 101) || (c =? 69) then None
            else Some (value, rest)
        | [] => Some (value, [])
        end
      else None
  | [] => None
  end.

(** [bytes] without the prefix [word], when it starts with it. *)
Fixpoint read_word (word : list Z) (bytes : list Z) : option (list Z) :=
  match word, bytes with
  | [], _ => Some bytes
  | w :: word, b :: bytes => if w =? b then read_word word bytes else None
  | _ :: _, [] => None
  end.

(** A value, the members of an object after its brace, the elements of
    an array after its bracket. *)
Fixpoint read_value (fuel : nat) (bytes : list Z) {struct fuel}
  : option (cJSON * list Z) :=
  match fuel with
  | O => None
  | S fuel =>
      match skip_space bytes with
      | [] => None
      | b :: rest =>
          if b =? 123 then
            match skip_space rest with
            | c :: after =>
                if c =? 125 then Some (cJSON_Object [], after)
                else
                  match read_members fuel (c :: after) with
                  | Some (children, rest) => Some (cJSON_Object children, rest)
                  | None => None
                  end
            | [] => None
            end
          else if b =? 91 then
            match skip_space rest with
            | c :: after =>
                if c =? 93 then Some (cJSON_Array [], after)
                else
                  match read_elements fuel (c :: after) with
                  | Some (items, rest) => Some (cJSON_Array items, rest)
                  | None => None
                  end
            | [] => None
            end
          else if b =? 34 then
            match read_string (b :: rest) with
            | Some (s, rest) => Some (cJSON_String s, rest)
            | None => None
            end
          else if b =? 116 then
            match read_word [116; 114; 117; 101] (b :: rest) with
            | Some rest => Some (cJSON_Bool true, rest)
            | None => None
            end
          else if b =? 102 then
            match read_word [102; 97; 108; 115; 101] (b :: rest) with
            | Some rest => Some (cJSON_Bool false, rest)
            | None => None
            end
          else if b =? 110 then
            match read_word [110; 117; 108; 108] (b :: rest) with
            | Some rest => Some (cJSON_Null, rest)
            | None => None
            end
          else
            match read_integer (b :: rest) with
            | Some (n, rest) => Some (cJSON_Number n, rest)
            | None => None
            end
      end
  end
with read_members (fuel : nat) (bytes : list Z) {struct fuel}
  : option (list (string * cJSON) * list Z) :=
  match fuel with
  | O => None
  | S fuel =>
      match read_string bytes with
      | Some (key, rest) =>
          match skip_space rest with
          | c :: rest =>
              if c =? 58 then
                match read_value fuel rest with
                | Some (item, rest) =>
                    match skip_space rest with
                    | d :: rest =>
                        if d =? 44 then
                          match read_members fuel (skip_space rest) with
                          | Some (more, rest) =>
                              Some ((key, item) :: more, rest)
                          | None => None
                          end
                        else if d =? 125 then Some ([(key, item)], rest)
                        else None
                    | [] => None
                    end
                | None => None
                end
              else None
          | [] => None
          end
      | None => None
      end
  end
with read_elements (fuel : nat) (bytes : list Z) {struct fuel}
  : option (list cJSON * list Z) :=
  match fuel with
  | O => None
  | S fuel =>
      match read_value fuel bytes with
      | Some (item, rest) =>
          match skip_space rest with
          | d :: rest =>
              if d =? 44 then
                match read_elements fuel rest with
                | Some (more, rest) => Some (item :: more, rest)
                | None => None
                end
              else if d =? 93 then Some ([item], rest)
              else None
          | [] => None
          end
      | None => None
      end
  end.

(** A whole text: one value, and nothing but white space after it. *)
Definition read_document (bytes : list Z) : option cJSON :=
  match read_value (length bytes) bytes with
  | Some (value, rest) =>
      match skip_space rest with
      | [] => Some value
      | _ :: _ => None
      end
  | None => None
  end.

End JsonText.

(** ** Reference collaborators

    Concrete library functions for worked examples: SHA-256 (FIPS 180-4),
    the point decompression test of TweetNaCl's [unpackneg] over the
    field of order [2^255 - 19], a stand-in signer of the right shape,
    and a table of JSON fixtures in place of [cJSON_Parse]. *)

Module Reference.

Definition add32 (a b : Z) : Z := (a + b) mod 2 ^ 32.

Definition rotr (n x : Z) : Z :=
  (Z.lor (Z.shiftr x n) (Z.shiftl x (32 - n))) mod 2 ^ 32.

(** The round constants: the first 32 fractional bits of the cube roots
    of the first 64 primes. *)
Definition K256 : list Z :=
  [
    1116352408; 1899447441; 3049323471; 3921009573; 961987163; 1508970993;
    2453635748; 2870763221; 3624381080; 310598401; 607225278; 1426881987;
    1925078388; 2162078206; 2614888103; 3248222580; 3835390401; 4022224774;
    264347078; 604807628; 770255983; 1249150122; 1555081692; 1996064986;
    2554220882; 2821834349; 2952996808; 3210313671; 3336571891; 3584528711;
    113926993; 338241895; 666307205; 773529912; 1294757372; 1396182291;
    1695183700; 1986661051; 2177026350; 2456956037; 2730485921; 2820302411;
    3259730800; 3345764771; 3516065817; 3600352804; 4094571909; 275423344;
    430227734; 506948616; 659060556; 883997877; 958139571; 1322822218;
    1537002063; 1747873779; 1955562222; 2024104815; 2227730452; 2361852424;
    2428436474; 2756734187; 3204031479; 3329325298 ].

(** The eight working variables [a .. h]. *)
Record sha_state : Type := {
  sa : Z; sb : Z; sc : Z; sd : Z; se : Z; sf : Z; sg : Z; sh : Z
}.

Definition sha_init : sha_state :=
  {| sa := 1779033703; sb := 3144134277; sc := 1013904242; sd := 2773480762;
     se := 1359893119; sf := 2600822924; sg := 528734635; sh := 1541459225 |}.

Definition sha_round (s : sha_state) (kw : Z * Z) : sha_state :=
  let (k, w) := kw in
  let S1 := Z.lxor (Z.lxor (rotr 6 (se s)) (rotr 11 (se s))) (rotr 25 (se s)) in
  let ch := Z.lxor (Z.land (se s) (sf s))
                   (Z.land (Z.lxor (se s) (2 ^ 32 - 1)) (sg s)) in
  let t1 := add32 (add32 (add32 (sh s) S1) (add32 ch k)) w in
  let S0 := Z.lxor (Z.lxor (rotr 2 (sa s)) (rotr 13 (sa s))) (rotr 22 (sa s)) in
  let maj := Z.lxor (Z.lxor (Z.land (sa s) (sb s)) (Z.land (sa s) (sc s)))
                    (Z.land (sb s) (sc s)) in
  let t2 := add32 S0 maj in
  {| sa := add32 t1 t2; sb := sa s; sc := sb s; sd := sc s;
     se := add32 (sd s) t1; sf := se s; sg := sf s; sh := sg s |}.

Fixpoint words_of_bytes (bytes : list Z) : list Z :=
  match bytes with
  | b0 :: b1 :: b2 :: b3 :: rest =>
      (b0 * 2 ^ 24 + b1 * 2 ^ 16 + b2 * 2 ^ 8 + b3) :: words_of_bytes rest
  | _ => []
  end.

(** The message schedule, most recent word first. *)
Fixpoint extend_schedule (n : nat) (recent : list Z) : list Z :=
  match n with
  | O => recent
  | S n' =>
      let w2 := nth 1 recent 0 in
      let w7 := nth 6 recent 0 in
      let w15 := nth 14 recent 0 in
      let w16 := nth 15 recent 0 in
      let s0 := Z.lxor (Z.lxor (rotr 7 w15) (rotr 18 w15)) (Z.shiftr w15 3) in
      let s1 := Z.lxor (Z.lxor (rotr 17 w2) (rotr 19 w2)) (Z.shiftr w2 10) in
      extend_schedule n' (add32 (add32 s1 w7) (add32 s0 w16) :: recent)
  end.

Definition sha_block (s : sha_state) (block : list Z) : sha_state :=
  let w := rev (extend_schedule 48 (rev (words_of_bytes block))) in
  let r := fold_left sha_round (combine K256 w) s in
  {| sa := add32 (sa s) (sa r); sb := add32 (sb s) (sb r);
     sc := add32 (sc s) (sc r); sd := add32 (sd s) (sd r);
     se := add32 (se s) (se r); sf := add32 (sf s) (sf r);
     sg := add32 (sg s) (sg r); sh := add32 (sh s) (sh r) |}.

Fixpoint sha_blocks (count : nat) (s : sha_state) (bytes : list Z) : sha_state :=
  match count with
  | O => s
  | S count' => sha_blocks count' (sha_block s (firstn 64 bytes)) (skipn 64 bytes)
  end.

Definition be_bytes4 (w : Z) : list Z :=
  [ w / 2 ^ 24 mod 256; w / 2 ^ 16 mod 256; w / 2 ^ 8 mod 256; w mod 256 ].

Definition sha_pad (data : list Z) : list Z :=
  let len := Z.of_nat (length data) in
  let zeros := Z.to_nat ((55 - len) mod 64) in
  let bits := 8 * len in
  data ++ [128] ++ repeat 0 zeros
       ++ be_bytes4 (bits / 2 ^ 32) ++ be_bytes4 (bits mod 2 ^ 32).

Definition sha256 (data : list Z) : list Z :=
  let padded := sha_pad (map (fun b => b mod 256) data) in
  let s := sha_blocks (length padded / 64) sha_init padded in
  be_bytes4 (sa s) ++ be_bytes4 (sb s) ++ be_bytes4 (sc s) ++ be_bytes4 (sd s)
    ++ be_bytes4 (se s) ++ be_bytes4 (sf s) ++ be_bytes4 (sg s)
    ++ be_bytes4 (sh s).

(** The field of Ed25519. *)
Definition P25519 : Z := 2 ^ 255 - 19.

Definition D25519 : Z :=
  37095705934669439343138083508754565189542113879843219016388785533085940283555.

Definition I25519 : Z :=
  19681161376707505956807079304988542015446066515923890162744021073123829784752.

(** Reduction modulo [2^255 - 19] of a product of two reduced values:
    [2^255] is congruent to 19, so the high part folds onto the low
    part. *)
Definition fold255 (x : Z) : Z :=
  Z.land x (Z.ones 255) + 19 * Z.shiftr x 255.

Definition reduce (x : Z) : Z :=
  let r := fold255 (fold255 x) in
  if r >=? P25519 then r - P25519 else r.

Definition fmul (a b : Z) : Z := reduce (a * b).

Fixpoint pow_mod (base : Z) (e : positive) : Z :=
  match e with
  | xH => base
  | xO e' => let h := pow_mod base e' in fmul h h
  | xI e' => let h := pow_mod base e' in fmul (fmul h h) base
  end.

Definition le_int (bytes : list Z) : Z :=
  fold_right (fun b acc => b mod 256 + 256 * acc) 0 bytes.

(** [unpackneg]: [y] is the 255 low bits; the candidate root of
    [(y^2 - 1) / (d y^2 + 1)] is tried as is and times [sqrt (-1)]. *)
Definition unpackneg (p : list Z) : Z :=
  let y := (le_int (firstn 32 p) mod 2 ^ 255) mod P25519 in
  let num := (fmul y y - 1) mod P25519 in
  let den := (fmul D25519 (fmul y y) + 1) mod P25519 in
  let den2 := fmul den den in
  let den4 := fmul den2 den2 in
  let den6 := fmul den4 den2 in
  let t := fmul (fmul den6 num) den in
  let t := match (P25519 - 5) / 8 with
           | Zpos e => pow_mod t e
           | _ => 1
           end in
  let x := fmul (fmul (fmul (fmul t num) den) den) den in
  let x := if fmul (fmul x x) den =? num then x else fmul x I25519 in
  if fmul (fmul x x) den =? num then 0 else -1.

(** A deterministic stand-in for [crypto_sign]: 64 bytes derived from the
    key and the message, followed by the message. *)
Definition crypto_sign (m sk : list Z) : Z * list Z :=
  (0, sha256 (sk ++ m) ++ sha256 (m ++ sk) ++ m).

(** JSON fixtures: the documents a scenario's server sends, with the
    trees cJSON would build for them. *)
Fixpoint lookup_document (table : list (string * cJSON)) (text : string)
  : option cJSON :=
  match table with
  | [] => None
  | (t, tree) :: rest =>
      if String.eqb t text then Some tree else lookup_document rest text
  end.

(** Base64 decoding into a buffer of [dlen] bytes. *)
Definition base64_decode (src : string) (dlen : Z) : Z * list Z :=
  match Base64.decode (list_ascii_of_string src) with
  | Some bytes =>
      if Z.of_nat (length bytes) >? dlen
      then (Base64.MBEDTLS_ERR_BASE64_BUFFER_TOO_SMALL, [])
      else (0, bytes)
  | None => (-44, [])
  end.

End Reference.

(** ** Vocabulary of the statements *)

Module Spec.

Import SplToken.

Section WithExternals.
Context {ext : Externals}.

(** The SHA-256 candidate of the ATA of [(wallet, mint, token_program)]
    for one bump seed. *)
Definition ata_candidate (wallet mint token_program : list Z) (bump : Z)
  : list Z :=
  sha256 (pda_preimage
            (memcpy wallet 32 ++ memcpy token_program 32 ++ memcpy mint 32)
            bump SPL_ASSOCIATED_TOKEN_PROGRAM_ID).

End WithExternals.

(** The transaction the specification prescribes for a transfer. *)
Definition transfer_transaction
  (fee_payer payer source_ata dest_ata token_program blockhash : list Z)
  (amount : Z) : Wire.transaction :=
  {| Wire.signatures := [repeat 0 64; repeat 0 64];
     Wire.header := {| Wire.num_required_signatures := 2;
                       Wire.num_readonly_signed_accounts := 1;
                       Wire.num_readonly_unsigned_accounts := 1 |};
     Wire.account_keys :=
       [fee_payer; payer; source_ata; dest_ata; token_program];
     Wire.recent_blockhash := blockhash;
     Wire.instructions :=
       [ {| Wire.program_id_index := 4;
            Wire.account_indices := [2; 3; 1];
            Wire.data := 3 :: Wire.le_bytes 8 amount |} ] |}.

(** The transaction the older builder assembles: four accounts, no fee
    payer. *)
Definition legacy_transfer_transaction
  (payer source_ata dest_ata blockhash : list Z) (amount : Z)
  : Wire.transaction :=
  {| Wire.signatures := [repeat 0 64; repeat 0 64];
     Wire.header := {| Wire.num_required_signatures := 2;
                       Wire.num_readonly_signed_accounts := 0;
                       Wire.num_readonly_unsigned_accounts := 1 |};
     Wire.account_keys :=
       [payer; source_ata; dest_ata; SPL_TOKEN_PROGRAM_ID];
     Wire.recent_blockhash := blockhash;
     Wire.instructions :=
       [ {| Wire.program_id_index := 3;
            Wire.account_indices := [1; 2; 0];
            Wire.data := 3 :: Wire.le_bytes 8 amount |} ] |}.

(** Positional notation: the value of a list of digits, least
    significant first. *)
Fixpoint le_value (base : Z) (digits : list Z) : Z :=
  match digits with
  | [] => 0
  | d :: rest => d + base * le_value base rest
  end.

(** Every digit is below the base. *)
Definition in_base (base : Z) (digits : list Z) : Prop :=
  Forall (fun d => 0 <= d < base) digits.

(** No superfluous most significant digit: one digit, or a value that
    needs them all. *)
Definition normal (base : Z) (digits : list Z) : Prop :=
  length digits = 1%nat
  \/ base ^ Z.of_nat (length digits - 1) <= le_value base digits.

(** The value of a list of digits, most significant first, continuing
    from [acc]. *)
Definition be_from (base : Z) (acc : Z) (digits : list Z) : Z :=
  fold_left (fun acc d => acc * base + d) digits acc.

(** The state after one more request. *)
Definition after_request (w : world) (x : http_exchange) : world :=
  {| trace := trace w ++ [x]; g_rpc_client := g_rpc_client w |}.

(** The client the payment path talks to: [g_rpc_client], created on
    first use. *)
Definition rpc_client_of (w : world) : solana_rpc_client_t :=
  match g_rpc_client w with
  | Some client => client
  | None => SolanaRpc.solana_rpc_init SolanaRpc.SOLANA_RPC_DEVNET
  end.

(** The blockhash request as the payment path issues it from state [w]. *)
Definition blockhash_exchange (w : world) : http_exchange :=
  SolanaRpc.rpc_exchange (rpc_client_of w) "getLatestBlockhash"
    (Some SolanaRpc.LATEST_BLOCKHASH_PARAMS).

(** The envelope the payment header must hold for a payload: a flat
    object of four members. *)
Definition flat_envelope (payload : x402_payment_payload_t) : cJSON :=
  cJSON_Object
    [ ("x402Version"%string, cJSON_Number (x402_version payload));
      ("scheme"%string, cJSON_String (scheme payload));
      ("network"%string, cJSON_String (payload_network payload));
      ("payload"%string,
       cJSON_Object
         match payload_transaction payload with
         | Some transaction =>
             [("transaction"%string, cJSON_String transaction)]
         | None => []
         end) ].

End Spec.

(** ** Vocabulary for the properties of the transaction builder *)

Module TxSpec.

Import SplToken SolanaTx.

(** The 32 bytes [memcmp] reads of each entry of the account table. *)
Definition stored_keys (tx : solana_tx_t) : list (list Z) :=
  map (fun a => memcpy (pubkey a) SOLANA_PUBKEY_SIZE) (accounts tx).

(** The transactions a caller can reach through the public functions,
    with 32-byte keys. *)
Inductive built : solana_tx_t -> Prop :=
| built_new (recent_blockhash : string) (payer : list Z) (tx : solana_tx_t) :
    length payer = 32%nat ->
    solana_tx_new recent_blockhash payer = Some tx ->
    built tx
| built_transfer (tx : solana_tx_t) (from to : list Z) (lamports : Z) :
    length from = 32%nat -> length to = 32%nat ->
    built tx ->
    built (snd (solana_tx_add_transfer tx from to lamports))
| built_signature (tx : solana_tx_t) (signature : list Z) :
    built tx ->
    built (solana_tx_add_signature tx signature).

(** The wire form of one instruction: program index, compact-u16 count
    and the account indexes, compact-u16 length and the data. *)
Definition instruction_bytes (table : list account_meta_t)
  (instr : instruction_t) : list Z :=
  [u8 (find_program table (program_id instr) 0)]
    ++ encode_compact_u16 (account_count instr)
    ++ account_indexes instr
    ++ encode_compact_u16 (u16 (data_len instr))
    ++ data instr.

(** The wire form of the message of a transaction: header, account
    keys, blockhash, instructions. *)
Definition message_bytes (tx : solana_tx_t) : list Z :=
  let '(num_required_sigs, num_readonly_signed, num_readonly_unsigned) :=
    header_counts (accounts tx) 0 0 0 in
  [num_required_sigs; num_readonly_signed; num_readonly_unsigned]
    ++ encode_compact_u16 (u16 (Z.of_nat (length (accounts tx))))
    ++ concat (stored_keys tx)
    ++ memcpy (blockhash tx) SOLANA_BLOCKHASH_SIZE
    ++ encode_compact_u16 (u16 (Z.of_nat (length (instructions tx))))
    ++ concat (map (instruction_bytes (accounts tx)) (instructions tx)).

(** What the public functions maintain: a table of at most
    [MAX_ACCOUNTS] distinct 32-byte keys headed by the fee payer as a
    writable signer, at most [MAX_INSTRUCTIONS] transfer instructions, each
    of them naming a program of the table and accounts by valid indexes. *)
Definition well_formed (tx : solana_tx_t) : Prop :=
  (length (accounts tx) <= MAX_ACCOUNTS)%nat
  /\ (length (instructions tx) <= MAX_INSTRUCTIONS)%nat
  /\ NoDup (stored_keys tx)
  /\ Forall (fun a => length (pubkey a) = 32%nat) (accounts tx)
  /\ length (blockhash tx) = 32%nat
  /\ (exists a rest,
        accounts tx = a :: rest
        /\ pubkey a = fee_payer tx
        /\ is_signer a = true /\ is_writable a = true)
  /\ Forall (fun instr =>
               In (memcpy (program_id instr) 32) (stored_keys tx)
               /\ Forall (fun i => 0 <= i < Z.of_nat (length (accounts tx)))
                         (account_indexes instr)
               /\ length (account_indexes instr) = 2%nat
               /\ length (data instr) = 12%nat)
            (instructions tx).

End TxSpec.

(** ** Scenarios

    A scripted server, JSON fixtures and the reference collaborators, for
    running the driver on concrete inputs. *)

Module Scenario.

Import Json Encoding Client.

Lemma reference_sha256_length (data : list Z) :
  length (Reference.sha256 data) = 32%nat.
Proof. reflexivity. Qed.

Lemma reference_crypto_sign_length (m sk sm : list Z) :
  Reference.crypto_sign m sk = (0, sm) -> length sm = (64 + length m)%nat.
Proof.
  unfold Reference.crypto_sign. intros H.
  pose proof (f_equal snd H) as E. cbn [snd] in E. subst sm.
  rewrite !length_app, !reference_sha256_length. reflexivity.
Qed.

(** A fixture: the text the server sends for a tree. *)
Definition document (tree : cJSON) : string * cJSON :=
  (cJSON_PrintUnformatted tree, tree).

(** The reference collaborators over a table of fixtures; the missing
    array sizes are 64 for the keys, 32 and 64 for scheme and network. *)
Definition externals (documents : list (string * cJSON)) : Externals :=
  {| sha256 := Reference.sha256;
     sha256_length := reference_sha256_length;
     unpackneg := Reference.unpackneg;
     crypto_sign := Reference.crypto_sign;
     crypto_sign_length := reference_crypto_sign_length;
     cJSON_Parse := Reference.lookup_document documents;
     mbedtls_base64_decode := Reference.base64_decode;
     sizeof_asset := 64;
     sizeof_fee_payer := 64;
     sizeof_payload_scheme := 32;
     sizeof_payload_network := 64 |}.

(** An integral stand-in for [double]: [atof] reads the integer prefix. *)
Definition integral_floating : Floating :=
  {| double := Z;
     atof := fun s => fst (Libc.strtoull s);
     double_mul_u64 := Z.mul;
     double_to_u64 := u64 |}.

(** Exact decimal arithmetic standing in for [double]: a value is a
    mantissa and a number of decimal places; [atof] reads digits with an
    optional fraction and the cast drops the fraction. *)
Definition decimal_atof (s : string) : Z * nat :=
  let (whole, rest) := Libc.span Libc.isdigit (list_ascii_of_string s) in
  match rest with
  | c :: after =>
      if Ascii.eqb c "."%char then
        let (fraction, _) := Libc.span Libc.isdigit after in
        (Libc.decimal_value (whole ++ fraction), length fraction)
      else (Libc.decimal_value whole, O)
  | [] => (Libc.decimal_value whole, O)
  end.

Definition decimal_floating : Floating :=
  {| double := Z * nat;
     atof := decimal_atof;
     double_mul_u64 := fun d k => (fst d * k, snd d);
     double_to_u64 := fun d => u64 (fst d / 10 ^ Z.of_nat (snd d)) |}.

Definition no_reply : http_reply :=
  {| hr_err := ESP_FAIL;
     hr_status := 0;
     hr_content_length := 0;
     hr_payment_response := None;
     hr_data := None |}.

(** A server that answers the [n]-th request with the [n]-th reply. *)
Definition scripted (replies : list http_reply) : Network :=
  {| esp_http_client_perform :=
       fun history _ => nth (length history) replies no_reply |}.

Definition reply (status : Z) (data : string) (payment_response : option string)
  : http_reply :=
  {| hr_err := ESP_OK;
     hr_status := status;
     hr_content_length := Z.of_nat (String.length data);
     hr_payment_response := payment_response;
     hr_data := Some data |}.

Definition RECIPIENT : string := "4vJ9JU1bJJE96FWSJKvHsmmFADCg4gpZQff4P3bkLKi".
Definition ASSET : string := "4zMMC9srt5Ri5X14GAgXhaHii3GnPAEERYPJgZJDncDU".
Definition FEE_PAYER : string := "4wBqpZM9xaSheZzJSMawUKKwhdpChKbZ5eu5ky4Vigw".
Definition BLOCKHASH : string := "7ppk9w8NHnH6ehajvJyU31VcMafwZ3ybRtJWumSyD2wd".
Definition TOKEN_PROGRAM : string := "TokenkegQfeZyiNwAJbNbGKPFXCWuBvf9Ss623VQ5DA".
Definition API_URL : string := "http://192.168.1.100:4021/protected".

(** The 402 challenge for an amount, with or without [extra.feePayer]. *)
Definition challenge (amount : string) (fee_payer : option string) : cJSON :=
  cJSON_Object
    [ ("accepts"%string,
       cJSON_Array
         [ cJSON_Object
             ([ ("payTo"%string, cJSON_String RECIPIENT);
                ("network"%string, cJSON_String "solana-devnet");
                ("asset"%string, cJSON_String ASSET);
                ("maxAmountRequired"%string, cJSON_String amount) ]
              ++ match fee_payer with
                 | Some f =>
                     [ ("extra"%string,
                        cJSON_Object [("feePayer"%string, cJSON_String f)]) ]
                 | None => []
                 end) ]) ].

Definition account_info : cJSON :=
  cJSON_Object
    [ ("result"%string,
       cJSON_Object
         [ ("value"%string,
            cJSON_Object [("owner"%string, cJSON_String TOKEN_PROGRAM)]) ]) ].

Definition latest_blockhash : cJSON :=
  cJSON_Object
    [ ("result"%string,
       cJSON_Object
         [ ("value"%string,
            cJSON_Object [("blockhash"%string, cJSON_String BLOCKHASH)]) ]) ].

Definition receipt : cJSON :=
  cJSON_Object
    [ ("transaction"%string, cJSON_String "3xK9LmpQ7Zv");
      ("success"%string, cJSON_Bool true);
      ("network"%string, cJSON_String "solana-devnet") ].


Definition documents (amount : string) (fee_payer : option string)
  : list (string * cJSON) :=
  [ document (challenge amount fee_payer); document account_info;
    document latest_blockhash; document receipt ].

(** The shipped test wallet: the all-zero [TEST_SECRET_KEY]. *)
Definition test_wallet : Wallet.solana_wallet_t :=
  Wallet.solana_wallet_from_keypair (repeat 0 64).

Definition fresh : world := {| trace := []; g_rpc_client := None |}.

(** A paid call: 402 challenge, the two RPC answers, then the answer to
    the retry. *)
Definition paid_script (amount : string) (fee_payer : option string)
  (retry : http_reply) : list http_reply :=
  [ reply 402 (cJSON_PrintUnformatted (challenge amount fee_payer)) None;
    reply 200 (cJSON_PrintUnformatted account_info) None;
    reply 200 (cJSON_PrintUnformatted latest_blockhash) None;
    retry ].

(** The older payment path asks for the blockhash only. *)
Definition legacy_script : list http_reply :=
  [ reply 200 (cJSON_PrintUnformatted latest_blockhash) None ].

(** *** A rejected payment: the retry is answered 402 again *)

Definition paid_externals : Externals :=
  externals (documents "100" (Some FEE_PAYER)).

Definition rejection : http_reply := reply 402 "payment rejected" None.

Definition rejecting_server : Network :=
  scripted (paid_script "100" (Some FEE_PAYER) rejection).


Definition unpaid_exchange : http_exchange :=
  exchange_of API_URL "GET" None None.


Definition after_challenge : world :=
  {| trace := [unpaid_exchange]; g_rpc_client := None |}.

Definition parsed_requirements : x402_payment_requirements_t :=
  {| recipient := RECIPIENT;
     network := "solana-devnet";
     asset := ASSET;
     price_amount := "100";
     price_currency := "USDC";
     facilitator_url := EmptyString;
     facilitator_fee_payer := FEE_PAYER;
     valid := true |}.

(** The payment the device creates for the challenge, evaluated. *)
Definition created_payment : result x402_payment_payload_t * world :=
  Eval vm_compute in
    @Payment.x402_create_solana_payment paid_externals rejecting_server
      test_wallet parsed_requirements after_challenge.

Definition the_payload : x402_payment_payload_t :=
  match fst created_payment with
  | OK payload => payload
  | Err _ => {| x402_version := 0; scheme := EmptyString;
                payload_network := EmptyString;
                payload_transaction := None |}
  end.

Definition after_payment : world := snd created_payment.

Definition the_header : string :=
  match x402_encode_payment_payload the_payload 8192 with
  | OK text => text
  | Err _ => EmptyString
  end.



(** *** A challenge without [extra.feePayer] *)






(** *** The older payment path *)

Definition legacy_externals : Externals := externals [document latest_blockhash].

Definition legacy_server : Network := scripted legacy_script.

(** Requirements as the older path reads them: recipient, network and
    amount. *)
Definition legacy_requirements (amount : string)
  : x402_payment_requirements_t :=
  {| recipient := RECIPIENT;
     network := "solana-devnet";
     asset := EmptyString;
     price_amount := amount;
     price_currency := "USDC";
     facilitator_url := EmptyString;
     facilitator_fee_payer := EmptyString;
     valid := true |}.

(** The older path run on an amount of 100 base units. *)
Definition legacy_signed : result (list Z) * world :=
  Eval vm_compute in
    @LegacyPayment.x402_signed_transaction legacy_externals
      integral_floating legacy_server test_wallet
      (legacy_requirements "100") fresh.

Definition legacy_tx : list Z :=
  match fst legacy_signed with
  | OK tx => tx
  | Err _ => []
  end.

Definition legacy_created
  : result LegacyPayment.x402_payment_payload_t * world :=
  Eval vm_compute in
    @LegacyPayment.x402_create_solana_payment legacy_externals
      integral_floating legacy_server test_wallet
      (legacy_requirements "100") fresh.

Definition legacy_payload : LegacyPayment.x402_payment_payload_t :=
  match fst legacy_created with
  | OK payload => payload
  | Err _ =>
      {| LegacyPayment.version := 0;
         LegacyPayment.kind :=
           {| LegacyPayment.kind_x402_version := 0;
              LegacyPayment.kind_scheme := EmptyString;
              LegacyPayment.kind_network := EmptyString;
              LegacyPayment.kind_transaction := None |} |}
  end.

Definition recipient_key : list Z :=
  Eval vm_compute in
    match Payment.decode_pubkey RECIPIENT with
    | OK key => key
    | Err _ => []
    end.

(** *** A challenge whose amount carries a sign *)

Definition signed_amount_externals : Externals :=
  externals (documents "-5" (Some FEE_PAYER)).

Definition signed_amount_server : Network :=
  scripted (paid_script "-5" (Some FEE_PAYER) (reply 200 "content" None)).

Definition signed_amount_requirements : x402_payment_requirements_t :=
  {| recipient := RECIPIENT;
     network := "solana-devnet";
     asset := ASSET;
     price_amount := "-5";
     price_currency := "USDC";
     facilitator_url := EmptyString;
     facilitator_fee_payer := FEE_PAYER;
     valid := true |}.

Definition signed_amount_run : result (list Z) * world :=
  Eval vm_compute in
    @Payment.x402_signed_transaction signed_amount_externals
      signed_amount_server test_wallet signed_amount_requirements
      after_challenge.

Definition signed_amount_tx : list Z :=
  match fst signed_amount_run with
  | OK tx => tx
  | Err _ => []
  end.

(** *** A transfer of 100 base units *)

Definition key_of (text : string) : list Z :=
  match Payment.decode_pubkey text with
  | OK key => key
  | Err _ => []
  end.

Definition fee_payer_key : list Z := Eval vm_compute in key_of FEE_PAYER.
Definition mint_key : list Z := Eval vm_compute in key_of ASSET.
Definition blockhash_key : list Z := Eval vm_compute in key_of BLOCKHASH.
Definition zero_key : list Z := Eval vm_compute in repeat 0 32.

Definition transfer_built : result (list Z) :=
  Eval vm_compute in
    @SplToken.spl_token_create_transfer_transaction (externals [])
      fee_payer_key zero_key recipient_key mint_key
      SplToken.SPL_TOKEN_PROGRAM_ID 100 blockhash_key 2048.

Definition transfer_tx : list Z :=
  match transfer_built with
  | OK tx => tx
  | Err _ => []
  end.

Definition legacy_transfer_built : result (list Z) :=
  Eval vm_compute in
    @LegacySplToken.spl_token_create_transfer_transaction (externals [])
      zero_key recipient_key LegacySplToken.USDC_DEVNET_MINT 100
      blockhash_key 2048.

Definition legacy_transfer_tx : list Z :=
  match legacy_transfer_built with
  | OK tx => tx
  | Err _ => []
  end.

(** *** The two derivations on the test wallet and the older mint *)

Definition legacy_ata : list Z :=
  Eval vm_compute in
    @Spec.ata_candidate (externals []) zero_key
      LegacySplToken.USDC_DEVNET_MINT SplToken.SPL_TOKEN_PROGRAM_ID 255.

Definition current_derivation : result (list Z) :=
  Eval vm_compute in
    @SplToken.spl_token_get_associated_token_address_with_program
      (externals []) zero_key LegacySplToken.USDC_DEVNET_MINT
      SplToken.SPL_TOKEN_PROGRAM_ID.

Definition current_ata : list Z :=
  match current_derivation with
  | OK ata => ata
  | Err _ => []
  end.

(** *** The paid call that settles *)



End Scenario.

(** ** Worked inputs for the transaction builder and the SPL builder *)

Module Examples.

Import SplToken SolanaTx.

(** The transaction [solana_tx_new] returns for the scenario's blockhash
    and fee payer. *)
Definition new_tx : solana_tx_t :=
  {| blockhash := Scenario.blockhash_key;
     fee_payer := Scenario.fee_payer_key;
     accounts := [ {| pubkey := Scenario.fee_payer_key;
                      is_signer := true;
                      is_writable := true |} ];
     instructions := [];
     signatures := repeat 0 64;
     has_signature := false |}.

(** One transfer of 5000 lamports from the fee payer to the scenario's
    recipient. *)
Definition sol_transfer : solana_tx_t :=
  snd (solana_tx_add_transfer new_tx Scenario.fee_payer_key
         Scenario.recipient_key 5000).

(** A signature-sized value. *)
Definition some_signature : list Z := repeat 7 64.

(** The associated token accounts of the test wallet and of the
    recipient for the scenario's mint. *)
Definition sender_ata : result (list Z) :=
  Eval vm_compute in
    @spl_token_get_associated_token_address_with_program
      (Scenario.externals []) Scenario.zero_key Scenario.mint_key
      SPL_TOKEN_PROGRAM_ID.

Definition receiver_ata : result (list Z) :=
  Eval vm_compute in
    @spl_token_get_associated_token_address_with_program
      (Scenario.externals []) Scenario.recipient_key Scenario.mint_key
      SPL_TOKEN_PROGRAM_ID.

Definition ata_of (derived : result (list Z)) : list Z :=
  match derived with
  | OK ata => ata
  | Err _ => []
  end.

(** A reply that carries a receipt. *)
Definition receipt_reply : http_reply :=
  Scenario.reply 200 "content" (Some "eyJzdWNjZXNzIjp0cnVlfQ=="%string).

(** Four transfers between eight further accounts, which fill the account
    table: fee payer, the eight and the System Program. *)
Definition account_key (b : Z) : list Z := repeat b 32.

Definition four_transfers : solana_tx_t :=
  fold_left
    (fun tx b =>
       snd (solana_tx_add_transfer tx (account_key b) (account_key (b + 1)) 1))
    [101; 103; 105; 107] new_tx.

End Examples.

(** * Properties *)

(** ** The reference collaborators on known values *)

Example reference_sha256_abc :
  Reference.sha256 [97; 98; 99]
  = [186; 120; 22; 191; 143; 1; 207; 234; 65; 65; 64; 222; 93; 174; 34; 35;
     176; 3; 97; 163; 150; 23; 122; 156; 180; 16; 255; 97; 242; 0; 21; 173].
Proof. vm_compute. reflexivity. Qed.

Example reference_sha256_empty :
  Reference.sha256 []
  = [227; 176; 196; 66; 152; 252; 28; 20; 154; 251; 244; 200; 153; 111; 185;
     36; 39; 174; 65; 228; 100; 155; 147; 76; 164; 149; 153; 27; 120; 82;
     184; 85].
Proof. vm_compute. reflexivity. Qed.

(** The Ed25519 base point decompresses; the encoding of [y = 2] does
    not. *)
Example reference_unpackneg_base_point :
  Reference.unpackneg (88 :: repeat 102 31) = 0.
Proof. vm_compute. reflexivity. Qed.

Example reference_unpackneg_off_curve :
  Reference.unpackneg (2 :: repeat 0 31) = -1.
Proof. vm_compute. reflexivity. Qed.

(** ** SPL builder: PDA search and transaction layout *)

Section SplTokenFacts.
Context {ext : Externals}.

Import SplToken Spec.

Lemma memcpy_all (src : list Z) (n : nat) :
  length src = n -> memcpy src n = src.
Proof.
  intros H. unfold memcpy. apply firstn_all2. lia.
Qed.

Lemma memcpy_hash (data : list Z) : memcpy (sha256 data) 32 = sha256 data.
Proof. apply memcpy_all, sha256_length. Qed.

Lemma memcpy_length_le (src : list Z) (n : nat) :
  (length (memcpy src n) <= n)%nat.
Proof. unfold memcpy. rewrite length_firstn. lia. Qed.

Lemma add_seeds_ata (wallet mint token_program : list Z) :
  add_seeds [] (ata_seeds wallet mint token_program)
  = OK (memcpy wallet 32 ++ memcpy token_program 32 ++ memcpy mint 32).
Proof.
  unfold ata_seeds. cbn [add_seeds].
  pose proof (memcpy_length_le wallet 32) as Hw.
  pose proof (memcpy_length_le token_program 32) as Ht.
  pose proof (memcpy_length_le mint 32) as Hm.
  repeat match goal with
  | |- context [ ?a >? 1024 ] =>
      let E := fresh "E" in
      destruct (Z.gtb_spec a 1024) as [E | E];
      [ exfalso; revert E; rewrite ?length_app; cbn [length]; lia | ]
  end.
  cbn [app]. rewrite <- app_assoc. reflexivity.
Qed.

(** The search from [n - 1] downwards returns the first candidate that is
    off the curve, and fails only when every candidate below [n] is on it. *)
Lemma find_program_address_from_spec (n : nat) (seeds : list (list Z))
  (seed_bytes program_id : list Z) :
  (n <= 256)%nat ->
  add_seeds [] seeds = OK seed_bytes ->
  match find_program_address_from n seeds program_id with
  | OK (pda, bump) =>
      0 <= bump < Z.of_nat n
      /\ pda = sha256 (pda_preimage seed_bytes bump program_id)
      /\ is_on_curve pda = false
      /\ (forall b, bump < b < Z.of_nat n ->
            is_on_curve (sha256 (pda_preimage seed_bytes b program_id)) = true)
  | Err e =>
      e = ESP_FAIL
      /\ (forall b, 0 <= b < Z.of_nat n ->
            is_on_curve (sha256 (pda_preimage seed_bytes b program_id)) = true)
  end.
Proof.
  intros Hn Hseeds. induction n as [| b IH].
  - cbn. split; [reflexivity | intros; lia].
  - cbn [find_program_address_from]. rewrite Hseeds.
    specialize (IH ltac:(lia)).
    destruct (is_on_curve (sha256 (pda_preimage seed_bytes (Z.of_nat b) program_id)))
      eqn:Hcurve; cbn [negb].
    + destruct (find_program_address_from b seeds program_id) as [[pda bump] | e].
      * destruct IH as (Hb & Hpda & Hoff & Hup).
        repeat split; try lia; try assumption.
        intros c Hc. destruct (Z.eq_dec c (Z.of_nat b)) as [-> | Hne];
          [assumption | apply Hup; lia].
      * destruct IH as (He & Hall). split; [assumption |].
        intros c Hc. destruct (Z.eq_dec c (Z.of_nat b)) as [-> | Hne];
          [assumption | apply Hall; lia].
    + rewrite memcpy_hash.
      assert (Hu : u8 (Z.of_nat b) = Z.of_nat b)
        by (unfold u8; apply Z.mod_small; lia).
      rewrite Hu. repeat split; try lia; try assumption.
Qed.

(** The fee-payer revision does what C3 says.  For every (wallet, mint,
    token_program) triple its ATA derivation
    tries the bump seeds from 255 downwards and returns the first SHA-256
    candidate that is not a curve point: the returned address is off the
    curve, it is the candidate of some bump, and every greater bump gave
    an on-curve candidate.  It fails, with [ESP_FAIL], exactly when all
    256 candidates are on the curve. *)
Theorem ata_derivation_first_off_curve (wallet mint token_program : list Z) :
  match spl_token_get_associated_token_address_with_program
          wallet mint token_program with
  | OK ata =>
      is_on_curve ata = false
      /\ exists bump,
           0 <= bump <= 255
           /\ ata = ata_candidate wallet mint token_program bump
           /\ forall b, bump < b <= 255 ->
                is_on_curve (ata_candidate wallet mint token_program b) = true
  | Err e =>
      e = ESP_FAIL
      /\ forall b, 0 <= b <= 255 ->
           is_on_curve (ata_candidate wallet mint token_program b) = true
  end.
Proof.
  unfold spl_token_get_associated_token_address_with_program,
    find_program_address.
  pose proof (find_program_address_from_spec 256
                (ata_seeds wallet mint token_program)
                _ SPL_ASSOCIATED_TOKEN_PROGRAM_ID
                (Nat.le_refl _) (add_seeds_ata wallet mint token_program)) as H.
  destruct (find_program_address_from 256 _ _) as [[pda bump] | e].
  - destruct H as (Hb & Hpda & Hoff & Hup).
    split; [assumption |].
    exists bump. unfold ata_candidate.
    repeat split; try lia; try assumption.
    intros b Hb'. apply Hup. lia.
  - destruct H as (He & Hall). split; [assumption |].
    intros b Hb. apply Hall. lia.
Qed.

(** The derived address is a 32-byte value. *)
Lemma ata_length (wallet mint token_program ata : list Z) :
  spl_token_get_associated_token_address_with_program
    wallet mint token_program = OK ata ->
  length ata = 32%nat.
Proof.
  intros H.
  unfold spl_token_get_associated_token_address_with_program,
    find_program_address in H.
  pose proof (find_program_address_from_spec 256
                (ata_seeds wallet mint token_program)
                _ SPL_ASSOCIATED_TOKEN_PROGRAM_ID
                (Nat.le_refl _) (add_seeds_ata wallet mint token_program)) as S.
  destruct (find_program_address_from 256 _ _) as [[pda bump] | e];
    [| discriminate].
  injection H as <-. destruct S as (_ & -> & _). apply sha256_length.
Qed.

(** The older derivation returns the candidate of bump 255 whatever the
    curve test would say. *)
Lemma legacy_ata_is_bump_255 (wallet mint : list Z) :
  LegacySplToken.spl_token_get_associated_token_address wallet mint
  = OK (ata_candidate wallet mint SPL_TOKEN_PROGRAM_ID 255).
Proof.
  unfold LegacySplToken.spl_token_get_associated_token_address,
    LegacySplToken.find_program_address.
  change [memcpy wallet 32; memcpy SPL_TOKEN_PROGRAM_ID 32; memcpy mint 32]
    with (ata_seeds wallet mint SPL_TOKEN_PROGRAM_ID).
  rewrite add_seeds_ata, memcpy_hash. reflexivity.
Qed.

Lemma OK_inj {A : Type} (a b : A) : OK a = OK b -> a = b.
Proof. intros H. injection H. trivial. Qed.

Lemma guard_ok (max_tx_len : Z) (tx : list Z) (n : Z)
  (k : result (list Z)) (r : list Z) :
  guard max_tx_len tx n k = OK r ->
  k = OK r /\ Z.of_nat (length tx) + n <= max_tx_len.
Proof.
  unfold guard. destruct (Z.gtb_spec (Z.of_nat (length tx) + n) max_tx_len).
  - discriminate.
  - intros ->. split; [reflexivity | assumption].
Qed.

Lemma guard_pass (max_tx_len : Z) (tx : list Z) (n : Z)
  (k : result (list Z)) :
  Z.of_nat (length tx) + n <= max_tx_len ->
  guard max_tx_len tx n k = k.
Proof.
  intros H. unfold guard.
  destruct (Z.gtb_spec (Z.of_nat (length tx) + n) max_tx_len); [lia | reflexivity].
Qed.

Lemma take_bytes_app (n : nat) (chunk rest : list Z) :
  length chunk = n -> Wire.take_bytes n (chunk ++ rest) = Some (chunk, rest).
Proof.
  intros H. unfold Wire.take_bytes.
  destruct (Nat.ltb_spec (length (chunk ++ rest)) n) as [Hlt | _].
  - rewrite length_app in Hlt. lia.
  - rewrite firstn_app, skipn_app, H, Nat.sub_diag.
    rewrite firstn_all2 by lia. rewrite skipn_all2 by lia.
    cbn. rewrite app_nil_r. reflexivity.
Qed.

Lemma amount_le_bytes_le_bytes (amount : Z) :
  amount_le_bytes amount = Wire.le_bytes 8 amount.
Proof.
  unfold amount_le_bytes. cbn [map Wire.le_bytes].
  change 255 with (Z.ones 8).
  rewrite !Z.land_ones, !Z.shiftr_div_pow2 by lia.
  rewrite !Z.div_div by lia.
  repeat (f_equal; try reflexivity).
  rewrite Z.div_1_r. reflexivity.
Qed.

(** The byte string of the specification's layout reads back as the
    transaction it describes. *)
Lemma parse_transfer_layout
  (fee_payer payer source_ata dest_ata token_program blockhash : list Z)
  (amount : Z) :
  length fee_payer = 32%nat -> length payer = 32%nat ->
  length source_ata = 32%nat -> length dest_ata = 32%nat ->
  length token_program = 32%nat -> length blockhash = 32%nat ->
  Wire.parse_transaction
    ([2] ++ repeat 0 64 ++ repeat 0 64 ++ [2; 1; 1] ++ [5]
       ++ fee_payer ++ payer ++ source_ata ++ dest_ata ++ token_program
       ++ blockhash ++ [1] ++ [4] ++ [3; 2; 3; 1] ++ [9]
       ++ 3 :: Wire.le_bytes 8 amount)
  = Some (transfer_transaction fee_payer payer source_ata dest_ata
            token_program blockhash amount).
Proof.
  intros Hf Hp Hs Hd Ht Hb.
  unfold Wire.parse_transaction.
  cbn [app Wire.decode_shortvec].
  change (2 <? 128) with true. cbv iota.
  change (Z.to_nat 2) with 2%nat.
  cbn [Wire.take_chunks].
  rewrite take_bytes_app by apply repeat_length.
  rewrite take_bytes_app by apply repeat_length.
  cbn [app Wire.decode_shortvec].
  change (5 <? 128) with true. cbv iota.
  change (Z.to_nat 5) with 5%nat.
  cbn [Wire.take_chunks].
  rewrite !take_bytes_app by assumption.
  cbn [Wire.decode_shortvec].
  change (1 <? 128) with true. cbv iota.
  change (Z.to_nat 1) with 1%nat.
  reflexivity.
Qed.

(** The fee-payer revision does what C2 says.  For every input
    (fee_payer, payer, recipient, mint, token_program, amount, blockhash)
    the transaction that its
    [spl_token_create_transfer_transaction] produces reads back as: two
    zeroed signature slots, header (2, 1, 1), account table [fee_payer,
    payer, source_ata, dest_ata, token_program] with the two ATAs derived
    for payer and recipient, the blockhash, and one instruction with
    program index 4, account indices [2, 3, 1] and the nine data bytes
    0x03 followed by the amount as a 64-bit little-endian integer. *)
Theorem transfer_transaction_layout
  (fee_payer payer recipient mint token_program : list Z) (amount : Z)
  (blockhash : list Z) (max_tx_len : Z) (tx : list Z) :
  length fee_payer = 32%nat -> length payer = 32%nat ->
  length token_program = 32%nat -> length blockhash = 32%nat ->
  spl_token_create_transfer_transaction
    fee_payer payer recipient mint token_program amount blockhash max_tx_len
  = OK tx ->
  exists source_ata dest_ata,
    spl_token_get_associated_token_address_with_program
      payer mint token_program = OK source_ata
    /\ spl_token_get_associated_token_address_with_program
         recipient mint token_program = OK dest_ata
    /\ Wire.parse_transaction tx
       = Some (transfer_transaction fee_payer payer source_ata dest_ata
                 token_program blockhash amount).
Proof.
  intros Hf Hp Ht Hb H.
  unfold spl_token_create_transfer_transaction in H.
  destruct (spl_token_get_associated_token_address_with_program
              payer mint token_program) as [source_ata | e] eqn:Hs;
    [| discriminate].
  destruct (spl_token_get_associated_token_address_with_program
              recipient mint token_program) as [dest_ata | e] eqn:Hd;
    [| discriminate].
  exists source_ata, dest_ata.
  split; [reflexivity |]. split; [reflexivity |].
  unfold spl_token_build_transfer_instruction in H.
  change (32 <? 1 + 8) with false in H. cbv iota in H.
  do 15 (apply guard_ok in H; destruct H as [H _]).
  apply OK_inj in H. subst tx.
  pose proof (ata_length _ _ _ _ Hs) as Hsl.
  pose proof (ata_length _ _ _ _ Hd) as Hdl.
  rewrite !(memcpy_all _ 32) by assumption.
  rewrite amount_le_bytes_le_bytes.
  assert (Hlen : length (u8 SPL_TOKEN_TRANSFER_INSTRUCTION :: Wire.le_bytes 8 amount)
                 = 9%nat) by reflexivity.
  rewrite Hlen. change (Z.of_nat 9) with 9. change (Z.to_nat 9) with 9%nat.
  rewrite (memcpy_all _ 9) by reflexivity.
  change (u8 9) with 9. change (u8 SPL_TOKEN_TRANSFER_INSTRUCTION) with 3.
  rewrite <- !app_assoc.
  apply parse_transfer_layout; assumption.
Qed.

(** The builder succeeds whenever both ATAs derive and the buffer holds
    the 341 bytes of the transaction. *)
Lemma transfer_transaction_succeeds
  (fee_payer payer recipient mint token_program : list Z) (amount : Z)
  (blockhash source_ata dest_ata : list Z) (max_tx_len : Z) :
  length fee_payer = 32%nat -> length payer = 32%nat ->
  length token_program = 32%nat -> length blockhash = 32%nat ->
  spl_token_get_associated_token_address_with_program
    payer mint token_program = OK source_ata ->
  spl_token_get_associated_token_address_with_program
    recipient mint token_program = OK dest_ata ->
  341 <= max_tx_len ->
  exists tx,
    spl_token_create_transfer_transaction
      fee_payer payer recipient mint token_program amount blockhash max_tx_len
    = OK tx
    /\ length tx = 341%nat.
Proof.
  intros Hf Hp Ht Hb Hs Hd Hmax.
  unfold spl_token_create_transfer_transaction.
  rewrite Hs, Hd.
  unfold spl_token_build_transfer_instruction.
  change (32 <? 1 + 8) with false. cbv iota.
  pose proof (ata_length _ _ _ _ Hs) as Hsl.
  pose proof (ata_length _ _ _ _ Hd) as Hdl.
  rewrite !(memcpy_all _ 32) by assumption.
  assert (Hlen : length (u8 SPL_TOKEN_TRANSFER_INSTRUCTION :: amount_le_bytes amount)
                 = 9%nat) by reflexivity.
  rewrite Hlen. change (Z.of_nat 9) with 9. change (Z.to_nat 9) with 9%nat.
  rewrite (memcpy_all _ 9) by reflexivity.
  repeat (rewrite guard_pass;
          [| rewrite ?length_app, ?repeat_length, ?Hf, ?Hp, ?Ht, ?Hb, ?Hsl, ?Hdl;
             cbn [length]; lia ]).
  eexists. split; [reflexivity |].
  rewrite ?length_app, ?repeat_length, ?Hf, ?Hp, ?Ht, ?Hb, ?Hsl, ?Hdl.
  reflexivity.
Qed.

(** Every transaction of the builder starts with the count byte 2 and
    two zeroed signature slots. *)
Lemma transfer_transaction_prefix
  (fee_payer payer recipient mint token_program : list Z) (amount : Z)
  (blockhash : list Z) (max_tx_len : Z) (tx : list Z) :
  spl_token_create_transfer_transaction
    fee_payer payer recipient mint token_program amount blockhash max_tx_len
  = OK tx ->
  exists rest, tx = [2] ++ repeat 0 64 ++ repeat 0 64 ++ rest.
Proof.
  intros H.
  unfold spl_token_create_transfer_transaction in H.
  destruct (spl_token_get_associated_token_address_with_program
              payer mint token_program) as [source_ata | e]; [| discriminate].
  destruct (spl_token_get_associated_token_address_with_program
              recipient mint token_program) as [dest_ata | e]; [| discriminate].
  destruct (spl_token_build_transfer_instruction amount 32)
    as [instruction_data | e]; [| discriminate].
  do 15 (apply guard_ok in H; destruct H as [H _]).
  apply OK_inj in H. subst tx.
  rewrite <- !app_assoc. eexists. reflexivity.
Qed.

Lemma legacy_transfer_transaction_prefix
  (payer recipient mint : list Z) (amount : Z)
  (blockhash : list Z) (max_tx_len : Z) (tx : list Z) :
  LegacySplToken.spl_token_create_transfer_transaction
    payer recipient mint amount blockhash max_tx_len = OK tx ->
  exists rest, tx = [2] ++ repeat 0 64 ++ repeat 0 64 ++ rest.
Proof.
  intros H.
  unfold LegacySplToken.spl_token_create_transfer_transaction in H.
  destruct (LegacySplToken.spl_token_get_associated_token_address payer mint)
    as [source_ata | e]; [| discriminate].
  destruct (LegacySplToken.spl_token_get_associated_token_address recipient mint)
    as [dest_ata | e]; [| discriminate].
  destruct (spl_token_build_transfer_instruction amount 32)
    as [instruction_data | e]; [| discriminate].
  do 14 (apply guard_ok in H; destruct H as [H _]).
  apply OK_inj in H. subst tx.
  rewrite <- !app_assoc. eexists. reflexivity.
Qed.

Lemma parse_legacy_transfer_layout
  (payer source_ata dest_ata blockhash : list Z) (amount : Z) :
  length payer = 32%nat -> length source_ata = 32%nat ->
  length dest_ata = 32%nat -> length blockhash = 32%nat ->
  Wire.parse_transaction
    ([2] ++ repeat 0 64 ++ repeat 0 64 ++ [2; 0; 1] ++ [4]
       ++ payer ++ source_ata ++ dest_ata ++ SPL_TOKEN_PROGRAM_ID
       ++ blockhash ++ [1] ++ [3] ++ [3; 1; 2; 0] ++ [9]
       ++ 3 :: Wire.le_bytes 8 amount)
  = Some (legacy_transfer_transaction payer source_ata dest_ata
            blockhash amount).
Proof.
  intros Hp Hs Hd Hb.
  unfold Wire.parse_transaction.
  cbn [app Wire.decode_shortvec].
  change (2 <? 128) with true. cbv iota.
  change (Z.to_nat 2) with 2%nat.
  cbn [Wire.take_chunks].
  rewrite take_bytes_app by apply repeat_length.
  rewrite take_bytes_app by apply repeat_length.
  cbn [app Wire.decode_shortvec].
  change (4 <? 128) with true. cbv iota.
  change (Z.to_nat 4) with 4%nat.
  cbn [Wire.take_chunks].
  rewrite !take_bytes_app by (assumption || reflexivity).
  cbn [Wire.decode_shortvec].
  change (1 <? 128) with true. cbv iota.
  change (Z.to_nat 1) with 1%nat.
  reflexivity.
Qed.

(** C2, the older builder (second copy of spl_token.c).  Whatever its
    inputs, the transaction it produces has four accounts, [payer,
    source_ata, dest_ata, token program], with no fee payer, header
    (2, 0, 1), program index 3 and account indices [1, 2, 0]; the two
    ATAs are the unchecked candidates of bump 255.  It is not the
    five-account layout of the specification for any fee payer. *)
Theorem legacy_transfer_transaction_layout
  (payer recipient mint : list Z) (amount : Z)
  (blockhash : list Z) (max_tx_len : Z) (tx : list Z) :
  length payer = 32%nat -> length blockhash = 32%nat ->
  LegacySplToken.spl_token_create_transfer_transaction
    payer recipient mint amount blockhash max_tx_len = OK tx ->
  let source_ata := ata_candidate payer mint SPL_TOKEN_PROGRAM_ID 255 in
  let dest_ata := ata_candidate recipient mint SPL_TOKEN_PROGRAM_ID 255 in
  Wire.parse_transaction tx
  = Some (legacy_transfer_transaction payer source_ata dest_ata
            blockhash amount)
  /\ forall fee_payer source dest token_program,
       Wire.parse_transaction tx
       <> Some (transfer_transaction fee_payer payer source dest
                  token_program blockhash amount).
Proof.
  intros Hp Hb H source_ata dest_ata.
  assert (Hparse : Wire.parse_transaction tx
                   = Some (legacy_transfer_transaction payer source_ata
                             dest_ata blockhash amount)).
  { unfold LegacySplToken.spl_token_create_transfer_transaction in H.
    rewrite !legacy_ata_is_bump_255 in H.
    fold source_ata dest_ata in H.
    unfold spl_token_build_transfer_instruction in H.
    change (32 <? 1 + 8) with false in H. cbv iota in H.
    do 14 (apply guard_ok in H; destruct H as [H _]).
    apply OK_inj in H. subst tx.
    assert (Hsl : length source_ata = 32%nat) by apply sha256_length.
    assert (Hdl : length dest_ata = 32%nat) by apply sha256_length.
    rewrite !(memcpy_all _ 32) by (assumption || reflexivity).
    rewrite amount_le_bytes_le_bytes.
    assert (Hlen : length (u8 SPL_TOKEN_TRANSFER_INSTRUCTION
                           :: Wire.le_bytes 8 amount) = 9%nat)
      by reflexivity.
    rewrite Hlen. change (Z.of_nat 9) with 9. change (Z.to_nat 9) with 9%nat.
    rewrite (memcpy_all _ 9) by reflexivity.
    change (u8 9) with 9. change (u8 SPL_TOKEN_TRANSFER_INSTRUCTION) with 3.
    rewrite <- !app_assoc.
    apply parse_legacy_transfer_layout; assumption. }
  split; [exact Hparse |].
  intros fee_payer source dest token_program Heq.
  rewrite Hparse in Heq. apply (f_equal (option_map Wire.header)) in Heq.
  cbn in Heq. discriminate.
Qed.

End SplTokenFacts.

(** ** The driver *)


Ltac pair_inv H :=
  match type of H with
  | (?a, ?b) = (?c, ?d) =>
      let H1 := fresh "Hres" in
      let H2 := fresh "Hworld" in
      assert (H1 : a = c) by exact (f_equal fst H);
      assert (H2 : b = d) by exact (f_equal snd H);
      clear H
  end.

Section DriverFacts.
Context {ext : Externals} {net : Network}.

Import Libc Json Payment Encoding Requirements Wallet Client SolanaRpc Spec.

Lemma http_request_performs_once (url method : string)
  (headers body : option string) (w : world) :
  snd (http_request url method headers body w)
  = after_request w (exchange_of url method headers body).
Proof.
  unfold http_request, bind, perform, ok, fail, ret. cbn.
  destruct (hr_err _); reflexivity.
Qed.

(** The driver, one outcome of each step at a time. *)
Lemma x402_fetch_steps (wallet : solana_wallet_t) (url method : string)
  (headers body : option string) (w : world) :
  x402_fetch wallet url method headers body w
  = match http_request url method headers body w with
    | (Err e, w1) => (Err e, w1)
    | (OK initial, w1) =>
      if negb (x402_is_payment_required (status_out initial))
      then (OK {| status_code := status_out initial;
                  headers := headers_out initial;
                  body := body_out initial;
                  body_len := body_len_out initial;
                  payment_made := false;
                  settlement := settlement_zero |}, w1)
      else
      match body_out initial with
      | None => (Err ESP_FAIL, w1)
      | Some resp_body =>
        match x402_parse_payment_requirements resp_body with
        | Err e => (Err e, w1)
        | OK requirements =>
          match x402_create_solana_payment wallet requirements w1 with
          | (Err e, w2) => (Err e, w2)
          | (OK payload, w2) =>
            match x402_encode_payment_payload payload 8192 with
            | Err e => (Err e, w2)
            | OK payment_encoded =>
              match http_request url method
                      (Some (retry_headers_of headers payment_encoded))
                      body w2 with
              | (Err e, w3) => (Err e, w3)
              | (OK retried, w3) =>
                (OK {| status_code := status_out retried;
                       headers := headers_out retried;
                       body := body_out retried;
                       body_len := body_len_out retried;
                       payment_made := fst (settlement_of (headers_out retried));
                       settlement := snd (settlement_of (headers_out retried)) |},
                 w3)
              end
            end
          end
        end
      end
    end.
Proof.
  unfold x402_fetch, bind_ok.
  destruct (http_request url method headers body w) as [[initial | e] w1];
    [| reflexivity].
  destruct (negb (x402_is_payment_required (status_out initial)));
    [reflexivity |].
  destruct (body_out initial) as [resp_body |]; [| reflexivity].
  unfold ret at 1.
  destruct (x402_parse_payment_requirements resp_body) as [requirements | e];
    [| reflexivity].
  destruct (x402_create_solana_payment wallet requirements w1)
    as [[payload | e] w2]; [| reflexivity].
  unfold ret at 1.
  destruct (x402_encode_payment_payload payload 8192) as [enc | e];
    [| reflexivity].
  destruct (http_request url method _ body w2) as [[retried | e] w3];
    [| reflexivity].
  destruct (settlement_of (headers_out retried)); reflexivity.
Qed.

(** Case analysis on the next test of an unfolded call. *)
(** The mint probe that succeeds has made exactly one request and
    delivers a 32-byte program id. *)
Lemma mint_program_success (rpc : string) (mint_pubkey program_id : list Z)
  (w w' : world) :
  spl_token_get_mint_program rpc mint_pubkey w = (OK program_id, w') ->
  exists mint_b58,
    Base58.base58_encode (SplToken.memcpy mint_pubkey 32) 64 = Some mint_b58
    /\ w' = after_request w (mint_program_exchange rpc mint_b58)
    /\ length program_id = 32%nat.
Proof.
  unfold spl_token_get_mint_program, bind, perform, fail, ok, ret.
  intros H.
  destruct (Base58.base58_encode (SplToken.memcpy mint_pubkey 32) 64)
    as [mint_b58 |] eqn:Hb58; [| discriminate].
  exists mint_b58. split; [reflexivity |].
  set (reply := esp_http_client_perform (trace w)
                  (mint_program_exchange rpc mint_b58)) in *.
  fold (after_request w (mint_program_exchange rpc mint_b58)) in H.
  destruct (hr_err reply); try discriminate.
  destruct (hr_data reply) as [response_buffer |]; [| discriminate].
  destruct (negb (hr_status reply =? 200)); [discriminate |].
  destruct (cJSON_Parse response_buffer) as [response |]; [| discriminate].
  destruct (negb (cJSON_IsString _)); [discriminate |].
  destruct (Base58.base58_decode _ 32) as [pid |]; [| discriminate].
  destruct (Nat.eqb_spec (length pid) 32) as [Hlen | Hlen];
    cbn [negb] in H; [| discriminate].
  pair_inv H. apply OK_inj in Hres. subst. split; [reflexivity | assumption].
Qed.

Lemma latest_blockhash_trace (w : world) :
  let client := rpc_client_of w in
  trace (snd (solana_rpc_get_latest_blockhash client
                {| trace := trace w; g_rpc_client := Some client |}))
  = trace w ++ [blockhash_exchange w].
Proof.
  intros client.
  unfold solana_rpc_get_latest_blockhash, solana_rpc_call, perform.
  cbn [trace g_rpc_client].
  set (reply := esp_http_client_perform _ _).
  destruct (hr_err reply); try reflexivity.
  destruct ((hr_status reply =? 200) && _); reflexivity.
Qed.

Lemma ensure_rpc_client_spec (w : world) :
  ensure_rpc_client w
  = (OK (rpc_client_of w),
     {| trace := trace w; g_rpc_client := Some (rpc_client_of w) |}).
Proof.
  unfold ensure_rpc_client, rpc_client_of.
  destruct w as [tr [client |]]; reflexivity.
Qed.

(** Building the transaction that succeeds has made exactly one request,
    for the blockhash, and returns what the SPL builder made of it. *)
Lemma build_payment_transaction_success (wallet : solana_wallet_t)
  (fee_payer recipient mint token_program : list Z) (amount max_tx_len : Z)
  (tx : list Z) (w w' : world) :
  x402_build_payment_transaction wallet fee_payer recipient mint
    token_program amount max_tx_len w = (OK tx, w') ->
  trace w' = trace w ++ [blockhash_exchange w]
  /\ exists blockhash,
       length blockhash = 32%nat
       /\ SplToken.spl_token_create_transfer_transaction fee_payer
            (SplToken.memcpy (public_key wallet) 32) recipient mint
            token_program amount blockhash max_tx_len = OK tx.
Proof.
  unfold x402_build_payment_transaction, bind_ok.
  unfold ret at 1. cbn [solana_wallet_get_pubkey].
  rewrite ensure_rpc_client_spec.
  unfold bind.
  pose proof (latest_blockhash_trace w) as Htrace. cbn zeta in Htrace.
  destruct (solana_rpc_get_latest_blockhash (rpc_client_of w) _)
    as [[err rpc_response] w1].
  cbn [snd] in Htrace.
  intros H.
  destruct (negb (esp_err_eqb err ESP_OK) || negb (rpc_success rpc_response));
    [discriminate |].
  destruct (cJSON_Parse _) as [root |]; [| discriminate].
  destruct (negb (cJSON_IsString _)); [discriminate |].
  destruct (Base58.base58_decode _ 32) as [blockhash |]; [| discriminate].
  destruct (Nat.eqb_spec (length blockhash) 32) as [Hlen | Hlen];
    cbn [negb] in H; [| discriminate].
  unfold ret in H. pair_inv H. subst w1.
  split; [assumption |].
  exists blockhash. split; assumption.
Qed.

Lemma firstn_app_exact {A : Type} (n : nat) (a b : list A) :
  length a = n -> firstn n (a ++ b) = a.
Proof.
  intros H. rewrite firstn_app, H, Nat.sub_diag, firstn_all2 by lia.
  cbn. apply app_nil_r.
Qed.

Lemma skipn_app_exact {A : Type} (n : nat) (a b : list A) :
  length a = n -> skipn n (a ++ b) = b.
Proof.
  intros H. rewrite skipn_app, H, Nat.sub_diag, skipn_all2 by lia.
  reflexivity.
Qed.

(** Where the signature lands: written at offset 65 it fills slot 1 and
    leaves slot 0 and the message untouched; written at offset 1 it fills
    slot 0 and leaves slot 1. *)
Lemma write_signature_slots (count : Z) (slot0 slot1 rest sig : list Z) :
  length slot0 = 64%nat -> length slot1 = 64%nat -> length sig = 64%nat ->
  let tx0 := [count] ++ slot0 ++ slot1 ++ rest in
  Wire.message_bytes tx0 = rest
  /\ (let tx := write_signature tx0 (1 + 64) sig in
      Wire.signature_slot 0 tx = slot0
      /\ Wire.signature_slot 1 tx = sig
      /\ Wire.message_bytes tx = rest)
  /\ (let tx := write_signature tx0 1 sig in
      Wire.signature_slot 0 tx = sig
      /\ Wire.signature_slot 1 tx = slot1
      /\ Wire.message_bytes tx = rest).
Proof.
  intros H0 H1 Hs tx0.
  assert (Hm : skipn 129 tx0 = rest).
  { unfold tx0.
    replace ([count] ++ slot0 ++ slot1 ++ rest)
      with (([count] ++ slot0 ++ slot1) ++ rest)
      by (rewrite <- !app_assoc; reflexivity).
    apply skipn_app_exact. rewrite !length_app, H0, H1. reflexivity. }
  assert (Hf65 : firstn 65 tx0 = [count] ++ slot0).
  { unfold tx0.
    replace ([count] ++ slot0 ++ slot1 ++ rest)
      with (([count] ++ slot0) ++ slot1 ++ rest)
      by (rewrite <- !app_assoc; reflexivity).
    apply firstn_app_exact. rewrite length_app, H0. reflexivity. }
  assert (Hs65 : skipn 65 tx0 = slot1 ++ rest).
  { unfold tx0.
    replace ([count] ++ slot0 ++ slot1 ++ rest)
      with (([count] ++ slot0) ++ slot1 ++ rest)
      by (rewrite <- !app_assoc; reflexivity).
    apply skipn_app_exact. rewrite length_app, H0. reflexivity. }
  assert (Hsig : SplToken.memcpy sig 64 = sig)
    by (apply memcpy_all; assumption).
  unfold Wire.message_bytes, Wire.signature_slot, write_signature.
  rewrite Hsig.
  change (1 + 64)%nat with 65%nat. change (65 + 64)%nat with 129%nat.
  change (1 + 64 * 0)%nat with 1%nat. change (1 + 64 * 1)%nat with 65%nat.
  rewrite Hm, Hf65, Hs65.
  change (firstn 1 tx0) with [count].
  repeat split.
  - change (skipn 1 (([count] ++ slot0) ++ sig ++ rest))
      with (slot0 ++ sig ++ rest).
    apply firstn_app_exact; assumption.
  - replace (([count] ++ slot0) ++ sig ++ rest)
      with (([count] ++ slot0) ++ (sig ++ rest)) by reflexivity.
    rewrite skipn_app_exact by (rewrite length_app, H0; reflexivity).
    apply firstn_app_exact; assumption.
  - replace (([count] ++ slot0) ++ sig ++ rest)
      with ((([count] ++ slot0) ++ sig) ++ rest)
      by (rewrite <- !app_assoc; reflexivity).
    apply skipn_app_exact. rewrite !length_app, H0, Hs. reflexivity.
  - change (skipn 1 ([count] ++ sig ++ slot1 ++ rest))
      with (sig ++ slot1 ++ rest).
    apply firstn_app_exact; assumption.
  - replace ([count] ++ sig ++ slot1 ++ rest)
      with (([count] ++ sig) ++ slot1 ++ rest)
      by (rewrite <- !app_assoc; reflexivity).
    rewrite skipn_app_exact by (rewrite length_app, Hs; reflexivity).
    apply firstn_app_exact; assumption.
  - replace ([count] ++ sig ++ slot1 ++ rest)
      with (([count] ++ sig ++ slot1) ++ rest)
      by (rewrite <- !app_assoc; reflexivity).
    apply skipn_app_exact. rewrite !length_app, Hs, H1. reflexivity.
Qed.

Lemma wallet_sign_success (wallet : solana_wallet_t) (message sig : list Z) :
  solana_wallet_sign wallet message = OK sig ->
  exists sm,
    crypto_sign message (secret_key wallet) = (0, sm)
    /\ sig = firstn 64 sm
    /\ length sig = 64%nat.
Proof.
  unfold solana_wallet_sign.
  destruct (crypto_sign message (secret_key wallet)) as [code sm] eqn:Hsign.
  destruct (Z.eqb_spec code 0) as [-> | _]; [| discriminate].
  intros H. apply OK_inj in H. subst sig.
  exists sm. split; [reflexivity |]. split; [reflexivity |].
  unfold SplToken.memcpy. rewrite length_firstn.
  rewrite (crypto_sign_length _ _ _ Hsign). lia.
Qed.


(** A payment whose transaction gets signed: the two RPC requests it
    made, the transaction of the SPL builder, and the signature written
    over its second slot. *)
Lemma signed_transaction_success (wallet : solana_wallet_t)
  (requirements : x402_payment_requirements_t) (tx : list Z) (w w' : world) :
  x402_signed_transaction wallet requirements w = (OK tx, w') ->
  exists mint mint_b58 tx0 sm,
    decode_pubkey (asset requirements) = OK mint
    /\ Base58.base58_encode (SplToken.memcpy mint 32) 64 = Some mint_b58
    /\ trace w'
       = trace w ++ [ mint_program_exchange SOLANA_RPC_DEVNET mint_b58;
                      blockhash_exchange w ]
    /\ (exists rest, tx0 = [2] ++ repeat 0 64 ++ repeat 0 64 ++ rest)
    /\ crypto_sign (Wire.message_bytes tx0) (secret_key wallet) = (0, sm)
    /\ length (firstn 64 sm) = 64%nat
    /\ tx = write_signature tx0 (1 + 64) (firstn 64 sm).
Proof.
  unfold x402_signed_transaction, bind_ok.
  intros H.
  destruct (negb (valid requirements)); [discriminate |].
  unfold ret at 1 in H.
  destruct (decode_pubkey (recipient requirements)) as [recipient_pubkey | e];
    [| discriminate].
  unfold ret at 1 in H.
  destruct (decode_pubkey (asset requirements)) as [mint | e] eqn:Hmint;
    [| discriminate].
  unfold ret at 1 in H.
  destruct (parse_amount (price_amount requirements)) as [amount | e];
    [| discriminate].
  destruct (facilitator_fee_payer requirements) as [| c fee_text] eqn:Hfee;
    [discriminate |].
  unfold ret at 1 in H.
  destruct (decode_pubkey (String c fee_text)) as [fee_payer | e];
    [| discriminate].
  destruct (spl_token_get_mint_program SOLANA_RPC_DEVNET mint w)
    as [[token_program | e] w1] eqn:Hprobe; [| discriminate].
  destruct (x402_build_payment_transaction wallet fee_payer recipient_pubkey
              mint token_program amount 2048 w1)
    as [[tx0 | e] w2] eqn:Hbuild; [| discriminate].
  unfold ret at 1 in H.
  destruct (solana_wallet_sign wallet (skipn (1 + 64 + 64) tx0))
    as [sig | e] eqn:Hsign; [| discriminate].
  unfold ok, ret in H. pair_inv H. apply OK_inj in Hres. subst w2.
  apply mint_program_success in Hprobe.
  destruct Hprobe as (mint_b58 & Hb58 & -> & _).
  apply build_payment_transaction_success in Hbuild.
  destruct Hbuild as (Htrace & blockhash & _ & Hbuilder).
  apply transfer_transaction_prefix in Hbuilder.
  apply wallet_sign_success in Hsign.
  destruct Hsign as (sm & Hsm & -> & Hlen).
  exists mint, mint_b58, tx0, sm.
  repeat split; try assumption.
  - rewrite Htrace. cbn [trace after_request].
    rewrite <- app_assoc. reflexivity.
  - symmetry. assumption.
Qed.

(** What [x402_base64_encode] returns is the Base64 text of its input. *)
Lemma base64_encode_success (data : list Z) (max_len : Z) (text : string) :
  x402_base64_encode data max_len = OK text ->
  text = string_of_list_ascii (Base64.encode data).
Proof.
  unfold x402_base64_encode, Base64.mbedtls_base64_encode.
  generalize (4 * (Z.of_nat (length data) / 3
                   + (if Z.of_nat (length data) mod 3 =? 0 then 0 else 1))).
  intros n.
  destruct (Z.of_nat (length data) =? 0); cbn.
  - discriminate.
  - rewrite orb_true_r, orb_false_r. cbn.
    destruct (n + 1 >? max_len); [discriminate |].
    destruct (max_len <? n + 1); cbn; [discriminate |].
    intros H. apply OK_inj in H. symmetry. assumption.
Qed.

(** C9.  When the initial request returns any status other than 402,
    [x402_fetch] makes no further request and returns the status code and
    the body of that response with [payment_made = false].  The headers
    it returns are not those of the response: [http_request] writes a
    text of its own, at most 1023 characters of a [Content-Length] line
    with the length the HTTP client reports and, when the client has a
    value for it, an [X-PAYMENT-RESPONSE] line.  No other header of the
    response is in it. *)
Theorem unpaid_response_headers_are_rebuilt (wallet : solana_wallet_t)
  (url method : string) (headers body : option string) (w : world) :
  let request := exchange_of url method headers body in
  let reply := esp_http_client_perform (trace w) request in
  hr_err reply = ESP_OK ->
  hr_status reply <> 402 ->
  x402_fetch wallet url method headers body w
  = (OK {| status_code := hr_status reply;
           headers :=
             Some (snprintf 1024
                     (("Content-Length: "
                       ++ print_int (hr_content_length reply) ++ CRLF)
                      ++ match hr_payment_response reply with
                         | Some value =>
                             "X-PAYMENT-RESPONSE: " ++ value ++ CRLF
                         | None => EmptyString
                         end));
           body := hr_data reply;
           body_len :=
             match hr_data reply with
             | Some data => Z.of_nat (String.length data)
             | None => 0
             end;
           payment_made := false;
           settlement := settlement_zero |},
     after_request w request).
Proof.
  intros request reply Herr Hstatus.
  rewrite x402_fetch_steps.
  unfold http_request, bind, perform.
  fold request. fold reply. rewrite Herr.
  unfold ok, ret. cbn [status_out headers_out body_out body_len_out].
  unfold x402_is_payment_required, X402_STATUS_PAYMENT_REQUIRED.
  destruct (Z.eqb_spec (hr_status reply) 402) as [E | _]; [contradiction |].
  reflexivity.
Qed.

(** The payload of a payment that succeeds: version 1 and the Base64
    text of the signed transaction. *)
Lemma create_payment_success (wallet : solana_wallet_t)
  (requirements : x402_payment_requirements_t)
  (payload : x402_payment_payload_t) (w w' : world) :
  x402_create_solana_payment wallet requirements w = (OK payload, w') ->
  exists tx,
    x402_signed_transaction wallet requirements w = (OK tx, w')
    /\ x402_version payload = 1
    /\ payload_transaction payload
       = Some (string_of_list_ascii (Base64.encode tx)).
Proof.
  unfold x402_create_solana_payment, bind_ok.
  destruct (x402_signed_transaction wallet requirements w)
    as [[tx | e] w1]; [| discriminate].
  unfold ret at 1.
  destruct (x402_base64_encode tx 4096) as [tx_b64 | e] eqn:Hb64;
    [| discriminate].
  unfold ok, ret. intros H. pair_inv H. apply OK_inj in Hres. subst.
  exists tx. repeat split.
  cbn [payload_transaction]. f_equal.
  apply base64_encode_success in Hb64. assumption.
Qed.

(** After [x402_create_solana_payment] of the fee-payer revision succeeds,
    the wallet's signature over the message bytes [129, end) sits in
    slot 1, bytes [65, 129), and slot 0, bytes [1, 65), is zero. *)
Theorem payment_signature_in_slot_1 (wallet : solana_wallet_t)
  (requirements : x402_payment_requirements_t)
  (payload : x402_payment_payload_t) (w w' : world) :
  x402_create_solana_payment wallet requirements w = (OK payload, w') ->
  exists tx sm,
    x402_signed_transaction wallet requirements w = (OK tx, w')
    /\ payload_transaction payload
       = Some (string_of_list_ascii (Base64.encode tx))
    /\ crypto_sign (Wire.message_bytes tx) (secret_key wallet) = (0, sm)
    /\ Wire.signature_slot 1 tx = firstn 64 sm
    /\ Wire.signature_slot 0 tx = repeat 0 64.
Proof.
  intros H. apply create_payment_success in H.
  destruct H as (tx & Hsigned & _ & Hpayload).
  pose proof (signed_transaction_success _ _ _ _ _ Hsigned) as S.
  destruct S as (mint & mint_b58 & tx0 & sm & _ & _ & _ & [rest ->]
                 & Hsm & Hlen & ->).
  pose proof (write_signature_slots 2 (repeat 0 64) (repeat 0 64) rest
                (firstn 64 sm) (repeat_length _ _) (repeat_length _ _) Hlen)
    as (Hm0 & (Hs0 & Hs1 & Hm) & _).
  exists (write_signature ([2] ++ repeat 0 64 ++ repeat 0 64 ++ rest)
            (1 + 64) (firstn 64 sm)), sm.
  rewrite Hm0 in Hsm.
  repeat split; try assumption.
  rewrite Hm. assumption.
Qed.







(** The probe takes the first entry whose network matches. *)
Lemma find_kind_first (kinds : list cJSON) (network : string) (kind : cJSON) :
  find_kind kinds network = Some kind ->
  exists before after,
    kinds = before ++ kind :: after
    /\ valuestring (cJSON_GetObjectItem (Some kind) "network") = network
    /\ cJSON_IsString (cJSON_GetObjectItem (Some kind) "network") = true
    /\ forall k, In k before -> find_kind [k] network = None.
Proof.
  induction kinds as [| k rest IH]; cbn [find_kind]; [discriminate |].
  destruct (cJSON_IsString (cJSON_GetObjectItem (Some k) "network")
            && String.eqb (valuestring (cJSON_GetObjectItem (Some k) "network"))
                          network) eqn:Hk.
  - intros H. injection H as <-.
    apply andb_true_iff in Hk. destruct Hk as [Hs He].
    apply String.eqb_eq in He.
    exists [], rest. repeat split; try assumption. intros ? [].
  - intros H. destruct (IH H) as (before & after & -> & Hn & Hs & Hb).
    exists (k :: before), after. repeat split; try assumption.
    intros k' [<- | Hin]; [| apply Hb; assumption].
    cbn [find_kind]. rewrite Hk. reflexivity.
Qed.


(** In the fee-payer revision an amount that [strtoull] does not read
    to its end, or reads as zero, stops the payment before any request:
    the call fails and the state, trace included, is as before.  Among
    the texts stopped this way are ["0"], the empty text, and texts with
    a letter, a point or a trailing blank. *)
Theorem amount_rejected_before_rpc (wallet : solana_wallet_t)
  (requirements : x402_payment_requirements_t) (w : world) :
  (forall amount, parse_amount (price_amount requirements) <> OK amount) ->
  (exists e, x402_create_solana_payment wallet requirements w = (Err e, w))
  /\ parse_amount "0" = Err ESP_FAIL
  /\ parse_amount "" = Err ESP_FAIL
  /\ parse_amount "12a" = Err ESP_FAIL
  /\ parse_amount "1.5" = Err ESP_FAIL
  /\ parse_amount "100 " = Err ESP_FAIL.
Proof.
  intros Hamount.
  split; [| repeat split].
  unfold x402_create_solana_payment, x402_signed_transaction, bind_ok.
  destruct (negb (valid requirements)); [eexists; reflexivity |].
  unfold ret at 1.
  destruct (decode_pubkey (recipient requirements)) as [r | e];
    [| eexists; reflexivity].
  unfold ret at 1.
  destruct (decode_pubkey (asset requirements)) as [m | e];
    [| eexists; reflexivity].
  unfold ret at 1.
  destruct (parse_amount (price_amount requirements)) as [a | e] eqn:Ha;
    [| eexists; reflexivity].
  exfalso. apply (Hamount a). reflexivity.
Qed.

(** What the fee-payer revision accepts as an amount: [strtoull] has read
    the whole text and the value is between 1 and [ULLONG_MAX]. *)
Lemma parse_amount_accepts (text : string) (amount : Z) :
  parse_amount text = OK amount ->
  strtoull text = (amount, String.length text)
  /\ text <> EmptyString
  /\ amount <> 0.
Proof.
  unfold parse_amount.
  destruct (strtoull text) as [value consumed].
  destruct (Nat.eqb_spec consumed 0) as [-> | Hc]; cbn [orb]; [discriminate |].
  destruct (Nat.eqb_spec consumed (String.length text)) as [-> | Hl];
    cbn [negb]; [| discriminate].
  destruct (Z.eqb_spec value 0) as [-> | Hv]; [discriminate |].
  intros H. apply OK_inj in H. subst value.
  repeat split; try assumption.
  intros ->. apply Hc. reflexivity.
Qed.

End DriverFacts.

(** A server that answers 200 at once: the call returns its status and
    body, and one [Content-Length] line for headers. *)
Lemma unpaid_response_headers_are_rebuilt_witness :
  let ext := Scenario.externals [] in
  let net := Scenario.scripted [Scenario.reply 200 "content" None] in
  Client.x402_fetch Scenario.test_wallet Scenario.API_URL "GET" None None
    Scenario.fresh
  = (OK {| status_code := 200;
           headers := Some ("Content-Length: 7" ++ Client.CRLF)%string;
           body := Some "content"%string;
           body_len := 7;
           payment_made := false;
           settlement := settlement_zero |},
     Spec.after_request Scenario.fresh
       (Client.exchange_of Scenario.API_URL "GET" None None)).
Proof.
  intros ext net.
  refine (@unpaid_response_headers_are_rebuilt ext net
            Scenario.test_wallet Scenario.API_URL "GET"%string
            None None Scenario.fresh _ _).
  - reflexivity.
  - cbn. discriminate.
Defined.

(** ** The rejected payment, run *)




(** ** A challenge without fee payer, run *)




(** ** The older payment path *)

Section LegacyDriverFacts.
Context {ext : Externals} {fl : Floating} {net : Network}.

Import Payment Wallet SolanaRpc Spec.

Lemma legacy_build_payment_transaction_success (wallet : solana_wallet_t)
  (recipient mint : list Z) (amount max_tx_len : Z)
  (tx : list Z) (w w' : world) :
  LegacyPayment.x402_build_payment_transaction wallet recipient mint
    amount max_tx_len w = (OK tx, w') ->
  trace w' = trace w ++ [blockhash_exchange w]
  /\ exists blockhash,
       LegacySplToken.spl_token_create_transfer_transaction
         (SplToken.memcpy (public_key wallet) 32) recipient mint
         amount blockhash max_tx_len = OK tx.
Proof.
  unfold LegacyPayment.x402_build_payment_transaction, bind_ok.
  unfold ret at 1. cbn [solana_wallet_get_pubkey].
  rewrite ensure_rpc_client_spec.
  unfold bind.
  pose proof (latest_blockhash_trace w) as Htrace. cbn zeta in Htrace.
  destruct (solana_rpc_get_latest_blockhash (rpc_client_of w) _)
    as [[err rpc_response] w1].
  cbn [snd] in Htrace.
  intros H.
  destruct (negb (esp_err_eqb err ESP_OK) || negb (rpc_success rpc_response));
    [discriminate |].
  destruct (cJSON_Parse _) as [root |]; [| discriminate].
  destruct (negb (Json.cJSON_IsString _)); [discriminate |].
  destruct (Base58.base58_decode _ 32) as [blockhash |]; [| discriminate].
  destruct (negb (Nat.eqb (length blockhash) 32)); [discriminate |].
  unfold ret in H. pair_inv H. subst w1.
  split; [assumption |].
  exists blockhash. assumption.
Qed.

(** A successful older [x402_signed_transaction]: one blockhash request,
    the amount read by [spl_token_parse_usd_amount], and the signature
    written at offset 1. *)
Lemma legacy_signed_transaction_success (wallet : solana_wallet_t)
  (requirements : x402_payment_requirements_t) (tx : list Z) (w w' : world) :
  LegacyPayment.x402_signed_transaction wallet requirements w = (OK tx, w') ->
  exists amount tx0 sm,
    UsdAmount.spl_token_parse_usd_amount (Some (price_amount requirements))
      SplToken.USDC_DECIMALS = OK amount
    /\ trace w' = trace w ++ [blockhash_exchange w]
    /\ (exists recipient_pubkey blockhash,
          decode_pubkey (recipient requirements) = OK recipient_pubkey
          /\ LegacySplToken.spl_token_create_transfer_transaction
               (SplToken.memcpy (public_key wallet) 32) recipient_pubkey
               LegacySplToken.USDC_DEVNET_MINT amount blockhash 2048
             = OK tx0)
    /\ (exists rest, tx0 = [2] ++ repeat 0 64 ++ repeat 0 64 ++ rest)
    /\ crypto_sign (Wire.message_bytes tx0) (secret_key wallet) = (0, sm)
    /\ length (firstn 64 sm) = 64%nat
    /\ tx = write_signature tx0 1 (firstn 64 sm).
Proof.
  unfold LegacyPayment.x402_signed_transaction, bind_ok.
  intros H.
  destruct (negb (valid requirements)); [discriminate |].
  unfold ret at 1 in H.
  destruct (decode_pubkey (recipient requirements))
    as [recipient_pubkey | e] eqn:Hrecipient; [| discriminate].
  unfold ret at 1 in H.
  destruct (UsdAmount.spl_token_parse_usd_amount _ _) as [amount | e] eqn:Ha;
    [| discriminate].
  destruct (LegacyPayment.x402_build_payment_transaction wallet
              recipient_pubkey LegacySplToken.USDC_DEVNET_MINT amount 2048 w)
    as [[tx0 | e] w2] eqn:Hbuild; [| discriminate].
  unfold ret at 1 in H.
  destruct (solana_wallet_sign wallet (skipn (1 + 64 + 64) tx0))
    as [sig | e] eqn:Hsign; [| discriminate].
  unfold ok, ret in H. pair_inv H. apply OK_inj in Hres. subst w2.
  apply legacy_build_payment_transaction_success in Hbuild.
  destruct Hbuild as (Htrace & blockhash & Hbuilder).
  pose proof (legacy_transfer_transaction_prefix _ _ _ _ _ _ _ Hbuilder)
    as Hprefix.
  apply wallet_sign_success in Hsign.
  destruct Hsign as (sm & Hsm & -> & Hlen).
  exists amount, tx0, sm.
  split; [reflexivity |].
  split; [assumption |].
  split; [exists recipient_pubkey, blockhash; split; [reflexivity | assumption] |].
  split; [assumption |].
  split; [assumption |].
  split; [assumption | symmetry; assumption].
Qed.

(** C1, the copy in x402_payment.c.  After the older
    [x402_create_solana_payment] succeeds, the wallet's signature over the
    message bytes [129, end) sits in slot 0, bytes [1, 65), and it is
    slot 1, bytes [65, 129), that is left zero: the two slots are the
    other way round from the fee-payer revision. *)
Theorem legacy_payment_signature_in_slot_0 (wallet : solana_wallet_t)
  (requirements : x402_payment_requirements_t)
  (payload : LegacyPayment.x402_payment_payload_t) (w w' : world) :
  LegacyPayment.x402_create_solana_payment wallet requirements w
  = (OK payload, w') ->
  exists tx sm,
    LegacyPayment.x402_signed_transaction wallet requirements w = (OK tx, w')
    /\ LegacyPayment.kind_transaction (LegacyPayment.kind payload)
       = Some (string_of_list_ascii (Base64.encode tx))
    /\ crypto_sign (Wire.message_bytes tx) (secret_key wallet) = (0, sm)
    /\ Wire.signature_slot 0 tx = firstn 64 sm
    /\ Wire.signature_slot 1 tx = repeat 0 64.
Proof.
  unfold LegacyPayment.x402_create_solana_payment, bind_ok.
  destruct (LegacyPayment.x402_signed_transaction wallet requirements w)
    as [[tx | e] w1] eqn:Hsigned; [| discriminate].
  unfold ret at 1.
  destruct (x402_base64_encode tx 4096) as [tx_b64 | e] eqn:Hb64;
    [| discriminate].
  unfold ok, ret. intros H. pair_inv H. apply OK_inj in Hres. subst.
  apply base64_encode_success in Hb64. subst tx_b64.
  pose proof (legacy_signed_transaction_success _ _ _ _ _ Hsigned) as S.
  destruct S as (amount & tx0 & sm & _ & _ & _ & [rest ->] & Hsm & Hlen & ->).
  pose proof (write_signature_slots 2 (repeat 0 64) (repeat 0 64) rest
                (firstn 64 sm) (repeat_length _ _) (repeat_length _ _) Hlen)
    as (Hm0 & _ & (Hs0 & Hs1 & Hm)).
  exists (write_signature ([2] ++ repeat 0 64 ++ repeat 0 64 ++ rest)
            1 (firstn 64 sm)), sm.
  rewrite Hm0 in Hsm.
  repeat split; try assumption.
  rewrite Hm. assumption.
Qed.

Lemma legacy_build_payment_transaction_trace (wallet : solana_wallet_t)
  (recipient mint : list Z) (amount max_tx_len : Z) (w : world) :
  trace (snd (LegacyPayment.x402_build_payment_transaction wallet recipient
                mint amount max_tx_len w))
  = trace w ++ [blockhash_exchange w].
Proof.
  unfold LegacyPayment.x402_build_payment_transaction, bind_ok.
  unfold ret at 1. cbn [solana_wallet_get_pubkey].
  rewrite ensure_rpc_client_spec.
  unfold bind.
  pose proof (latest_blockhash_trace w) as Htrace. cbn zeta in Htrace.
  destruct (solana_rpc_get_latest_blockhash (rpc_client_of w) _)
    as [[err rpc_response] w1].
  cbn [snd] in Htrace.
  destruct (negb (esp_err_eqb err ESP_OK) || negb (rpc_success rpc_response));
    [assumption |].
  destruct (cJSON_Parse _) as [root |]; [| assumption].
  destruct (negb (Json.cJSON_IsString _)); [assumption |].
  destruct (Base58.base58_decode _ 32) as [blockhash |]; [| assumption].
  destruct (negb (Nat.eqb (length blockhash) 32)); assumption.
Qed.

(** C4, the copy in x402_payment.c.  The older path reads the amount
    with [spl_token_parse_usd_amount], which accepts every string: for
    valid requirements whose recipient decodes, whatever the text of
    [maxAmountRequired] (["0"], empty, letters), the path goes on to issue
    the blockhash RPC request.  No amount is rejected before the RPC. *)
Theorem legacy_amount_never_rejected (wallet : solana_wallet_t)
  (requirements : x402_payment_requirements_t) (recipient_pubkey : list Z)
  (w : world) :
  valid requirements = true ->
  decode_pubkey (recipient requirements) = OK recipient_pubkey ->
  (exists amount,
     UsdAmount.spl_token_parse_usd_amount (Some (price_amount requirements))
       SplToken.USDC_DECIMALS = OK amount)
  /\ trace (snd (LegacyPayment.x402_signed_transaction wallet requirements w))
     = trace w ++ [blockhash_exchange w].
Proof.
  intros Hvalid Hrecipient.
  split; [eexists; reflexivity |].
  unfold LegacyPayment.x402_signed_transaction, bind_ok.
  rewrite Hvalid, Hrecipient. cbn [negb]. unfold ret at 1 2.
  cbn [UsdAmount.spl_token_parse_usd_amount].
  pose proof (legacy_build_payment_transaction_trace wallet recipient_pubkey
                LegacySplToken.USDC_DEVNET_MINT
                (double_to_u64
                   (double_mul_u64
                      (atof (UsdAmount.skip_dollar (price_amount requirements)))
                      (UsdAmount.multiplier_after
                         (Z.to_nat (u8 SplToken.USDC_DECIMALS)))))
                2048 w) as Htrace.
  destruct (LegacyPayment.x402_build_payment_transaction _ _ _ _ _ w)
    as [[tx0 | e] w1]; cbn [snd] in Htrace; [| assumption].
  unfold ret at 1.
  destruct (solana_wallet_sign wallet _) as [sig | e]; assumption.
Qed.

Lemma multiplier_after_spec (iterations : nat) :
  UsdAmount.multiplier_after iterations = 10 ^ Z.of_nat iterations mod 2 ^ 64.
Proof.
  induction iterations as [| k IH].
  - reflexivity.
  - cbn [UsdAmount.multiplier_after]. rewrite IH. unfold u64.
    rewrite Nat2Z.inj_succ, Z.pow_succ_r by lia.
    rewrite Z.mul_mod_idemp_l by lia. f_equal. lia.
Qed.

(** C10, as the code has it.  For every non-NULL amount string and
    every [decimals], [spl_token_parse_usd_amount] returns [ESP_OK]:
    it skips one leading dollar sign, reads the rest with [atof],
    multiplies by the [uint64_t] product of [decimals] tens, which is
    [10 ^ decimals] reduced modulo [2 ^ 64] (and so [10 ^ decimals]
    itself up to 19 decimals), and casts the product to [uint64_t].
    The payment path of x402_payment.c builds its transfer with the
    amount this parser returns for [maxAmountRequired] and 6 decimals. *)
Theorem parse_usd_amount_always_succeeds (amount_str : string)
  (decimals : Z) :
  UsdAmount.spl_token_parse_usd_amount (Some amount_str) decimals
  = OK (double_to_u64
          (double_mul_u64 (atof (UsdAmount.skip_dollar amount_str))
             (10 ^ u8 decimals mod 2 ^ 64)))
  /\ (u8 decimals <= 19 -> 10 ^ u8 decimals mod 2 ^ 64 = 10 ^ u8 decimals)
  /\ UsdAmount.skip_dollar (String "$" amount_str) = amount_str
  /\ forall wallet requirements w tx w',
       LegacyPayment.x402_signed_transaction wallet requirements w
       = (OK tx, w') ->
       exists recipient_pubkey blockhash tx0 signature,
         LegacySplToken.spl_token_create_transfer_transaction
           (SplToken.memcpy (public_key wallet) 32) recipient_pubkey
           LegacySplToken.USDC_DEVNET_MINT
           (double_to_u64
              (double_mul_u64
                 (atof (UsdAmount.skip_dollar (price_amount requirements)))
                 1000000))
           blockhash 2048
         = OK tx0
         /\ tx = write_signature tx0 1 signature.
Proof.
  split.
  - cbn [UsdAmount.spl_token_parse_usd_amount].
    rewrite multiplier_after_spec, Z2Nat.id; [reflexivity |].
    unfold u8. apply Z.mod_pos_bound. lia.
  - split.
    + intros Hd. apply Z.mod_small.
      assert (H0 : 0 <= u8 decimals)
        by (unfold u8; apply Z.mod_pos_bound; lia).
      split; [apply Z.pow_nonneg; lia |].
      apply Z.le_lt_trans with (10 ^ 19); [| reflexivity].
      apply Z.pow_le_mono_r; lia.
    + split; [reflexivity |].
      intros wallet requirements w tx w' H.
      apply legacy_signed_transaction_success in H.
      destruct H as (amount & tx0 & sm & Hamount
                     & _ & (recipient_pubkey & blockhash & _ & Hbuilder)
                     & _ & _ & _ & ->).
      cbn [UsdAmount.spl_token_parse_usd_amount] in Hamount.
      apply OK_inj in Hamount. subst amount.
      exists recipient_pubkey, blockhash, tx0, (firstn 64 sm).
      split; [exact Hbuilder | reflexivity].
Qed.

End LegacyDriverFacts.

(** The older path run against the test wallet: the payment succeeds, the
    signature is in slot 0 and slot 1 is the one left zero. *)
Lemma legacy_payment_signature_in_slot_0_witness :
  exists tx sm,
    @LegacyPayment.x402_signed_transaction Scenario.legacy_externals
      Scenario.integral_floating Scenario.legacy_server Scenario.test_wallet
      (Scenario.legacy_requirements "100") Scenario.fresh
    = (OK tx, snd Scenario.legacy_created)
    /\ Wire.signature_slot 0 tx = firstn 64 sm
    /\ Wire.signature_slot 0 tx <> repeat 0 64
    /\ Wire.signature_slot 1 tx = repeat 0 64.
Proof.
  assert (H : @LegacyPayment.x402_create_solana_payment
                Scenario.legacy_externals Scenario.integral_floating
                Scenario.legacy_server Scenario.test_wallet
                (Scenario.legacy_requirements "100") Scenario.fresh
              = (OK Scenario.legacy_payload, snd Scenario.legacy_created))
    by (vm_compute; reflexivity).
  destruct (@legacy_payment_signature_in_slot_0
              Scenario.legacy_externals Scenario.integral_floating
              Scenario.legacy_server Scenario.test_wallet
              (Scenario.legacy_requirements "100") Scenario.legacy_payload
              Scenario.fresh (snd Scenario.legacy_created) H)
    as (tx & sm & Hsigned & _ & _ & Hs0 & Hs1).
  exists tx, sm. repeat split; try assumption.
  assert (Htx : tx = Scenario.legacy_tx).
  { assert (Hrun : @LegacyPayment.x402_signed_transaction
                     Scenario.legacy_externals Scenario.integral_floating
                     Scenario.legacy_server Scenario.test_wallet
                     (Scenario.legacy_requirements "100") Scenario.fresh
                   = (OK Scenario.legacy_tx, snd Scenario.legacy_created))
      by (vm_compute; reflexivity).
    rewrite Hrun in Hsigned. pair_inv Hsigned. apply OK_inj in Hres.
    symmetry. assumption. }
  rewrite Htx. vm_compute. discriminate.
Defined.

(** The older path given the amount ["0"]: the payment is created and the
    blockhash request is the one request made. *)
Lemma legacy_amount_never_rejected_witness :
  (exists payload,
     fst (@LegacyPayment.x402_create_solana_payment Scenario.legacy_externals
            Scenario.integral_floating Scenario.legacy_server
            Scenario.test_wallet (Scenario.legacy_requirements "0")
            Scenario.fresh)
     = OK payload)
  /\ @UsdAmount.spl_token_parse_usd_amount Scenario.integral_floating
       (Some "0"%string) SplToken.USDC_DECIMALS = OK 0
  /\ trace (snd (@LegacyPayment.x402_signed_transaction
                   Scenario.legacy_externals Scenario.integral_floating
                   Scenario.legacy_server Scenario.test_wallet
                   (Scenario.legacy_requirements "0") Scenario.fresh))
     = [Spec.blockhash_exchange Scenario.fresh].
Proof.
  split; [vm_compute; eexists; reflexivity |].
  split; [vm_compute; reflexivity |].
  apply (@legacy_amount_never_rejected Scenario.legacy_externals
           Scenario.integral_floating Scenario.legacy_server
           Scenario.test_wallet (Scenario.legacy_requirements "0")
           Scenario.recipient_key Scenario.fresh);
    vm_compute; reflexivity.
Defined.

(** The fee-payer revision given a parseable but invalid amount: the call
    fails and nothing was requested. *)
Lemma amount_rejected_before_rpc_witness :
  exists e,
    @Payment.x402_create_solana_payment Scenario.paid_externals
      Scenario.rejecting_server Scenario.test_wallet
      {| recipient := Scenario.RECIPIENT;
         network := "solana-devnet";
         asset := Scenario.ASSET;
         price_amount := "0";
         price_currency := "USDC";
         facilitator_url := EmptyString;
         facilitator_fee_payer := Scenario.FEE_PAYER;
         valid := true |}
      Scenario.after_challenge
    = (Err e, Scenario.after_challenge).
Proof.
  apply (@amount_rejected_before_rpc Scenario.paid_externals
           Scenario.rejecting_server Scenario.test_wallet).
  intros amount. vm_compute. discriminate.
Defined.

(** [strtoull] skips blanks and takes a sign, so the fee-payer revision
    accepts amounts that are not plain digit strings: ["-5"] is read as
    [2^64 - 5], [" 7"] and ["+7"] as 7.  With ["-5"] the payment goes on:
    both RPC requests are made and the transfer instruction carries
    [2^64 - 5] as its amount. *)
Theorem signed_amount_accepted :
  Payment.parse_amount "-5" = OK 18446744073709551611
  /\ Payment.parse_amount " 7" = OK 7
  /\ Payment.parse_amount "+7" = OK 7
  /\ @Payment.x402_signed_transaction Scenario.signed_amount_externals
       Scenario.signed_amount_server Scenario.test_wallet
       Scenario.signed_amount_requirements Scenario.after_challenge
     = (OK Scenario.signed_amount_tx, snd Scenario.signed_amount_run)
  /\ length (trace (snd Scenario.signed_amount_run)) = 3%nat
  /\ (exists tx,
        Wire.parse_transaction Scenario.signed_amount_tx = Some tx
        /\ map Wire.data (Wire.instructions tx)
           = [3 :: Wire.le_bytes 8 18446744073709551611]).
Proof.
  split; [vm_compute; reflexivity |].
  split; [vm_compute; reflexivity |].
  split; [vm_compute; reflexivity |].
  split; [vm_compute; reflexivity |].
  split; [vm_compute; reflexivity |].
  vm_compute. eexists. split; reflexivity.
Qed.

(** ** The payment header *)

Ltac sextet := unfold is_byte in *; Z.div_mod_to_equations; lia.

Section EncodingFacts.
Context {ext : Externals} {net : Network}.

Import Base64 Encoding Json.

Lemma sextet_table :
  forallb (fun s => (dec_char (enc_char s) =? s)
                    && negb (Ascii.eqb (enc_char s) "="%char))
          (map Z.of_nat (seq 0 64)) = true.
Proof. vm_compute. reflexivity. Qed.

Lemma sextet_round_trip (s : Z) :
  0 <= s < 64 ->
  dec_char (enc_char s) = s /\ Ascii.eqb (enc_char s) "="%char = false.
Proof.
  intros Hs.
  pose proof (proj1 (forallb_forall _ _) sextet_table s) as H.
  cbv beta in H.
  assert (Hin : In s (map Z.of_nat (seq 0 64))).
  { rewrite <- (Z2Nat.id s) by lia. apply in_map. apply in_seq. lia. }
  specialize (H Hin). apply andb_true_iff in H. destruct H as [H1 H2].
  split; [apply Z.eqb_eq; assumption |].
  apply negb_true_iff. assumption.
Qed.

Lemma decode_chunk (c0 c1 c2 c3 : ascii) (rest : list ascii) :
  decode (c0 :: c1 :: c2 :: c3 :: rest)
  = (let s0 := dec_char c0 in
      let s1 := dec_char c1 in
      if (s0 <? 0) || (s1 <? 0) then None
      else if Ascii.eqb c3 "="%char then
        match rest with
        | [] =>
            if Ascii.eqb c2 "="%char then Some [s0 * 4 + s1 / 16]
            else
              let s2 := dec_char c2 in
              if s2 <? 0 then None
              else Some [s0 * 4 + s1 / 16; (s1 mod 16) * 16 + s2 / 4]
        | _ :: _ => None
        end
      else
        let s2 := dec_char c2 in
        let s3 := dec_char c3 in
        if (s2 <? 0) || (s3 <? 0) then None
        else
          match decode rest with
          | Some more =>
              Some (s0 * 4 + s1 / 16 :: (s1 mod 16) * 16 + s2 / 4
                      :: (s2 mod 4) * 64 + s3 :: more)
          | None => None
          end).
Proof. reflexivity. Qed.

Lemma base64_round_trip_bounded (n : nat) (data : list Z) :
  (length data <= n)%nat -> Forall is_byte data ->
  decode (encode data) = Some data.
Proof.
  revert data. induction n as [| n IH]; intros data Hlen Hbytes.
  - destruct data; [reflexivity | cbn in Hlen; lia].
  - destruct data as [| b0 [| b1 [| b2 rest]]].
    + reflexivity.
    + inversion Hbytes as [| ? ? H0 _]; subst.
      cbn [encode]. rewrite decode_chunk. cbv zeta.
      destruct (sextet_round_trip (b0 / 4)) as [-> _]; [sextet |].
      destruct (sextet_round_trip (b0 mod 4 * 16)) as [-> _]; [sextet |].
      replace (b0 / 4 <? 0) with false by (symmetry; apply Z.ltb_ge; sextet).
      replace (b0 mod 4 * 16 <? 0) with false
        by (symmetry; apply Z.ltb_ge; sextet).
      cbn [orb Ascii.eqb Bool.eqb andb].
      f_equal. f_equal. sextet.
    + inversion Hbytes as [| ? ? H0 Hb1]; subst.
      inversion Hb1 as [| ? ? H1 _]; subst.
      cbn [encode]. rewrite decode_chunk. cbv zeta.
      destruct (sextet_round_trip (b0 / 4)) as [-> _]; [sextet |].
      destruct (sextet_round_trip (b0 mod 4 * 16 + b1 / 16)) as [-> _];
        [sextet |].
      destruct (sextet_round_trip (b1 mod 16 * 4)) as [-> ->]; [sextet |].
      replace (b0 / 4 <? 0) with false by (symmetry; apply Z.ltb_ge; sextet).
      replace (b0 mod 4 * 16 + b1 / 16 <? 0) with false
        by (symmetry; apply Z.ltb_ge; sextet).
      replace (b1 mod 16 * 4 <? 0) with false
        by (symmetry; apply Z.ltb_ge; sextet).
      cbn [orb Ascii.eqb Bool.eqb andb].
      f_equal. f_equal; [sextet |]. f_equal. sextet.
    + inversion Hbytes as [| ? ? H0 Hb1]; subst.
      inversion Hb1 as [| ? ? H1 Hb2]; subst.
      inversion Hb2 as [| ? ? H2 Hrest]; subst.
      cbn [encode]. rewrite decode_chunk. cbv zeta.
      destruct (sextet_round_trip (b0 / 4)) as [-> _]; [sextet |].
      destruct (sextet_round_trip (b0 mod 4 * 16 + b1 / 16)) as [-> _];
        [sextet |].
      destruct (sextet_round_trip (b1 mod 16 * 4 + b2 / 64)) as [-> _];
        [sextet |].
      destruct (sextet_round_trip (b2 mod 64)) as [-> ->]; [sextet |].
      replace (b0 / 4 <? 0) with false by (symmetry; apply Z.ltb_ge; sextet).
      replace (b0 mod 4 * 16 + b1 / 16 <? 0) with false
        by (symmetry; apply Z.ltb_ge; sextet).
      replace (b1 mod 16 * 4 + b2 / 64 <? 0) with false
        by (symmetry; apply Z.ltb_ge; sextet).
      replace (b2 mod 64 <? 0) with false
        by (symmetry; apply Z.ltb_ge; sextet).
      cbn [orb].
      rewrite IH by (assumption || (cbn [length] in Hlen; lia)).
      f_equal. f_equal; [sextet |]. f_equal; [sextet |]. f_equal. sextet.
Qed.

Lemma base64_round_trip (data : list Z) :
  Forall is_byte data -> decode (encode data) = Some data.
Proof. apply (base64_round_trip_bounded (length data)). lia. Qed.

Lemma bytes_of_string_bytes (s : string) : Forall is_byte (bytes_of_string s).
Proof.
  unfold bytes_of_string. apply Forall_forall. intros b Hin.
  apply in_map_iff in Hin. destruct Hin as (c & <- & _).
  unfold is_byte, char_code.
  pose proof (N_ascii_bounded c). lia.
Qed.

Lemma list_ascii_round_trip (l : list ascii) :
  list_ascii_of_string (string_of_list_ascii l) = l.
Proof. apply list_ascii_of_string_of_list_ascii. Qed.

End EncodingFacts.

(** ** The payment header, read back *)

Section JsonTextFacts.
Context {ext : Externals} {net : Network}.

Import Libc Json JsonText Base64 Encoding Spec.

(** The reader takes back each character the printer writes. *)
Lemma read_chars_step (c : ascii) (fuel : nat) (tail : list Z) :
  read_chars (S fuel) (map char_code (print_char c) ++ tail)
  = match read_chars fuel tail with
    | Some (cs, rest) => Some (c :: cs, rest)
    | None => None
    end.
Proof.
  destruct c as [[] [] [] [] [] [] [] []]; reflexivity.
Qed.

Lemma print_char_nonempty (c : ascii) : (1 <= length (print_char c))%nat.
Proof.
  unfold print_char.
  repeat match goal with
         | |- context [if ?b then _ else _] => destruct b
         end; cbn [length]; lia.
Qed.

Lemma read_chars_printed (chars : list ascii) (fuel : nat) (tail : list Z) :
  (length (flat_map print_char chars) < fuel)%nat ->
  read_chars fuel (map char_code (flat_map print_char chars) ++ 34 :: tail)
  = Some (chars, tail).
Proof.
  revert fuel. induction chars as [| c chars IH]; intros fuel Hfuel.
  - destruct fuel as [| fuel]; [cbn in Hfuel; lia |]. reflexivity.
  - cbn [flat_map] in *. rewrite length_app in Hfuel.
    pose proof (print_char_nonempty c) as Hc.
    destruct fuel as [| fuel]; [lia |].
    rewrite map_app, <- app_assoc, read_chars_step, IH by lia.
    reflexivity.
Qed.

Lemma read_string_printed (s : string) (tail : list Z) :
  read_string (map char_code (print_string s) ++ tail) = Some (s, tail).
Proof.
  unfold print_string, quote.
  cbn [map app]. rewrite map_app, <- app_assoc. cbn [map app].
  change (char_code (ascii_of_N 34)) with 34.
  unfold read_string. change (34 =? 34) with true. cbv iota.
  rewrite read_chars_printed.
  - rewrite string_of_list_ascii_of_string. reflexivity.
  - rewrite length_app, length_map. cbn [length]. lia.
Qed.

Lemma char_code_of_digit (d : Z) :
  0 <= d < 10 -> char_code (ascii_of_N (Z.to_N (48 + d))) = 48 + d.
Proof.
  intros H. unfold char_code.
  rewrite N_ascii_embedding by lia. lia.
Qed.

Lemma decimal_digits_step (fuel : nat) (n : Z) (acc : list ascii) :
  decimal_digits (S fuel) n acc
  = if n / 10 =? 0 then ascii_of_N (Z.to_N (48 + n mod 10)) :: acc
    else decimal_digits fuel (n / 10)
           (ascii_of_N (Z.to_N (48 + n mod 10)) :: acc).
Proof. reflexivity. Qed.

(** The digits [printf] writes for a number, read back. *)
Lemma decimal_digits_read (fuel : nat) :
  forall (m : Z) (acc : list ascii),
    0 <= m < 2 ^ Z.of_nat (S fuel) ->
    exists ds,
      decimal_digits (S fuel) m acc = ds ++ acc
      /\ (exists d rest, map char_code ds = d :: rest /\ is_digit d = true)
      /\ forall value tail,
           read_digits value (map char_code ds ++ tail)
           = read_digits (value * 10 ^ Z.of_nat (length ds) + m) tail.
Proof.
  induction fuel as [| fuel IH]; intros m acc Hm;
    rewrite decimal_digits_step;
    pose proof (Z.mod_pos_bound m 10 ltac:(lia)) as Hd;
    pose proof (char_code_of_digit (m mod 10) Hd) as Hcode;
    assert (Hdigit : is_digit (48 + m mod 10) = true)
      by (unfold is_digit; apply andb_true_iff; split; apply Z.leb_le; lia);
    assert (Hone :
      m / 10 = 0 ->
      exists ds,
        ascii_of_N (Z.to_N (48 + m mod 10)) :: acc = ds ++ acc
        /\ (exists d rest, map char_code ds = d :: rest /\ is_digit d = true)
        /\ forall value tail,
             read_digits value (map char_code ds ++ tail)
             = read_digits (value * 10 ^ Z.of_nat (length ds) + m) tail).
  1, 3: (intros Hz; exists [ascii_of_N (Z.to_N (48 + m mod 10))];
         split; [reflexivity |]; split;
         [ cbn [map]; rewrite Hcode; eauto
         | intros value tail; cbn [map app length read_digits];
           rewrite Hcode, Hdigit; f_equal;
           change (Z.of_nat 1) with 1; rewrite Z.pow_1_r;
           Z.div_mod_to_equations; lia ]).
  - destruct (Z.eqb_spec (m / 10) 0) as [Hz | Hnz]; [exact (Hone Hz) |].
    exfalso. apply Hnz. change (2 ^ Z.of_nat 1) with 2 in Hm.
    Z.div_mod_to_equations. lia.
  - destruct (Z.eqb_spec (m / 10) 0) as [Hz | Hnz]; [exact (Hone Hz) |].
    clear Hone.
    rewrite Nat2Z.inj_succ, Z.pow_succ_r in Hm by lia.
    destruct (IH (m / 10) (ascii_of_N (Z.to_N (48 + m mod 10)) :: acc))
      as (ds & Heq & Hhead & Hread).
    { Z.div_mod_to_equations. lia. }
    exists (ds ++ [ascii_of_N (Z.to_N (48 + m mod 10))]).
    split; [rewrite Heq, <- app_assoc; reflexivity |]. split.
    + destruct Hhead as (d & rest & Hds & Hdd).
      rewrite map_app, Hds. cbn [app]. eauto.
    + intros value tail.
      rewrite map_app, <- app_assoc, Hread. cbn [map app read_digits].
      rewrite Hcode, Hdigit. f_equal.
      rewrite length_app, Nat2Z.inj_add. cbn [length].
      change (Z.of_nat 1) with 1.
      rewrite Z.pow_add_r, Z.pow_1_r by lia.
      Z.div_mod_to_equations. nia.
Qed.

Lemma read_digits_stop (value t : Z) (tail : list Z) :
  is_digit t = false -> read_digits value (t :: tail) = (value, t :: tail).
Proof. intros H. cbn [read_digits]. rewrite H. reflexivity. Qed.

(** A printed integer is read back when what follows it is not a digit,
    a point or an exponent. *)
Lemma read_value_integer (fuel : nat) (n t : Z) (tail : list Z) :
  is_digit t = false ->
  (t =? 46) || (t =? 101) || (t =? 69) = false ->
  read_value (S fuel)
    (map char_code (list_ascii_of_string (print_int n)) ++ t :: tail)
  = Some (cJSON_Number n, t :: tail).
Proof.
  intros Ht Hfrac.
  unfold print_int. rewrite list_ascii_of_string_of_list_ascii.
  set (m := Z.abs n).
  assert (Hm : 0 <= m < 2 ^ Z.of_nat (S (Z.to_nat (Z.log2 m)))).
  { split; [subst m; lia |].
    rewrite Nat2Z.inj_succ, Z2Nat.id by apply Z.log2_nonneg.
    destruct (Z.eq_dec m 0) as [-> | Hpos]; [reflexivity |].
    apply Z.log2_spec. subst m. lia. }
  destruct (decimal_digits_read _ m [] Hm) as (ds & Heq & Hhead & Hread).
  rewrite Heq, app_nil_r.
  destruct Hhead as (d & rest & Hds & Hd).
  assert (Hrange : 48 <= d <= 57).
  { unfold is_digit in Hd. apply andb_true_iff in Hd.
    destruct Hd as [H1 H2]. apply Z.leb_le in H1, H2. lia. }
  assert (Hnumber :
    forall bytes value,
      read_integer bytes = Some (value, t :: tail) ->
      (exists b more, bytes = b :: more /\ (b = 45 \/ 48 <= b <= 57)) ->
      read_value (S fuel) bytes = Some (cJSON_Number value, t :: tail)).
  { intros bytes value Hint (b & more & -> & Hb).
    cbn [read_value skip_space].
    assert (Hs : is_space b = false).
    { unfold is_space.
      repeat (apply orb_false_iff; split); apply Z.eqb_neq; lia. }
    rewrite Hs.
    replace (b =? 123) with false by (symmetry; apply Z.eqb_neq; lia).
    replace (b =? 91) with false by (symmetry; apply Z.eqb_neq; lia).
    replace (b =? 34) with false by (symmetry; apply Z.eqb_neq; lia).
    replace (b =? 116) with false by (symmetry; apply Z.eqb_neq; lia).
    replace (b =? 102) with false by (symmetry; apply Z.eqb_neq; lia).
    replace (b =? 110) with false by (symmetry; apply Z.eqb_neq; lia).
    rewrite Hint. reflexivity. }
  assert (Hdigits :
    read_digits 0 (map char_code ds ++ t :: tail) = (m, t :: tail)).
  { rewrite Hread, read_digits_stop by assumption. f_equal; lia. }
  destruct (Z.ltb_spec n 0) as [Hneg | Hpos].
  - apply Hnumber.
    + cbn [map app]. change (char_code "-") with 45.
      unfold read_integer. change (45 =? 45) with true. cbv iota beta.
      rewrite Hds in *. cbn [app] in *. rewrite Hd, Hdigits, Hfrac.
      f_equal. f_equal. subst m. lia.
    + cbn [map app]. change (char_code "-") with 45. eauto.
  - apply Hnumber.
    + unfold read_integer. rewrite Hds in *. cbn [app] in *.
      replace (d =? 45) with false by (symmetry; apply Z.eqb_neq; lia).
      cbv iota beta. rewrite Hd, Hdigits, Hfrac.
      f_equal. f_equal. subst m. lia.
    + rewrite Hds. cbn [app]. eauto.
Qed.

Lemma read_value_string (fuel : nat) (s : string) (tail : list Z) :
  read_value (S fuel) (map char_code (print_string s) ++ tail)
  = Some (cJSON_String s, tail).
Proof.
  pose proof (read_string_printed s tail) as H.
  unfold print_string, quote in *. cbn [map app] in *.
  change (char_code (ascii_of_N 34)) with 34 in *.
  cbn [read_value skip_space].
  change (is_space 34) with false. cbv iota.
  change (34 =? 123) with false. change (34 =? 91) with false.
  change (34 =? 34) with true. cbv iota.
  rewrite H. reflexivity.
Qed.

(** One member of an object, followed by a comma and a further member. *)
Lemma read_members_more (fuel : nat) (key next : string)
  (value rest after : list Z) (item : cJSON) (more : list (string * cJSON)) :
  let others := map char_code (print_string next) ++ rest in
  read_value fuel (value ++ 44 :: others) = Some (item, 44 :: others) ->
  read_members fuel others = Some (more, after) ->
  read_members (S fuel)
    (map char_code (print_string key) ++ 58 :: value ++ 44 :: others)
  = Some ((key, item) :: more, after).
Proof.
  intros others Hvalue Hmore.
  cbn [read_members]. rewrite read_string_printed.
  cbn [skip_space]. change (is_space 58) with false. cbv iota.
  change (58 =? 58) with true. cbv iota.
  rewrite Hvalue.
  cbn [skip_space]. change (is_space 44) with false. cbv iota.
  change (44 =? 44) with true. cbv iota.
  replace (skip_space others) with others; [rewrite Hmore; reflexivity |].
  subst others. unfold print_string, quote. cbn [map app skip_space].
  change (is_space (char_code (ascii_of_N 34))) with false. reflexivity.
Qed.

(** The last member of an object. *)
Lemma read_members_last (fuel : nat) (key : string) (value tail : list Z)
  (item : cJSON) :
  read_value fuel (value ++ 125 :: tail) = Some (item, 125 :: tail) ->
  read_members (S fuel)
    (map char_code (print_string key) ++ 58 :: value ++ 125 :: tail)
  = Some ([(key, item)], tail).
Proof.
  intros Hvalue.
  cbn [read_members]. rewrite read_string_printed.
  cbn [skip_space]. change (is_space 58) with false. cbv iota.
  change (58 =? 58) with true. cbv iota.
  rewrite Hvalue.
  cbn [skip_space]. change (is_space 125) with false. cbv iota.
  change (125 =? 44) with false. change (125 =? 125) with true. cbv iota.
  reflexivity.
Qed.

(** An object with members, from its brace on. *)
Lemma read_value_object (fuel : nat) (key : string) (rest after : list Z)
  (children : list (string * cJSON)) :
  read_members fuel (map char_code (print_string key) ++ rest)
  = Some (children, after) ->
  read_value (S fuel) (123 :: map char_code (print_string key) ++ rest)
  = Some (cJSON_Object children, after).
Proof.
  unfold print_string, quote. cbn [map app].
  change (char_code (ascii_of_N 34)) with 34.
  intros H.
  cbn [read_value skip_space].
  change (is_space 123) with false. cbv iota.
  change (123 =? 123) with true. cbv iota.
  cbn [skip_space]. change (is_space 34) with false. cbv iota.
  change (34 =? 125) with false. cbv iota.
  rewrite H. reflexivity.
Qed.

(** The text of [x402_payload_to_json], member by member. *)
Lemma payload_text (payload : x402_payment_payload_t) :
  bytes_of_string (x402_payload_to_json payload)
  = 123 :: map char_code (print_string "x402Version")
      ++ 58 :: map char_code
                 (list_ascii_of_string (print_int (x402_version payload)))
      ++ 44 :: map char_code (print_string "scheme")
      ++ 58 :: map char_code (print_string (scheme payload))
      ++ 44 :: map char_code (print_string "network")
      ++ 58 :: map char_code (print_string (payload_network payload))
      ++ 44 :: map char_code (print_string "payload")
      ++ 58 :: match payload_transaction payload with
               | Some transaction =>
                   123 :: map char_code (print_string "transaction")
                     ++ 58 :: map char_code (print_string transaction)
                     ++ [125]
               | None => [123; 125]
               end
      ++ [125].
Proof.
  unfold bytes_of_string, x402_payload_to_json, cJSON_PrintUnformatted.
  rewrite list_ascii_of_string_of_list_ascii.
  destruct payload as [v sch nw [tx |]];
    cbn [payload_json x402_version scheme payload_network
         payload_transaction add_string add_item app print_value];
    repeat first [ rewrite map_app
                 | rewrite <- app_assoc
                 | progress cbn [map app] ];
    reflexivity.
Qed.

Lemma payload_text_read (payload : x402_payment_payload_t) (fuel : nat) :
  read_value (8 + fuel) (bytes_of_string (x402_payload_to_json payload))
  = Some (flat_envelope payload, []).
Proof.
  rewrite payload_text. unfold flat_envelope.
  change (8 + fuel)%nat with (S (7 + fuel)).
  apply read_value_object.
  apply read_members_more;
    [apply read_value_integer; reflexivity |].
  apply read_members_more; [apply read_value_string |].
  apply read_members_more; [apply read_value_string |].
  apply read_members_last.
  destruct (payload_transaction payload) as [transaction |].
  - repeat first [rewrite <- app_assoc | progress cbn [app]].
    apply read_value_object.
    apply read_members_last.
    apply read_value_string.
  - reflexivity.
Qed.

Lemma payload_text_length (payload : x402_payment_payload_t) :
  exists fuel,
    length (bytes_of_string (x402_payload_to_json payload)) = (8 + fuel)%nat.
Proof.
  assert (H : (8 <= length (bytes_of_string (x402_payload_to_json payload)))%nat).
  { rewrite payload_text. cbn [length]. rewrite length_app.
    change (length (map char_code (print_string "x402Version"))) with 13%nat.
    lia. }
  exists (length (bytes_of_string (x402_payload_to_json payload)) - 8)%nat.
  lia.
Qed.

(** The text of every payload is read back as the flat envelope. *)
Lemma payload_document (payload : x402_payment_payload_t) :
  read_document (bytes_of_string (x402_payload_to_json payload))
  = Some (flat_envelope payload).
Proof.
  unfold read_document.
  destruct (payload_text_length payload) as (fuel & ->).
  rewrite payload_text_read. reflexivity.
Qed.

(** C5.  For every payment payload whose encoding succeeds, the
    [X-PAYMENT] header value Base64-decodes to a text that reads as one
    flat JSON object.  Its members are exactly [x402Version], [scheme],
    [network] and [payload], in this order; none is named [kind].
    [x402Version] is the version number the payload holds, whatever it
    is, and [payload] is an object whose only member is [transaction]
    when the payload has a transaction, and the empty object when it has
    none.  Every payload that [x402_create_solana_payment] returns holds
    version 1 and a transaction. *)
Theorem payment_header_is_flat (payload : x402_payment_payload_t)
  (max_len : Z) (header : string) :
  x402_encode_payment_payload payload max_len = OK header ->
  exists text,
    decode (list_ascii_of_string header) = Some text
    /\ read_document text
       = Some (cJSON_Object
                 [ ("x402Version"%string,
                    cJSON_Number (x402_version payload));
                   ("scheme"%string, cJSON_String (scheme payload));
                   ("network"%string,
                    cJSON_String (payload_network payload));
                   ("payload"%string,
                    cJSON_Object
                      match payload_transaction payload with
                      | Some transaction =>
                          [("transaction"%string, cJSON_String transaction)]
                      | None => []
                      end) ])
    /\ forall wallet requirements w w',
         Payment.x402_create_solana_payment wallet requirements w
         = (OK payload, w') ->
         x402_version payload = 1
         /\ exists tx_b64, payload_transaction payload = Some tx_b64.
Proof.
  intros Hencode.
  exists (bytes_of_string (x402_payload_to_json payload)).
  split; [| split].
  - unfold x402_encode_payment_payload in Hencode.
    apply base64_encode_success in Hencode. subst header.
    rewrite list_ascii_round_trip.
    apply base64_round_trip. apply bytes_of_string_bytes.
  - exact (payload_document payload).
  - intros wallet requirements w w' H.
    apply create_payment_success in H.
    destruct H as (tx0 & _ & Hv & Htx).
    split; [exact Hv |]. eexists. exact Htx.
Qed.

End JsonTextFacts.

(** ** The amount parser of the older path, run *)

(** C10, the claim as worded fails at 20 decimals.  The loop multiplies
    a [uint64_t] by ten 20 times and wraps: the factor is
    [10 ^ 20 mod 2 ^ 64 = 7766279631452241920], so one million-millionth
    of a token comes out as 7766279 base units where a product by
    [10 ^ 20] gives 100000000.  From 64 decimals on the factor is 0. *)
Lemma usd_multiplier_wraps :
  UsdAmount.multiplier_after 20 = 7766279631452241920
  /\ UsdAmount.multiplier_after 64 = 0
  /\ @UsdAmount.spl_token_parse_usd_amount Scenario.decimal_floating
       (Some "0.000000000001"%string) 20
     = OK 7766279
  /\ @double_to_u64 Scenario.decimal_floating
       (@double_mul_u64 Scenario.decimal_floating
          (@atof Scenario.decimal_floating "0.000000000001"%string)
          (10 ^ 20))
     = 100000000.
Proof.
  split; [vm_compute; reflexivity |].
  split; [vm_compute; reflexivity |].
  split; vm_compute; reflexivity.
Qed.

(** ** The transfer and the derivations, run *)

Lemma transfer_transaction_layout_witness :
  exists source_ata dest_ata,
    Wire.parse_transaction Scenario.transfer_tx
    = Some (Spec.transfer_transaction Scenario.fee_payer_key
              Scenario.zero_key source_ata dest_ata
              SplToken.SPL_TOKEN_PROGRAM_ID Scenario.blockhash_key 100).
Proof.
  assert (H : @SplToken.spl_token_create_transfer_transaction
                (Scenario.externals [])
                Scenario.fee_payer_key Scenario.zero_key
                Scenario.recipient_key Scenario.mint_key
                SplToken.SPL_TOKEN_PROGRAM_ID 100 Scenario.blockhash_key 2048
              = OK Scenario.transfer_tx)
    by (vm_compute; reflexivity).
  destruct (@transfer_transaction_layout (Scenario.externals [])
              Scenario.fee_payer_key Scenario.zero_key
              Scenario.recipient_key Scenario.mint_key
              SplToken.SPL_TOKEN_PROGRAM_ID 100 Scenario.blockhash_key 2048
              Scenario.transfer_tx eq_refl eq_refl eq_refl eq_refl H)
    as (source_ata & dest_ata & _ & _ & Hparse).
  exists source_ata, dest_ata. exact Hparse.
Defined.

(** C3, the older derivation (second copy of spl_token.c).  It tries
    bump 255 only and performs no curve test: whatever the wallet and the
    mint, it returns the SHA-256 candidate of bump 255.  For the test
    wallet and the older USDC mint that candidate is a curve point, and
    the fee-payer revision derives another, off-curve address for the
    same wallet, mint and token program. *)
Theorem legacy_ata_on_curve :
  (forall (ext : Externals) (wallet mint : list Z),
     LegacySplToken.spl_token_get_associated_token_address wallet mint
     = OK (Spec.ata_candidate wallet mint SplToken.SPL_TOKEN_PROGRAM_ID 255))
  /\ let ext := Scenario.externals [] in
     LegacySplToken.spl_token_get_associated_token_address
       Scenario.zero_key LegacySplToken.USDC_DEVNET_MINT
     = OK Scenario.legacy_ata
     /\ SplToken.is_on_curve Scenario.legacy_ata = true
     /\ SplToken.spl_token_get_associated_token_address_with_program
          Scenario.zero_key LegacySplToken.USDC_DEVNET_MINT
          SplToken.SPL_TOKEN_PROGRAM_ID
        = OK Scenario.current_ata
     /\ SplToken.is_on_curve Scenario.current_ata = false
     /\ Scenario.current_ata <> Scenario.legacy_ata.
Proof.
  split; [intros ext wallet mint; apply legacy_ata_is_bump_255 |].
  intros ext.
  split; [vm_compute; reflexivity |].
  split; [vm_compute; reflexivity |].
  split; [vm_compute; reflexivity |].
  split; [vm_compute; reflexivity |].
  vm_compute. discriminate.
Qed.

(** The older builder on the test wallet. *)
Lemma legacy_transfer_transaction_layout_witness :
  let ext := Scenario.externals [] in
  Wire.parse_transaction Scenario.legacy_transfer_tx
  = Some (Spec.legacy_transfer_transaction Scenario.zero_key
            (Spec.ata_candidate Scenario.zero_key
               LegacySplToken.USDC_DEVNET_MINT
               SplToken.SPL_TOKEN_PROGRAM_ID 255)
            (Spec.ata_candidate Scenario.recipient_key
               LegacySplToken.USDC_DEVNET_MINT
               SplToken.SPL_TOKEN_PROGRAM_ID 255)
            Scenario.blockhash_key 100).
Proof.
  intros ext.
  assert (H : @LegacySplToken.spl_token_create_transfer_transaction ext
                Scenario.zero_key Scenario.recipient_key
                LegacySplToken.USDC_DEVNET_MINT 100 Scenario.blockhash_key
                2048
              = OK Scenario.legacy_transfer_tx)
    by (vm_compute; reflexivity).
  exact (proj1 (@legacy_transfer_transaction_layout ext
                  Scenario.zero_key Scenario.recipient_key
                  LegacySplToken.USDC_DEVNET_MINT 100 Scenario.blockhash_key
                  2048 Scenario.legacy_transfer_tx eq_refl eq_refl H)).
Defined.

(** ** Base58 *)

Section Base58Facts.

Import Base58 Spec.

Lemma le_value_app (base : Z) (a b : list Z) :
  le_value base (a ++ b)
  = le_value base a + base ^ Z.of_nat (length a) * le_value base b.
Proof.
  induction a as [| d a IH]; cbn [app le_value length].
  - change (Z.of_nat 0) with 0. rewrite Z.pow_0_r. lia.
  - rewrite IH, Nat2Z.inj_succ, Z.pow_succ_r by lia. ring.
Qed.

Lemma le_value_bounds (base : Z) (digits : list Z) :
  0 < base -> in_base base digits ->
  0 <= le_value base digits < base ^ Z.of_nat (length digits).
Proof.
  intros Hb H. induction H as [| d rest Hd _ IH]; cbn [le_value length].
  - change (Z.of_nat 0) with 0. rewrite Z.pow_0_r. lia.
  - rewrite Nat2Z.inj_succ, Z.pow_succ_r by lia. nia.
Qed.

Lemma in_base_app (base : Z) (a b : list Z) :
  in_base base a -> in_base base b -> in_base base (a ++ b).
Proof. intros Ha Hb. apply Forall_app. split; assumption. Qed.

(** Lists of one length, digits in range, one value: one list. *)
Lemma le_value_injective (base : Z) (a b : list Z) :
  0 < base -> in_base base a -> in_base base b ->
  length a = length b -> le_value base a = le_value base b -> a = b.
Proof.
  intros Hb Ha. revert b.
  induction Ha as [| x a Hx Ha IH]; intros b Hbb Hlen Hval.
  - destruct b; [reflexivity | discriminate].
  - destruct b as [| y b]; [discriminate |].
    inversion Hbb as [| ? ? Hy Hbb']; subst.
    cbn [le_value] in Hval. cbn [length] in Hlen.
    assert (Hxy : x = y).
    { assert (E1 : (x + base * le_value base a) mod base = x)
        by (rewrite Z.mul_comm, Z.mod_add by lia;
            apply Z.mod_small; lia).
      assert (E2 : (y + base * le_value base b) mod base = y)
        by (rewrite Z.mul_comm, Z.mod_add by lia;
            apply Z.mod_small; lia).
      rewrite Hval in E1. congruence. }
    subst y.
    f_equal. apply IH; [assumption | lia |].
    apply (Z.mul_reg_l _ _ base); lia.
Qed.

Lemma normal_length (base : Z) (a b : list Z) :
  1 < base -> in_base base a -> in_base base b ->
  normal base a -> normal base b ->
  le_value base a = le_value base b -> length a = length b.
Proof.
  assert (Hhalf : forall a b, 1 < base -> in_base base a -> in_base base b ->
            normal base a -> normal base b ->
            le_value base a = le_value base b ->
            (length a <= length b)%nat).
  { clear. intros a b Hb Ha Hbb Na Nb Hval.
    assert (Hlb : (1 <= length b)%nat).
    { destruct Nb as [-> | Nb]; [lia |].
      destruct b; [| cbn; lia]. cbn in Nb. lia. }
    destruct Na as [-> | Na]; [assumption |].
    pose proof (le_value_bounds base b ltac:(lia) Hbb) as Bb.
    rewrite <- Hval in Bb.
    assert (Hlt : base ^ Z.of_nat (length a - 1) < base ^ Z.of_nat (length b))
      by lia.
    apply Z.pow_lt_mono_r_iff in Hlt; lia. }
  intros. apply Nat.le_antisymm; apply Hhalf; auto.
Qed.

Lemma normal_unique (base : Z) (a b : list Z) :
  1 < base -> in_base base a -> in_base base b ->
  normal base a -> normal base b ->
  le_value base a = le_value base b -> a = b.
Proof.
  intros. apply (le_value_injective base); try assumption; try lia.
  apply (normal_length base); assumption.
Qed.

(** *** The encoder *)

Lemma encode_carry_pass_spec (digits : list Z) (carry : Z) :
  in_base 58 digits -> 0 <= carry <= 255 ->
  let (digits', carry') := encode_carry_pass digits carry in
  length digits' = length digits
  /\ in_base 58 digits'
  /\ le_value 58 digits' + 58 ^ Z.of_nat (length digits) * carry'
     = 256 * le_value 58 digits + carry
  /\ 0 <= carry' <= 255.
Proof.
  intros H. revert carry.
  induction H as [| d rest Hd _ IH]; intros carry Hc.
  - cbn [encode_carry_pass length le_value].
    change (Z.of_nat 0) with 0. rewrite Z.pow_0_r.
    split; [reflexivity |]. split; [constructor |]. split; lia.
  - cbn [encode_carry_pass].
    assert (Hs : u32 (carry + u32 (Z.shiftl d 8)) = carry + 256 * d).
    { rewrite Z.shiftl_mul_pow2 by lia. unfold u32.
      rewrite (Z.mod_small (d * 2 ^ 8)) by lia.
      rewrite Z.mod_small by lia. lia. }
    rewrite Hs.
    specialize (IH ((carry + 256 * d) / 58)
                  ltac:(Z.div_mod_to_equations; lia)).
    destruct (encode_carry_pass rest ((carry + 256 * d) / 58))
      as [rest' carry'].
    destruct IH as (Hlen & Hbase & Hval & Hc').
    assert (Hu : u8 ((carry + 256 * d) mod 58) = (carry + 256 * d) mod 58).
    { unfold u8. apply Z.mod_small. Z.div_mod_to_equations. lia. }
    rewrite Hu.
    split; [cbn [length]; lia |].
    split; [constructor; [Z.div_mod_to_equations; lia | assumption] |].
    split; [| lia].
    cbn [le_value length].
    rewrite Nat2Z.inj_succ, Z.pow_succ_r by lia.
    pose proof (Z.div_mod (carry + 256 * d) 58 ltac:(lia)). nia.
Qed.

Lemma encode_extend_spec (room : nat) (carry : Z) :
  0 <= carry <= 255 -> (2 <= room)%nat ->
  exists more,
    encode_extend room carry = Some more
    /\ in_base 58 more
    /\ le_value 58 more = carry
    /\ (length more <= 2)%nat
    /\ (more = [] \/ 58 ^ Z.of_nat (length more - 1) <= carry).
Proof.
  intros Hc Hroom.
  destruct room as [| [| room]]; try lia.
  cbn [encode_extend].
  destruct (Z.gtb_spec carry 0) as [Hpos | Hzero].
  - destruct (Z.gtb_spec (carry / 58) 0) as [Hpos2 | Hzero2].
    + assert (Hend : encode_extend room (carry / 58 / 58) = Some []).
      { assert (carry / 58 / 58 = 0) by (Z.div_mod_to_equations; lia).
        destruct room; cbn; rewrite H; reflexivity. }
      rewrite Hend.
      assert (Hu1 : u8 (carry mod 58) = carry mod 58)
        by (unfold u8; apply Z.mod_small; Z.div_mod_to_equations; lia).
      assert (Hu2 : u8 (carry / 58 mod 58) = carry / 58)
        by (unfold u8; rewrite (Z.mod_small (carry / 58) 58)
              by (Z.div_mod_to_equations; lia);
            apply Z.mod_small; Z.div_mod_to_equations; lia).
      rewrite Hu1, Hu2.
      eexists. split; [reflexivity |].
      split; [repeat constructor; Z.div_mod_to_equations; lia |].
      split; [cbn [le_value]; Z.div_mod_to_equations; lia |].
      split; [cbn; lia |].
      right. cbn. Z.div_mod_to_equations. lia.
    + assert (Hu1 : u8 (carry mod 58) = carry)
        by (unfold u8; rewrite (Z.mod_small carry 58)
              by (Z.div_mod_to_equations; lia);
            apply Z.mod_small; lia).
      rewrite Hu1.
      eexists. split; [reflexivity |].
      split; [repeat constructor; Z.div_mod_to_equations; lia |].
      split; [cbn [le_value]; lia |].
      split; [cbn; lia |].
      right. cbn. lia.
  - exists []. split; [reflexivity |].
    split; [constructor |].
    split; [cbn; lia |].
    split; [cbn; lia |]. left. reflexivity.
Qed.

Lemma be_from_ge (base acc : Z) (digits : list Z) :
  0 < base -> 0 <= acc -> in_base base digits ->
  acc <= be_from base acc digits.
Proof.
  intros Hb Ha H. revert acc Ha.
  induction H as [| d rest Hd _ IH]; intros acc Ha; cbn [be_from fold_left].
  - lia.
  - fold (be_from base (acc * base + d) rest).
    specialize (IH (acc * base + d) ltac:(nia)). nia.
Qed.

Lemma be_from_rev (base acc : Z) (digits : list Z) :
  be_from base acc digits
  = acc * base ^ Z.of_nat (length digits) + le_value base (rev digits).
Proof.
  revert acc. induction digits as [| d rest IH]; intros acc.
  - cbn [be_from fold_left length rev le_value].
    change (Z.of_nat 0) with 0. rewrite Z.pow_0_r. lia.
  - cbn [be_from fold_left rev length].
    fold (be_from base (acc * base + d) rest).
    rewrite IH, le_value_app, length_rev.
    cbn [le_value]. rewrite Nat2Z.inj_succ, Z.pow_succ_r by lia. ring.
Qed.

Lemma normal_nonempty (base : Z) (digits : list Z) :
  normal base digits -> (1 <= length digits)%nat.
Proof.
  intros [-> | H]; [lia |].
  destruct digits; [| cbn; lia]. cbn in H. lia.
Qed.

(** A normal list whose value is below [base ^ n] has at most [n]
    digits. *)
Lemma normal_length_le (base : Z) (digits : list Z) (n : nat) :
  1 < base -> normal base digits -> (1 <= n)%nat ->
  le_value base digits < base ^ Z.of_nat n ->
  (length digits <= n)%nat.
Proof.
  intros Hb [-> | H] Hn Hv; [assumption |].
  assert (Hlt : base ^ Z.of_nat (length digits - 1) < base ^ Z.of_nat n)
    by lia.
  apply Z.pow_lt_mono_r_iff in Hlt; lia.
Qed.

Lemma encode_byte_spec (buffer_size : nat) (digits : list Z) (b : Z) :
  in_base 58 digits -> normal 58 digits -> 0 <= b <= 255 ->
  (length digits + 2 <= buffer_size)%nat ->
  exists digits',
    encode_byte buffer_size digits b = Some digits'
    /\ in_base 58 digits'
    /\ normal 58 digits'
    /\ le_value 58 digits' = le_value 58 digits * 256 + b.
Proof.
  intros Hbase Hnormal Hb Hroom.
  unfold encode_byte.
  assert (Hu : u32 b = b) by (unfold u32; apply Z.mod_small; lia).
  rewrite Hu.
  pose proof (encode_carry_pass_spec digits b Hbase Hb) as P.
  destruct (encode_carry_pass digits b) as [digits' carry].
  destruct P as (Hlen & Hbase' & Hval & Hcarry).
  destruct (encode_extend_spec (buffer_size - length digits') carry Hcarry
              ltac:(lia))
    as (more & -> & Hmore & Hmv & Hml & Htop).
  exists (digits' ++ more).
  split; [reflexivity |].
  split; [apply in_base_app; assumption |].
  assert (Hvalue : le_value 58 (digits' ++ more)
                   = le_value 58 digits * 256 + b)
    by (rewrite le_value_app, Hmv, Hlen; lia).
  split; [| exact Hvalue].
  pose proof (le_value_bounds 58 digits ltac:(lia) Hbase) as Bd.
  destruct Htop as [-> | Htop].
  - rewrite app_nil_r in *. cbn [le_value] in Hmv. subst carry.
    destruct Hnormal as [H1 | Hn]; [left; lia |].
    right. rewrite Hlen, Hvalue. lia.
  - right. rewrite le_value_app, Hmv, length_app, Hlen.
    pose proof (le_value_bounds 58 digits' ltac:(lia) Hbase') as Bd'.
    assert (Hm1 : (1 <= length more)%nat).
    { destruct more; [| cbn; lia]. cbn in Hmv. cbn in Htop. lia. }
    replace (Z.of_nat (length digits + length more - 1))
      with (Z.of_nat (length digits) + Z.of_nat (length more - 1)) by lia.
    rewrite Z.pow_add_r by lia.
    assert (0 < 58 ^ Z.of_nat (length digits)) by (apply Z.pow_pos_nonneg; lia).
    nia.
Qed.

Lemma encode_digits_spec (buffer_size : nat) (input digits : list Z) :
  in_base 58 digits -> normal 58 digits -> in_base 256 input ->
  (3 <= buffer_size)%nat ->
  be_from 256 (le_value 58 digits) input < 58 ^ Z.of_nat (buffer_size - 2) ->
  exists digits',
    encode_digits buffer_size digits input = Some digits'
    /\ in_base 58 digits'
    /\ normal 58 digits'
    /\ le_value 58 digits' = be_from 256 (le_value 58 digits) input.
Proof.
  intros Hbase Hnormal Hinput Hsize. revert digits Hbase Hnormal.
  induction Hinput as [| b rest Hb Hrest IH]; intros digits Hbase Hnormal Hfit.
  - exists digits. repeat split; assumption.
  - cbn [encode_digits].
    cbn [be_from fold_left] in Hfit.
    fold (be_from 256 (le_value 58 digits * 256 + b) rest) in Hfit.
    pose proof (le_value_bounds 58 digits ltac:(lia) Hbase) as Bd.
    pose proof (be_from_ge 256 (le_value 58 digits * 256 + b) rest
                  ltac:(lia) ltac:(lia) Hrest) as Hge.
    assert (Hlen : (length digits <= buffer_size - 2)%nat).
    { apply (normal_length_le 58); try assumption; lia. }
    destruct (encode_byte_spec buffer_size digits b Hbase Hnormal
                ltac:(lia) ltac:(lia))
      as (digits' & -> & Hbase' & Hnormal' & Hval').
    destruct (IH digits' Hbase' Hnormal') as (final & Hfinal & Hfb & Hfn & Hfv).
    { rewrite Hval'. exact Hfit. }
    exists final. rewrite Hval' in Hfv.
    repeat split; assumption.
Qed.

(** *** The decoder *)

Lemma decode_carry_pass_spec (bytes : list Z) (carry : Z) :
  in_base 256 bytes -> 0 <= carry <= 57 ->
  let (bytes', carry') := decode_carry_pass bytes carry in
  length bytes' = length bytes
  /\ in_base 256 bytes'
  /\ le_value 256 bytes' + 256 ^ Z.of_nat (length bytes) * carry'
     = 58 * le_value 256 bytes + carry
  /\ 0 <= carry' <= 57.
Proof.
  intros H. revert carry.
  induction H as [| b rest Hb _ IH]; intros carry Hc.
  - cbn [decode_carry_pass length le_value].
    change (Z.of_nat 0) with 0. rewrite Z.pow_0_r.
    split; [reflexivity |]. split; [constructor |]. split; lia.
  - cbn [decode_carry_pass].
    assert (Hs : u32 (carry + u32 (b * 58)) = carry + 58 * b).
    { unfold u32. rewrite (Z.mod_small (b * 58)) by lia.
      rewrite Z.mod_small by lia. lia. }
    rewrite Hs.
    rewrite Z.shiftr_div_pow2 by lia.
    change 255 with (Z.ones 8). rewrite Z.land_ones by lia.
    change (2 ^ 8) with 256.
    specialize (IH ((carry + 58 * b) / 256)
                  ltac:(Z.div_mod_to_equations; lia)).
    destruct (decode_carry_pass rest ((carry + 58 * b) / 256))
      as [rest' carry'].
    destruct IH as (Hlen & Hbase & Hval & Hc').
    assert (Hu : u8 ((carry + 58 * b) mod 256) = (carry + 58 * b) mod 256).
    { unfold u8. apply Z.mod_small. Z.div_mod_to_equations. lia. }
    rewrite Hu.
    split; [cbn [length]; lia |].
    split; [constructor; [Z.div_mod_to_equations; lia | assumption] |].
    split; [| lia].
    cbn [le_value length].
    rewrite Nat2Z.inj_succ, Z.pow_succ_r by lia.
    pose proof (Z.div_mod (carry + 58 * b) 256 ltac:(lia)). nia.
Qed.

Lemma decode_extend_zero (room : nat) : decode_extend room 0 = Some [].
Proof. destruct room; reflexivity. Qed.

Lemma decode_extend_one (room : nat) (carry : Z) :
  0 < carry <= 57 -> (1 <= room)%nat ->
  decode_extend room carry = Some [carry].
Proof.
  intros Hc Hroom. destruct room as [| room]; [lia |].
  cbn [decode_extend].
  destruct (Z.gtb_spec carry 0) as [_ | Hn]; [| lia].
  rewrite Z.shiftr_div_pow2 by lia.
  change 255 with (Z.ones 8). rewrite Z.land_ones by lia.
  change (2 ^ 8) with 256.
  rewrite Z.div_small by lia. rewrite decode_extend_zero.
  unfold u8. rewrite (Z.mod_small carry 256) by lia.
  rewrite (Z.mod_small carry 256) by lia. reflexivity.
Qed.

Lemma alphabet_table :
  forallb (fun d => (decode_table_at (alphabet_at d) =? d)
                    && Bool.eqb (Ascii.eqb (alphabet_at d) "1"%char) (d =? 0))
          (map Z.of_nat (seq 0 58)) = true.
Proof. vm_compute. reflexivity. Qed.

Lemma alphabet_round_trip (d : Z) :
  0 <= d < 58 ->
  decode_table_at (alphabet_at d) = d
  /\ Ascii.eqb (alphabet_at d) "1"%char = (d =? 0).
Proof.
  intros Hd.
  pose proof (proj1 (forallb_forall _ _) alphabet_table d) as H.
  cbv beta in H.
  assert (Hin : In d (map Z.of_nat (seq 0 58))).
  { rewrite <- (Z2Nat.id d) by lia. apply in_map. apply in_seq. lia. }
  specialize (H Hin). apply andb_true_iff in H. destruct H as [H1 H2].
  split; [apply Z.eqb_eq; assumption |].
  apply Bool.eqb_prop. assumption.
Qed.

Lemma decode_char_spec (buffer_size : nat) (bytes : list Z) (d : Z) :
  in_base 256 bytes -> normal 256 bytes -> 0 <= d < 58 ->
  le_value 256 bytes * 58 + d < 256 ^ Z.of_nat buffer_size ->
  exists bytes',
    decode_char buffer_size bytes (alphabet_at d) = Some bytes'
    /\ in_base 256 bytes'
    /\ normal 256 bytes'
    /\ le_value 256 bytes' = le_value 256 bytes * 58 + d.
Proof.
  intros Hbase Hnormal Hd Hfit.
  unfold decode_char.
  destruct (alphabet_round_trip d Hd) as [-> _].
  destruct (Z.ltb_spec d 0) as [Hneg | _]; [lia |].
  assert (Hu : u32 d = d) by (unfold u32; apply Z.mod_small; lia).
  rewrite Hu.
  pose proof (decode_carry_pass_spec bytes d Hbase ltac:(lia)) as P.
  destruct (decode_carry_pass bytes d) as [bytes' carry].
  destruct P as (Hlen & Hbase' & Hval & Hcarry).
  pose proof (le_value_bounds 256 bytes' ltac:(lia) Hbase') as Bd'.
  pose proof (le_value_bounds 256 bytes ltac:(lia) Hbase) as Bd.
  assert (Hpos : 0 < 256 ^ Z.of_nat (length bytes))
    by (apply Z.pow_pos_nonneg; lia).
  destruct (Z.eq_dec carry 0) as [-> | Hnz].
  - rewrite decode_extend_zero, app_nil_r.
    exists bytes'. split; [reflexivity |]. split; [assumption |].
    split; [| lia].
    destruct Hnormal as [H1 | Hn]; [left; lia |].
    right. rewrite Hlen. lia.
  - assert (Hroom : (1 <= buffer_size - length bytes')%nat).
    { assert (Hlt : 256 ^ Z.of_nat (length bytes)
                    < 256 ^ Z.of_nat buffer_size) by nia.
      apply Z.pow_lt_mono_r_iff in Hlt; lia. }
    rewrite (decode_extend_one _ carry ltac:(lia) Hroom).
    exists (bytes' ++ [carry]). split; [reflexivity |].
    split; [apply in_base_app; [assumption | repeat constructor; lia] |].
    rewrite le_value_app, Hlen. cbn [le_value].
    split; [| lia].
    right. rewrite le_value_app, length_app, Hlen. cbn [length le_value].
    replace (Z.of_nat (length bytes + 1 - 1)) with (Z.of_nat (length bytes))
      by lia.
    replace (carry + 256 * 0) with carry by lia.
    assert (256 ^ Z.of_nat (length bytes) * 1
            <= 256 ^ Z.of_nat (length bytes) * carry)
      by (apply Z.mul_le_mono_nonneg_l; lia).
    lia.
Qed.

Lemma decode_bytes_spec (buffer_size : nat) (digits bytes : list Z) :
  in_base 58 digits -> in_base 256 bytes -> normal 256 bytes ->
  be_from 58 (le_value 256 bytes) digits < 256 ^ Z.of_nat buffer_size ->
  exists bytes',
    decode_bytes buffer_size bytes (map alphabet_at digits) = Some bytes'
    /\ in_base 256 bytes'
    /\ normal 256 bytes'
    /\ le_value 256 bytes' = be_from 58 (le_value 256 bytes) digits.
Proof.
  intros Hdigits. revert bytes.
  induction Hdigits as [| d rest Hd Hrest IH]; intros bytes Hbase Hnormal Hfit.
  - exists bytes. repeat split; assumption.
  - cbn [map decode_bytes].
    cbn [be_from fold_left] in Hfit.
    fold (be_from 58 (le_value 256 bytes * 58 + d) rest) in Hfit.
    pose proof (le_value_bounds 256 bytes ltac:(lia) Hbase) as Bd.
    pose proof (be_from_ge 58 (le_value 256 bytes * 58 + d) rest
                  ltac:(lia) ltac:(lia) Hrest) as Hge.
    destruct (decode_char_spec buffer_size bytes d Hbase Hnormal Hd
                ltac:(lia))
      as (bytes' & -> & Hbase' & Hnormal' & Hval').
    destruct (IH bytes' Hbase' Hnormal') as (final & Hfinal & Hfb & Hfn & Hfv).
    { rewrite Hval'. exact Hfit. }
    exists final. rewrite Hval' in Hfv.
    cbn [be_from fold_left].
    repeat split; assumption.
Qed.

(** *** Keys *)

Lemma leading_zeros_split (input : list Z) :
  exists suffix,
    input = repeat 0 (count_leading_zeros input) ++ suffix
    /\ (suffix = [] \/ exists b rest, suffix = b :: rest /\ b <> 0).
Proof.
  induction input as [| b rest IH].
  - exists []. split; [reflexivity | left; reflexivity].
  - cbn [count_leading_zeros].
    destruct (Z.eqb_spec b 0) as [-> | Hb].
    + destruct IH as (suffix & Hsplit & Hhead).
      exists suffix. split; [| assumption].
      cbn [repeat app]. f_equal. assumption.
    + exists (b :: rest). split; [reflexivity |].
      right. exists b, rest. split; [reflexivity | assumption].
Qed.

Lemma be_from_zeros (base : Z) (n : nat) (digits : list Z) :
  be_from base 0 (repeat 0 n ++ digits) = be_from base 0 digits.
Proof.
  induction n as [| n IH]; [reflexivity |].
  cbn [repeat app be_from fold_left].
  replace (0 * base + 0) with 0 by lia. exact IH.
Qed.

Lemma in_base_rev (base : Z) (digits : list Z) :
  in_base base digits -> in_base base (rev digits).
Proof. apply Forall_rev. Qed.

Lemma in_base_repeat_zero (base : Z) (n : nat) :
  0 < base -> in_base base (repeat 0 n).
Proof.
  intros Hb. apply Forall_forall. intros x Hx.
  apply repeat_spec in Hx. subst. lia.
Qed.

(** The leading characters ['1'] of a text of digits are its leading
    zero digits. *)
Lemma count_leading_ones_digits (n : nat) (top : Z) (rest : list Z) :
  0 <= top < 58 -> top <> 0 ->
  count_leading_ones (map alphabet_at (repeat 0 n ++ top :: rest)) = n.
Proof.
  intros Ht Hnz. induction n as [| n IH].
  - cbn [repeat app map count_leading_ones].
    destruct (alphabet_round_trip top Ht) as [_ ->].
    destruct (Z.eqb_spec top 0); [contradiction | reflexivity].
  - cbn [repeat app map count_leading_ones].
    destruct (alphabet_round_trip 0 ltac:(lia)) as [_ ->].
    cbn [Z.eqb]. f_equal. exact IH.
Qed.

(** The most significant digit of a normal list of non-zero value. *)
Lemma normal_top (base : Z) (digits : list Z) :
  1 < base -> in_base base digits -> normal base digits ->
  le_value base digits <> 0 ->
  exists front top,
    digits = front ++ [top] /\ 0 <= top < base /\ top <> 0.
Proof.
  intros Hb Hbase Hnormal Hnz.
  destruct digits as [| d digits] using rev_ind.
  - cbn in Hnz. contradiction.
  - clear IHdigits.
    apply Forall_app in Hbase. destruct Hbase as [Hfront Htop].
    inversion Htop as [| ? ? Hd _]; subst.
    exists digits, d. split; [reflexivity |]. split; [assumption |].
    intros ->.
    rewrite le_value_app in Hnz. cbn [le_value] in Hnz.
    pose proof (le_value_bounds base digits ltac:(lia) Hfront) as B.
    destruct Hnormal as [H1 | Hn].
    + rewrite length_app in H1. cbn [length] in H1.
      destruct digits; [| cbn in H1; lia].
      cbn [le_value length] in Hnz. lia.
    + rewrite le_value_app, length_app in Hn. cbn [le_value length] in Hn.
      replace (Z.of_nat (length digits + 1 - 1))
        with (Z.of_nat (length digits)) in Hn by lia.
      lia.
Qed.

Lemma string_of_list_ascii_length (l : list ascii) :
  String.length (string_of_list_ascii l) = length l.
Proof.
  induction l as [| c l IH]; [reflexivity |].
  cbn [string_of_list_ascii String.length length]. f_equal. exact IH.
Qed.

Lemma power_table :
  forallb (fun z => 256 ^ (32 - z) <=? 58 ^ (44 - z))
          (map Z.of_nat (seq 0 32)) = true.
Proof. vm_compute. reflexivity. Qed.

Lemma power_bound (z : nat) :
  (z < 32)%nat -> 256 ^ Z.of_nat (32 - z) <= 58 ^ Z.of_nat (44 - z).
Proof.
  intros Hz.
  pose proof (proj1 (forallb_forall _ _) power_table (Z.of_nat z)) as H.
  cbv beta in H.
  assert (Hin : In (Z.of_nat z) (map Z.of_nat (seq 0 32)))
    by (apply in_map; apply in_seq; lia).
  specialize (H Hin). apply Z.leb_le in H.
  replace (Z.of_nat (32 - z)) with (32 - Z.of_nat z) by lia.
  replace (Z.of_nat (44 - z)) with (44 - Z.of_nat z) by lia.
  exact H.
Qed.

(** Every 32-byte key with a non-zero byte survives the round trip:
    [base58_encode] succeeds into any buffer of 45 bytes or more, with at
    most 44 characters, and [base58_decode] of the text into a buffer of
    32 bytes or more gives back the key, with output length 32. *)
Theorem nonzero_key_round_trip (key : list Z)
  (output_size max_output_len : Z) :
  length key = 32%nat -> Forall is_byte key -> key <> repeat 0 32 ->
  45 <= output_size -> 32 <= max_output_len ->
  exists text,
    base58_encode key output_size = Some text
    /\ (String.length text <= 44)%nat
    /\ base58_decode text max_output_len = Some key.
Proof.
  intros Hlen Hbytes Hnz Hout Hmax.
  assert (Hkey : in_base 256 key) by exact Hbytes.
  destruct (leading_zeros_split key) as (suffix & Hsplit & Hhead).
  remember (count_leading_zeros key) as z eqn:Hzdef.
  destruct Hhead as [-> | (b & rest & -> & Hb)].
  { exfalso. apply Hnz. rewrite app_nil_r in Hsplit.
    rewrite Hsplit in Hlen. rewrite repeat_length in Hlen.
    rewrite Hsplit, Hlen. reflexivity. }
  assert (Hz : (z + S (length rest) = 32)%nat).
  { rewrite Hsplit in Hlen. rewrite length_app, repeat_length in Hlen.
    exact Hlen. }
  assert (Hsuffix : in_base 256 (b :: rest)).
  { rewrite Hsplit in Hkey. apply Forall_app in Hkey. apply Hkey. }
  (* the number the key denotes *)
  set (N := le_value 256 (rev (b :: rest))).
  assert (HN : be_from 256 0 key = N).
  { rewrite Hsplit, be_from_zeros, be_from_rev. subst N. lia. }
  assert (Hrev_base : in_base 256 (rev (b :: rest)))
    by (apply in_base_rev; assumption).
  assert (Hrev_normal : normal 256 (rev (b :: rest))).
  { right. cbn [rev]. rewrite le_value_app, length_app, length_rev.
    cbn [length le_value].
    replace (Z.of_nat (length rest + 1 - 1)) with (Z.of_nat (length rest))
      by lia.
    inversion Hsuffix as [| ? ? Hb0 Hrest]; subst.
    pose proof (le_value_bounds 256 (rev rest) ltac:(lia)
                  (in_base_rev _ _ Hrest)) as B.
    assert (0 < 256 ^ Z.of_nat (length rest))
      by (apply Z.pow_pos_nonneg; lia).
    assert (256 ^ Z.of_nat (length rest) * 1
            <= 256 ^ Z.of_nat (length rest) * (b + 256 * 0))
      by (apply Z.mul_le_mono_nonneg_l; lia).
    lia. }
  pose proof (le_value_bounds 256 _ ltac:(lia) Hrev_base) as BN.
  rewrite length_rev in BN. cbn [length] in BN. fold N in BN.
  assert (HNpos : 0 < N).
  { destruct Hrev_normal as [H1 | Hn].
    - rewrite length_rev in H1. cbn [length] in H1.
      destruct rest; [| cbn in H1; lia].
      subst N. cbn. inversion Hsuffix; subst. lia.
    - fold N in Hn.
      assert (0 < 256 ^ Z.of_nat (length (rev (b :: rest)) - 1))
        by (apply Z.pow_pos_nonneg; lia).
      lia. }
  assert (HN44 : N < 58 ^ Z.of_nat (44 - z)).
  { pose proof (power_bound z ltac:(lia)) as P.
    replace (32 - z)%nat with (S (length rest)) in P by lia. lia. }
  (* the encoder *)
  destruct (encode_digits_spec 46 key [0]) as (digits & Hdigits & Hdb & Hdn & Hdv);
    try assumption.
  { repeat constructor; lia. }
  { left. reflexivity. }
  { lia. }
  { cbn [le_value]. replace (0 + 58 * 0) with 0 by lia. rewrite HN.
    apply Z.lt_le_trans with (58 ^ Z.of_nat (44 - z)); [assumption |].
    apply Z.pow_le_mono_r; lia. }
  cbn [le_value] in Hdv. replace (0 + 58 * 0) with 0 in Hdv by lia.
  rewrite HN in Hdv.
  assert (Hdlen : (length digits <= 44 - z)%nat).
  { apply (normal_length_le 58); try assumption; lia. }
  destruct (normal_top 58 digits ltac:(lia) Hdb Hdn ltac:(lia))
    as (front & top & -> & Htop & Htopnz).
  exists (string_of_list_ascii
            (repeat "1"%char z ++ map alphabet_at (rev (front ++ [top])))).
  assert (Hencode :
    base58_encode key output_size
    = Some (string_of_list_ascii
              (repeat "1"%char z
               ++ map alphabet_at (rev (front ++ [top]))))).
  { unfold base58_encode. rewrite Hlen.
    change (Z.of_nat 32 =? 0) with false.
    destruct (Z.eqb_spec output_size 0) as [Ho | _]; [lia |].
    cbn [orb].
    change (Z.to_nat (base58_encode_size (Z.of_nat 32))) with 46%nat.
    rewrite Hdigits, <- Hzdef.
    destruct (Z.gtb_spec (Z.of_nat z + Z.of_nat (length (front ++ [top])) + 1)
                output_size) as [Hbig | _]; [lia | reflexivity]. }
  split; [exact Hencode |].
  split.
  { rewrite string_of_list_ascii_length.
    rewrite length_app, repeat_length, length_map, length_rev. lia. }
  (* the decoder *)
  unfold base58_decode.
  rewrite list_ascii_of_string_of_list_ascii.
  assert (Hones : repeat "1"%char z = map alphabet_at (repeat 0 z)).
  { clear. induction z as [| z IH]; [reflexivity |].
    cbn [repeat map]. rewrite <- IH. reflexivity. }
  rewrite Hones, <- map_app.
  rewrite rev_app_distr. cbn [rev app].
  set (digits_be := repeat 0 z ++ top :: rev front).
  assert (Hbe : in_base 58 digits_be).
  { subst digits_be. apply in_base_app.
    - apply in_base_repeat_zero. lia.
    - apply Forall_app in Hdb. destruct Hdb as [Hfront _].
      constructor; [assumption | apply in_base_rev; assumption]. }
  assert (Hbev : be_from 58 0 digits_be = N).
  { subst digits_be. rewrite be_from_zeros, be_from_rev.
    replace (top :: rev front) with (rev (front ++ [top]))
      by (rewrite rev_app_distr; reflexivity).
    rewrite rev_involutive, Hdv. lia. }
  rewrite length_map.
  assert (Hchars : length digits_be = (z + S (length front))%nat).
  { subst digits_be. rewrite length_app, repeat_length. cbn [length].
    rewrite length_rev. reflexivity. }
  rewrite Hchars.
  destruct (Nat.eqb_spec (z + S (length front)) 0) as [H0 | _]; [lia |].
  destruct (decode_bytes_spec (z + S (length front)) digits_be [0])
    as (bytes & Hdecode & Hbb & Hbn & Hbv); try assumption.
  { repeat constructor; lia. }
  { left. reflexivity. }
  { cbn [le_value]. replace (0 + 256 * 0) with 0 by lia. rewrite Hbev.
    pose proof (le_value_bounds 58 (front ++ [top]) ltac:(lia) Hdb) as B58.
    rewrite Hdv, length_app in B58. cbn [length] in B58.
    apply Z.lt_le_trans with (58 ^ Z.of_nat (length front + 1));
      [lia |].
    apply Z.le_trans with (256 ^ Z.of_nat (length front + 1)).
    - apply Z.pow_le_mono_l. lia.
    - apply Z.pow_le_mono_r; lia. }
  rewrite Hdecode.
  cbn [le_value] in Hbv. replace (0 + 256 * 0) with 0 in Hbv by lia.
  rewrite Hbev in Hbv.
  assert (Hbytes_eq : bytes = rev (b :: rest)).
  { apply (normal_unique 256); try assumption; try lia. }
  subst bytes.
  subst digits_be. rewrite (count_leading_ones_digits z top (rev front) Htop Htopnz).
  rewrite length_rev. cbn [length].
  destruct (Z.gtb_spec (Z.of_nat z + Z.of_nat (S (length rest))) max_output_len)
    as [Hbig | _]; [lia |].
  rewrite rev_involutive, <- Hsplit. reflexivity.
Qed.

End Base58Facts.

Lemma nonzero_key_round_trip_witness :
  exists text,
    Base58.base58_encode Scenario.recipient_key 45 = Some text
    /\ Base58.base58_decode text 32 = Some Scenario.recipient_key.
Proof.
  assert (Hbytes : Forall is_byte Scenario.recipient_key)
    by (repeat constructor; unfold is_byte; lia).
  assert (Hnz : Scenario.recipient_key <> repeat 0 32)
    by (vm_compute; discriminate).
  destruct (nonzero_key_round_trip Scenario.recipient_key 45 32 eq_refl
              Hbytes Hnz ltac:(lia) ltac:(lia))
    as (text & Hencode & _ & Hdecode).
  exists text. split; assumption.
Defined.

(** ** Base58 on the all-zero key *)

(** C8, the failing key.  The 32 zero bytes, which are the System
    Program id and the public key of the shipped test wallet, encode to
    33 characters ['1'], one more than the key has bytes; decoding that
    text into a 32-byte buffer fails, and into a larger buffer it gives
    34 zero bytes. *)
Theorem zero_key_does_not_round_trip :
  SplToken.SYSTEM_PROGRAM_ID = repeat 0 32
  /\ Base58.base58_encode (repeat 0 32) 64
     = Some (string_of_list_ascii (repeat "1"%char 33))
  /\ Base58.base58_decode (string_of_list_ascii (repeat "1"%char 33)) 32
     = None
  /\ Base58.base58_decode (string_of_list_ascii (repeat "1"%char 33)) 64
     = Some (repeat 0 34)
  /\ Base58.base58_decode (string_of_list_ascii (repeat "1"%char 32)) 32
     = None.
Proof. vm_compute. repeat split. Qed.

(** ** The payment of the fee-payer revision, run *)

Lemma payment_signature_in_slot_1_witness :
  exists tx sm,
    @Payment.x402_signed_transaction Scenario.paid_externals
      Scenario.rejecting_server Scenario.test_wallet
      Scenario.parsed_requirements Scenario.after_challenge
    = (OK tx, Scenario.after_payment)
    /\ Wire.signature_slot 1 tx = firstn 64 sm
    /\ Wire.signature_slot 0 tx = repeat 0 64.
Proof.
  assert (H : @Payment.x402_create_solana_payment Scenario.paid_externals
                Scenario.rejecting_server Scenario.test_wallet
                Scenario.parsed_requirements Scenario.after_challenge
              = (OK Scenario.the_payload, Scenario.after_payment))
    by (vm_compute; reflexivity).
  destruct (@payment_signature_in_slot_1 Scenario.paid_externals
              Scenario.rejecting_server Scenario.test_wallet
              Scenario.parsed_requirements Scenario.the_payload
              Scenario.after_challenge Scenario.after_payment H)
    as (tx & sm & Hsigned & _ & _ & Hs1 & Hs0).
  exists tx, sm. split; [exact Hsigned |]. split; assumption.
Defined.

Lemma payment_header_is_flat_witness :
  exists text,
    Base64.decode (list_ascii_of_string Scenario.the_header) = Some text
    /\ JsonText.read_document text
       = Some (Spec.flat_envelope Scenario.the_payload)
    /\ x402_version Scenario.the_payload = 1.
Proof.
  assert (H : Encoding.x402_encode_payment_payload Scenario.the_payload 8192
              = OK Scenario.the_header)
    by (vm_compute; reflexivity).
  assert (Hc : @Payment.x402_create_solana_payment Scenario.paid_externals
                 Scenario.rejecting_server Scenario.test_wallet
                 Scenario.parsed_requirements Scenario.after_challenge
               = (OK Scenario.the_payload, Scenario.after_payment))
    by (vm_compute; reflexivity).
  destruct (@payment_header_is_flat Scenario.paid_externals
              Scenario.rejecting_server Scenario.the_payload 8192
              Scenario.the_header H)
    as (text & Hdecode & Hread & Hcreated).
  exists text. split; [exact Hdecode |]. split; [exact Hread |].
  exact (proj1 (Hcreated _ _ _ _ Hc)).
Defined.

(** C5, the claim as worded fails: a payload that holds version 2 and no
    transaction is encoded as it is.  Its header reads as the flat
    object, with [x402Version] 2 and a [payload] without
    [transaction]. *)
Lemma header_carries_any_version :
  let payload := {| x402_version := 2;
                    scheme := "exact";
                    payload_network := "solana-devnet";
                    payload_transaction := None |} in
  exists header text root,
    Encoding.x402_encode_payment_payload payload 8192 = OK header
    /\ Base64.decode (list_ascii_of_string header) = Some text
    /\ JsonText.read_document text = Some root
    /\ Json.cJSON_GetObjectItem (Some root) "x402Version"
       = Some (cJSON_Number 2)
    /\ Json.cJSON_GetObjectItem
         (Json.cJSON_GetObjectItem (Some root) "payload") "transaction"
       = None.
Proof.
  cbv zeta. eexists. eexists. eexists.
  split; [vm_compute; reflexivity |].
  split; [vm_compute; reflexivity |].
  split; [vm_compute; reflexivity |].
  split; vm_compute; reflexivity.
Qed.

(** The parser in the older path: the transfer of the run above is built
    with the amount the parser returns for ["100"] and 6 decimals. *)
Lemma parse_usd_amount_always_succeeds_witness :
  @UsdAmount.spl_token_parse_usd_amount Scenario.integral_floating
    (Some "100"%string) 6
  = OK 100000000
  /\ exists recipient_pubkey blockhash tx0 signature,
       @LegacySplToken.spl_token_create_transfer_transaction
         Scenario.legacy_externals
         (SplToken.memcpy (Wallet.public_key Scenario.test_wallet) 32)
         recipient_pubkey LegacySplToken.USDC_DEVNET_MINT 100000000
         blockhash 2048
       = OK tx0
       /\ Scenario.legacy_tx = Payment.write_signature tx0 1 signature.
Proof.
  split; [vm_compute; reflexivity |].
  assert (Hrun : @LegacyPayment.x402_signed_transaction
                   Scenario.legacy_externals Scenario.integral_floating
                   Scenario.legacy_server Scenario.test_wallet
                   (Scenario.legacy_requirements "100") Scenario.fresh
                 = (OK Scenario.legacy_tx, snd Scenario.legacy_created))
    by (vm_compute; reflexivity).
  exact (proj2 (proj2 (proj2
           (@parse_usd_amount_always_succeeds Scenario.legacy_externals
              Scenario.integral_floating Scenario.legacy_server
              "100"%string 6)))
           Scenario.test_wallet (Scenario.legacy_requirements "100")
           Scenario.fresh Scenario.legacy_tx (snd Scenario.legacy_created)
           Hrun).
Defined.

(** ** The paid call that settles, run *)


(** ** The transaction builder: compact-u16 *)

Section SolanaTxFacts.

Import SplToken SolanaTx.

Lemma lor_continuation_table :
  forallb (fun x => Z.lor x 128 =? x + 128) (map Z.of_nat (seq 0 128)) = true.
Proof. vm_compute. reflexivity. Qed.

Lemma lor_continuation (x : Z) : 0 <= x < 128 -> Z.lor x 128 = x + 128.
Proof.
  intros H. pose proof lor_continuation_table as T.
  rewrite forallb_forall in T.
  apply Z.eqb_eq, T, in_map_iff.
  exists (Z.to_nat x). split; [lia |]. apply in_seq. lia.
Qed.

Lemma low_seven_bits (x : Z) : Z.land x 127 = x mod 128.
Proof. change 127 with (Z.ones 7). apply Z.land_ones. lia. Qed.

Lemma decode_shortvec_app (bytes rest more : list Z) (value : Z) :
  Wire.decode_shortvec bytes = Some (value, rest) ->
  Wire.decode_shortvec (bytes ++ more) = Some (value, rest ++ more).
Proof.
  unfold Wire.decode_shortvec.
  destruct bytes as [| b0 [| b1 [| b2 tail]]]; cbn [app];
    try discriminate;
    repeat match goal with
    | |- context [if ?c then _ else _] => destruct c
    end;
    try discriminate; intros H; injection H as <- <-; reflexivity.
Qed.

(** What the encoder writes, by range of the value. *)
Lemma encode_compact_u16_bytes (value : Z) :
  0 <= value < 65536 ->
  encode_compact_u16 value
  = if value <? 128 then [value]
    else if value <? 16384 then [value mod 128 + 128; value / 128]
    else [value mod 128 + 128; value / 128 mod 128 + 128; value / 16384].
Proof.
  intros H. unfold encode_compact_u16, u8.
  rewrite !low_seven_bits, !Z.shiftr_div_pow2 by lia.
  change (2 ^ 7) with 128. change (2 ^ 14) with 16384.
  change 0x7f with 127. change 0x3fff with 16383. change 0x80 with 128.
  rewrite !lor_continuation by (apply Z.mod_pos_bound; lia).
  destruct (Z.leb_spec value 127), (Z.ltb_spec value 128); try lia.
  - rewrite Z.mod_small by lia. reflexivity.
  - destruct (Z.leb_spec value 16383), (Z.ltb_spec value 16384); try lia.
    + rewrite !(Z.mod_small _ 256); try reflexivity.
      * Z.div_mod_to_equations; lia.
      * Z.div_mod_to_equations; lia.
    + rewrite !(Z.mod_small _ 256); try reflexivity.
      * Z.div_mod_to_equations; lia.
      * Z.div_mod_to_equations; lia.
      * Z.div_mod_to_equations; lia.
Qed.

(** [encode_compact_u16] against the reader of the wire format.  For
    every 16-bit value the bytes the encoder writes, followed by anything,
    read back as that value and leave what followed; each of them is a
    byte, and they are one, two or three: one below 128, two below 16384,
    three from there on. *)
Theorem compact_u16_round_trip (value : Z) (rest : list Z) :
  0 <= value < 65536 ->
  Wire.decode_shortvec (encode_compact_u16 value ++ rest) = Some (value, rest)
  /\ Forall is_byte (encode_compact_u16 value)
  /\ length (encode_compact_u16 value)
     = if value <? 128 then 1%nat
       else if value <? 16384 then 2%nat else 3%nat.
Proof.
  intros H. rewrite encode_compact_u16_bytes by assumption.
  destruct (Z.ltb_spec value 128) as [H1 | H1];
    [| destruct (Z.ltb_spec value 16384) as [H2 | H2]].
  - split; [| split; [| reflexivity]].
    + cbn [app Wire.decode_shortvec].
      destruct (Z.ltb_spec value 128); [reflexivity | lia].
    + repeat constructor; unfold is_byte; lia.
  - split; [| split; [| reflexivity]].
    + cbn [app Wire.decode_shortvec].
      destruct (Z.ltb_spec (value mod 128 + 128) 128) as [C | _];
        [Z.div_mod_to_equations; lia |].
      destruct (Z.ltb_spec (value / 128) 128) as [_ | C];
        [| Z.div_mod_to_equations; lia].
      do 2 f_equal. Z.div_mod_to_equations; lia.
    + repeat constructor; unfold is_byte; Z.div_mod_to_equations; lia.
  - split; [| split; [| reflexivity]].
    + cbn [app Wire.decode_shortvec].
      destruct (Z.ltb_spec (value mod 128 + 128) 128) as [C | _];
        [Z.div_mod_to_equations; lia |].
      destruct (Z.ltb_spec (value / 128 mod 128 + 128) 128) as [C | _];
        [Z.div_mod_to_equations; lia |].
      do 2 f_equal. Z.div_mod_to_equations; lia.
    + repeat constructor; unfold is_byte; Z.div_mod_to_equations; lia.
Qed.

End SolanaTxFacts.

(** ** The transaction builder: the account table *)

Section AccountTableFacts.

Import SplToken SolanaTx TxSpec.

Lemma bytes_eqb_eq (a b : list Z) : bytes_eqb a b = true <-> a = b.
Proof.
  revert b. induction a as [| x a IH]; intros [| y b]; cbn [bytes_eqb];
    try (split; [discriminate | discriminate]); [tauto |].
  rewrite andb_true_iff, Z.eqb_eq, IH.
  split; [intros [-> ->]; reflexivity | intros H; injection H; auto].
Qed.

Lemma same_pubkey_eq (a b : list Z) :
  same_pubkey a b = true <-> memcpy a 32 = memcpy b 32.
Proof. unfold same_pubkey. apply bytes_eqb_eq. Qed.

Lemma same_pubkey_neq (a b : list Z) :
  same_pubkey a b = false <-> memcpy a 32 <> memcpy b 32.
Proof.
  rewrite <- same_pubkey_eq. destruct (same_pubkey a b); split; congruence.
Qed.

Lemma memcpy_idempotent (src : list Z) (n : nat) :
  memcpy (memcpy src n) n = memcpy src n.
Proof. unfold memcpy. rewrite firstn_firstn, Nat.min_id. reflexivity. Qed.

(** A miss of the search: no entry holds the key. *)
Lemma update_account_none (table : list account_meta_t) (key : list Z)
  (signer writable : bool) (i : Z) :
  update_account table key signer writable i = None ->
  ~ In (memcpy key 32) (map (fun a => memcpy (pubkey a) 32) table).
Proof.
  revert i. induction table as [| a rest IH]; intros i H; cbn [map In].
  - tauto.
  - cbn [update_account] in H.
    destruct (same_pubkey (pubkey a) key) eqn:E; [discriminate |].
    destruct (update_account rest key signer writable (i + 1))
      as [[j rest'] |] eqn:E'; [discriminate |].
    apply same_pubkey_neq in E. intros [C | C]; [congruence |].
    exact (IH _ E' C).
Qed.

(** A hit of the search: the first entry with the key, its flags raised,
    everything else as it was. *)
Lemma update_account_some (table : list account_meta_t) (key : list Z)
  (signer writable : bool) (i j : Z) (table' : list account_meta_t) :
  update_account table key signer writable i = Some (j, table') ->
  exists pre a post,
    table = pre ++ a :: post
    /\ table' = pre ++ {| pubkey := pubkey a;
                          is_signer := is_signer a || signer;
                          is_writable := is_writable a || writable |} :: post
    /\ j = i + Z.of_nat (length pre)
    /\ memcpy (pubkey a) 32 = memcpy key 32
    /\ ~ In (memcpy key 32) (map (fun a => memcpy (pubkey a) 32) pre).
Proof.
  revert i j table'. induction table as [| a rest IH]; intros i j table' H.
  - discriminate.
  - cbn [update_account] in H.
    destruct (same_pubkey (pubkey a) key) eqn:E.
    + injection H as <- <-. exists [], a, rest.
      apply same_pubkey_eq in E. cbn [app length map In].
      repeat split; try reflexivity; try assumption; try lia; try tauto.
    + destruct (update_account rest key signer writable (i + 1))
        as [[j' rest'] |] eqn:E'; [| discriminate].
      injection H as <- <-.
      destruct (IH _ _ _ E') as (pre & b & post & -> & -> & -> & Hk & Hn).
      exists (a :: pre), b, post. cbn [app length map In].
      repeat split; try reflexivity; try assumption; try lia.
      apply same_pubkey_neq in E. intros [C | C]; [congruence | tauto].
Qed.

(** The three outcomes of [find_or_add_account]. *)
Lemma find_or_add_account_cases (tx : solana_tx_t) (key : list Z)
  (signer writable : bool) :
  let (i, tx') := find_or_add_account tx key signer writable in
  tx' = with_accounts tx (accounts tx')
  /\ ((exists pre a post,
          accounts tx = pre ++ a :: post
          /\ accounts tx'
             = pre ++ {| pubkey := pubkey a;
                         is_signer := is_signer a || signer;
                         is_writable := is_writable a || writable |} :: post
          /\ i = Z.of_nat (length pre)
          /\ memcpy (pubkey a) 32 = memcpy key 32
          /\ ~ In (memcpy key 32) (map (fun a => memcpy (pubkey a) 32) pre))
      \/ (i = -1 /\ tx' = tx
          /\ ~ In (memcpy key 32) (stored_keys tx)
          /\ (MAX_ACCOUNTS <= length (accounts tx))%nat)
      \/ (i = Z.of_nat (length (accounts tx))
          /\ accounts tx'
             = accounts tx ++ [ {| pubkey := memcpy key 32;
                                   is_signer := signer;
                                   is_writable := writable |} ]
          /\ ~ In (memcpy key 32) (stored_keys tx)
          /\ (length (accounts tx) < MAX_ACCOUNTS)%nat)).
Proof.
  unfold find_or_add_account.
  destruct (update_account (accounts tx) key signer writable 0)
    as [[i table] |] eqn:E.
  - split; [reflexivity |]. left.
    destruct (update_account_some _ _ _ _ _ _ _ E)
      as (pre & a & post & H1 & H2 & H3 & H4 & H5).
    exists pre, a, post. cbn [accounts with_accounts].
    repeat split; try assumption; lia.
  - apply update_account_none in E.
    destruct (Nat.leb_spec MAX_ACCOUNTS (length (accounts tx))) as [L | L].
    + split; [destruct tx; reflexivity |]. right. left.
      repeat split; assumption.
    + split; [reflexivity |]. right. right.
      cbn [accounts with_accounts]. repeat split; assumption.
Qed.

(** The keys of the table afterwards: the old ones in place, at most one
    more at the end. *)
Lemma find_or_add_account_keys (tx : solana_tx_t) (key : list Z)
  (signer writable : bool) :
  let (i, tx') := find_or_add_account tx key signer writable in
  stored_keys tx' = stored_keys tx
  \/ (stored_keys tx' = stored_keys tx ++ [memcpy key 32]
      /\ ~ In (memcpy key 32) (stored_keys tx)
      /\ (length (accounts tx) < MAX_ACCOUNTS)%nat).
Proof.
  pose proof (find_or_add_account_cases tx key signer writable) as H.
  destruct (find_or_add_account tx key signer writable) as [i tx'].
  destruct H as [_ [H | [H | H]]].
  - left. destruct H as (pre & a & post & H1 & H2 & _).
    unfold stored_keys. rewrite H1, H2, !map_app. reflexivity.
  - left. destruct H as (_ & -> & _). reflexivity.
  - right. destruct H as (_ & H2 & H3 & H4).
    repeat split; try assumption.
    unfold stored_keys. rewrite H2, map_app. cbn [map pubkey].
    rewrite memcpy_idempotent. reflexivity.
Qed.

Lemma stored_keys_length (tx : solana_tx_t) :
  length (stored_keys tx) = length (accounts tx).
Proof. unfold stored_keys. apply length_map. Qed.

(** [find_or_add_account] on a table of distinct keys.  The keys stay
    distinct; the entries that were there keep their position and key, and
    a flag that was set stays set.  A key of the table gets the flags asked
    for raised on its entry, a new key is appended with them, and the index
    returned is that of the entry.  The only refusal, [-1], is for a new
    key when the table holds [MAX_ACCOUNTS] entries, and it leaves the
    transaction as it was. *)
Theorem account_table_keeps_entries (tx : solana_tx_t) (key : list Z)
  (signer writable : bool) :
  NoDup (stored_keys tx) ->
  let (i, tx') := find_or_add_account tx key signer writable in
  NoDup (stored_keys tx')
  /\ firstn (length (accounts tx)) (stored_keys tx') = stored_keys tx
  /\ (forall j a, nth_error (accounts tx) j = Some a ->
        exists a', nth_error (accounts tx') j = Some a'
          /\ (is_signer a = true -> is_signer a' = true)
          /\ (is_writable a = true -> is_writable a' = true))
  /\ (if i <? 0
      then i = -1 /\ tx' = tx
           /\ ~ In (memcpy key 32) (stored_keys tx)
           /\ (MAX_ACCOUNTS <= length (accounts tx))%nat
      else exists a,
           nth_error (accounts tx') (Z.to_nat i) = Some a
           /\ memcpy (pubkey a) 32 = memcpy key 32
           /\ (signer = true -> is_signer a = true)
           /\ (writable = true -> is_writable a = true)
           /\ (length (accounts tx')
               <= Nat.max (length (accounts tx)) MAX_ACCOUNTS)%nat).
Proof.
  intros Hnd.
  pose proof (find_or_add_account_cases tx key signer writable) as H.
  pose proof (find_or_add_account_keys tx key signer writable) as K.
  destruct (find_or_add_account tx key signer writable) as [i tx'].
  destruct H as [_ H].
  split; [| split; [| split]].
  - destruct K as [-> | (-> & Hn & _)]; [assumption |].
    apply NoDup_app; [assumption | repeat constructor; cbn; tauto |].
    intros x Hx [<- | []]. contradiction.
  - rewrite <- stored_keys_length.
    destruct K as [-> | (-> & _)].
    + apply firstn_all.
    + rewrite firstn_app, Nat.sub_diag, firstn_all. cbn [firstn].
      apply app_nil_r.
  - intros j a Hj.
    destruct H as [H | [H | H]].
    + destruct H as (pre & b & post & H1 & H2 & _).
      rewrite H1 in Hj. rewrite H2.
      destruct (Nat.lt_ge_cases j (length pre)) as [L | L].
      * exists a. rewrite nth_error_app1 in * by assumption. tauto.
      * rewrite nth_error_app2 in * by assumption.
        destruct (j - length pre)%nat as [| k]; cbn [nth_error] in *.
        -- injection Hj as <-. eexists. split; [reflexivity |].
           cbn [is_signer is_writable]. split; intros ->; reflexivity.
        -- exists a. tauto.
    + destruct H as (_ & -> & _). exists a. tauto.
    + destruct H as (_ & -> & _). exists a.
      split; [| tauto]. rewrite nth_error_app1; [assumption |].
      apply nth_error_Some. congruence.
  - destruct H as [H | [H | H]].
    + destruct H as (pre & b & post & H1 & H2 & -> & Hk & _).
      destruct (Z.ltb_spec (Z.of_nat (length pre)) 0) as [C | _]; [lia |].
      eexists. rewrite Nat2Z.id, H2, nth_error_app2, Nat.sub_diag by lia.
      cbn [nth_error]. split; [reflexivity |].
      cbn [pubkey is_signer is_writable].
      repeat split; try assumption.
      * intros ->. apply orb_true_r.
      * intros ->. apply orb_true_r.
      * rewrite H1, !length_app. cbn [length]. lia.
    + destruct H as (-> & -> & Hn & L). cbn. repeat split; assumption.
    + destruct H as (-> & H2 & Hn & L).
      destruct (Z.ltb_spec (Z.of_nat (length (accounts tx))) 0) as [C | _];
        [lia |].
      eexists. rewrite Nat2Z.id, H2, nth_error_app2, Nat.sub_diag by lia.
      cbn [nth_error]. split; [reflexivity |].
      cbn [pubkey is_signer is_writable].
      rewrite memcpy_idempotent, length_app. cbn [length].
      repeat split; try tauto. unfold MAX_ACCOUNTS in *. lia.
Qed.

End AccountTableFacts.

(** ** The transaction builder: what the public functions maintain *)

Section BuiltFacts.

Import SplToken SolanaTx TxSpec.

Lemma find_or_add_account_preserves (tx : solana_tx_t) (key : list Z)
  (signer writable : bool) :
  length key = 32%nat -> well_formed tx ->
  let (i, tx') := find_or_add_account tx key signer writable in
  well_formed tx'
  /\ tx' = with_accounts tx (accounts tx')
  /\ (length (accounts tx) <= length (accounts tx'))%nat
  /\ (i = -1
      \/ (0 <= i < Z.of_nat (length (accounts tx'))
          /\ In key (stored_keys tx'))).
Proof.
  intros Hkey (Hn & Hi & Hnd & H32 & Hbh & Hfirst & Hinstr).
  pose proof (find_or_add_account_cases tx key signer writable) as H.
  pose proof (find_or_add_account_keys tx key signer writable) as K.
  destruct (find_or_add_account tx key signer writable) as [i tx'].
  destruct H as [Hw H]. rewrite (memcpy_all key 32 Hkey) in *.
  assert (Hlen : (length (accounts tx) <= length (accounts tx'))%nat).
  { rewrite <- !stored_keys_length.
    destruct K as [-> | (-> & _)]; [lia | rewrite length_app; lia]. }
  assert (Hkeys : forall k, In k (stored_keys tx) -> In k (stored_keys tx')).
  { intros k Hk. destruct K as [-> | (-> & _)];
      [assumption | apply in_or_app; left; assumption]. }
  split; [| split; [assumption | split; [assumption |]]].
  - unfold well_formed.
    assert (Hf : blockhash tx' = blockhash tx /\ fee_payer tx' = fee_payer tx
                 /\ instructions tx' = instructions tx)
      by (rewrite Hw; cbn; tauto).
    destruct Hf as (-> & -> & ->).
    split; [| split; [assumption | split; [| split; [| split; [assumption | split]]]]].
    + destruct H as [H | [H | H]].
      * destruct H as (pre & a & post & H1 & H2 & _).
        rewrite H2. rewrite H1 in Hn. rewrite length_app in *.
        cbn [length] in *. lia.
      * destruct H as (_ & -> & _). assumption.
      * destruct H as (_ & H2 & _ & L). rewrite H2, length_app.
        cbn [length]. unfold MAX_ACCOUNTS in *. lia.
    + destruct K as [-> | (-> & Hnot & _)]; [assumption |].
      apply NoDup_app; [assumption | repeat constructor; cbn; tauto |].
      intros x Hx [<- | []]. contradiction.
    + destruct H as [H | [H | H]].
      * destruct H as (pre & a & post & H1 & H2 & _).
        rewrite H1 in H32. rewrite H2.
        apply Forall_app in H32. destruct H32 as [Hp Hq].
        apply Forall_app. split; [assumption |].
        inversion Hq; subst. constructor; assumption.
      * destruct H as (_ & -> & _). assumption.
      * destruct H as (_ & H2 & _). rewrite H2.
        apply Forall_app. split; [assumption |].
        repeat constructor. cbn [pubkey]. assumption.
    + destruct Hfirst as (a & rest & Ha & Hp & Hs & Hwr).
      destruct H as [H | [H | H]].
      * destruct H as (pre & b & post & H1 & H2 & _).
        rewrite H2. rewrite Ha in H1.
        destruct pre as [| p pre]; cbn [app] in *.
        -- injection H1 as <- <-. eexists _, _. split; [reflexivity |].
           cbn [pubkey is_signer is_writable]. rewrite Hs, Hwr. tauto.
        -- injection H1 as <- ->. eexists _, _. split; [reflexivity |]. tauto.
      * destruct H as (_ & -> & _). exists a, rest. tauto.
      * destruct H as (_ & H2 & _). rewrite H2, Ha. cbn [app].
        eexists _, _. split; [reflexivity |]. tauto.
    + eapply Forall_impl; [| exact Hinstr].
      cbn beta. intros instr (Hp & Hidx & Hrest). split; [| split].
      * apply Hkeys. assumption.
      * eapply Forall_impl; [| exact Hidx]. cbn beta. intros j Hj. lia.
      * assumption.
  - destruct H as [H | [H | H]].
    + right. destruct H as (pre & b & post & H1 & H2 & -> & Hk & _).
      split.
      * rewrite H2, length_app. cbn [length]. lia.
      * unfold stored_keys. rewrite H2, map_app. apply in_or_app. right.
        cbn [map pubkey In]. left. assumption.
    + left. tauto.
    + right. destruct H as (-> & H2 & _). split.
      * rewrite H2, length_app. cbn [length]. lia.
      * unfold stored_keys. rewrite H2, map_app. apply in_or_app. right.
        cbn [map pubkey In]. left. apply memcpy_all. assumption.
Qed.

Lemma system_program_length :
  length (memcpy SYSTEM_PROGRAM_ID SOLANA_PUBKEY_SIZE) = 32%nat.
Proof. reflexivity. Qed.

Lemma solana_tx_new_well_formed (recent_blockhash : string) (payer : list Z)
  (tx : solana_tx_t) :
  length payer = 32%nat ->
  solana_tx_new recent_blockhash payer = Some tx ->
  well_formed tx
  /\ accounts tx = [ {| pubkey := payer; is_signer := true;
                        is_writable := true |} ]
  /\ instructions tx = []
  /\ has_signature tx = false
  /\ Base58.base58_decode recent_blockhash 32 = Some (blockhash tx).
Proof.
  intros Hp H. unfold solana_tx_new in H.
  change (Z.of_nat SOLANA_BLOCKHASH_SIZE) with 32 in H.
  destruct (Base58.base58_decode recent_blockhash 32) as [decoded |];
    [| discriminate].
  destruct (Nat.eqb_spec (length decoded) SOLANA_BLOCKHASH_SIZE) as [L | L];
    cbn [negb] in H; [| discriminate].
  unfold find_or_add_account in H.
  cbn [accounts update_account length] in H.
  change (MAX_ACCOUNTS <=? 0)%nat with false in H. cbv iota in H.
  unfold with_accounts in H.
  cbn [snd app accounts instructions has_signature blockhash fee_payer
       signatures] in H.
  change SOLANA_PUBKEY_SIZE with 32%nat in H.
  rewrite (memcpy_all payer 32 Hp) in H.
  apply (f_equal (fun o => match o with Some t => t | None => tx end)) in H.
  cbv beta iota in H. subst tx.
  repeat split; try reflexivity; try assumption.
  - cbn. unfold MAX_ACCOUNTS. lia.
  - cbn. unfold MAX_INSTRUCTIONS. lia.
  - cbn. repeat constructor. cbn. tauto.
  - repeat constructor. assumption.
  - eexists _, _. cbn [accounts pubkey is_signer is_writable fee_payer].
    repeat split; reflexivity.
  - constructor.
Qed.

Lemma solana_tx_add_transfer_well_formed (tx : solana_tx_t)
  (from to : list Z) (lamports : Z) :
  length from = 32%nat -> length to = 32%nat ->
  well_formed tx ->
  well_formed (snd (solana_tx_add_transfer tx from to lamports)).
Proof.
  intros Hf Ht Hwf. unfold solana_tx_add_transfer.
  destruct (Nat.leb_spec MAX_INSTRUCTIONS (length (instructions tx)))
    as [L | L]; [assumption |].
  pose proof (find_or_add_account_preserves tx from true true Hf Hwf) as H1.
  destruct (find_or_add_account tx from true true) as [from_idx tx1].
  destruct H1 as (Hwf1 & Hw1 & Hl1 & Hi1).
  pose proof (find_or_add_account_preserves tx1 to false true Ht Hwf1) as H2.
  destruct (find_or_add_account tx1 to false true) as [to_idx tx2].
  destruct H2 as (Hwf2 & Hw2 & Hl2 & Hi2).
  destruct ((from_idx <? 0) || (to_idx <? 0)) eqn:E; [assumption |].
  apply orb_false_iff in E. destruct E as [E1 E2].
  apply Z.ltb_ge in E1, E2.
  pose proof (find_or_add_account_preserves tx2
                (memcpy SYSTEM_PROGRAM_ID SOLANA_PUBKEY_SIZE) false false
                system_program_length Hwf2) as H3.
  destruct (find_or_add_account tx2 _ false false) as [prog_idx tx3].
  destruct H3 as (Hwf3 & Hw3 & Hl3 & Hi3).
  destruct (Z.ltb_spec prog_idx 0) as [E3 | E3]; [assumption |].
  cbn [snd].
  destruct Hwf3 as (Hn & Hi & Hnd & H32 & Hbh & Hfirst & Hinstr).
  assert (Hins : instructions tx3 = instructions tx).
  { rewrite Hw3, Hw2, Hw1. reflexivity. }
  unfold well_formed.
  cbn [accounts instructions blockhash fee_payer stored_keys].
  fold (stored_keys tx3).
  repeat split; try assumption.
  - rewrite Hins, length_app. cbn [length]. unfold MAX_INSTRUCTIONS in *. lia.
  - apply Forall_app. split; [assumption |].
    repeat constructor; cbn [program_id account_indexes data].
    + rewrite memcpy_idempotent.
      destruct Hi3 as [-> | [_ Hin]]; [lia | assumption].
    + unfold u8. rewrite Z.mod_small; unfold MAX_ACCOUNTS in *; lia.
    + unfold u8. rewrite Z.mod_small; unfold MAX_ACCOUNTS in *; lia.
    + unfold u8. rewrite Z.mod_small; unfold MAX_ACCOUNTS in *; lia.
    + unfold u8. rewrite Z.mod_small; unfold MAX_ACCOUNTS in *; lia.
Qed.

Lemma built_well_formed (tx : solana_tx_t) : built tx -> well_formed tx.
Proof.
  induction 1 as [bh payer tx Hp Hnew | tx from to lamports Hf Ht _ IH
                 | tx sig _ IH].
  - exact (proj1 (solana_tx_new_well_formed _ _ _ Hp Hnew)).
  - apply solana_tx_add_transfer_well_formed; assumption.
  - exact IH.
Qed.

End BuiltFacts.

(** ** The transaction builder: the writers *)

Section SerializationFacts.

Import SplToken SolanaTx TxSpec.

Lemma put_fits (bytes out : list Z) (remaining : Z) :
  Z.of_nat (length bytes) <= remaining < 2 ^ 32 ->
  put bytes (out, remaining)
  = (out ++ bytes, remaining - Z.of_nat (length bytes)).
Proof.
  intros H. unfold put, size_t. cbn [fst snd].
  rewrite Z.mod_small by lia. reflexivity.
Qed.

Lemma encode_compact_u16_length (value : Z) :
  (1 <= length (encode_compact_u16 value) <= 3)%nat.
Proof.
  unfold encode_compact_u16.
  destruct (value <=? 0x7f); [cbn; lia |].
  destruct (value <=? 0x3fff); cbn; lia.
Qed.

Lemma write_accounts_fits (table : list account_meta_t) (out : list Z)
  (remaining : Z) :
  Forall (fun a => length (pubkey a) = 32%nat) table ->
  32 * Z.of_nat (length table) <= remaining < 2 ^ 32 ->
  write_accounts table (out, remaining)
  = OK (out ++ concat (map (fun a => memcpy (pubkey a) 32) table),
        remaining - 32 * Z.of_nat (length table)).
Proof.
  revert out remaining.
  induction table as [| a rest IH]; intros out remaining H32 Hr.
  - cbn. rewrite app_nil_r. f_equal. f_equal. lia.
  - inversion H32 as [| ? ? Ha Hrest]; subst.
    cbn [write_accounts snd length map concat] in *.
    change (Z.of_nat SOLANA_PUBKEY_SIZE) with 32.
    change SOLANA_PUBKEY_SIZE with 32%nat.
    destruct (Z.ltb_spec remaining 32) as [C | _]; [lia |].
    rewrite (memcpy_all _ 32 Ha).
    rewrite put_fits by lia. rewrite Ha.
    rewrite IH by (try assumption; lia).
    rewrite <- app_assoc. f_equal. f_equal. lia.
Qed.

Lemma write_accounts_error (table : list account_meta_t) (st : list Z * Z)
  (e : esp_err_t) :
  write_accounts table st = Err e -> e = ESP_ERR_NO_MEM.
Proof.
  revert st. induction table as [| a rest IH]; intros st H.
  - discriminate.
  - cbn [write_accounts] in H.
    destruct (snd st <? _); [congruence | eauto].
Qed.

Lemma find_program_found (table : list account_meta_t) (program : list Z)
  (j : Z) :
  In (memcpy program 32) (map (fun a => memcpy (pubkey a) 32) table) ->
  j <= find_program table program j < j + Z.of_nat (length table).
Proof.
  revert j. induction table as [| a rest IH]; intros j H.
  - destruct H.
  - cbn [find_program length].
    destruct (same_pubkey (pubkey a) program) eqn:E; [lia |].
    apply same_pubkey_neq in E. destruct H as [C | H]; [congruence |].
    specialize (IH (j + 1) H). lia.
Qed.

Lemma write_instructions_fits (table : list account_meta_t)
  (instrs : list instruction_t) (out : list Z) (remaining : Z) :
  Forall (fun instr =>
            In (memcpy (program_id instr) 32)
               (map (fun a => memcpy (pubkey a) 32) table)) instrs ->
  Z.of_nat (length (concat (map (instruction_bytes table) instrs)))
    <= remaining < 2 ^ 32 ->
  write_instructions table instrs (out, remaining)
  = OK (out ++ concat (map (instruction_bytes table) instrs),
        remaining
        - Z.of_nat (length (concat (map (instruction_bytes table) instrs)))).
Proof.
  revert out remaining.
  induction instrs as [| instr rest IH]; intros out remaining Hp Hr.
  - cbn. rewrite app_nil_r. f_equal. f_equal. lia.
  - inversion Hp as [| ? ? Hi Hrest]; subst.
    cbn [write_instructions map concat] in *.
    pose proof (find_program_found table (program_id instr) 0 Hi) as Hf.
    destruct (Z.ltb_spec (find_program table (program_id instr) 0) 0)
      as [C | _]; [lia |].
    unfold instruction_bytes at 1 in Hr.
    unfold instruction_bytes at 1 3.
    rewrite !length_app in Hr. cbn [length] in Hr.
    pose proof (encode_compact_u16_length (account_count instr)) as L1.
    pose proof (encode_compact_u16_length (u16 (data_len instr))) as L2.
    cbn [snd].
    destruct (Z.ltb_spec remaining 1) as [C | _]; [lia |].
    rewrite put_fits by (cbn [length]; lia).
    rewrite put_fits by (cbn [length]; lia).
    cbn [snd length].
    unfold account_count at 2.
    match goal with
    | |- context [if ?a <? ?b then _ else _] =>
        destruct (Z.ltb_spec a b) as [C | _]; [lia |]
    end.
    rewrite put_fits by (cbn [length]; lia).
    rewrite put_fits by (cbn [length]; lia).
    cbn [snd]. unfold data_len at 2.
    match goal with
    | |- context [if ?a <? ?b then _ else _] =>
        destruct (Z.ltb_spec a b) as [C | _]; [lia |]
    end.
    rewrite put_fits by (cbn [length]; lia).
    rewrite IH by (try assumption; lia).
    rewrite <- !app_assoc. cbn [app]. f_equal. f_equal.
    cbn [length]. rewrite !length_app. lia.
Qed.

Lemma write_instructions_error (table : list account_meta_t)
  (instrs : list instruction_t) (st : list Z * Z) (e : esp_err_t) :
  Forall (fun instr =>
            In (memcpy (program_id instr) 32)
               (map (fun a => memcpy (pubkey a) 32) table)) instrs ->
  write_instructions table instrs st = Err e -> e = ESP_ERR_NO_MEM.
Proof.
  revert st. induction instrs as [| instr rest IH]; intros st Hp H.
  - discriminate.
  - inversion Hp as [| ? ? Hi Hrest]; subst.
    cbn [write_instructions] in H.
    pose proof (find_program_found table (program_id instr) 0 Hi) as Hf.
    destruct (Z.ltb_spec (find_program table (program_id instr) 0) 0)
      as [C | _]; [lia |].
    repeat match type of H with
    | context [if ?c then _ else _] => destruct c; [congruence |]
    end.
    eauto.
Qed.

(** The part of [solana_tx_get_message] after the header and the account
    count, from a state with room for it. *)
Lemma message_body_fits (tx : solana_tx_t) (out : list Z) (remaining : Z) :
  well_formed tx ->
  Z.of_nat (length (concat (stored_keys tx)
                    ++ memcpy (blockhash tx) SOLANA_BLOCKHASH_SIZE
                    ++ encode_compact_u16
                         (u16 (Z.of_nat (length (instructions tx))))
                    ++ concat (map (instruction_bytes (accounts tx))
                                 (instructions tx))))
    <= remaining < 2 ^ 32 ->
  match write_accounts (accounts tx) (out, remaining) with
  | Err e => Err e
  | OK st =>
      if snd st <? Z.of_nat SOLANA_BLOCKHASH_SIZE then Err ESP_ERR_NO_MEM
      else
        let st := put (memcpy (blockhash tx) SOLANA_BLOCKHASH_SIZE) st in
        let st :=
          put (encode_compact_u16
                 (u16 (Z.of_nat (length (instructions tx))))) st in
        match write_instructions (accounts tx) (instructions tx) st with
        | Err e => Err e
        | OK st => OK (fst st)
        end
  end
  = OK (out ++ concat (stored_keys tx)
          ++ memcpy (blockhash tx) SOLANA_BLOCKHASH_SIZE
          ++ encode_compact_u16 (u16 (Z.of_nat (length (instructions tx))))
          ++ concat (map (instruction_bytes (accounts tx)) (instructions tx))).
Proof.
  intros (Hn & Hi & Hnd & H32 & Hbh & Hfirst & Hinstr) Hr.
  assert (Hkl : Z.of_nat (length (concat (stored_keys tx)))
                = 32 * Z.of_nat (length (accounts tx))).
  { unfold stored_keys. change SOLANA_PUBKEY_SIZE with 32%nat. clear - H32.
    induction (accounts tx) as [| a rest IH]; [reflexivity |].
    inversion H32 as [| ? ? Ha Hrest]; subst.
    cbn [map concat length]. rewrite length_app, Nat2Z.inj_add.
    rewrite (memcpy_all _ 32 Ha), Ha. rewrite IH by assumption. lia. }
  rewrite !length_app in Hr.
  change SOLANA_BLOCKHASH_SIZE with 32%nat in *.
  rewrite (memcpy_all _ 32 Hbh) in *. rewrite Hbh in Hr.
  pose proof (encode_compact_u16_length
                (u16 (Z.of_nat (length (instructions tx))))) as L.
  rewrite write_accounts_fits by (try assumption; lia).
  cbn [snd]. change (Z.of_nat 32) with 32.
  match goal with
  | |- context [if ?a <? ?b then _ else _] =>
      destruct (Z.ltb_spec a b) as [C | _]; [lia |]
  end.
  cbv zeta.
  rewrite put_fits by lia. rewrite put_fits by lia.
  rewrite write_instructions_fits.
  - cbn [fst]. fold (stored_keys tx). rewrite <- !app_assoc. reflexivity.
  - eapply Forall_impl; [| exact Hinstr]. cbn beta. tauto.
  - lia.
Qed.

End SerializationFacts.

(** ** The transaction builder: the message *)

Section MessageFacts.

Import SplToken SolanaTx TxSpec.

Lemma encode_compact_u16_small (value : Z) :
  0 <= value <= 127 -> encode_compact_u16 value = [value].
Proof.
  intros H. unfold encode_compact_u16, u8.
  destruct (Z.leb_spec value 0x7f) as [_ | C]; [| lia].
  rewrite Z.mod_small by lia. reflexivity.
Qed.

Lemma u16_small (value : Z) : 0 <= value < 65536 -> u16 value = value.
Proof. intros H. unfold u16. apply Z.mod_small. lia. Qed.

Lemma stored_keys_concat_length (tx : solana_tx_t) :
  well_formed tx ->
  Z.of_nat (length (concat (stored_keys tx)))
  = 32 * Z.of_nat (length (accounts tx)).
Proof.
  intros (_ & _ & _ & H32 & _).
  unfold stored_keys. change SOLANA_PUBKEY_SIZE with 32%nat.
  induction (accounts tx) as [| a rest IH]; [reflexivity |].
  inversion H32 as [| ? ? Ha Hrest]; subst.
  cbn [map concat length]. rewrite length_app, Nat2Z.inj_add.
  rewrite (memcpy_all _ 32 Ha), Ha. rewrite IH by assumption. lia.
Qed.

Lemma instructions_concat_length (tx : solana_tx_t) :
  well_formed tx ->
  Z.of_nat (length (concat (map (instruction_bytes (accounts tx))
                              (instructions tx))))
  = 17 * Z.of_nat (length (instructions tx)).
Proof.
  intros (_ & _ & _ & _ & _ & _ & Hinstr).
  induction (instructions tx) as [| instr rest IH]; [reflexivity |].
  inversion Hinstr as [| ? ? (_ & _ & Hi & Hd) Hrest]; subst.
  cbn [map concat length]. rewrite length_app, Nat2Z.inj_add.
  rewrite IH by assumption.
  unfold instruction_bytes, account_count, data_len.
  rewrite Hi, Hd. change (Z.of_nat 2) with 2. change (Z.of_nat 12) with 12.
  rewrite u16_small by lia. rewrite !encode_compact_u16_small by lia.
  rewrite !length_app, Hi, Hd. cbn [length]. lia.
Qed.

(** The message of a well-formed transaction with [n] accounts and [k]
    instructions takes [37 + 32 n + 17 k] bytes. *)
Lemma message_bytes_length (tx : solana_tx_t) :
  well_formed tx ->
  Z.of_nat (length (message_bytes tx))
  = 37 + 32 * Z.of_nat (length (accounts tx))
    + 17 * Z.of_nat (length (instructions tx)).
Proof.
  intros Hwf.
  pose proof (stored_keys_concat_length tx Hwf) as Hk.
  pose proof (instructions_concat_length tx Hwf) as Hi.
  destruct Hwf as (Hn & Hc & _ & _ & Hbh & _).
  unfold message_bytes.
  destruct (header_counts (accounts tx) 0 0 0) as [[a b] c].
  unfold MAX_ACCOUNTS, MAX_INSTRUCTIONS in *.
  rewrite !u16_small by lia. rewrite !encode_compact_u16_small by lia.
  change SOLANA_BLOCKHASH_SIZE with 32%nat.
  rewrite (memcpy_all _ 32 Hbh).
  rewrite !length_app, !Nat2Z.inj_add, Hbh.
  cbn [length]. lia.
Qed.

Lemma get_message_fits (tx : solana_tx_t) (max_len : Z) :
  well_formed tx ->
  Z.of_nat (length (message_bytes tx)) <= max_len < 2 ^ 32 ->
  solana_tx_get_message tx max_len = OK (message_bytes tx).
Proof.
  intros Hwf Hr.
  pose proof (message_bytes_length tx Hwf) as Hlen.
  pose proof (stored_keys_concat_length tx Hwf) as Hk.
  pose proof (instructions_concat_length tx Hwf) as Hi.
  pose proof Hwf as (Hn & Hc & _ & _ & Hbh & _).
  unfold solana_tx_get_message, message_bytes in *.
  destruct (Z.ltb_spec max_len 3) as [C | _]; [lia |].
  destruct (header_counts (accounts tx) 0 0 0) as [[a b] c].
  unfold MAX_ACCOUNTS, MAX_INSTRUCTIONS in *.
  rewrite !u16_small in * by lia.
  rewrite !encode_compact_u16_small in * by lia.
  rewrite put_fits by (cbn [length]; lia).
  rewrite put_fits by (cbn [length]; lia).
  cbn [length].
  pose proof (message_body_fits tx
                (([] ++ [a; b; c])
                   ++ [Z.of_nat (length (accounts tx))])
                (max_len - Z.of_nat 3 - Z.of_nat 1) Hwf) as B.
  rewrite !u16_small in B by lia.
  rewrite !encode_compact_u16_small in B by lia.
  cbv zeta in B. rewrite B.
  - rewrite <- !app_assoc. reflexivity.
  - change SOLANA_BLOCKHASH_SIZE with 32%nat.
    rewrite (memcpy_all _ 32 Hbh).
    rewrite !length_app, !Nat2Z.inj_add, Hbh. cbn [length]. lia.
Qed.

Lemma get_message_three (tx : solana_tx_t) :
  well_formed tx ->
  solana_tx_get_message tx 3 = OK (message_bytes tx).
Proof.
  intros Hwf.
  pose proof (message_bytes_length tx Hwf) as Hlen.
  pose proof (stored_keys_concat_length tx Hwf) as Hk.
  pose proof (instructions_concat_length tx Hwf) as Hi.
  pose proof Hwf as (Hn & Hc & _ & _ & Hbh & _).
  unfold solana_tx_get_message, message_bytes in *.
  change (3 <? 3) with false. cbv iota.
  destruct (header_counts (accounts tx) 0 0 0) as [[a b] c].
  unfold MAX_ACCOUNTS, MAX_INSTRUCTIONS in *.
  rewrite !u16_small in * by lia.
  rewrite !encode_compact_u16_small in * by lia.
  rewrite put_fits by (cbn [length]; lia).
  unfold put at 1. cbn [fst snd length].
  change (size_t (3 - Z.of_nat 3 - Z.of_nat 1)) with (2 ^ 32 - 1).
  pose proof (message_body_fits tx
                (([] ++ [a; b; c])
                   ++ [Z.of_nat (length (accounts tx))])
                (2 ^ 32 - 1) Hwf) as B.
  rewrite !u16_small in B by lia.
  rewrite !encode_compact_u16_small in B by lia.
  cbv zeta in B. rewrite B.
  - rewrite <- !app_assoc. reflexivity.
  - change SOLANA_BLOCKHASH_SIZE with 32%nat.
    rewrite (memcpy_all _ 32 Hbh).
    rewrite !length_app, !Nat2Z.inj_add, Hbh. cbn [length]. lia.
Qed.

Lemma get_message_error (tx : solana_tx_t) (max_len : Z) (e : esp_err_t) :
  well_formed tx ->
  solana_tx_get_message tx max_len = Err e -> e = ESP_ERR_NO_MEM.
Proof.
  intros (_ & _ & _ & _ & _ & _ & Hinstr) H.
  unfold solana_tx_get_message in H.
  destruct (max_len <? 3); [congruence |].
  destruct (header_counts (accounts tx) 0 0 0) as [[a b] c].
  destruct (write_accounts _ _) as [st | e'] eqn:Ea.
  - destruct (snd st <? _); [congruence |].
    cbv zeta in H.
    destruct (write_instructions _ _ _) as [st' | e'] eqn:Ei; [discriminate |].
    injection H as <-.
    eapply write_instructions_error; [| exact Ei].
    eapply Forall_impl; [| exact Hinstr]. cbn beta. tauto.
  - injection H as <-. eapply write_accounts_error. exact Ea.
Qed.

(** The size of the message.  For a built transaction with [n] accounts
    and [k] transfers, [solana_tx_get_message] succeeds into every buffer
    of [37 + 32 n + 17 k] bytes or more and reports exactly that length,
    which is at most 442. *)
Theorem message_needs_37_32n_17k (tx : solana_tx_t) (max_len : Z) :
  built tx ->
  37 + 32 * Z.of_nat (length (accounts tx))
     + 17 * Z.of_nat (length (instructions tx)) <= max_len < 2 ^ 32 ->
  exists message,
    solana_tx_get_message tx max_len = OK message
    /\ Z.of_nat (length message)
       = 37 + 32 * Z.of_nat (length (accounts tx))
         + 17 * Z.of_nat (length (instructions tx))
    /\ Z.of_nat (length message) <= 442.
Proof.
  intros Hb Hr. pose proof (built_well_formed tx Hb) as Hwf.
  pose proof (message_bytes_length tx Hwf) as Hlen.
  exists (message_bytes tx). split; [| split].
  - apply get_message_fits; [assumption | lia].
  - assumption.
  - destruct Hwf as (Hn & Hc & _). unfold MAX_ACCOUNTS, MAX_INSTRUCTIONS in *.
    lia.
Qed.

(** What every transaction made by [solana_tx_new],
    [solana_tx_add_transfer] (succeeding or not) and
    [solana_tx_add_signature] from 32-byte keys satisfies: at most ten
    accounts, their keys distinct, at most five instructions, the fee
    payer first in the table as a writable signer, and every
    instruction's program and accounts at valid indexes of the table.  So
    [solana_tx_get_message] never reports [ESP_ERR_INVALID_STATE] on it:
    its only error is [ESP_ERR_NO_MEM]. *)
Theorem built_transaction_invariants (tx : solana_tx_t) :
  built tx ->
  (length (accounts tx) <= MAX_ACCOUNTS)%nat
  /\ (length (instructions tx) <= MAX_INSTRUCTIONS)%nat
  /\ NoDup (stored_keys tx)
  /\ (exists a rest,
        accounts tx = a :: rest
        /\ pubkey a = fee_payer tx
        /\ is_signer a = true /\ is_writable a = true)
  /\ (forall instr,
        In instr (instructions tx) ->
        0 <= find_program (accounts tx) (program_id instr) 0
          < Z.of_nat (length (accounts tx))
        /\ Forall (fun i => 0 <= i < Z.of_nat (length (accounts tx)))
                  (account_indexes instr))
  /\ (forall max_len e,
        solana_tx_get_message tx max_len = Err e -> e = ESP_ERR_NO_MEM).
Proof.
  intros Hb. pose proof (built_well_formed tx Hb) as Hwf.
  pose proof Hwf as (Hn & Hc & Hnd & H32 & Hbh & Hfirst & Hinstr).
  repeat split; try assumption.
  - rewrite Forall_forall in Hinstr.
    destruct (Hinstr _ H) as (Hp & _).
    pose proof (find_program_found _ _ 0 Hp). lia.
  - rewrite Forall_forall in Hinstr.
    destruct (Hinstr _ H) as (Hp & _).
    pose proof (find_program_found _ _ 0 Hp). lia.
  - rewrite Forall_forall in Hinstr.
    destruct (Hinstr _ H) as (_ & Hidx & _). assumption.
  - intros max_len e. apply get_message_error. assumption.
Qed.

End MessageFacts.

(** ** The transaction builder: a transfer from the fee payer *)

Section TransferFacts.

Import SplToken SolanaTx TxSpec.

Lemma same_pubkey_refl (a : list Z) : same_pubkey a a = true.
Proof. apply same_pubkey_eq. reflexivity. Qed.

Lemma same_pubkey_diff (a b : list Z) :
  length a = 32%nat -> length b = 32%nat -> a <> b -> same_pubkey a b = false.
Proof.
  intros Ha Hb Hne. apply same_pubkey_neq.
  rewrite (memcpy_all a 32 Ha), (memcpy_all b 32 Hb). assumption.
Qed.

Lemma le_bytes_u8 (width : nat) (value : Z) :
  map u8 (Wire.le_bytes width value) = Wire.le_bytes width value.
Proof.
  revert value. induction width as [| w IH]; intros value; [reflexivity |].
  cbn [Wire.le_bytes map]. rewrite IH. f_equal.
  unfold u8. apply Z.mod_small. apply Z.mod_pos_bound. lia.
Qed.

Lemma le_bytes_length (width : nat) (value : Z) :
  length (Wire.le_bytes width value) = width.
Proof.
  revert value. induction width as [| w IH]; intros value; [reflexivity |].
  cbn [Wire.le_bytes length]. rewrite IH. reflexivity.
Qed.

(** The transfer from the fee payer, step by step. *)
Lemma add_transfer_from_payer (bh fp sg payer to : list Z) (lamports : Z) :
  length payer = 32%nat -> length to = 32%nat ->
  to <> payer -> to <> SYSTEM_PROGRAM_ID -> payer <> SYSTEM_PROGRAM_ID ->
  solana_tx_add_transfer
    {| blockhash := bh; fee_payer := fp;
       accounts := [ {| pubkey := payer; is_signer := true;
                        is_writable := true |} ];
       instructions := []; signatures := sg; has_signature := false |}
    payer to lamports
  = (ESP_OK,
     {| blockhash := bh; fee_payer := fp;
        accounts := [ {| pubkey := payer; is_signer := true;
                         is_writable := true |};
                      {| pubkey := to; is_signer := false;
                         is_writable := true |};
                      {| pubkey := SYSTEM_PROGRAM_ID; is_signer := false;
                         is_writable := false |} ];
        instructions :=
          [ {| program_id := SYSTEM_PROGRAM_ID;
               account_indexes := [0; 1];
               data := [2; 0; 0; 0] ++ Wire.le_bytes 8 lamports |} ];
        signatures := sg; has_signature := false |}).
Proof.
  intros Hp Ht Htp Hts Hps.
  assert (Hs : length SYSTEM_PROGRAM_ID = 32%nat) by reflexivity.
  unfold solana_tx_add_transfer.
  cbn [instructions length].
  change (MAX_INSTRUCTIONS <=? 0)%nat with false. cbv iota.
  change SOLANA_PUBKEY_SIZE with 32%nat.
  rewrite (memcpy_all SYSTEM_PROGRAM_ID 32 Hs).
  unfold find_or_add_account at 1.
  cbn [accounts update_account pubkey is_signer is_writable].
  rewrite same_pubkey_refl.
  unfold with_accounts.
  cbn [orb blockhash fee_payer accounts instructions signatures
       has_signature].
  unfold find_or_add_account at 1.
  cbn [accounts update_account pubkey is_signer is_writable].
  rewrite (same_pubkey_diff payer to) by congruence.
  cbn [length]. change (MAX_ACCOUNTS <=? 1)%nat with false. cbv iota.
  unfold with_accounts.
  cbn [blockhash fee_payer accounts instructions signatures
       has_signature app].
  change (0 <? 0) with false. change (Z.of_nat 1 <? 0) with false.
  cbn [orb]. cbv iota zeta.
  change SOLANA_PUBKEY_SIZE with 32%nat.
  rewrite (memcpy_all to 32 Ht).
  unfold find_or_add_account at 1.
  cbn [accounts update_account pubkey is_signer is_writable].
  rewrite (same_pubkey_diff payer SYSTEM_PROGRAM_ID) by congruence.
  rewrite (same_pubkey_diff to SYSTEM_PROGRAM_ID) by congruence.
  cbn [length]. change (MAX_ACCOUNTS <=? 2)%nat with false. cbv iota.
  unfold with_accounts.
  cbn [blockhash fee_payer accounts instructions signatures
       has_signature app].
  change (Z.of_nat 2 <? 0) with false. cbv iota.
  change SOLANA_PUBKEY_SIZE with 32%nat.
  rewrite (memcpy_all SYSTEM_PROGRAM_ID 32 Hs).
  rewrite amount_le_bytes_le_bytes, le_bytes_u8.
  reflexivity.
Qed.

Lemma transfer_message_bytes (bh fp sg payer to : list Z) (lamports : Z) :
  length payer = 32%nat -> length to = 32%nat -> length bh = 32%nat ->
  to <> payer -> to <> SYSTEM_PROGRAM_ID -> payer <> SYSTEM_PROGRAM_ID ->
  message_bytes
    {| blockhash := bh; fee_payer := fp;
       accounts := [ {| pubkey := payer; is_signer := true;
                        is_writable := true |};
                     {| pubkey := to; is_signer := false;
                        is_writable := true |};
                     {| pubkey := SYSTEM_PROGRAM_ID; is_signer := false;
                        is_writable := false |} ];
       instructions :=
         [ {| program_id := SYSTEM_PROGRAM_ID;
              account_indexes := [0; 1];
              data := [2; 0; 0; 0] ++ Wire.le_bytes 8 lamports |} ];
       signatures := sg; has_signature := false |}
  = [1; 0; 1] ++ [3] ++ payer ++ to ++ SYSTEM_PROGRAM_ID ++ bh ++ [1]
      ++ [2] ++ [2] ++ [0; 1] ++ [12]
      ++ [2; 0; 0; 0] ++ Wire.le_bytes 8 lamports.
Proof.
  intros Hp Ht Hb Htp Hts Hps.
  assert (Hs : length SYSTEM_PROGRAM_ID = 32%nat) by reflexivity.
  unfold message_bytes, stored_keys, instruction_bytes, account_count, data_len.
  cbn [accounts instructions blockhash header_counts is_signer is_writable
       negb map concat pubkey program_id account_indexes data find_program
       length].
  rewrite (same_pubkey_diff payer SYSTEM_PROGRAM_ID) by congruence.
  rewrite (same_pubkey_diff to SYSTEM_PROGRAM_ID) by congruence.
  rewrite same_pubkey_refl.
  change SOLANA_PUBKEY_SIZE with 32%nat.
  change SOLANA_BLOCKHASH_SIZE with 32%nat.
  rewrite (memcpy_all payer 32 Hp), (memcpy_all to 32 Ht),
    (memcpy_all bh 32 Hb), (memcpy_all SYSTEM_PROGRAM_ID 32 Hs).
  rewrite length_app, le_bytes_length.
  rewrite <- !app_assoc, !app_nil_r.
  reflexivity.
Qed.

Lemma parse_signed_transfer (sig payer to bh : list Z) (lamports : Z) :
  length sig = 64%nat -> length payer = 32%nat -> length to = 32%nat ->
  length bh = 32%nat ->
  Wire.parse_transaction
    ([1] ++ sig ++ [1; 0; 1] ++ [3] ++ payer ++ to ++ SYSTEM_PROGRAM_ID
       ++ bh ++ [1] ++ [2] ++ [2] ++ [0; 1] ++ [12]
       ++ [2; 0; 0; 0] ++ Wire.le_bytes 8 lamports)
  = Some {| Wire.signatures := [sig];
            Wire.header :=
              {| Wire.num_required_signatures := 1;
                 Wire.num_readonly_signed_accounts := 0;
                 Wire.num_readonly_unsigned_accounts := 1 |};
            Wire.account_keys := [payer; to; SYSTEM_PROGRAM_ID];
            Wire.recent_blockhash := bh;
            Wire.instructions :=
              [ {| Wire.program_id_index := 2;
                   Wire.account_indices := [0; 1];
                   Wire.data := [2; 0; 0; 0] ++ Wire.le_bytes 8 lamports |} ] |}.
Proof.
  intros Hg Hp Ht Hb.
  assert (Hs : length SYSTEM_PROGRAM_ID = 32%nat) by reflexivity.
  unfold Wire.parse_transaction.
  cbn [app Wire.decode_shortvec].
  change (1 <? 128) with true. cbv iota.
  change (Z.to_nat 1) with 1%nat.
  cbn [Wire.take_chunks].
  rewrite take_bytes_app by assumption.
  cbn [app Wire.decode_shortvec].
  change (3 <? 128) with true. cbv iota.
  change (Z.to_nat 3) with 3%nat.
  cbn [Wire.take_chunks].
  rewrite !take_bytes_app by assumption.
  cbn [Wire.decode_shortvec].
  change (1 <? 128) with true. cbv iota.
  change (Z.to_nat 1) with 1%nat.
  reflexivity.
Qed.

Lemma get_message_add_signature (tx : solana_tx_t) (signature : list Z)
  (max_len : Z) :
  solana_tx_get_message (solana_tx_add_signature tx signature) max_len
  = solana_tx_get_message tx max_len.
Proof. reflexivity. Qed.

(** The serialized transaction is the count 1, the signature and the
    message [solana_tx_get_message] returns. *)
Lemma serialize_signed (tx : solana_tx_t) (signature : list Z) (max_len : Z) :
  well_formed tx ->
  length signature = 64%nat ->
  65 + Z.of_nat (length (message_bytes tx)) <= max_len < 2 ^ 32 ->
  solana_tx_serialize (solana_tx_add_signature tx signature) max_len
  = OK ([1] ++ signature ++ message_bytes tx).
Proof.
  intros Hwf Hg Hr. unfold solana_tx_serialize.
  rewrite get_message_add_signature.
  unfold solana_tx_add_signature. cbn [has_signature negb signatures].
  change (encode_compact_u16 1) with [1].
  rewrite put_fits by (cbn [length]; lia).
  cbn [snd length]. change (Z.of_nat SOLANA_SIGNATURE_SIZE) with 64.
  destruct (Z.ltb_spec (max_len - Z.of_nat 1) 64) as [C | _]; [lia |].
  change SOLANA_SIGNATURE_SIZE with 64%nat.
  rewrite !(memcpy_all signature 64 Hg).
  rewrite put_fits by lia.
  cbn [fst snd]. rewrite Hg.
  rewrite get_message_fits by (try assumption; lia).
  rewrite <- app_assoc. reflexivity.
Qed.

Lemma serialize_zero (tx : solana_tx_t) (signature : list Z) :
  well_formed tx ->
  length signature = 64%nat ->
  solana_tx_serialize (solana_tx_add_signature tx signature) 0
  = OK ([1] ++ signature ++ message_bytes tx).
Proof.
  intros Hwf Hg.
  pose proof (message_bytes_length tx Hwf) as Hlen.
  pose proof Hwf as (Hn & Hc & _).
  unfold MAX_ACCOUNTS, MAX_INSTRUCTIONS in *.
  unfold solana_tx_serialize.
  rewrite get_message_add_signature.
  unfold solana_tx_add_signature. cbn [has_signature negb signatures].
  change (encode_compact_u16 1) with [1].
  assert (P0 : put [1] ([], 0) = ([1], 2 ^ 32 - 1)) by reflexivity.
  rewrite !P0. cbn [snd].
  change (Z.of_nat SOLANA_SIGNATURE_SIZE) with 64.
  change (2 ^ 32 - 1 <? 64) with false. cbv iota.
  change SOLANA_SIGNATURE_SIZE with 64%nat.
  rewrite !(memcpy_all signature 64 Hg).
  rewrite put_fits by lia.
  cbn [fst snd]. rewrite Hg.
  rewrite get_message_fits by (try assumption; lia).
  rewrite <- app_assoc. reflexivity.
Qed.

(** The two buffer sizes the writers do not guard.
    [solana_tx_get_message] tests [remaining < 3], writes the header, and
    writes the account count without a test: with [max_len = 3] the count
    lands past the buffer, [remaining -= encoded] wraps around and every
    later test passes, so the call returns [ESP_OK] and the whole
    message, 69 bytes or more, the same as into a buffer that holds it.
    [solana_tx_serialize] writes the signature count without a test: with
    [max_len = 0] it returns [ESP_OK] and the whole transaction. *)
Theorem undersized_buffers_are_overrun (tx : solana_tx_t)
  (signature : list Z) :
  built tx ->
  length signature = 64%nat ->
  exists message,
    solana_tx_get_message tx 3 = OK message
    /\ solana_tx_serialize (solana_tx_add_signature tx signature) 0
       = OK ([1] ++ signature ++ message)
    /\ 69 <= Z.of_nat (length message)
    /\ forall max_len,
         Z.of_nat (length message) <= max_len < 2 ^ 32 ->
         solana_tx_get_message tx max_len = OK message.
Proof.
  intros Hb Hg. pose proof (built_well_formed tx Hb) as Hwf.
  pose proof (message_bytes_length tx Hwf) as Hlen.
  exists (message_bytes tx). split; [| split; [| split]].
  - apply get_message_three. assumption.
  - apply serialize_zero; assumption.
  - destruct Hwf as (_ & _ & _ & _ & _ & (a & rest & Ha & _) & _).
    rewrite Ha in Hlen. cbn [length] in Hlen. lia.
  - intros max_len Hr. apply get_message_fits; assumption.
Qed.

(** The transaction of [solana_wallet_send_sol]: a new transaction, one
    transfer from the fee payer, the signature, serialized.  For 32-byte
    keys with payer, recipient and System Program distinct the transfer
    succeeds; the serialized bytes are the count 1, the signature and the
    very message [solana_tx_get_message] returned for signing; and they
    read back as one signature, header (1, 0, 1), accounts [payer,
    recipient, System Program], the decoded blockhash, and one instruction
    with program index 2, account indices [0, 1] and twelve data bytes:
    2, 0, 0, 0 and the lamports as a 64-bit little-endian integer. *)
Theorem signed_transfer_layout (recent_blockhash : string)
  (payer to signature : list Z) (lamports : Z) (tx0 : solana_tx_t)
  (message_max tx_max : Z) :
  length payer = 32%nat -> length to = 32%nat ->
  length signature = 64%nat ->
  to <> payer -> to <> SYSTEM_PROGRAM_ID -> payer <> SYSTEM_PROGRAM_ID ->
  solana_tx_new recent_blockhash payer = Some tx0 ->
  150 <= message_max < 2 ^ 32 ->
  215 <= tx_max < 2 ^ 32 ->
  let (err, tx1) := solana_tx_add_transfer tx0 payer to lamports in
  err = ESP_OK
  /\ exists message,
       solana_tx_get_message tx1 message_max = OK message
       /\ solana_tx_serialize (solana_tx_add_signature tx1 signature) tx_max
          = OK ([1] ++ signature ++ message)
       /\ Base58.base58_decode recent_blockhash 32 = Some (blockhash tx0)
       /\ Wire.parse_transaction ([1] ++ signature ++ message)
          = Some {| Wire.signatures := [signature];
                    Wire.header :=
                      {| Wire.num_required_signatures := 1;
                         Wire.num_readonly_signed_accounts := 0;
                         Wire.num_readonly_unsigned_accounts := 1 |};
                    Wire.account_keys := [payer; to; SYSTEM_PROGRAM_ID];
                    Wire.recent_blockhash := blockhash tx0;
                    Wire.instructions :=
                      [ {| Wire.program_id_index := 2;
                           Wire.account_indices := [0; 1];
                           Wire.data :=
                             [2; 0; 0; 0] ++ Wire.le_bytes 8 lamports |} ] |}.
Proof.
  intros Hp Ht Hg Htp Hts Hps Hnew Hm Hx.
  destruct (solana_tx_new_well_formed _ _ _ Hp Hnew)
    as (Hwf0 & Hacc & Hins & Hsig & Hdec).
  pose proof (solana_tx_add_transfer_well_formed tx0 payer to lamports
                Hp Ht Hwf0) as Hwf1.
  pose proof Hwf0 as (_ & _ & _ & _ & Hbh & _).
  destruct tx0 as [bh fp acc ins sg has].
  cbn [accounts instructions has_signature blockhash] in *. subst acc ins has.
  rewrite add_transfer_from_payer in * by assumption.
  cbn [snd] in Hwf1.
  split; [reflexivity |].
  pose proof (transfer_message_bytes bh fp sg payer to lamports
                Hp Ht Hbh Htp Hts Hps) as Hmsg.
  assert (Hlen : Z.of_nat (length (message_bytes
                   {| blockhash := bh; fee_payer := fp;
                      accounts := [ {| pubkey := payer; is_signer := true;
                                       is_writable := true |};
                                    {| pubkey := to; is_signer := false;
                                       is_writable := true |};
                                    {| pubkey := SYSTEM_PROGRAM_ID;
                                       is_signer := false;
                                       is_writable := false |} ];
                      instructions :=
                        [ {| program_id := SYSTEM_PROGRAM_ID;
                             account_indexes := [0; 1];
                             data := [2; 0; 0; 0]
                                       ++ Wire.le_bytes 8 lamports |} ];
                      signatures := sg; has_signature := false |})) = 150).
  { rewrite (message_bytes_length _ Hwf1). reflexivity. }
  eexists. split; [| split; [| split]].
  - apply get_message_fits; [assumption | lia].
  - apply serialize_signed; [assumption | assumption | lia].
  - assumption.
  - rewrite Hmsg. apply parse_signed_transfer; assumption.
Qed.

End TransferFacts.

(** ** The transaction builder: a transfer from another account *)

Section SecondSignerFacts.

Import SplToken SolanaTx TxSpec.

(** The transfer from an account that is not the fee payer, step by
    step. *)
Lemma add_transfer_from_other (bh fp sg payer from to : list Z)
  (lamports : Z) :
  length payer = 32%nat -> length from = 32%nat -> length to = 32%nat ->
  from <> payer -> to <> payer -> to <> from ->
  payer <> SYSTEM_PROGRAM_ID -> from <> SYSTEM_PROGRAM_ID ->
  to <> SYSTEM_PROGRAM_ID ->
  solana_tx_add_transfer
    {| blockhash := bh; fee_payer := fp;
       accounts := [ {| pubkey := payer; is_signer := true;
                        is_writable := true |} ];
       instructions := []; signatures := sg; has_signature := false |}
    from to lamports
  = (ESP_OK,
     {| blockhash := bh; fee_payer := fp;
        accounts := [ {| pubkey := payer; is_signer := true;
                         is_writable := true |};
                      {| pubkey := from; is_signer := true;
                         is_writable := true |};
                      {| pubkey := to; is_signer := false;
                         is_writable := true |};
                      {| pubkey := SYSTEM_PROGRAM_ID; is_signer := false;
                         is_writable := false |} ];
        instructions :=
          [ {| program_id := SYSTEM_PROGRAM_ID;
               account_indexes := [1; 2];
               data := [2; 0; 0; 0] ++ Wire.le_bytes 8 lamports |} ];
        signatures := sg; has_signature := false |}).
Proof.
  intros Hp Hf Ht Hfp Htp Htf Hps Hfs Hts.
  assert (Hs : length SYSTEM_PROGRAM_ID = 32%nat) by reflexivity.
  unfold solana_tx_add_transfer.
  cbn [instructions length].
  change (MAX_INSTRUCTIONS <=? 0)%nat with false. cbv iota.
  change SOLANA_PUBKEY_SIZE with 32%nat.
  rewrite (memcpy_all SYSTEM_PROGRAM_ID 32 Hs).
  unfold find_or_add_account at 1.
  cbn [accounts update_account pubkey is_signer is_writable].
  rewrite (same_pubkey_diff payer from) by congruence.
  cbn [length]. change (MAX_ACCOUNTS <=? 1)%nat with false. cbv iota.
  unfold with_accounts.
  cbn [orb blockhash fee_payer accounts instructions signatures
       has_signature app].
  change SOLANA_PUBKEY_SIZE with 32%nat.
  rewrite (memcpy_all from 32 Hf).
  unfold find_or_add_account at 1.
  cbn [accounts update_account pubkey is_signer is_writable].
  rewrite (same_pubkey_diff payer to) by congruence.
  rewrite (same_pubkey_diff from to) by congruence.
  cbn [length]. change (MAX_ACCOUNTS <=? 2)%nat with false. cbv iota.
  unfold with_accounts.
  cbn [blockhash fee_payer accounts instructions signatures
       has_signature app].
  change (Z.of_nat 1 <? 0) with false. change (Z.of_nat 2 <? 0) with false.
  cbn [orb]. cbv iota zeta.
  change SOLANA_PUBKEY_SIZE with 32%nat.
  rewrite (memcpy_all to 32 Ht).
  unfold find_or_add_account at 1.
  cbn [accounts update_account pubkey is_signer is_writable].
  rewrite (same_pubkey_diff payer SYSTEM_PROGRAM_ID) by congruence.
  rewrite (same_pubkey_diff from SYSTEM_PROGRAM_ID) by congruence.
  rewrite (same_pubkey_diff to SYSTEM_PROGRAM_ID) by congruence.
  cbn [length]. change (MAX_ACCOUNTS <=? 3)%nat with false. cbv iota.
  unfold with_accounts.
  cbn [blockhash fee_payer accounts instructions signatures
       has_signature app].
  change (Z.of_nat 3 <? 0) with false. cbv iota.
  change SOLANA_PUBKEY_SIZE with 32%nat.
  rewrite (memcpy_all SYSTEM_PROGRAM_ID 32 Hs).
  rewrite amount_le_bytes_le_bytes, le_bytes_u8.
  reflexivity.
Qed.

Lemma second_signer_message_bytes (bh fp sg payer from to : list Z)
  (lamports : Z) :
  length payer = 32%nat -> length from = 32%nat -> length to = 32%nat ->
  length bh = 32%nat ->
  payer <> SYSTEM_PROGRAM_ID -> from <> SYSTEM_PROGRAM_ID ->
  to <> SYSTEM_PROGRAM_ID ->
  message_bytes
    {| blockhash := bh; fee_payer := fp;
       accounts := [ {| pubkey := payer; is_signer := true;
                        is_writable := true |};
                     {| pubkey := from; is_signer := true;
                        is_writable := true |};
                     {| pubkey := to; is_signer := false;
                        is_writable := true |};
                     {| pubkey := SYSTEM_PROGRAM_ID; is_signer := false;
                        is_writable := false |} ];
       instructions :=
         [ {| program_id := SYSTEM_PROGRAM_ID;
              account_indexes := [1; 2];
              data := [2; 0; 0; 0] ++ Wire.le_bytes 8 lamports |} ];
       signatures := sg; has_signature := false |}
  = [2; 0; 1] ++ [4] ++ payer ++ from ++ to ++ SYSTEM_PROGRAM_ID ++ bh
      ++ [1] ++ [3] ++ [2] ++ [1; 2] ++ [12]
      ++ [2; 0; 0; 0] ++ Wire.le_bytes 8 lamports.
Proof.
  intros Hp Hf Ht Hb Hps Hfs Hts.
  assert (Hs : length SYSTEM_PROGRAM_ID = 32%nat) by reflexivity.
  unfold message_bytes, stored_keys, instruction_bytes, account_count, data_len.
  cbn [accounts instructions blockhash header_counts is_signer is_writable
       negb map concat pubkey program_id account_indexes data find_program
       length].
  rewrite (same_pubkey_diff payer SYSTEM_PROGRAM_ID) by congruence.
  rewrite (same_pubkey_diff from SYSTEM_PROGRAM_ID) by congruence.
  rewrite (same_pubkey_diff to SYSTEM_PROGRAM_ID) by congruence.
  rewrite same_pubkey_refl.
  change SOLANA_PUBKEY_SIZE with 32%nat.
  change SOLANA_BLOCKHASH_SIZE with 32%nat.
  rewrite (memcpy_all payer 32 Hp), (memcpy_all from 32 Hf),
    (memcpy_all to 32 Ht), (memcpy_all bh 32 Hb),
    (memcpy_all SYSTEM_PROGRAM_ID 32 Hs).
  rewrite length_app, le_bytes_length.
  rewrite <- !app_assoc, !app_nil_r.
  reflexivity.
Qed.

Lemma parse_second_signer (sig payer from to bh : list Z) (lamports : Z) :
  length sig = 64%nat -> length payer = 32%nat -> length from = 32%nat ->
  length to = 32%nat -> length bh = 32%nat ->
  Wire.parse_transaction
    ([1] ++ sig ++ [2; 0; 1] ++ [4] ++ payer ++ from ++ to
       ++ SYSTEM_PROGRAM_ID ++ bh ++ [1] ++ [3] ++ [2] ++ [1; 2] ++ [12]
       ++ [2; 0; 0; 0] ++ Wire.le_bytes 8 lamports)
  = Some {| Wire.signatures := [sig];
            Wire.header :=
              {| Wire.num_required_signatures := 2;
                 Wire.num_readonly_signed_accounts := 0;
                 Wire.num_readonly_unsigned_accounts := 1 |};
            Wire.account_keys := [payer; from; to; SYSTEM_PROGRAM_ID];
            Wire.recent_blockhash := bh;
            Wire.instructions :=
              [ {| Wire.program_id_index := 3;
                   Wire.account_indices := [1; 2];
                   Wire.data := [2; 0; 0; 0] ++ Wire.le_bytes 8 lamports |} ] |}.
Proof.
  intros Hg Hp Hf Ht Hb.
  assert (Hs : length SYSTEM_PROGRAM_ID = 32%nat) by reflexivity.
  unfold Wire.parse_transaction.
  cbn [app Wire.decode_shortvec].
  change (1 <? 128) with true. cbv iota.
  change (Z.to_nat 1) with 1%nat.
  cbn [Wire.take_chunks].
  rewrite take_bytes_app by assumption.
  cbn [app Wire.decode_shortvec].
  change (4 <? 128) with true. cbv iota.
  change (Z.to_nat 4) with 4%nat.
  cbn [Wire.take_chunks].
  rewrite !take_bytes_app by assumption.
  cbn [Wire.decode_shortvec].
  change (1 <? 128) with true. cbv iota.
  change (Z.to_nat 1) with 1%nat.
  reflexivity.
Qed.

(** A transfer from an account that is not the fee payer.  The source
    joins the table as a second signer, so the header asks for two
    signatures; [solana_tx_serialize] still writes the count 1 and the one
    signature the transaction stores.  The serialized transaction has one
    signature slot for two required signers. *)
Theorem second_signer_gets_no_slot (recent_blockhash : string)
  (payer from to signature : list Z) (lamports : Z) (tx0 : solana_tx_t)
  (tx_max : Z) :
  length payer = 32%nat -> length from = 32%nat -> length to = 32%nat ->
  length signature = 64%nat ->
  from <> payer -> to <> payer -> to <> from ->
  payer <> SYSTEM_PROGRAM_ID -> from <> SYSTEM_PROGRAM_ID ->
  to <> SYSTEM_PROGRAM_ID ->
  solana_tx_new recent_blockhash payer = Some tx0 ->
  247 <= tx_max < 2 ^ 32 ->
  let (err, tx1) := solana_tx_add_transfer tx0 from to lamports in
  err = ESP_OK
  /\ exists bytes parsed,
       solana_tx_serialize (solana_tx_add_signature tx1 signature) tx_max
       = OK bytes
       /\ Wire.parse_transaction bytes = Some parsed
       /\ Wire.signatures parsed = [signature]
       /\ Wire.num_required_signatures (Wire.header parsed) = 2
       /\ Wire.account_keys parsed = [payer; from; to; SYSTEM_PROGRAM_ID].
Proof.
  intros Hp Hf Ht Hg Hfp Htp Htf Hps Hfs Hts Hnew Hx.
  destruct (solana_tx_new_well_formed _ _ _ Hp Hnew)
    as (Hwf0 & Hacc & Hins & Hsig & Hdec).
  pose proof (solana_tx_add_transfer_well_formed tx0 from to lamports
                Hf Ht Hwf0) as Hwf1.
  pose proof Hwf0 as (_ & _ & _ & _ & Hbh & _).
  destruct tx0 as [bh fp acc ins sg has].
  cbn [accounts instructions has_signature blockhash] in *. subst acc ins has.
  rewrite add_transfer_from_other in * by assumption.
  cbn [snd] in Hwf1.
  split; [reflexivity |].
  pose proof (second_signer_message_bytes bh fp sg payer from to lamports
                Hp Hf Ht Hbh Hps Hfs Hts) as Hmsg.
  pose proof (message_bytes_length _ Hwf1) as Hlen.
  cbn [accounts instructions length] in Hlen.
  eexists. eexists. split; [| split].
  - apply serialize_signed; [assumption | assumption | lia].
  - rewrite Hmsg. apply parse_second_signer; assumption.
  - cbn [Wire.signatures Wire.header Wire.num_required_signatures
         Wire.account_keys]. repeat split; reflexivity.
Qed.

End SecondSignerFacts.

(** ** The transaction builder: a refused transfer *)

Section TransferFailureFacts.

Import SplToken SolanaTx TxSpec.

(** A refused transfer is not undone.  When the account table is full,
    the source is in it and the destination is not,
    [solana_tx_add_transfer] returns [ESP_ERR_NO_MEM] and adds no
    instruction, but the source's entry has been made a writable signer
    and stays so. *)
Theorem failed_transfer_still_marks_the_source (tx : solana_tx_t)
  (from to : list Z) (lamports : Z) :
  (length (instructions tx) < MAX_INSTRUCTIONS)%nat ->
  length (accounts tx) = MAX_ACCOUNTS ->
  In (memcpy from 32) (stored_keys tx) ->
  ~ In (memcpy to 32) (stored_keys tx) ->
  let (err, tx') := solana_tx_add_transfer tx from to lamports in
  err = ESP_ERR_NO_MEM
  /\ instructions tx' = instructions tx
  /\ exists before entry after,
       accounts tx = before ++ entry :: after
       /\ memcpy (pubkey entry) 32 = memcpy from 32
       /\ accounts tx'
          = before ++ {| pubkey := pubkey entry;
                         is_signer := true;
                         is_writable := true |} :: after.
Proof.
  intros Hi Hfull Hfrom Hto.
  unfold solana_tx_add_transfer.
  destruct (Nat.leb_spec MAX_INSTRUCTIONS (length (instructions tx)))
    as [C | _]; [lia |].
  pose proof (find_or_add_account_cases tx from true true) as H1.
  pose proof (find_or_add_account_keys tx from true true) as K1.
  destruct (find_or_add_account tx from true true) as [from_idx tx1].
  destruct H1 as [Hw1 [H1 | [H1 | H1]]].
  - destruct H1 as (before & entry & after & Ha & Ha1 & Hidx & Hkey & _).
    assert (Hk1 : stored_keys tx1 = stored_keys tx).
    { unfold stored_keys. rewrite Ha, Ha1, !map_app. reflexivity. }
    assert (Hl1 : length (accounts tx1) = MAX_ACCOUNTS).
    { rewrite <- stored_keys_length, Hk1, stored_keys_length. assumption. }
    pose proof (find_or_add_account_cases tx1 to false true) as H2.
    destruct (find_or_add_account tx1 to false true) as [to_idx tx2].
    destruct H2 as [Hw2 [H2 | [H2 | H2]]].
    + exfalso. destruct H2 as (pre & b & post & Hb & _ & _ & Hkb & _).
      apply Hto. rewrite <- Hk1. unfold stored_keys. rewrite Hb, map_app.
      apply in_or_app. right. left. exact Hkb.
    + destruct H2 as (-> & -> & _).
      change (-1 <? 0) with true. rewrite orb_true_r.
      split; [reflexivity |]. split; [rewrite Hw1; reflexivity |].
      exists before, entry, after.
      rewrite !orb_true_r in Ha1. repeat split; assumption.
    + exfalso. destruct H2 as (_ & _ & _ & L). lia.
  - exfalso. destruct H1 as (_ & _ & Hn & _). contradiction.
  - exfalso. destruct H1 as (_ & _ & Hn & _). contradiction.
Qed.

End TransferFailureFacts.

(** ** The SPL builder: the buffer bound *)

Section BuilderBoundFacts.
Context {ext : Externals}.

Import SplToken.

(** The buffer bound of the fee-payer revision's builder.  When both
    ATAs derive, [spl_token_create_transfer_transaction] succeeds into
    every buffer of 341 bytes or more, with a transaction of exactly 341
    bytes, and returns [ESP_ERR_NO_MEM] for every smaller buffer. *)
Theorem transfer_transaction_needs_341_bytes
  (fee_payer payer recipient mint token_program : list Z) (amount : Z)
  (blockhash source_ata dest_ata : list Z) (max_tx_len : Z) :
  length fee_payer = 32%nat -> length payer = 32%nat ->
  length token_program = 32%nat -> length blockhash = 32%nat ->
  spl_token_get_associated_token_address_with_program
    payer mint token_program = OK source_ata ->
  spl_token_get_associated_token_address_with_program
    recipient mint token_program = OK dest_ata ->
  (341 <= max_tx_len ->
   exists tx,
     spl_token_create_transfer_transaction
       fee_payer payer recipient mint token_program amount blockhash max_tx_len
     = OK tx
     /\ length tx = 341%nat)
  /\ (max_tx_len < 341 ->
      spl_token_create_transfer_transaction
        fee_payer payer recipient mint token_program amount blockhash max_tx_len
      = Err ESP_ERR_NO_MEM).
Proof.
  intros Hf Hp Ht Hb Hs Hd. split.
  - intros Hmax. eapply transfer_transaction_succeeds; eassumption.
  - intros Hmax.
    unfold spl_token_create_transfer_transaction.
    rewrite Hs, Hd.
    unfold spl_token_build_transfer_instruction.
    change (32 <? 1 + 8) with false. cbv iota.
    pose proof (ata_length _ _ _ _ Hs) as Hsl.
    pose proof (ata_length _ _ _ _ Hd) as Hdl.
    rewrite !(memcpy_all _ 32) by assumption.
    assert (Hlen : length (u8 SPL_TOKEN_TRANSFER_INSTRUCTION :: amount_le_bytes amount)
                   = 9%nat) by reflexivity.
    rewrite Hlen. change (Z.of_nat 9) with 9. change (Z.to_nat 9) with 9%nat.
    rewrite (memcpy_all _ 9) by reflexivity.
    cbv zeta.
    repeat match goal with
    | |- guard ?m ?tx ?n ?k = _ =>
        unfold guard at 1;
        destruct (Z.gtb_spec (Z.of_nat (length tx) + n) m) as [_ | ?G];
        [reflexivity |]
    end.
    exfalso.
    match goal with
    | G : Z.of_nat (length _) + (1 + 9) <= max_tx_len |- _ => revert G
    end.
    rewrite ?length_app, ?repeat_length, ?Hf, ?Hp, ?Ht, ?Hb, ?Hsl, ?Hdl.
    cbn [length]. lia.
Qed.

End BuilderBoundFacts.

(** ** The driver: the requests of one call *)

Section RequestBoundFacts.
Context {ext : Externals} {net : Network}.

Import Libc Json Payment Encoding Requirements Wallet Client SolanaRpc Spec.

Lemma build_payment_transaction_trace (wallet : solana_wallet_t)
  (fee_payer recipient mint token_program : list Z) (amount max_tx_len : Z)
  (w : world) :
  trace (snd (x402_build_payment_transaction wallet fee_payer recipient mint
                token_program amount max_tx_len w))
  = trace w ++ [blockhash_exchange w].
Proof.
  unfold x402_build_payment_transaction, bind_ok.
  unfold ret at 1. cbn [solana_wallet_get_pubkey].
  rewrite ensure_rpc_client_spec.
  unfold bind.
  pose proof (latest_blockhash_trace w) as Htrace. cbn zeta in Htrace.
  destruct (solana_rpc_get_latest_blockhash (rpc_client_of w) _)
    as [[err rpc_response] w1].
  cbn [snd] in Htrace.
  destruct (negb (esp_err_eqb err ESP_OK) || negb (rpc_success rpc_response));
    [assumption |].
  destruct (cJSON_Parse _) as [root |]; [| assumption].
  destruct (negb (Json.cJSON_IsString _)); [assumption |].
  destruct (Base58.base58_decode _ 32) as [blockhash |]; [| assumption].
  destruct (negb (Nat.eqb (length blockhash) 32)); assumption.
Qed.

(** The mint probe makes one request, or none when the mint address
    cannot be encoded; it leaves the RPC client alone. *)
Lemma mint_program_trace (rpc : string) (mint_pubkey : list Z) (w : world) :
  snd (spl_token_get_mint_program rpc mint_pubkey w) = w
  \/ exists mint_b58,
       snd (spl_token_get_mint_program rpc mint_pubkey w)
       = after_request w (mint_program_exchange rpc mint_b58).
Proof.
  unfold spl_token_get_mint_program, bind, perform, fail, ok, ret.
  destruct (Base58.base58_encode (SplToken.memcpy mint_pubkey 32) 64)
    as [mint_b58 |]; [| left; reflexivity].
  right. exists mint_b58.
  set (reply := esp_http_client_perform (trace w)
                  (mint_program_exchange rpc mint_b58)).
  fold (after_request w (mint_program_exchange rpc mint_b58)).
  destruct (hr_err reply); try reflexivity.
  destruct (hr_data reply) as [response_buffer |]; [| reflexivity].
  destruct (negb (hr_status reply =? 200)); [reflexivity |].
  destruct (cJSON_Parse response_buffer) as [response |]; [| reflexivity].
  destruct (negb (cJSON_IsString _)); [reflexivity |].
  destruct (Base58.base58_decode _ 32) as [pid |]; [| reflexivity].
  destruct (negb (Nat.eqb (length pid) 32)); reflexivity.
Qed.

(** Creating a payment talks to the Solana RPC endpoint only, at most
    twice, whatever the outcome. *)
Lemma create_payment_trace (wallet : solana_wallet_t)
  (requirements : x402_payment_requirements_t) (w : world) :
  exists rpc,
    trace (snd (x402_create_solana_payment wallet requirements w))
    = trace w ++ rpc
    /\ (length rpc <= 2)%nat
    /\ Forall (fun x => hx_method x = HTTP_METHOD_POST
                        /\ (hx_url x = SOLANA_RPC_DEVNET
                            \/ hx_url x = rpc_url (rpc_client_of w))) rpc.
Proof.
  assert (Hnone : exists rpc,
             trace w = trace w ++ rpc
             /\ (length rpc <= 2)%nat
             /\ Forall (fun x => hx_method x = HTTP_METHOD_POST
                                 /\ (hx_url x = SOLANA_RPC_DEVNET
                                     \/ hx_url x = rpc_url (rpc_client_of w)))
                       rpc).
  { exists []. rewrite app_nil_r. repeat split; [cbn; lia | constructor]. }
  unfold x402_create_solana_payment, x402_signed_transaction, bind_ok.
  destruct (negb (valid requirements)); [exact Hnone |].
  unfold ret at 1.
  destruct (decode_pubkey (recipient requirements)) as [recipient_pubkey | e];
    [| exact Hnone].
  unfold ret at 1.
  destruct (decode_pubkey (asset requirements)) as [mint | e];
    [| exact Hnone].
  unfold ret at 1.
  destruct (parse_amount (price_amount requirements)) as [amount | e];
    [| exact Hnone].
  destruct (facilitator_fee_payer requirements) as [| c fee_text];
    [exact Hnone |].
  unfold ret at 1.
  destruct (decode_pubkey (String c fee_text)) as [fee_payer | e];
    [| exact Hnone].
  pose proof (mint_program_trace SOLANA_RPC_DEVNET mint w) as Hprobe.
  destruct (spl_token_get_mint_program SOLANA_RPC_DEVNET mint w)
    as [[token_program | e] w1]; cbn [snd] in Hprobe.
  - pose proof (build_payment_transaction_trace wallet fee_payer
                  recipient_pubkey mint token_program amount 2048 w1)
      as Hbuild.
    assert (Hafter : exists rpc,
               trace w1 ++ [blockhash_exchange w1] = trace w ++ rpc
               /\ (length rpc <= 2)%nat
               /\ Forall (fun x => hx_method x = HTTP_METHOD_POST
                                   /\ (hx_url x = SOLANA_RPC_DEVNET
                                       \/ hx_url x = rpc_url (rpc_client_of w)))
                         rpc).
    { destruct Hprobe as [-> | (mint_b58 & ->)].
      - exists [blockhash_exchange w]. repeat split; [cbn; lia |].
        constructor; [| constructor].
        split; [reflexivity | right; reflexivity].
      - exists [mint_program_exchange SOLANA_RPC_DEVNET mint_b58;
                blockhash_exchange w].
        cbn [trace after_request]. rewrite <- app_assoc.
        repeat split; [cbn; lia |].
        constructor; [| constructor; [| constructor]].
        + split; [reflexivity | left; reflexivity].
        + split; [reflexivity | right; reflexivity]. }
    destruct (x402_build_payment_transaction wallet fee_payer recipient_pubkey
                mint token_program amount 2048 w1) as [[tx0 | e] w2];
      cbn [snd] in Hbuild; rewrite <- Hbuild in Hafter; [| exact Hafter].
    unfold ret at 1.
    destruct (solana_wallet_sign wallet _) as [sig | e]; [| exact Hafter].
    unfold ok, ret.
    destruct (x402_base64_encode _ 4096); exact Hafter.
  - destruct Hprobe as [-> | (mint_b58 & ->)]; [exact Hnone |].
    exists [mint_program_exchange SOLANA_RPC_DEVNET mint_b58].
    repeat split; [cbn; lia |].
    constructor; [| constructor].
    split; [reflexivity | left; reflexivity].
Qed.

Lemma rpc_client_of_after_request (w : world) (x : http_exchange) :
  rpc_client_of (after_request w x) = rpc_client_of w.
Proof. reflexivity. Qed.

(** The requests of one [x402_fetch], on every path and whatever the
    server answers.  First the caller's request; then at most two POSTs,
    each to the Solana RPC endpoint; then at most one more request, the
    caller's request again with the payment header added.  Nothing else is
    sent: at most four requests, and at most one retry. *)
Theorem fetch_issues_at_most_four_requests (wallet : solana_wallet_t)
  (url method : string) (headers body : option string) (w : world) :
  exists rpc retry,
    trace (snd (x402_fetch wallet url method headers body w))
    = trace w ++ [exchange_of url method headers body] ++ rpc ++ retry
    /\ (length rpc <= 2)%nat
    /\ Forall (fun x => hx_method x = HTTP_METHOD_POST
                        /\ (hx_url x = SOLANA_RPC_DEVNET
                            \/ hx_url x = rpc_url (rpc_client_of w))) rpc
    /\ (retry = []
        \/ exists payment_encoded,
             retry = [ exchange_of url method
                         (Some (retry_headers_of headers payment_encoded))
                         body ]).
Proof.
  assert (Hone : forall w1,
             w1 = after_request w (exchange_of url method headers body) ->
             exists rpc retry,
               trace w1
               = trace w ++ [exchange_of url method headers body]
                   ++ rpc ++ retry
               /\ (length rpc <= 2)%nat
               /\ Forall (fun x => hx_method x = HTTP_METHOD_POST
                                   /\ (hx_url x = SOLANA_RPC_DEVNET
                                       \/ hx_url x = rpc_url (rpc_client_of w)))
                         rpc
               /\ (retry = []
                   \/ exists payment_encoded,
                        retry = [ exchange_of url method
                                    (Some (retry_headers_of headers
                                             payment_encoded))
                                    body ])).
  { intros w1 ->. exists [], []. cbn [trace after_request app].
    repeat split; [cbn; lia | constructor | left; reflexivity]. }
  rewrite x402_fetch_steps.
  pose proof (http_request_performs_once url method headers body w) as H1.
  destruct (http_request url method headers body w) as [[initial | e] w1];
    cbn [snd] in H1; [| apply Hone; assumption].
  destruct (negb (x402_is_payment_required (status_out initial)));
    [apply Hone; assumption |].
  destruct (body_out initial) as [resp_body |]; [| apply Hone; assumption].
  destruct (x402_parse_payment_requirements resp_body) as [requirements | e];
    [| apply Hone; assumption].
  destruct (create_payment_trace wallet requirements w1)
    as (rpc & Htrace & Hlen & Hrpc).
  rewrite H1, rpc_client_of_after_request in Hrpc.
  assert (Hpaid : forall w2,
             trace w2 = trace w1 ++ rpc ->
             exists rpc retry,
               trace w2
               = trace w ++ [exchange_of url method headers body]
                   ++ rpc ++ retry
               /\ (length rpc <= 2)%nat
               /\ Forall (fun x => hx_method x = HTTP_METHOD_POST
                                   /\ (hx_url x = SOLANA_RPC_DEVNET
                                       \/ hx_url x = rpc_url (rpc_client_of w)))
                         rpc
               /\ (retry = []
                   \/ exists payment_encoded,
                        retry = [ exchange_of url method
                                    (Some (retry_headers_of headers
                                             payment_encoded))
                                    body ])).
  { intros w2 H2. exists rpc, []. rewrite H2, H1.
    cbn [trace after_request]. rewrite app_nil_r, <- app_assoc.
    repeat split; try assumption. left. reflexivity. }
  destruct (x402_create_solana_payment wallet requirements w1)
    as [[payload | e] w2]; cbn [snd] in Htrace;
    [| apply Hpaid; assumption].
  destruct (x402_encode_payment_payload payload 8192)
    as [payment_encoded | e]; [| apply Hpaid; assumption].
  pose proof (http_request_performs_once url method
                (Some (retry_headers_of headers payment_encoded)) body w2)
    as H3.
  assert (Hretry : forall w3,
             w3 = after_request w2
                    (exchange_of url method
                       (Some (retry_headers_of headers payment_encoded)) body) ->
             exists rpc retry,
               trace w3
               = trace w ++ [exchange_of url method headers body]
                   ++ rpc ++ retry
               /\ (length rpc <= 2)%nat
               /\ Forall (fun x => hx_method x = HTTP_METHOD_POST
                                   /\ (hx_url x = SOLANA_RPC_DEVNET
                                       \/ hx_url x = rpc_url (rpc_client_of w)))
                         rpc
               /\ (retry = []
                   \/ exists payment_encoded,
                        retry = [ exchange_of url method
                                    (Some (retry_headers_of headers
                                             payment_encoded))
                                    body ])).
  { intros w3 ->. eexists rpc, [_]. cbn [trace after_request].
    rewrite Htrace, H1. cbn [trace after_request].
    rewrite <- !app_assoc.
    repeat split; try assumption. right. eexists. reflexivity. }
  destruct (http_request url method _ body w2) as [[retried | e] w3];
    cbn [snd] in H3; apply Hretry; assumption.
Qed.

End RequestBoundFacts.

(** ** The driver: the headers of the retry *)

Section RetryHeaderFacts.
Context {ext : Externals} {net : Network}.

Import Libc Json Base64 Encoding Payment Client.

Lemma base64_alphabet_plain :
  forallb (fun c => negb (Ascii.eqb c CR) && negb (Ascii.eqb c LF)
                    && negb (Ascii.eqb c " "%char))
          (list_ascii_of_string ALPHABET ++ ["="%char]) = true.
Proof. vm_compute. reflexivity. Qed.

Lemma enc_char_plain (s : Z) :
  Ascii.eqb (enc_char s) CR = false
  /\ Ascii.eqb (enc_char s) LF = false
  /\ Ascii.eqb (enc_char s) " "%char = false.
Proof.
  pose proof (proj1 (forallb_forall _ _) base64_alphabet_plain (enc_char s))
    as H.
  cbv beta in H.
  assert (Hin : In (enc_char s) (list_ascii_of_string ALPHABET ++ ["="%char])).
  { unfold enc_char.
    destruct (Nat.lt_ge_cases (Z.to_nat s)
                (length (list_ascii_of_string ALPHABET))) as [L | L].
    - apply in_or_app. left. apply nth_In. assumption.
    - rewrite nth_overflow by assumption.
      apply in_or_app. right. left. reflexivity. }
  specialize (H Hin).
  apply andb_true_iff in H. destruct H as [H H3].
  apply andb_true_iff in H. destruct H as [H1 H2].
  rewrite negb_true_iff in *. tauto.
Qed.

Lemma pad_plain :
  Ascii.eqb "="%char CR = false
  /\ Ascii.eqb "="%char LF = false
  /\ Ascii.eqb "="%char " "%char = false.
Proof. repeat split; reflexivity. Qed.

(** The Base64 text holds no line break and no space, and is
    [4 * ceil (n / 3)] characters long. *)
Lemma encode_plain_bounded (n : nat) (data : list Z) :
  (length data <= n)%nat ->
  Forall (fun c => Ascii.eqb c CR = false /\ Ascii.eqb c LF = false
                   /\ Ascii.eqb c " "%char = false) (encode data)
  /\ Z.of_nat (length (encode data))
     = 4 * (Z.of_nat (length data) / 3
            + (if Z.of_nat (length data) mod 3 =? 0 then 0 else 1)).
Proof.
  revert data. induction n as [| n IH]; intros data Hlen.
  - destruct data; [split; [constructor | reflexivity] | cbn in Hlen; lia].
  - destruct data as [| b0 [| b1 [| b2 rest]]].
    + split; [constructor | reflexivity].
    + split; [| reflexivity]. cbn [encode].
      repeat (constructor; [first [apply enc_char_plain | apply pad_plain] |]).
      constructor.
    + split; [| reflexivity]. cbn [encode].
      repeat (constructor; [first [apply enc_char_plain | apply pad_plain] |]).
      constructor.
    + destruct (IH rest) as [Hp Hl]; [cbn [length] in Hlen; lia |].
      split.
      * cbn [encode].
        repeat (constructor; [apply enc_char_plain |]). assumption.
      * cbn [encode length]. rewrite !Nat2Z.inj_succ, Hl.
        replace (Z.succ (Z.succ (Z.succ (Z.of_nat (length rest)))))
          with (Z.of_nat (length rest) + 1 * 3) by lia.
        rewrite Z.div_add, Z.mod_add by lia. lia.
Qed.

(** [strtok]: a line break ends the line in progress. *)
Lemma header_lines_break (before after line : list ascii) :
  header_lines (before ++ CR :: after) line
  = header_lines before line ++ header_lines after [].
Proof.
  revert line. induction before as [| c rest IH]; intros line.
  - cbn [app header_lines].
    change (Ascii.eqb CR CR) with true. cbn [orb].
    destruct line; reflexivity.
  - cbn [app header_lines].
    destruct (Ascii.eqb c CR || Ascii.eqb c LF).
    + destruct line; rewrite IH; reflexivity.
    + apply IH.
Qed.

(** A text without line breaks is one line. *)
Lemma header_lines_single (text line : list ascii) :
  Forall (fun c => Ascii.eqb c CR = false /\ Ascii.eqb c LF = false) text ->
  header_lines text line
  = match rev line ++ text with
    | [] => []
    | whole => [whole]
    end.
Proof.
  intros H. revert line. induction H as [| c rest [H1 H2] _ IH]; intros line.
  - cbn [header_lines]. rewrite app_nil_r.
    destruct line as [| x l]; [reflexivity |].
    destruct (rev (x :: l)) eqn:E; [| reflexivity].
    apply (f_equal (@length ascii)) in E. rewrite length_rev in E.
    discriminate.
  - cbn [header_lines]. rewrite H1, H2. cbn [orb].
    rewrite IH. cbn [rev]. rewrite <- app_assoc. reflexivity.
Qed.

Lemma collect_headers_app (a b : list (list ascii)) :
  collect_headers (a ++ b) = collect_headers a ++ collect_headers b.
Proof.
  induction a as [| line rest IH]; [reflexivity |].
  cbn [app collect_headers]. destruct (header_of_line line); rewrite IH;
    reflexivity.
Qed.

Lemma string_length_list (s : string) :
  String.length s = length (list_ascii_of_string s).
Proof. induction s as [| c s IH]; [reflexivity | cbn; rewrite IH; reflexivity]. Qed.

Lemma list_ascii_app (a b : string) :
  list_ascii_of_string (a ++ b)
  = list_ascii_of_string a ++ list_ascii_of_string b.
Proof. induction a as [| c a IH]; [reflexivity | cbn; rewrite IH; reflexivity]. Qed.

Lemma snprintf_fits (size : nat) (text : string) :
  Z.of_nat (String.length text) < Z.of_nat size -> snprintf size text = text.
Proof.
  intros H. unfold snprintf. rewrite firstn_all2.
  - apply string_of_list_ascii_of_string.
  - rewrite <- string_length_list. lia.
Qed.

Lemma string_length_app (a b : string) :
  String.length (a ++ b) = (String.length a + String.length b)%nat.
Proof.
  rewrite !string_length_list, list_ascii_app, length_app. reflexivity.
Qed.

(** The line of the payment header, parsed back. *)
Lemma payment_line (value : list ascii) :
  Forall (fun c => Ascii.eqb c CR = false /\ Ascii.eqb c LF = false
                   /\ Ascii.eqb c " "%char = false) value ->
  collect_headers
    (header_lines (list_ascii_of_string "X-PAYMENT: " ++ value) [])
  = [("X-PAYMENT"%string, string_of_list_ascii value)].
Proof.
  intros H.
  rewrite header_lines_single.
  - cbn [rev app list_ascii_of_string collect_headers].
    unfold header_of_line. cbn [span Ascii.eqb Bool.eqb negb andb].
    cbn [string_of_list_ascii].
    destruct value as [| c rest]; [reflexivity |].
    inversion H as [| ? ? (_ & _ & Hs) _]; subst.
    cbn [skip_spaces Ascii.eqb Bool.eqb andb]. rewrite Hs. reflexivity.
  - apply Forall_app. split.
    + repeat constructor.
    + eapply Forall_impl; [| exact H]. cbn beta. tauto.
Qed.

(** The headers of the paid retry.  For every payload that
    [x402_encode_payment_payload] encodes into the 8192-byte buffer and
    caller headers of at most 8000 characters, the header text
    [x402_fetch] builds for the retry is split by [http_request] into the
    caller's headers followed by one [X-PAYMENT] header whose value is the
    encoded payload, character for character. *)
Theorem retry_carries_payment_header (payload : x402_payment_payload_t)
  (headers : option string) (payment_encoded : string) :
  x402_encode_payment_payload payload 8192 = OK payment_encoded ->
  match headers with
  | Some blob => Z.of_nat (String.length blob) <= 8000
  | None => True
  end ->
  request_headers (Some (retry_headers_of headers payment_encoded))
  = request_headers headers ++ [(X402_HEADER_PAYMENT, payment_encoded)].
Proof.
  intros Henc Hfit.
  unfold x402_encode_payment_payload in Henc.
  pose proof (base64_encode_success _ _ _ Henc) as Htext.
  assert (Hlen : Z.of_nat (String.length payment_encoded) <= 8191).
  { unfold x402_base64_encode, mbedtls_base64_encode in Henc.
    set (data := bytes_of_string (x402_payload_to_json payload)) in *.
    pose proof (proj2 (encode_plain_bounded _ data (Nat.le_refl _))) as Hl.
    rewrite Htext, string_length_list, list_ascii_of_string_of_list_ascii.
    revert Henc Hl.
    generalize (4 * (Z.of_nat (length data) / 3
                     + (if Z.of_nat (length data) mod 3 =? 0 then 0 else 1))).
    intros n.
    destruct (Z.of_nat (length data) =? 0); cbn; [discriminate |].
    rewrite orb_true_r. cbn.
    destruct (Z.gtb_spec (n + 1) 8192); [discriminate |]. lia. }
  assert (Hplain : Forall (fun c => Ascii.eqb c CR = false
                                    /\ Ascii.eqb c LF = false
                                    /\ Ascii.eqb c " "%char = false)
                          (list_ascii_of_string payment_encoded)).
  { rewrite Htext, list_ascii_of_string_of_list_ascii.
    apply (encode_plain_bounded _ _ (Nat.le_refl _)). }
  assert (Hline : request_headers
                    (Some (X402_HEADER_PAYMENT ++ ": " ++ payment_encoded)%string)
                  = [(X402_HEADER_PAYMENT, payment_encoded)]).
  { unfold request_headers.
    change (X402_HEADER_PAYMENT ++ ": " ++ payment_encoded)%string
      with ("X-PAYMENT: " ++ payment_encoded)%string.
    rewrite list_ascii_app. rewrite payment_line by assumption.
    rewrite string_of_list_ascii_of_string. reflexivity. }
  assert (Hsize : Z.of_nat 16384 = 16384) by (vm_compute; reflexivity).
  unfold retry_headers_of.
  destruct headers as [[| c rest] |].
  - rewrite snprintf_fits; [exact Hline |].
    rewrite !string_length_app, Hsize.
    change (String.length X402_HEADER_PAYMENT) with 9%nat.
    change (String.length ": ") with 2%nat. lia.
  - rewrite snprintf_fits.
    + unfold request_headers at 1 2.
      rewrite list_ascii_app.
      change (list_ascii_of_string
                (CRLF ++ X402_HEADER_PAYMENT ++ ": " ++ payment_encoded))
        with (CR :: LF :: list_ascii_of_string
                             ("X-PAYMENT: " ++ payment_encoded)).
      rewrite header_lines_break, collect_headers_app.
      f_equal.
      cbn [header_lines]. change (Ascii.eqb LF CR || Ascii.eqb LF LF) with true.
      cbv iota.
      rewrite list_ascii_app. rewrite payment_line by assumption.
      rewrite string_of_list_ascii_of_string. reflexivity.
    + rewrite !string_length_app, Hsize.
      change (String.length X402_HEADER_PAYMENT) with 9%nat.
      change (String.length ": ") with 2%nat.
      change (String.length CRLF) with 2%nat. lia.
  - rewrite snprintf_fits; [exact Hline |].
    rewrite !string_length_app, Hsize.
    change (String.length X402_HEADER_PAYMENT) with 9%nat.
    change (String.length ": ") with 2%nat. lia.
Qed.

End RetryHeaderFacts.

(** ** The driver: the receipt header *)

Section ResponseHeaderFacts.
Context {ext : Externals} {net : Network}.

Import Libc Json Base64 Encoding Payment Client.

Lemma digit_table :
  forallb (fun d => negb (Ascii.eqb (ascii_of_N (Z.to_N (48 + d))) "X"%char))
          (map Z.of_nat (seq 0 10)) = true.
Proof. vm_compute. reflexivity. Qed.

Lemma digit_not_X (n : Z) :
  Ascii.eqb (ascii_of_N (Z.to_N (48 + n mod 10))) "X"%char = false.
Proof.
  pose proof (proj1 (forallb_forall _ _) digit_table (n mod 10)) as H.
  cbv beta in H. apply negb_true_iff, H.
  pose proof (Z.mod_pos_bound n 10 ltac:(lia)).
  rewrite <- (Z2Nat.id (n mod 10)) by lia. apply in_map, in_seq. lia.
Qed.

Lemma decimal_digits_no_X (fuel : nat) (n : Z) (acc : list ascii) :
  Forall (fun c => Ascii.eqb c "X"%char = false) acc ->
  Forall (fun c => Ascii.eqb c "X"%char = false) (decimal_digits fuel n acc).
Proof.
  revert n acc. induction fuel as [| fuel IH]; intros n acc H.
  - exact H.
  - cbn [decimal_digits].
    assert (H' : Forall (fun c => Ascii.eqb c "X"%char = false)
                   (ascii_of_N (Z.to_N (48 + n mod 10)) :: acc))
      by (constructor; [apply digit_not_X | assumption]).
    destruct (n / 10 =? 0); [assumption | apply IH; assumption].
Qed.

Lemma print_int_no_X (n : Z) :
  Forall (fun c => Ascii.eqb c "X"%char = false)
         (list_ascii_of_string (print_int n)).
Proof.
  unfold print_int. rewrite list_ascii_of_string_of_list_ascii.
  pose proof (decimal_digits_no_X
                (S (Z.to_nat (Z.log2 (Z.abs n)))) (Z.abs n) []
                (Forall_nil _)) as H.
  destruct (n <? 0); [constructor; [reflexivity | assumption] | assumption].
Qed.

(** [strstr] passes over text that lacks the first character of the
    needle. *)
Lemma strstr_skip (c : ascii) (needle before after : list ascii) :
  Forall (fun x => Ascii.eqb x c = false) before ->
  strstr (before ++ after) (c :: needle) = strstr after (c :: needle).
Proof.
  intros H. induction H as [| x rest Hx _ IH]; [reflexivity |].
  cbn [app]. cbn [strstr]. rewrite Ascii.eqb_sym, Hx. cbn [andb]. exact IH.
Qed.

Lemma strstr_absent (c : ascii) (needle text : list ascii) :
  Forall (fun x => Ascii.eqb x c = false) text ->
  strstr text (c :: needle) = None.
Proof.
  intros H. induction H as [| x rest Hx _ IH]; [reflexivity |].
  cbn [strstr]. rewrite Ascii.eqb_sym, Hx. cbn [andb]. exact IH.
Qed.

Lemma copy_value_line (value rest : list ascii) (room : nat) :
  Forall (fun c => Ascii.eqb c CR = false /\ Ascii.eqb c LF = false) value ->
  (length value <= room)%nat ->
  copy_value (value ++ CR :: rest) room = value.
Proof.
  intros H. revert room. induction H as [| c more [H1 H2] _ IH]; intros room L.
  - cbn [app]. destruct room; [reflexivity |]. cbn [copy_value].
    change (Ascii.eqb CR CR) with true. reflexivity.
  - cbn [length] in L. destruct room as [| room]; [lia |].
    cbn [app copy_value]. rewrite H1, H2. cbn [orb].
    rewrite IH by lia. reflexivity.
Qed.

Lemma Forall_prefix {A : Type} (P : A -> Prop) (n : nat) (l : list A) :
  Forall P l -> Forall P (firstn n l).
Proof.
  intros H. revert n. induction H as [| x rest Hx _ IH]; intros [| n];
    cbn [firstn]; constructor; auto.
Qed.

Lemma first_line_no_X (n : Z) :
  Forall (fun c => Ascii.eqb c "X"%char = false)
         (list_ascii_of_string ("Content-Length: " ++ print_int n ++ CRLF)).
Proof.
  rewrite !list_ascii_app. apply Forall_app. split; [repeat constructor |].
  apply Forall_app. split; [apply print_int_no_X | repeat constructor].
Qed.

(** The receipt header through [http_request] and
    [x402_extract_header].  A reply without an [X-PAYMENT-RESPONSE] header
    gives no settlement: the [Content-Length] line is never taken for one.
    A reply with one, whose value starts with a character other than
    blank, holds no line break and fits the 1024-byte header text, gives
    back that value unchanged, and the settlement reported is the decoding
    of exactly that value. *)
Theorem settlement_header_round_trip (reply : http_reply) :
  (hr_payment_response reply = None ->
   settlement_of (Some (response_headers reply)) = (false, settlement_zero))
  /\ forall c value,
       hr_payment_response reply = Some (String c value) ->
       Ascii.eqb c " "%char = false ->
       Ascii.eqb c (ascii_of_N 9) = false ->
       Forall (fun x => Ascii.eqb x CR = false /\ Ascii.eqb x LF = false)
              (c :: list_ascii_of_string value) ->
       Z.of_nat (String.length (print_int (hr_content_length reply)))
         + Z.of_nat (String.length (String c value)) <= 983 ->
       x402_extract_header (response_headers reply)
         X402_HEADER_PAYMENT_RESPONSE 4096
       = Some (String c value)
       /\ settlement_of (Some (response_headers reply))
          = match x402_decode_settlement_response (String c value) with
            | OK settlement => (true, settlement)
            | Err _ => (false, settlement_zero)
            end.
Proof.
  assert (Hsearch : snprintf 128 (X402_HEADER_PAYMENT_RESPONSE ++ ":")
                    = "X-PAYMENT-RESPONSE:"%string)
    by (vm_compute; reflexivity).
  split.
  - intros Hnone. unfold settlement_of, x402_extract_header, response_headers.
    rewrite Hnone, Hsearch.
    change (list_ascii_of_string "X-PAYMENT-RESPONSE:")
      with ("X"%char :: list_ascii_of_string "-PAYMENT-RESPONSE:").
    rewrite strstr_absent; [reflexivity |].
    unfold snprintf. rewrite list_ascii_of_string_of_list_ascii.
    apply Forall_prefix.
    rewrite list_ascii_app. apply Forall_app.
    split; [apply first_line_no_X | constructor].
  - intros c value Hsome Hsp Htab Hplain Hfit.
    assert (Hextract :
              x402_extract_header (response_headers reply)
                X402_HEADER_PAYMENT_RESPONSE 4096
              = Some (String c value)).
    { unfold x402_extract_header, response_headers.
      rewrite Hsome, Hsearch.
      assert (Hsize : Z.of_nat 1024 = 1024) by reflexivity.
      rewrite snprintf_fits.
      - rewrite list_ascii_app.
        change (list_ascii_of_string "X-PAYMENT-RESPONSE:")
          with ("X"%char :: list_ascii_of_string "-PAYMENT-RESPONSE:").
        rewrite strstr_skip by apply first_line_no_X.
        change (list_ascii_of_string
                  (X402_HEADER_PAYMENT_RESPONSE ++ ": " ++ String c value
                     ++ CRLF))
          with (list_ascii_of_string "X-PAYMENT-RESPONSE: "
                  ++ c :: list_ascii_of_string (value ++ CRLF)).
        cbn [list_ascii_of_string app strstr Ascii.eqb Bool.eqb andb
             String.length skipn skip_blanks].
        rewrite Hsp, Htab. cbn [orb].
        rewrite list_ascii_app.
        change (list_ascii_of_string CRLF) with [CR; LF].
        change (c :: list_ascii_of_string value ++ [CR; LF])
          with ((c :: list_ascii_of_string value) ++ CR :: [LF]).
        rewrite copy_value_line.
        + cbn [string_of_list_ascii].
          rewrite string_of_list_ascii_of_string. reflexivity.
        + assumption.
        + cbn [length String.length] in *.
          rewrite <- string_length_list.
          assert (E : (4096 - 1)%nat = Z.to_nat 4095)
            by (vm_compute; reflexivity).
          rewrite E. lia.
      - rewrite !string_length_app, Hsize.
        change (String.length "Content-Length: ") with 16%nat.
        change (String.length X402_HEADER_PAYMENT_RESPONSE) with 18%nat.
        change (String.length ": ") with 2%nat.
        change (String.length CRLF) with 2%nat. lia. }
    split; [exact Hextract |].
    unfold settlement_of. rewrite Hextract. reflexivity.
Qed.

End ResponseHeaderFacts.

(** ** Base58: the number a text denotes *)

Section Base58Soundness.

Import Base58 Spec.

Lemma decode_table_range_table :
  forallb (fun d => (-1 <=? d) && (d <=? 57)) BASE58_DECODE_TABLE = true.
Proof. vm_compute. reflexivity. Qed.

Lemma decode_table_range (c : ascii) : -1 <= decode_table_at c <= 57.
Proof.
  unfold decode_table_at.
  destruct (Nat.lt_ge_cases (Z.to_nat (char_code c))
              (length BASE58_DECODE_TABLE)) as [L | L].
  - pose proof (proj1 (forallb_forall _ _) decode_table_range_table _
                  (nth_In _ (-1) L)) as H.
    cbv beta in H. apply andb_true_iff in H. lia.
  - rewrite nth_overflow by assumption. lia.
Qed.

Lemma decode_table_inverse_table :
  forallb (fun n => let c := ascii_of_N (N.of_nat n) in
                    (decode_table_at c <? 0)
                    || Ascii.eqb (alphabet_at (decode_table_at c)) c)
          (seq 0 256) = true.
Proof. vm_compute. reflexivity. Qed.

(** A character the table accepts is the alphabet's character for its
    digit. *)
Lemma decode_table_inverse (c : ascii) :
  0 <= decode_table_at c -> alphabet_at (decode_table_at c) = c.
Proof.
  intros H.
  pose proof (proj1 (forallb_forall _ _) decode_table_inverse_table
                (N.to_nat (N_of_ascii c))) as T.
  cbv beta zeta in T.
  rewrite Nnat.N2Nat.id, ascii_N_embedding in T.
  assert (Hin : In (N.to_nat (N_of_ascii c)) (seq 0 256)).
  { apply in_seq. pose proof (N_ascii_bounded c). lia. }
  specialize (T Hin). apply orb_true_iff in T.
  destruct T as [T | T]; [apply Z.ltb_lt in T; lia |].
  apply Ascii.eqb_eq. assumption.
Qed.

Lemma alphabet_at_in (d : Z) :
  0 <= d < 58 -> In (alphabet_at d) (list_ascii_of_string BASE58_ALPHABET).
Proof.
  intros H. unfold alphabet_at. apply nth_In.
  change (length (list_ascii_of_string BASE58_ALPHABET)) with 58%nat. lia.
Qed.

Lemma accepted_in_alphabet (c : ascii) :
  0 <= decode_table_at c -> In c (list_ascii_of_string BASE58_ALPHABET).
Proof.
  intros H. rewrite <- (decode_table_inverse c H).
  apply alphabet_at_in. pose proof (decode_table_range c). lia.
Qed.

Lemma decode_extend_sound (room : nat) (carry : Z) (more : list Z) :
  0 <= carry ->
  decode_extend room carry = Some more ->
  in_base 256 more /\ le_value 256 more = carry.
Proof.
  revert carry more. induction room as [| room IH]; intros carry more Hc H.
  - cbn [decode_extend] in H.
    destruct (Z.gtb_spec carry 0); [discriminate |].
    injection H as <-. split; [constructor | cbn; lia].
  - cbn [decode_extend] in H.
    destruct (Z.gtb_spec carry 0) as [Hpos | Hzero].
    + destruct (decode_extend room (Z.shiftr carry 8)) as [tail |] eqn:E;
        [| discriminate].
      injection H as <-.
      rewrite Z.shiftr_div_pow2 in E by lia. change (2 ^ 8) with 256 in E.
      destruct (IH (carry / 256) tail ltac:(apply Z.div_pos; lia) E)
        as [Hb Hv].
      change 255 with (Z.ones 8). rewrite Z.land_ones by lia.
      change (2 ^ 8) with 256.
      assert (Hu : u8 (carry mod 256) = carry mod 256)
        by (unfold u8; apply Z.mod_small; apply Z.mod_pos_bound; lia).
      rewrite Hu. split.
      * constructor; [apply Z.mod_pos_bound; lia | assumption].
      * cbn [le_value]. rewrite Hv. Z.div_mod_to_equations; lia.
    + injection H as <-. split; [constructor | cbn; lia].
Qed.

Lemma decode_char_sound (buffer_size : nat) (bytes bytes' : list Z)
  (c : ascii) :
  in_base 256 bytes ->
  decode_char buffer_size bytes c = Some bytes' ->
  0 <= decode_table_at c
  /\ in_base 256 bytes'
  /\ le_value 256 bytes' = le_value 256 bytes * 58 + decode_table_at c.
Proof.
  intros Hbase H. unfold decode_char in H.
  pose proof (decode_table_range c) as Hr.
  destruct (Z.ltb_spec (decode_table_at c) 0) as [_ | Hd]; [discriminate |].
  assert (Hu : u32 (decode_table_at c) = decode_table_at c)
    by (unfold u32; apply Z.mod_small; lia).
  rewrite Hu in H.
  pose proof (decode_carry_pass_spec bytes (decode_table_at c) Hbase
                ltac:(lia)) as P.
  destruct (decode_carry_pass bytes (decode_table_at c)) as [passed carry].
  destruct P as (Hlen & Hpassed & Hval & Hcarry).
  destruct (decode_extend _ carry) as [more |] eqn:E; [| discriminate].
  injection H as <-.
  destruct (decode_extend_sound _ carry more ltac:(lia) E) as [Hmore Hmv].
  split; [assumption |]. split; [apply in_base_app; assumption |].
  rewrite le_value_app, Hmv, Hlen. lia.
Qed.

Lemma decode_bytes_sound (buffer_size : nat) (chars : list ascii)
  (bytes bytes' : list Z) :
  in_base 256 bytes ->
  decode_bytes buffer_size bytes chars = Some bytes' ->
  Forall (fun c => 0 <= decode_table_at c) chars
  /\ in_base 256 bytes'
  /\ le_value 256 bytes'
     = be_from 58 (le_value 256 bytes) (map decode_table_at chars).
Proof.
  revert bytes. induction chars as [| c rest IH]; intros bytes Hbase H.
  - injection H as <-. repeat split; [constructor | assumption].
  - cbn [decode_bytes] in H.
    destruct (decode_char buffer_size bytes c) as [next |] eqn:E;
      [| discriminate].
    destruct (decode_char_sound _ _ _ _ Hbase E) as (Hc & Hnext & Hv).
    destruct (IH _ Hnext H) as (Hrest & Hout & Hval).
    split; [constructor; assumption |]. split; [assumption |].
    rewrite Hval, Hv. reflexivity.
Qed.

(** What a successful [base58_decode] guarantees, for every text and
    buffer size: every character is of the Base58 alphabet (a text with
    any other character is refused), the output fits [max_output_len] and
    holds bytes, and the output read as a big-endian number in base 256
    is the text read as a big-endian number in base 58. *)
Theorem decode_gives_the_same_number (text : string) (max_output_len : Z)
  (output : list Z) :
  base58_decode text max_output_len = Some output ->
  Forall (fun c => In c (list_ascii_of_string BASE58_ALPHABET))
         (list_ascii_of_string text)
  /\ Z.of_nat (length output) <= max_output_len
  /\ Forall is_byte output
  /\ be_from 256 0 output
     = be_from 58 0 (map decode_table_at (list_ascii_of_string text)).
Proof.
  unfold base58_decode. intros H.
  destruct (Nat.eqb (length (list_ascii_of_string text)) 0); [discriminate |].
  destruct (decode_bytes _ [0] (list_ascii_of_string text)) as [bytes |] eqn:E;
    [| discriminate].
  assert (Hzero : in_base 256 [0]) by (repeat constructor; lia).
  destruct (decode_bytes_sound _ _ _ _ Hzero E) as (Hchars & Hbytes & Hval).
  destruct (Z.gtb_spec
              (Z.of_nat (count_leading_ones (list_ascii_of_string text))
               + Z.of_nat (length bytes)) max_output_len) as [_ | Hfit];
    [discriminate |].
  injection H as <-.
  split; [| split; [| split]].
  - eapply Forall_impl; [| exact Hchars]. apply accepted_in_alphabet.
  - rewrite length_app, repeat_length, length_rev. lia.
  - apply Forall_app. split.
    + apply (in_base_repeat_zero 256). lia.
    + apply (in_base_rev 256). assumption.
  - rewrite be_from_zeros, be_from_rev, rev_involutive, Hval.
    change (le_value 256 [0]) with 0. lia.
Qed.

Lemma encode_extend_sound (room : nat) (carry : Z) (more : list Z) :
  0 <= carry ->
  encode_extend room carry = Some more ->
  in_base 58 more /\ le_value 58 more = carry.
Proof.
  revert carry more. induction room as [| room IH]; intros carry more Hc H.
  - cbn [encode_extend] in H.
    destruct (Z.gtb_spec carry 0); [discriminate |].
    injection H as <-. split; [constructor | cbn; lia].
  - cbn [encode_extend] in H.
    destruct (Z.gtb_spec carry 0) as [Hpos | Hzero].
    + destruct (encode_extend room (carry / 58)) as [tail |] eqn:E;
        [| discriminate].
      injection H as <-.
      destruct (IH (carry / 58) tail ltac:(apply Z.div_pos; lia) E)
        as [Hb Hv].
      assert (Hu : u8 (carry mod 58) = carry mod 58).
      { unfold u8. apply Z.mod_small.
        pose proof (Z.mod_pos_bound carry 58 ltac:(lia)). lia. }
      rewrite Hu. split.
      * constructor; [apply Z.mod_pos_bound; lia | assumption].
      * cbn [le_value]. rewrite Hv. Z.div_mod_to_equations; lia.
    + injection H as <-. split; [constructor | cbn; lia].
Qed.

Lemma encode_byte_sound (buffer_size : nat) (digits digits' : list Z) (b : Z) :
  in_base 58 digits -> 0 <= b <= 255 ->
  encode_byte buffer_size digits b = Some digits' ->
  in_base 58 digits'
  /\ le_value 58 digits' = le_value 58 digits * 256 + b.
Proof.
  intros Hbase Hb H. unfold encode_byte in H.
  assert (Hu : u32 b = b) by (unfold u32; apply Z.mod_small; lia).
  rewrite Hu in H.
  pose proof (encode_carry_pass_spec digits b Hbase Hb) as P.
  destruct (encode_carry_pass digits b) as [passed carry].
  destruct P as (Hlen & Hpassed & Hval & Hcarry).
  destruct (encode_extend _ carry) as [more |] eqn:E; [| discriminate].
  injection H as <-.
  destruct (encode_extend_sound _ carry more ltac:(lia) E) as [Hmore Hmv].
  split; [apply in_base_app; assumption |].
  rewrite le_value_app, Hmv, Hlen. lia.
Qed.

Lemma encode_digits_sound (buffer_size : nat) (input digits digits' : list Z) :
  in_base 58 digits -> in_base 256 input ->
  encode_digits buffer_size digits input = Some digits' ->
  in_base 58 digits'
  /\ le_value 58 digits' = be_from 256 (le_value 58 digits) input.
Proof.
  intros Hbase Hinput. revert digits Hbase.
  induction Hinput as [| b rest Hb _ IH]; intros digits Hbase H.
  - injection H as <-. split; [assumption | reflexivity].
  - cbn [encode_digits] in H.
    destruct (encode_byte buffer_size digits b) as [next |] eqn:E;
      [| discriminate].
    destruct (encode_byte_sound _ digits next b Hbase ltac:(unfold is_byte in Hb; lia) E)
      as (Hnext & Hv).
    destruct (IH _ Hnext H) as (Hout & Hval).
    split; [assumption |]. rewrite Hval, Hv. reflexivity.
Qed.

Lemma decode_table_of_alphabet (digits : list Z) :
  in_base 58 digits -> map decode_table_at (map alphabet_at digits) = digits.
Proof.
  intros H. induction H as [| d rest Hd _ IH]; [reflexivity |].
  cbn [map]. rewrite IH. f_equal. apply alphabet_round_trip. assumption.
Qed.

Lemma decode_table_of_ones (n : nat) :
  map decode_table_at (repeat "1"%char n) = repeat 0 n.
Proof.
  induction n as [| n IH]; [reflexivity |].
  cbn [repeat map]. rewrite IH. reflexivity.
Qed.

(** What a successful [base58_encode] guarantees, for every input of
    bytes and buffer size: every character of the text is of the Base58
    alphabet, the text and its terminating NUL fit [output_size], and the
    text read as a big-endian number in base 58 is the input read as a
    big-endian number in base 256. *)
Theorem encode_gives_the_same_number (input : list Z) (output_size : Z)
  (text : string) :
  Forall is_byte input ->
  base58_encode input output_size = Some text ->
  Forall (fun c => In c (list_ascii_of_string BASE58_ALPHABET))
         (list_ascii_of_string text)
  /\ Z.of_nat (String.length text) + 1 <= output_size
  /\ be_from 58 0 (map decode_table_at (list_ascii_of_string text))
     = be_from 256 0 input.
Proof.
  intros Hbytes H. unfold base58_encode in H.
  destruct ((Z.of_nat (length input) =? 0) || (output_size =? 0));
    [discriminate |].
  destruct (encode_digits _ [0] input) as [digits |] eqn:E; [| discriminate].
  assert (Hzero : in_base 58 [0]) by (repeat constructor; lia).
  destruct (encode_digits_sound _ _ _ _ Hzero Hbytes E) as (Hdigits & Hval).
  destruct (Z.gtb_spec
              (Z.of_nat (count_leading_zeros input)
               + Z.of_nat (length digits) + 1) output_size) as [_ | Hfit];
    [discriminate |].
  injection H as <-.
  rewrite list_ascii_of_string_of_list_ascii, string_of_list_ascii_length.
  split; [| split].
  - apply Forall_app. split.
    + apply Forall_forall. intros c Hc. apply repeat_spec in Hc. subst c.
      cbn. tauto.
    + apply Forall_forall. intros c Hc. apply in_map_iff in Hc.
      destruct Hc as (d & <- & Hd). apply alphabet_at_in.
      apply in_rev in Hd.
      exact (proj1 (Forall_forall _ _) Hdigits d Hd).
  - rewrite length_app, repeat_length, length_map, length_rev. lia.
  - rewrite map_app.
    rewrite decode_table_of_ones, be_from_zeros, decode_table_of_alphabet
      by (apply in_base_rev; assumption).
    rewrite be_from_rev, rev_involutive, Hval.
    change (le_value 58 [0]) with 0. lia.
Qed.

End Base58Soundness.

(** ** Base64: the buffer *)

Section Base64BufferFacts.

Import Libc Json Base64 Encoding Payment.

(** [x402_base64_encode] by cases, for every input of bytes, [n] its
    length.  Empty data is an error, [ESP_FAIL].  Otherwise the call
    succeeds exactly when the buffer holds [4 * ceil (n / 3) + 1] bytes
    and fails with [ESP_ERR_NO_MEM] when it does not; on success the text
    has [4 * ceil (n / 3)] characters and Base64-decodes to the data. *)
Theorem base64_encode_needs_room (data : list Z) (max_len : Z) :
  Forall is_byte data ->
  let needed := 4 * ((Z.of_nat (length data) + 2) / 3) + 1 in
  match x402_base64_encode data max_len with
  | OK text =>
      data <> [] /\ needed <= max_len
      /\ Z.of_nat (String.length text) = needed - 1
      /\ decode (list_ascii_of_string text) = Some data
  | Err e =>
      (data = [] /\ e = ESP_FAIL)
      \/ (data <> [] /\ max_len < needed /\ e = ESP_ERR_NO_MEM)
  end.
Proof.
  intros Hbytes needed.
  pose proof (proj2 (encode_plain_bounded _ data (Nat.le_refl _))) as Hl.
  pose proof (base64_round_trip data Hbytes) as Hrt.
  unfold x402_base64_encode, mbedtls_base64_encode.
  assert (Hn : 4 * (Z.of_nat (length data) / 3
                    + (if Z.of_nat (length data) mod 3 =? 0 then 0 else 1)) + 1
               = needed).
  { subst needed.
    destruct (Z.eqb_spec (Z.of_nat (length data) mod 3) 0);
      Z.div_mod_to_equations; lia. }
  revert Hl Hn.
  generalize (4 * (Z.of_nat (length data) / 3
                   + (if Z.of_nat (length data) mod 3 =? 0 then 0 else 1))).
  intros n Hl Hn.
  destruct (Z.eqb_spec (Z.of_nat (length data)) 0) as [Hz | Hnz].
  - cbn. left. split; [| reflexivity].
    destruct data; [reflexivity | cbn [length] in Hz; lia].
  - assert (Hne : data <> []) by (intros ->; apply Hnz; reflexivity).
    cbn. rewrite orb_true_r. cbn.
    destruct (Z.gtb_spec (n + 1) max_len) as [Hbig | Hfit].
    + right. repeat split; [assumption | lia].
    + destruct (Z.ltb_spec max_len (n + 1)) as [C | _]; [lia |].
      cbn.
      rewrite string_of_list_ascii_length, list_ascii_of_string_of_list_ascii.
      repeat split; try assumption; lia.
Qed.

End Base64BufferFacts.

(** ** Base58: the texts the decoder accepts *)

Section Base58Completeness.

Import Base58 Spec.

Lemma alphabet_accepted (c : ascii) :
  In c (list_ascii_of_string BASE58_ALPHABET) -> 0 <= decode_table_at c <= 57.
Proof.
  intros H. apply (In_nth _ _ "000"%char) in H.
  destruct H as (n & Hn & <-).
  change (length (list_ascii_of_string BASE58_ALPHABET)) with 58%nat in Hn.
  destruct (alphabet_round_trip (Z.of_nat n) ltac:(lia)) as [E _].
  unfold alphabet_at in E. rewrite Nat2Z.id in E. rewrite E. lia.
Qed.

Lemma leading_ones_are_leading_zeros (digits : list Z) :
  in_base 58 digits ->
  count_leading_ones (map alphabet_at digits) = count_leading_zeros digits.
Proof.
  intros H. induction H as [| d rest Hd _ IH]; [reflexivity |].
  cbn [map count_leading_ones count_leading_zeros].
  destruct (alphabet_round_trip d Hd) as [_ ->].
  destruct (d =? 0); [rewrite IH |]; reflexivity.
Qed.

Lemma be_from_bound (base : Z) (digits : list Z) :
  1 < base -> in_base base digits ->
  0 <= be_from base 0 digits < base ^ Z.of_nat (length digits).
Proof.
  intros Hb H. rewrite be_from_rev.
  pose proof (le_value_bounds base (rev digits) ltac:(lia)
                (in_base_rev base digits H)) as B.
  rewrite length_rev in B. lia.
Qed.

(** The decoder accepts every text over the alphabet.  For a non-empty
    text whose characters are all of the Base58 alphabet, [base58_decode]
    succeeds into every buffer of one byte more than the text has
    characters, and writes at most that many bytes: the scratch buffer of
    [input_len] bytes is never too small. *)
Theorem decode_accepts_alphabet_text (text : string) (max_output_len : Z) :
  text <> EmptyString ->
  Forall (fun c => In c (list_ascii_of_string BASE58_ALPHABET))
         (list_ascii_of_string text) ->
  Z.of_nat (String.length text) + 1 <= max_output_len ->
  exists output,
    base58_decode text max_output_len = Some output
    /\ (length output <= String.length text + 1)%nat.
Proof.
  intros Hne Halpha Hroom.
  set (chars := list_ascii_of_string text) in *.
  set (digits := map decode_table_at chars).
  assert (Hm : String.length text = length chars).
  { subst chars. clear. induction text as [| c s IH]; [reflexivity |].
    cbn. rewrite IH. reflexivity. }
  assert (Hpos : (1 <= length chars)%nat).
  { subst chars. destruct text; [contradiction | cbn; lia]. }
  assert (Hdigits : in_base 58 digits).
  { subst digits. apply Forall_forall. intros d Hd.
    apply in_map_iff in Hd. destruct Hd as (c & <- & Hc).
    pose proof (alphabet_accepted c (proj1 (Forall_forall _ _) Halpha c Hc)).
    lia. }
  assert (Hchars : chars = map alphabet_at digits).
  { subst digits. rewrite map_map. clear - Halpha.
    induction Halpha as [| c rest Hc _ IH]; [reflexivity |].
    cbn [map]. rewrite <- IH. f_equal. symmetry.
    apply decode_table_inverse. apply alphabet_accepted in Hc. lia. }
  assert (Hlen : length digits = length chars)
    by (subst digits; apply length_map).
  unfold base58_decode. fold chars.
  destruct (Nat.eqb_spec (length chars) 0) as [C | _]; [lia |].
  pose proof (be_from_bound 58 digits ltac:(lia) Hdigits) as Hv.
  assert (Hzero : in_base 256 [0]) by (repeat constructor; lia).
  assert (Hnormal : normal 256 [0]) by (left; reflexivity).
  assert (Hfit : be_from 58 (le_value 256 [0]) digits
                 < 256 ^ Z.of_nat (length chars)).
  { change (le_value 256 [0]) with 0. rewrite <- Hlen.
    assert (58 ^ Z.of_nat (length digits) <= 256 ^ Z.of_nat (length digits))
      by (apply Z.pow_le_mono_l; lia).
    lia. }
  destruct (decode_bytes_spec (length chars) digits [0] Hdigits Hzero Hnormal
              Hfit) as (bytes & Hrun & Hbytes & Hnb & Hval).
  rewrite <- Hchars in Hrun. rewrite Hrun.
  change (le_value 256 [0]) with 0 in Hval.
  assert (Hz : count_leading_ones chars = count_leading_zeros digits).
  { rewrite Hchars. apply leading_ones_are_leading_zeros. assumption. }
  destruct (leading_zeros_split digits) as (suffix & Hsplit & _).
  assert (Hsuffix : in_base 58 suffix).
  { rewrite Hsplit in Hdigits. apply Forall_app in Hdigits. tauto. }
  assert (Hcount : length chars
                   = (count_leading_zeros digits + length suffix)%nat).
  { rewrite <- Hlen. rewrite Hsplit at 1.
    rewrite length_app, repeat_length. reflexivity. }
  assert (Hbl : (length bytes <= Nat.max 1 (length suffix))%nat).
  { rewrite Hsplit, be_from_zeros in Hval.
    pose proof (be_from_bound 58 suffix ltac:(lia) Hsuffix) as Hs.
    destruct (length suffix) as [| k] eqn:Ek.
    - change (58 ^ Z.of_nat 0) with 1 in Hs.
      destruct Hnb as [-> | Hn]; [cbn; lia |].
      assert (0 < 256 ^ Z.of_nat (length bytes - 1))
        by (apply Z.pow_pos_nonneg; lia).
      lia.
    - assert (Hle : (length bytes <= S k)%nat).
      { apply (normal_length_le 256); try assumption; try lia.
        assert (58 ^ Z.of_nat (S k) <= 256 ^ Z.of_nat (S k))
          by (apply Z.pow_le_mono_l; lia).
        lia. }
      lia. }
  destruct (Z.gtb_spec (Z.of_nat (count_leading_ones chars)
                        + Z.of_nat (length bytes)) max_output_len)
    as [C | _]; [lia |].
  eexists. split; [reflexivity |].
  rewrite length_app, repeat_length, length_rev. lia.
Qed.

End Base58Completeness.

(** ** Base58: the sizing rule of the encoder *)

Section Base58EncoderRoom.

Import Base58 Spec.

Lemma sizing_period : 256 ^ 100 <= 58 ^ 138.
Proof. vm_compute. intros C. discriminate C. Qed.

Lemma sizing_table :
  forallb (fun r => 256 ^ r <=? 58 ^ (138 * r / 100 + 1))
          (map Z.of_nat (seq 0 100)) = true.
Proof. vm_compute. reflexivity. Qed.

(** The sizing rule of the encoder: [k] bytes never need more than
    [138 k / 100 + 1] digits. *)
Lemma sizing_rule (k : Z) : 0 <= k -> 256 ^ k <= 58 ^ (k * 138 / 100 + 1).
Proof.
  intros Hk.
  pose proof (Z.div_mod k 100 ltac:(lia)) as Hdm.
  pose proof (Z.mod_pos_bound k 100 ltac:(lia)) as Hr.
  assert (Hq : 0 <= k / 100) by (apply Z.div_pos; lia).
  set (q := k / 100) in *. set (r := k mod 100) in *.
  assert (Hexp : k * 138 / 100 + 1 = 138 * q + (138 * r / 100 + 1)).
  { rewrite Hdm. replace ((100 * q + r) * 138) with (138 * r + 138 * q * 100)
      by lia.
    rewrite Z.div_add by lia. lia. }
  assert (Hd : 0 <= 138 * r / 100) by (apply Z.div_pos; lia).
  rewrite Hexp. rewrite Hdm at 1.
  rewrite (Z.pow_add_r 256 (100 * q) r),
    (Z.pow_add_r 58 (138 * q) (138 * r / 100 + 1)) by lia.
  assert (Ht : 256 ^ r <= 58 ^ (138 * r / 100 + 1)).
  { pose proof (proj1 (forallb_forall _ _) sizing_table r) as T.
    cbv beta in T. apply Z.leb_le, T.
    rewrite <- (Z2Nat.id r) by lia. apply in_map, in_seq. lia. }
  assert (Hp : 256 ^ (100 * q) <= 58 ^ (138 * q)).
  { rewrite !Z.pow_mul_r by lia.
    apply Z.pow_le_mono_l. split; [apply Z.pow_nonneg; lia |].
    exact sizing_period. }
  assert (0 <= 256 ^ (100 * q)) by (apply Z.pow_nonneg; lia).
  assert (0 <= 256 ^ r) by (apply Z.pow_nonneg; lia).
  apply Z.mul_le_mono_nonneg; assumption.
Qed.

Lemma be_from_prefix_bound (acc : Z) (input : list Z) :
  0 <= acc -> in_base 256 input ->
  be_from 256 acc input < (acc + 1) * 256 ^ Z.of_nat (length input).
Proof.
  intros Ha H. revert acc Ha.
  induction H as [| b rest Hb _ IH]; intros acc Ha.
  - cbn [be_from fold_left length]. change (256 ^ Z.of_nat 0) with 1. lia.
  - cbn [be_from fold_left]. fold (be_from 256 (acc * 256 + b) rest).
    specialize (IH (acc * 256 + b) ltac:(lia)).
    cbn [length]. rewrite Nat2Z.inj_succ, Z.pow_succ_r by lia.
    assert (0 < 256 ^ Z.of_nat (length rest))
      by (apply Z.pow_pos_nonneg; lia).
    nia.
Qed.

(** The encoder's loop succeeds when the value before each byte has room
    for two more digits. *)
Lemma encode_digits_room (buffer_size : nat) (input digits : list Z) :
  in_base 58 digits -> normal 58 digits -> in_base 256 input ->
  (3 <= buffer_size)%nat ->
  (forall i, (i < length input)%nat ->
     be_from 256 (le_value 58 digits) (firstn i input)
     < 58 ^ Z.of_nat (buffer_size - 2)) ->
  exists digits',
    encode_digits buffer_size digits input = Some digits'
    /\ in_base 58 digits'
    /\ normal 58 digits'
    /\ le_value 58 digits' = be_from 256 (le_value 58 digits) input.
Proof.
  intros Hbase Hnormal Hinput Hsize. revert digits Hbase Hnormal.
  induction Hinput as [| b rest Hb Hrest IH]; intros digits Hbase Hnormal Hfit.
  - exists digits. repeat split; assumption.
  - cbn [encode_digits].
    assert (Hroom : (length digits + 2 <= buffer_size)%nat).
    { pose proof (Hfit 0%nat ltac:(cbn; lia)) as H0.
      cbn [firstn be_from fold_left] in H0.
      pose proof (normal_length_le 58 digits (buffer_size - 2) ltac:(lia)
                    Hnormal ltac:(lia) H0).
      lia. }
    destruct (encode_byte_spec buffer_size digits b Hbase Hnormal
                ltac:(lia) Hroom) as (next & -> & Hnb & Hnn & Hv).
    destruct (IH next Hnb Hnn) as (digits' & Hrun & Hb' & Hn' & Hval).
    { intros i Hi. rewrite Hv.
      exact (Hfit (S i) ltac:(cbn [length]; lia)). }
    exists digits'. repeat split; try assumption.
    rewrite Hval, Hv. reflexivity.
Qed.

Lemma firstn_in_base (base : Z) (n : nat) (digits : list Z) :
  in_base base digits -> in_base base (firstn n digits).
Proof.
  intros H. unfold in_base. apply Forall_prefix. exact H.
Qed.

(** Below the length at which [input_len * 138] wraps around in
    [size_t], the sizing rule is the plain formula. *)
Lemma encode_size_without_wrap (input_len : Z) :
  0 <= input_len -> input_len * 138 < 2 ^ 32 ->
  base58_encode_size input_len = input_len * 138 / 100 + 2.
Proof.
  intros H0 H. unfold base58_encode_size, size_t.
  rewrite (Z.mod_small (input_len * 138)) by lia.
  apply Z.mod_small.
  Z.div_mod_to_equations. lia.
Qed.

(** [base58_encode_size] is enough as long as it does not wrap.  For
    every non-empty input of bytes whose length times 138 is below
    [2 ^ 32] (fewer than 31123030 bytes), [base58_encode] succeeds into
    every buffer of [base58_encode_size (input_len)] characters or more,
    and the text with its terminator fits in
    [base58_encode_size (input_len)]. *)
Theorem encode_size_is_enough (input : list Z) (output_size : Z) :
  input <> [] ->
  Forall is_byte input ->
  Z.of_nat (length input) * 138 < 2 ^ 32 ->
  base58_encode_size (Z.of_nat (length input)) <= output_size ->
  exists text,
    base58_encode input output_size = Some text
    /\ Z.of_nat (String.length text) + 1
       <= base58_encode_size (Z.of_nat (length input)).
Proof.
  intros Hne Hbytes Hwrap Hout.
  assert (Hn : (1 <= length input)%nat)
    by (destruct input; [contradiction | cbn; lia]).
  unfold base58_encode.
  rewrite (encode_size_without_wrap (Z.of_nat (length input)))
    in * by lia.
  set (n := Z.of_nat (length input)) in *.
  assert (Hn0 : 1 <= n) by (subst n; lia).
  assert (Hdiv : 1 <= n * 138 / 100) by (Z.div_mod_to_equations; lia).
  destruct (Z.eqb_spec n 0) as [C | _]; [lia |].
  destruct (Z.eqb_spec output_size 0) as [C | _]; [lia |].
  cbn [orb].
  assert (Hzero : in_base 58 [0]) by (repeat constructor; lia).
  assert (Hnormal : normal 58 [0]) by (left; reflexivity).
  destruct (encode_digits_room (Z.to_nat (n * 138 / 100 + 2)) input [0]
              Hzero Hnormal Hbytes ltac:(lia)) as (digits & -> & Hd & Hnd & Hval).
  { intros i Hi. change (le_value 58 [0]) with 0.
    pose proof (be_from_prefix_bound 0 (firstn i input) ltac:(lia)
                  (firstn_in_base 256 i input Hbytes)) as B.
    rewrite length_firstn, Nat.min_l in B by lia.
    assert (H1 : 256 ^ Z.of_nat i <= 256 ^ (n - 1))
      by (apply Z.pow_le_mono_r; subst n; lia).
    pose proof (sizing_rule (n - 1) ltac:(lia)) as Hrule.
    assert (H2 : 58 ^ ((n - 1) * 138 / 100 + 1)
                 <= 58 ^ Z.of_nat (Z.to_nat (n * 138 / 100 + 2) - 2)).
    { apply Z.pow_le_mono_r; [lia |].
      rewrite Nat2Z.inj_sub, Z2Nat.id by lia.
      change (Z.of_nat 2) with 2.
      Z.div_mod_to_equations. lia. }
    lia. }
  change (le_value 58 [0]) with 0 in Hval.
  destruct (leading_zeros_split input) as (suffix & Hsplit & _).
  set (z := count_leading_zeros input) in *.
  assert (Hsuffix : in_base 256 suffix).
  { rewrite Hsplit in Hbytes. apply Forall_app in Hbytes. tauto. }
  assert (Hcount : n = Z.of_nat z + Z.of_nat (length suffix)).
  { subst n. rewrite Hsplit at 1. rewrite length_app, repeat_length. lia. }
  assert (Hlen : Z.of_nat z + Z.of_nat (length digits) + 1
                 <= n * 138 / 100 + 2).
  { rewrite Hsplit, be_from_zeros in Hval.
    pose proof (be_from_prefix_bound 0 suffix ltac:(lia) Hsuffix) as B.
    destruct (length suffix) as [| k] eqn:Ek.
    - change (256 ^ Z.of_nat 0) with 1 in B.
      assert (Hone : length digits = 1%nat).
      { destruct Hnd as [E | Hlow]; [exact E |].
        assert (0 < 58 ^ Z.of_nat (length digits - 1))
          by (apply Z.pow_pos_nonneg; lia).
        lia. }
      rewrite Hone. Z.div_mod_to_equations. lia.
    - pose proof (sizing_rule (Z.of_nat (S k)) ltac:(lia)) as Hrule.
      assert (Hm : 0 <= Z.of_nat (S k) * 138 / 100)
        by (apply Z.div_pos; lia).
      pose proof (normal_length_le 58 digits
                    (Z.to_nat (Z.of_nat (S k) * 138 / 100 + 1))
                    ltac:(lia) Hnd ltac:(lia)) as L.
      rewrite Z2Nat.id in L by lia.
      specialize (L ltac:(lia)).
      assert (Z.of_nat (length digits) <= Z.of_nat (S k) * 138 / 100 + 1)
        by lia.
      Z.div_mod_to_equations. lia. }
  destruct (Z.gtb_spec (Z.of_nat z + Z.of_nat (length digits) + 1)
              output_size) as [C | _]; [lia |].
  eexists. split; [reflexivity |].
  rewrite string_of_list_ascii_length, length_app, repeat_length,
    length_map, length_rev.
  lia.
Qed.

End Base58EncoderRoom.

(** ** Base58: the sizing rule of the decoder *)

Section Base58DecodeSize.

Import Base58 Spec.

Lemma decode_bytes_ones (buffer_size k : nat) :
  decode_bytes buffer_size [0] (repeat "1"%char k) = Some [0].
Proof.
  induction k as [| k IH]; [reflexivity |].
  cbn [repeat decode_bytes].
  assert (E : decode_char buffer_size [0] "1"%char = Some [0]).
  { unfold decode_char.
    change (decode_table_at "1"%char) with 0.
    change (0 <? 0) with false. cbv iota.
    change (decode_carry_pass [0] (u32 0)) with ([0], 0).
    cbv beta iota zeta.
    rewrite decode_extend_zero. reflexivity. }
  rewrite E. exact IH.
Qed.

Lemma count_leading_ones_repeat (k : nat) :
  count_leading_ones (repeat "1"%char k) = k.
Proof.
  induction k as [| k IH]; [reflexivity |].
  cbn [repeat count_leading_ones]. change (Ascii.eqb "1" "1") with true.
  rewrite IH. reflexivity.
Qed.

(** [base58_decode_size] is not enough.  A text of [k >= 1] characters
    1 decodes to [k + 1] zero bytes, so [base58_decode] refuses it in a
    buffer of [base58_decode_size (k)] bytes, which is at most [k], and
    needs [k + 1]. *)
Theorem decode_size_is_not_enough (k : nat) :
  (1 <= k)%nat ->
  let text := string_of_list_ascii (repeat "1"%char k) in
  base58_decode text (base58_decode_size (Z.of_nat (String.length text)))
  = None
  /\ base58_decode text (Z.of_nat k + 1) = Some (repeat 0 (k + 1)).
Proof.
  intros Hk text.
  assert (Hchars : list_ascii_of_string text = repeat "1"%char k)
    by apply list_ascii_of_string_of_list_ascii.
  assert (Hlen : String.length text = k).
  { unfold text. rewrite string_of_list_ascii_length. apply repeat_length. }
  unfold base58_decode, base58_decode_size.
  rewrite Hchars, Hlen, repeat_length, decode_bytes_ones,
    count_leading_ones_repeat.
  destruct (Nat.eqb_spec k 0) as [C | _]; [lia |].
  cbn [length rev app].
  split.
  - assert (Hsize : size_t (size_t (Z.of_nat k * 73) / 100 + 1)
                    <= Z.of_nat k * 73 / 100 + 1).
    { unfold size_t.
      pose proof (Z.mod_le (Z.of_nat k * 73) (2 ^ 32) ltac:(lia) ltac:(lia))
        as H1.
      pose proof (Z.mod_pos_bound (Z.of_nat k * 73) (2 ^ 32) ltac:(lia))
        as H2.
      etransitivity;
        [apply Z.mod_le; [Z.div_mod_to_equations; lia | lia] |].
      apply Z.add_le_mono_r. apply Z.div_le_mono; lia. }
    destruct (Z.gtb_spec (Z.of_nat k + Z.of_nat 1)
                (size_t (size_t (Z.of_nat k * 73) / 100 + 1)))
      as [_ | C]; [reflexivity |].
    exfalso. revert C Hsize. change (Z.of_nat 1) with 1.
    generalize (size_t (size_t (Z.of_nat k * 73) / 100 + 1)).
    intros v. Z.div_mod_to_equations. lia.
  - destruct (Z.gtb_spec (Z.of_nat k + Z.of_nat 1) (Z.of_nat k + 1))
      as [C | _]; [change (Z.of_nat 1) with 1 in C; lia |].
    f_equal. rewrite repeat_app. reflexivity.
Qed.

End Base58DecodeSize.

(** ** The properties above on worked inputs *)

Lemma compact_u16_round_trip_witness :
  Wire.decode_shortvec (SolanaTx.encode_compact_u16 300 ++ [7])
  = Some (300, [7])
  /\ SolanaTx.encode_compact_u16 300 = [172; 2].
Proof.
  split; [| reflexivity].
  exact (proj1 (compact_u16_round_trip 300 [7] ltac:(lia))).
Defined.

Lemma account_table_keeps_entries_witness :
  let (i, tx') :=
    SolanaTx.find_or_add_account Examples.new_tx Scenario.recipient_key
      false true in
  NoDup (TxSpec.stored_keys tx')
  /\ i = 1
  /\ map SolanaTx.pubkey (SolanaTx.accounts tx')
     = [Scenario.fee_payer_key; Scenario.recipient_key].
Proof.
  assert (Hnd : NoDup (TxSpec.stored_keys Examples.new_tx)).
  { repeat constructor. intros []. }
  pose proof (account_table_keeps_entries Examples.new_tx
                Scenario.recipient_key false true Hnd) as H.
  assert (E : SolanaTx.find_or_add_account Examples.new_tx
                Scenario.recipient_key false true
              = (1, SolanaTx.with_accounts Examples.new_tx
                      (SolanaTx.accounts Examples.new_tx
                         ++ [ {| SolanaTx.pubkey := Scenario.recipient_key;
                                 SolanaTx.is_signer := false;
                                 SolanaTx.is_writable := true |} ])))
    by (vm_compute; reflexivity).
  rewrite E in *.
  split; [exact (proj1 H) |]. split; reflexivity.
Defined.

(** The worked transfer is a built transaction. *)
Lemma sol_transfer_built : TxSpec.built Examples.sol_transfer.
Proof.
  apply TxSpec.built_transfer; [reflexivity | reflexivity |].
  apply (TxSpec.built_new Scenario.BLOCKHASH Scenario.fee_payer_key);
    [reflexivity | vm_compute; reflexivity].
Defined.

Lemma built_transaction_invariants_witness :
  (length (SolanaTx.accounts Examples.sol_transfer) <= SolanaTx.MAX_ACCOUNTS)%nat
  /\ NoDup (TxSpec.stored_keys Examples.sol_transfer)
  /\ forall max_len e,
       SolanaTx.solana_tx_get_message Examples.sol_transfer max_len = Err e ->
       e = ESP_ERR_NO_MEM.
Proof.
  pose proof (built_transaction_invariants Examples.sol_transfer
                sol_transfer_built) as (H1 & _ & H3 & _ & _ & H6).
  split; [exact H1 |]. split; [exact H3 | exact H6].
Defined.

Lemma message_needs_37_32n_17k_witness :
  exists message,
    SolanaTx.solana_tx_get_message Examples.sol_transfer 1024 = OK message
    /\ length message = 150%nat.
Proof.
  assert (Hfit : 37 + 32 * Z.of_nat (length (SolanaTx.accounts
                                              Examples.sol_transfer))
                 + 17 * Z.of_nat (length (SolanaTx.instructions
                                            Examples.sol_transfer))
                 <= 1024 < 2 ^ 32).
  { vm_compute. split; [intros C; discriminate C | reflexivity]. }
  destruct (message_needs_37_32n_17k Examples.sol_transfer 1024
              sol_transfer_built Hfit) as (message & Hm & Hlen & _).
  exists message. split; [exact Hm |].
  change (Z.of_nat (length (SolanaTx.accounts Examples.sol_transfer)))
    with 3 in Hlen.
  change (Z.of_nat (length (SolanaTx.instructions Examples.sol_transfer)))
    with 1 in Hlen.
  lia.
Defined.

Lemma undersized_buffers_are_overrun_witness :
  exists message,
    SolanaTx.solana_tx_get_message Examples.sol_transfer 3 = OK message
    /\ SolanaTx.solana_tx_serialize
         (SolanaTx.solana_tx_add_signature Examples.sol_transfer
            Examples.some_signature) 0
       = OK ([1] ++ Examples.some_signature ++ message)
    /\ 69 <= Z.of_nat (length message).
Proof.
  destruct (undersized_buffers_are_overrun Examples.sol_transfer
              Examples.some_signature sol_transfer_built eq_refl)
    as (message & H3 & H0 & Hlen & _).
  exists message. split; [exact H3 |]. split; [exact H0 | exact Hlen].
Defined.

Lemma signed_transfer_layout_witness :
  let (err, tx1) :=
    SolanaTx.solana_tx_add_transfer Examples.new_tx Scenario.fee_payer_key
      Scenario.recipient_key 5000 in
  err = ESP_OK
  /\ exists message,
       SolanaTx.solana_tx_get_message tx1 1024 = OK message
       /\ SolanaTx.solana_tx_serialize
            (SolanaTx.solana_tx_add_signature tx1 Examples.some_signature)
            2048
          = OK ([1] ++ Examples.some_signature ++ message).
Proof.
  assert (Hnew : SolanaTx.solana_tx_new Scenario.BLOCKHASH
                   Scenario.fee_payer_key = Some Examples.new_tx)
    by (vm_compute; reflexivity).
  assert (H1 : Scenario.recipient_key <> Scenario.fee_payer_key)
    by (intros C; discriminate C).
  assert (H2 : Scenario.recipient_key <> SolanaTx.SYSTEM_PROGRAM_ID)
    by (intros C; discriminate C).
  assert (H3 : Scenario.fee_payer_key <> SolanaTx.SYSTEM_PROGRAM_ID)
    by (intros C; discriminate C).
  pose proof (signed_transfer_layout Scenario.BLOCKHASH
                Scenario.fee_payer_key Scenario.recipient_key
                Examples.some_signature 5000 Examples.new_tx 1024 2048
                eq_refl eq_refl eq_refl H1 H2 H3 Hnew
                ltac:(lia) ltac:(lia)) as H.
  destruct (SolanaTx.solana_tx_add_transfer Examples.new_tx
              Scenario.fee_payer_key Scenario.recipient_key 5000)
    as [err tx1].
  destruct H as (Herr & message & Hm & Hs & _).
  split; [exact Herr |]. exists message. split; assumption.
Defined.

Lemma second_signer_gets_no_slot_witness :
  let (err, tx1) :=
    SolanaTx.solana_tx_add_transfer Examples.new_tx Scenario.mint_key
      Scenario.recipient_key 5000 in
  err = ESP_OK
  /\ exists bytes parsed,
       SolanaTx.solana_tx_serialize
         (SolanaTx.solana_tx_add_signature tx1 Examples.some_signature) 2048
       = OK bytes
       /\ Wire.parse_transaction bytes = Some parsed
       /\ length (Wire.signatures parsed) = 1%nat
       /\ Wire.num_required_signatures (Wire.header parsed) = 2.
Proof.
  assert (Hnew : SolanaTx.solana_tx_new Scenario.BLOCKHASH
                   Scenario.fee_payer_key = Some Examples.new_tx)
    by (vm_compute; reflexivity).
  assert (H1 : Scenario.mint_key <> Scenario.fee_payer_key)
    by (intros C; discriminate C).
  assert (H2 : Scenario.recipient_key <> Scenario.fee_payer_key)
    by (intros C; discriminate C).
  assert (H3 : Scenario.recipient_key <> Scenario.mint_key)
    by (intros C; discriminate C).
  assert (H4 : Scenario.fee_payer_key <> SolanaTx.SYSTEM_PROGRAM_ID)
    by (intros C; discriminate C).
  assert (H5 : Scenario.mint_key <> SolanaTx.SYSTEM_PROGRAM_ID)
    by (intros C; discriminate C).
  assert (H6 : Scenario.recipient_key <> SolanaTx.SYSTEM_PROGRAM_ID)
    by (intros C; discriminate C).
  pose proof (second_signer_gets_no_slot Scenario.BLOCKHASH
                Scenario.fee_payer_key Scenario.mint_key
                Scenario.recipient_key Examples.some_signature 5000
                Examples.new_tx 2048
                eq_refl eq_refl eq_refl eq_refl H1 H2 H3 H4 H5 H6 Hnew
                ltac:(lia)) as H.
  destruct (SolanaTx.solana_tx_add_transfer Examples.new_tx
              Scenario.mint_key Scenario.recipient_key 5000)
    as [err tx1].
  destruct H as (Herr & bytes & parsed & Hs & Hp & Hsig & Hreq & _).
  split; [exact Herr |]. exists bytes, parsed.
  split; [exact Hs |]. split; [exact Hp |].
  split; [rewrite Hsig; reflexivity | exact Hreq].
Defined.

Lemma transfer_transaction_needs_341_bytes_witness :
  (exists tx,
     @SplToken.spl_token_create_transfer_transaction (Scenario.externals [])
       Scenario.fee_payer_key Scenario.zero_key Scenario.recipient_key
       Scenario.mint_key SplToken.SPL_TOKEN_PROGRAM_ID 100
       Scenario.blockhash_key 341
     = OK tx
     /\ length tx = 341%nat)
  /\ @SplToken.spl_token_create_transfer_transaction (Scenario.externals [])
       Scenario.fee_payer_key Scenario.zero_key Scenario.recipient_key
       Scenario.mint_key SplToken.SPL_TOKEN_PROGRAM_ID 100
       Scenario.blockhash_key 340
     = Err ESP_ERR_NO_MEM.
Proof.
  assert (Hs : @SplToken.spl_token_get_associated_token_address_with_program
                 (Scenario.externals []) Scenario.zero_key Scenario.mint_key
                 SplToken.SPL_TOKEN_PROGRAM_ID
               = OK (Examples.ata_of Examples.sender_ata))
    by (vm_compute; reflexivity).
  assert (Hd : @SplToken.spl_token_get_associated_token_address_with_program
                 (Scenario.externals []) Scenario.recipient_key
                 Scenario.mint_key SplToken.SPL_TOKEN_PROGRAM_ID
               = OK (Examples.ata_of Examples.receiver_ata))
    by (vm_compute; reflexivity).
  split.
  - exact (proj1 (@transfer_transaction_needs_341_bytes
                    (Scenario.externals [])
                    Scenario.fee_payer_key Scenario.zero_key
                    Scenario.recipient_key Scenario.mint_key
                    SplToken.SPL_TOKEN_PROGRAM_ID 100 Scenario.blockhash_key
                    _ _ 341 eq_refl eq_refl eq_refl eq_refl Hs Hd)
             ltac:(lia)).
  - exact (proj2 (@transfer_transaction_needs_341_bytes
                    (Scenario.externals [])
                    Scenario.fee_payer_key Scenario.zero_key
                    Scenario.recipient_key Scenario.mint_key
                    SplToken.SPL_TOKEN_PROGRAM_ID 100 Scenario.blockhash_key
                    _ _ 340 eq_refl eq_refl eq_refl eq_refl Hs Hd)
             ltac:(lia)).
Defined.

Lemma retry_carries_payment_header_witness :
  Client.request_headers
    (Some (Client.retry_headers_of (Some "Accept: text/plain"%string)
             Scenario.the_header))
  = [("Accept"%string, "text/plain"%string);
     (X402_HEADER_PAYMENT, Scenario.the_header)].
Proof.
  assert (H : Encoding.x402_encode_payment_payload Scenario.the_payload 8192
              = OK Scenario.the_header)
    by (vm_compute; reflexivity).
  exact (retry_carries_payment_header Scenario.the_payload
           (Some "Accept: text/plain"%string) Scenario.the_header H
           ltac:(vm_compute; intros C; discriminate C)).
Defined.

Lemma settlement_header_round_trip_witness :
  Client.x402_extract_header (Client.response_headers Examples.receipt_reply)
    X402_HEADER_PAYMENT_RESPONSE 4096
  = Some "eyJzdWNjZXNzIjp0cnVlfQ=="%string.
Proof.
  refine (proj1 (proj2 (@settlement_header_round_trip (Scenario.externals [])
                          Examples.receipt_reply)
                   "e"%char "yJzdWNjZXNzIjp0cnVlfQ=="%string
                   eq_refl eq_refl eq_refl _ _)).
  - repeat (constructor; [split; reflexivity |]). constructor.
  - vm_compute. intros C. discriminate C.
Defined.

Lemma decode_gives_the_same_number_witness :
  Base58.base58_decode Scenario.BLOCKHASH 32 = Some Scenario.blockhash_key
  /\ Spec.be_from 256 0 Scenario.blockhash_key
     = Spec.be_from 58 0
         (map Base58.decode_table_at
            (list_ascii_of_string Scenario.BLOCKHASH)).
Proof.
  assert (H : Base58.base58_decode Scenario.BLOCKHASH 32
              = Some Scenario.blockhash_key)
    by (vm_compute; reflexivity).
  split; [exact H |].
  exact (proj2 (proj2 (proj2
           (decode_gives_the_same_number Scenario.BLOCKHASH 32
              Scenario.blockhash_key H)))).
Defined.

Lemma encode_gives_the_same_number_witness :
  Base58.base58_encode Scenario.recipient_key 64 = Some Scenario.RECIPIENT
  /\ Spec.be_from 58 0
       (map Base58.decode_table_at
          (list_ascii_of_string Scenario.RECIPIENT))
     = Spec.be_from 256 0 Scenario.recipient_key.
Proof.
  assert (Hbytes : Forall is_byte Scenario.recipient_key)
    by (repeat constructor; unfold is_byte; lia).
  assert (H : Base58.base58_encode Scenario.recipient_key 64
              = Some Scenario.RECIPIENT)
    by (vm_compute; reflexivity).
  split; [exact H |].
  exact (proj2 (proj2
           (encode_gives_the_same_number Scenario.recipient_key 64
              Scenario.RECIPIENT Hbytes H))).
Defined.

Lemma base64_encode_needs_room_witness :
  match Payment.x402_base64_encode [77; 97; 110] 5 with
  | OK text =>
      [77; 97; 110] <> [] /\ 5 <= 5
      /\ Z.of_nat (String.length text) = 5 - 1
      /\ Base64.decode (list_ascii_of_string text) = Some [77; 97; 110]
  | Err e =>
      ([77; 97; 110] = [] /\ e = ESP_FAIL)
      \/ ([77; 97; 110] <> [] /\ 5 < 5 /\ e = ESP_ERR_NO_MEM)
  end.
Proof.
  exact (base64_encode_needs_room [77; 97; 110] 5
           ltac:(repeat constructor; unfold is_byte; lia)).
Defined.

Lemma failed_transfer_still_marks_the_source_witness :
  let (err, tx') :=
    SolanaTx.solana_tx_add_transfer Examples.four_transfers
      (Examples.account_key 102) (Examples.account_key 200) 1 in
  err = ESP_ERR_NO_MEM
  /\ SolanaTx.instructions tx' = SolanaTx.instructions Examples.four_transfers
  /\ exists before entry after,
       SolanaTx.accounts Examples.four_transfers = before ++ entry :: after
       /\ SplToken.memcpy (SolanaTx.pubkey entry) 32
          = SplToken.memcpy (Examples.account_key 102) 32
       /\ SolanaTx.accounts tx'
          = before ++ {| SolanaTx.pubkey := SolanaTx.pubkey entry;
                         SolanaTx.is_signer := true;
                         SolanaTx.is_writable := true |} :: after.
Proof.
  apply (failed_transfer_still_marks_the_source Examples.four_transfers
           (Examples.account_key 102) (Examples.account_key 200) 1).
  - vm_compute. repeat constructor.
  - vm_compute. reflexivity.
  - vm_compute. right. right. left. reflexivity.
  - vm_compute. intros C.
    repeat (destruct C as [C | C]; [discriminate C |]). exact C.
Defined.

Lemma decode_accepts_alphabet_text_witness :
  exists output,
    Base58.base58_decode Scenario.BLOCKHASH 45 = Some output
    /\ (length output <= String.length Scenario.BLOCKHASH + 1)%nat.
Proof.
  apply (decode_accepts_alphabet_text Scenario.BLOCKHASH 45).
  - discriminate.
  - vm_compute.
    repeat (constructor;
            [repeat first [left; reflexivity | right] |]).
    constructor.
  - vm_compute. intros C. discriminate C.
Defined.

Lemma encode_size_is_enough_witness :
  exists text,
    Base58.base58_encode Scenario.recipient_key 46 = Some text
    /\ Z.of_nat (String.length text) + 1
       <= Base58.base58_encode_size
            (Z.of_nat (length Scenario.recipient_key)).
Proof.
  apply (encode_size_is_enough Scenario.recipient_key 46).
  - discriminate.
  - repeat constructor; unfold is_byte; lia.
  - vm_compute. reflexivity.
  - vm_compute. intros C. discriminate C.
Defined.

Lemma decode_size_is_not_enough_witness :
  Base58.base58_decode "1111" (Base58.base58_decode_size 4) = None
  /\ Base58.base58_decode "1111" 5 = Some [0; 0; 0; 0; 0].
Proof.
  exact (decode_size_is_not_enough 4 ltac:(repeat constructor)).
Defined.
